(** * SearchforCommerceScript: the conversion-and-enrichment pipeline

    A shallow embedding of [universal_converter.js] and of the constants it
    reads ([constants/embeddings.js], [constants/config.js],
    [constants/processing.js]), with the properties of the pipeline stated
    and proved over it.

    Conventions of the embedding.
    - A JavaScript string is a [string]: a sequence of code units below 256.
    - A JavaScript number is a binary64 [float]; [toFixed] and [parseFloat]
      are computed exactly from the float's mantissa and exponent.
    - A JavaScript value (the product records, which have no fixed schema) is
      a [value]; an object is an association list in enumeration order.
    - An exception is a [Throw] in the error monad [res].
    - Where the code only reads a record, the record is its value; where
      it matters what a call writes, arrays and objects are cells of a
      [store] and the call is given a reference
      ([addEmbeddingsToProduct_in_store]).
    - The [lastIndex] of the five shared global regular expressions of
      [TEXT_PATTERNS] is explicit state ([RegexState]).
    - What the JavaScript engine and the [natural] package provide and the
      repository does not define and the embedding does not compute
      ([Math.sin], the tokenizer, the stemmer, the stop words) is a
      [Variable] of the section that uses it. *)

From Stdlib Require Import ZArith String Ascii List Floats Bool Lia Sorted Permutation.
From stdpp Require Import gmap strings list.
Import ListNotations.

Set Warnings "-inexact-float,-register-all".

Local Open Scope string_scope.

(** ** Strings *)

Module JsString.

Definition code (c : ascii) : nat := nat_of_ascii c.

Definition in_range (lo hi : nat) (c : ascii) : bool :=
  Nat.leb lo (code c) && Nat.leb (code c) hi.

Definition is_digit (c : ascii) : bool := in_range 48 57 c.
Definition is_upper (c : ascii) : bool := in_range 65 90 c.
Definition is_lower (c : ascii) : bool := in_range 97 122 c.
Definition is_alpha (c : ascii) : bool := is_upper c || is_lower c.
Definition is_alnum (c : ascii) : bool := is_alpha c || is_digit c.

(** [\w] *)
Definition is_word (c : ascii) : bool := is_alnum c || Nat.eqb (code c) 95.

(** [\s]: the WhiteSpace and LineTerminator code units below 256
    (TAB, LF, VT, FF, CR, SP, NBSP). *)
Definition is_space (c : ascii) : bool :=
  in_range 9 13 c || Nat.eqb (code c) 32 || Nat.eqb (code c) 160.

(** [toLowerCase] on one code unit: A-Z and the Latin-1 capitals. *)
Definition lower_char (c : ascii) : ascii :=
  if is_upper c || in_range 192 214 c || in_range 216 222 c
  then ascii_of_nat (code c + 32) else c.

Fixpoint toLowerCase (s : string) : string :=
  match s with
  | EmptyString => EmptyString
  | String c t => String (lower_char c) (toLowerCase t)
  end.

(** [s.includes(sub)] *)
Fixpoint includes (s sub : string) : bool :=
  String.prefix sub s ||
  match s with
  | EmptyString => false
  | String _ t => includes t sub
  end.

Fixpoint drop_space (l : list ascii) : list ascii :=
  match l with
  | c :: t => if is_space c then drop_space t else l
  | [] => []
  end.

(** [s.trim()] *)
Definition trim (s : string) : string :=
  string_of_list_ascii
    (rev (drop_space (rev (drop_space (list_ascii_of_string s))))).

(** [s.substring(0, n)] *)
Definition substring0 (n : nat) (s : string) : string := String.substring 0 n s.

(** [l.join(sep)] *)
Definition join (sep : string) (l : list string) : string := String.concat sep l.

Definition is_empty (s : string) : bool :=
  match s with EmptyString => true | _ => false end.

(** Decimal digits of a natural number and of an integer ([String(n)]). *)
Fixpoint digits_fuel (fuel : nat) (n : N) (acc : string) : string :=
  match fuel with
  | O => acc
  | S f =>
      let d := String (ascii_of_N (48 + n mod 10)) acc in
      if (n <? 10)%N then d else digits_fuel f (n / 10)%N d
  end.

Definition N_to_string (n : N) : string :=
  digits_fuel (S (N.to_nat (N.log2 n))) n EmptyString.

Definition Z_to_string (z : Z) : string :=
  match z with
  | Z0 => "0"
  | Zpos p => N_to_string (Npos p)
  | Zneg p => "-" +:+ N_to_string (Npos p)
  end.

End JsString.
Import JsString.

(** ** Regular expressions

    The regular expressions of the source are backtracking matchers with the
    priorities of ECMAScript: alternatives left to right, [*] and [+]
    greedy.  [run r k c] matches [r] at cursor [c] and then continues with
    [k]; it returns the end index of the first match in priority order. *)

Module Regex.

Inductive regex : Type :=
| Eps
| Void
| Chr (p : ascii -> bool)
| Seq (a b : regex)
| Alt (a b : regex)
| Star (a : regex)
| WordB
| Bol
| Eol.

Record cursor := Cursor { prev : option ascii; rest : list ascii; pos : nat }.

Definition advance (a : ascii) (t : list ascii) (c : cursor) : cursor :=
  Cursor (Some a) t (S (pos c)).

(** [\b]: exactly one of the two neighbours is a word character. *)
Definition at_boundary (c : cursor) : bool :=
  xorb (match prev c with Some a => is_word a | None => false end)
       (match rest c with a :: _ => is_word a | [] => false end).

Fixpoint run (r : regex) (k : cursor -> option nat) (c : cursor) : option nat :=
  match r with
  | Eps => k c
  | Void => None
  | Chr p =>
      match rest c with
      | a :: t => if p a then k (advance a t c) else None
      | [] => None
      end
  | Seq a b => run a (run b k) c
  | Alt a b =>
      match run a k c with
      | Some e => Some e
      | None => run b k c
      end
  | Star a =>
      (fix loop (n : nat) (c : cursor) {struct n} : option nat :=
         match n with
         | O => k c
         | S n' =>
             match run a (fun c' => if Nat.ltb (pos c) (pos c') then loop n' c' else None) c with
             | Some e => Some e
             | None => k c
             end
         end) (S (List.length (rest c))) c
  | WordB => if at_boundary c then k c else None
  | Bol => if Nat.eqb (pos c) 0 then k c else None
  | Eol => match rest c with [] => k c | _ :: _ => None end
  end.

Definition match_here (r : regex) (c : cursor) : option nat :=
  run r (fun c' => Some (pos c')) c.

(** The leftmost match at or after the cursor: its start and end index. *)
Fixpoint search (r : regex) (p : option ascii) (l : list ascii) (i : nat)
  : option (nat * nat) :=
  match match_here r (Cursor p l i) with
  | Some e => Some (i, e)
  | None =>
      match l with
      | [] => None
      | a :: t => search r (Some a) t (S i)
      end
  end.

Fixpoint cursor_from (p : option ascii) (l : list ascii) (i : nat) (n : nat) : cursor :=
  match n, l with
  | S n', a :: t => cursor_from (Some a) t (S i) n'
  | _, _ => Cursor p l i
  end.

Definition exec_from (r : regex) (s : string) (i : nat) : option (nat * nat) :=
  let c := cursor_from None (list_ascii_of_string s) 0 i in
  search r (prev c) (rest c) (pos c).

(** [re.test(s)] for a regular expression without the [g] flag. *)
Definition test (r : regex) (s : string) : bool :=
  match exec_from r s 0 with Some _ => true | None => false end.

(** [re.test(s)] for a regular expression with the [g] flag, whose
    [lastIndex] is [li]: the search starts at [lastIndex]; a match moves
    [lastIndex] to its end, a failure resets it to 0. *)
Definition test_global (r : regex) (li : nat) (s : string) : bool * nat :=
  if Nat.ltb (String.length s) li then (false, 0)
  else match exec_from r s li with
       | Some (_, e) => (true, e)
       | None => (false, 0)
       end.

(** [s.replace(re, by)] for a regular expression with the [g] flag. *)
Fixpoint replace_loop (fuel : nat) (r : regex) (by_ : list ascii)
    (p : option ascii) (l : list ascii) (i : nat) : list ascii :=
  match fuel with
  | O => l
  | S fuel' =>
      match search r p l i with
      | None => l
      | Some (b, e) =>
          let before := firstn (b - i) l in
          let at_b := cursor_from p l i (b - i) in
          if Nat.ltb b e then
            let after := cursor_from (prev at_b) (rest at_b) b (e - b) in
            before ++ by_ ++ replace_loop fuel' r by_ (prev after) (rest after) e
          else
            match rest at_b with
            | [] => before ++ by_
            | a :: t => before ++ by_ ++ a :: replace_loop fuel' r by_ (Some a) t (S b)
            end
      end
  end.

Definition replace_all (r : regex) (by_ : string) (s : string) : string :=
  let l := list_ascii_of_string s in
  string_of_list_ascii
    (replace_loop (S (List.length l)) r (list_ascii_of_string by_) None l 0).

(** [s.match(re) || []] for a regular expression with the [g] flag: every
    match, left to right.  It leaves [lastIndex] at 0. *)
Fixpoint match_loop (fuel : nat) (r : regex)
    (p : option ascii) (l : list ascii) (i : nat) : list string :=
  match fuel with
  | O => []
  | S fuel' =>
      match search r p l i with
      | None => []
      | Some (b, e) =>
          let at_b := cursor_from p l i (b - i) in
          let found := string_of_list_ascii (firstn (e - b) (rest at_b)) in
          if Nat.ltb b e then
            let after := cursor_from (prev at_b) (rest at_b) b (e - b) in
            found :: match_loop fuel' r (prev after) (rest after) e
          else
            match rest at_b with
            | [] => [found]
            | a :: t => found :: match_loop fuel' r (Some a) t (S b)
            end
      end
  end.

Definition match_all (r : regex) (s : string) : list string :=
  let l := list_ascii_of_string s in
  match_loop (S (List.length l)) r None l 0.

(** Combinators for writing the patterns of the source. *)
Definition plus (r : regex) : regex := Seq r (Star r).
Definition opt (r : regex) : regex := Alt r Eps.

Fixpoint alts (l : list regex) : regex :=
  match l with
  | [] => Void
  | [r] => r
  | r :: t => Alt r (alts t)
  end.

Fixpoint seqs (l : list regex) : regex :=
  match l with
  | [] => Eps
  | [r] => r
  | r :: t => Seq r (seqs t)
  end.

Definition chr (a : ascii) : regex := Chr (Ascii.eqb a).
(** One literal character under the [i] flag. *)
Definition chr_i (a : ascii) : regex :=
  Chr (fun x => Ascii.eqb (lower_char x) (lower_char a)).

Fixpoint lit (s : string) : regex :=
  match s with
  | EmptyString => Eps
  | String a EmptyString => chr a
  | String a t => Seq (chr a) (lit t)
  end.

Fixpoint lit_i (s : string) : regex :=
  match s with
  | EmptyString => Eps
  | String a EmptyString => chr_i a
  | String a t => Seq (chr_i a) (lit_i t)
  end.

Definition words_i (l : list string) : regex := alts (List.map lit_i l).

Definition digit : regex := Chr is_digit.
Definition space : regex := Chr is_space.

End Regex.
Import Regex.

(** ** Numbers

    Binary64 arithmetic is the kernel's; what ECMAScript adds to it
    ([Number::toString], [toFixed], [parseFloat], [parseInt],
    StringToNumber) is computed exactly from mantissa and exponent. *)

Module JsNumber.
Local Open Scope Z_scope.

Definition is_nan (x : float) : bool := PrimFloat.is_nan x.

(** A number is truthy unless it is 0, -0 or NaN. *)
Definition truthy (x : float) : bool := negb (PrimFloat.eqb x 0) && negb (is_nan x).

(** [m * 2^e] as a double, exact for [0 <= m <= 2^53] in the double range. *)
Definition of_mant (m e : Z) : float :=
  Z.ldexp (PrimFloat.of_uint63 (Uint63.of_Z m)) e.

(** The double nearest to [n / d], ties to even ([0 <= n], [0 < d]). *)
Definition nearest (n d : Z) : float :=
  if n =? 0 then 0%float else
  let quot e := if 0 <=? e then (n, d * 2 ^ e) else (n * 2 ^ (- e), d) in
  let e0 := Z.max (Z.log2 n - Z.log2 d - 53) (-1074) in
  let e := if fst (quot e0) / snd (quot e0) <? 2 ^ 53 then e0 else e0 + 1 in
  let a := fst (quot e) in
  let b := snd (quot e) in
  let q := a / b in
  let r := a mod b in
  of_mant (if (b <? 2 * r) || ((b =? 2 * r) && Z.odd q) then q + 1 else q) e.

Definition of_Z (z : Z) : float :=
  if z <? 0 then (- nearest (- z) 1)%float else nearest z 1.

Definition of_nat (n : nat) : float := of_Z (Z.of_nat n).

(** A finite double as sign, numerator and denominator of its magnitude. *)
Definition to_ratio (x : float) : option (bool * Z * Z) :=
  match Prim2SF x with
  | S754_zero s => Some (s, 0, 1)
  | S754_finite s m e =>
      Some (s, if 0 <=? e then Zpos m * 2 ^ e else Zpos m,
               if 0 <=? e then 1 else 2 ^ (- e))
  | S754_infinity _ | S754_nan => None
  end.

Fixpoint zeros (n : nat) : string :=
  match n with O => EmptyString | S n' => String "0" (zeros n') end.

(** [x * 10^p] for the fraction [x = num / den]. *)
Definition scaled (num den p : Z) : Z * Z :=
  if 0 <=? p then (num * 10 ^ p, den) else (num, den * 10 ^ (- p)).

(** The [n] with [10^(n-1) <= num / den < 10^n]. *)
Fixpoint small_exp (fuel : nat) (num den j : Z) : Z :=
  match fuel with
  | O => 1 - j
  | S f => if den <=? num * 10 ^ j then 1 - j else small_exp f num den (j + 1)
  end.

Definition dec_exp (num den : Z) : Z :=
  if den <=? num then Z.of_nat (String.length (Z_to_string (num / den)))
  else small_exp 400 num den 1.

Definition roundtrips (x : float) (s p : Z) : bool :=
  PrimFloat.eqb (nearest (fst (scaled s 1 p)) (snd (scaled s 1 p))) x.

(** The shortest digit string [s] of [k] digits with [s * 10^(n-k)]
    reading back as [x]; among two, the one closer to [x]. *)
Fixpoint shortest (fuel : nat) (x : float) (num den n k : Z) : Z * Z :=
  match fuel with
  | O => (0, k)
  | S f =>
      let ab := scaled num den (k - n) in
      let lo := fst ab / snd ab in
      let r := fst ab mod snd ab in
      let hi := lo + 1 in
      let oklo := roundtrips x lo (n - k) in
      let okhi := roundtrips x hi (n - k) in
      if oklo && okhi then
        (if 2 * r <? snd ab then lo
         else if snd ab <? 2 * r then hi
         else if Z.even lo then lo else hi, k)
      else if oklo then (lo, k)
      else if okhi then (hi, k)
      else shortest f x num den n (k + 1)
  end.

Definition format_decimal (s k n : Z) : string :=
  let ds := Z_to_string s in
  if (k <=? n) && (n <=? 21) then ds +:+ zeros (Z.to_nat (n - k))
  else if (0 <? n) && (n <=? 21) then
    String.substring 0 (Z.to_nat n) ds +:+ "." +:+
    String.substring (Z.to_nat n) (Z.to_nat (k - n)) ds
  else if (-6 <? n) && (n <=? 0) then "0." +:+ zeros (Z.to_nat (- n)) +:+ ds
  else
    let e := n - 1 in
    let es := (if 0 <=? e then "+" else "-") +:+ Z_to_string (Z.abs e) in
    if k =? 1 then ds +:+ "e" +:+ es
    else String.substring 0 1 ds +:+ "." +:+
         String.substring 1 (Z.to_nat (k - 1)) ds +:+ "e" +:+ es.

(** [String(x)] for a number [x] (Number::toString, radix 10). *)
Definition Number_toString (x : float) : string :=
  match Prim2SF x with
  | S754_nan => "NaN"
  | S754_infinity s => if s then "-Infinity" else "Infinity"
  | S754_zero _ => "0"
  | S754_finite sg m e =>
      let num := if 0 <=? e then Zpos m * 2 ^ e else Zpos m in
      let den := if 0 <=? e then 1 else 2 ^ (- e) in
      let n := dec_exp num den in
      let sk := shortest 17 (PrimFloat.abs x) num den n 1 in
      let s := fst sk in
      let k := snd sk in
      (if sg then "-" else "") +:+
      (if s =? 10 ^ k then format_decimal (10 ^ (k - 1)) k (n + 1)
       else format_decimal s k n)
  end.

Definition fixed_digits (n : Z) (f : nat) : string :=
  let s0 := Z_to_string n in
  let s := zeros (S f - String.length s0) +:+ s0 in
  let k := (String.length s - f)%nat in
  if Nat.eqb f 0 then s
  else String.substring 0 k s +:+ "." +:+ String.substring k f s.

(** [x.toFixed(f)]: the integer [n] with [n / 10^f] closest to [x], the
    larger one of two. *)
Definition toFixed (f : nat) (x : float) : string :=
  match to_ratio x with
  | None => Number_toString x
  | Some (s, n, d) =>
      if 10 ^ 21 * d <=? n then Number_toString x
      else
        (if s && (0 <? n) then "-" else "") +:+
        fixed_digits ((2 * n * 10 ^ Z.of_nat f + d) / (2 * d)) f
  end.

(** Reading numbers. *)
Definition digit_val (radix : Z) (c : ascii) : option Z :=
  let v :=
    if is_digit c then Z.of_nat (code c) - 48
    else if is_lower c then Z.of_nat (code c) - 87
    else if is_upper c then Z.of_nat (code c) - 55
    else radix in
  if v <? radix then Some v else None.

(** The longest prefix of digits: its value on top of [acc], the number
    of digits, and what follows. *)
Fixpoint take_digits (radix : Z) (l : list ascii) (acc cnt : Z) : Z * Z * list ascii :=
  match l with
  | c :: t =>
      match digit_val radix c with
      | Some v => take_digits radix t (acc * radix + v) (cnt + 1)
      | None => (acc, cnt, l)
      end
  | [] => (acc, cnt, [])
  end.

Definition take_sign (l : list ascii) : bool * list ascii :=
  match l with
  | c :: t =>
      if Ascii.eqb c "-" then (true, t)
      else if Ascii.eqb c "+" then (false, t)
      else (false, l)
  | [] => (false, [])
  end.

Fixpoint starts_with (p : list ascii) (l : list ascii) : option (list ascii) :=
  match p, l with
  | [], _ => Some l
  | a :: p', b :: l' => if Ascii.eqb a b then starts_with p' l' else None
  | _ :: _, [] => None
  end.

Definition signed (neg : bool) (x : float) : float := if neg then (- x)%float else x.

(** An unsigned StrDecimalLiteral at the head of [l]: its value and the
    rest, or [None] when [l] does not start with one. *)
Definition unsigned_decimal (l : list ascii) : option (float * list ascii) :=
  match starts_with (list_ascii_of_string "Infinity") l with
  | Some t => Some (infinity, t)
  | None =>
      let '(ip, ni, l1) := take_digits 10 l 0 0 in
      let '(fp, nf, l2) :=
        match l1 with
        | c :: t => if Ascii.eqb c "." then take_digits 10 t ip 0 else (ip, 0, l1)
        | [] => (ip, 0, l1)
        end in
      if ni + nf =? 0 then None
      else
        let '(ex, l3) :=
          match l2 with
          | c :: t =>
              if Ascii.eqb c "e" || Ascii.eqb c "E" then
                let '(eneg, t') := take_sign t in
                let '(ev, ne, t'') := take_digits 10 t' 0 0 in
                if ne =? 0 then (0, l2) else (if eneg then - ev else ev, t'')
              else (0, l2)
          | [] => (0, l2)
          end in
        let p := ex - nf in
        Some (nearest (fst (scaled fp 1 p)) (snd (scaled fp 1 p)), l3)
  end.

(** [parseFloat(s)]: the longest decimal literal after leading white space. *)
Definition parseFloat (s : string) : float :=
  let '(neg, l) := take_sign (drop_space (list_ascii_of_string s)) in
  match unsigned_decimal l with
  | Some (v, _) => signed neg v
  | None => nan
  end.

(** [parseInt(s)] without a radix: [None] is NaN. *)
Definition parseInt (s : string) : option Z :=
  let '(neg, l) := take_sign (drop_space (list_ascii_of_string s)) in
  let '(radix, l') :=
    match l with
    | a :: b :: t =>
        if Ascii.eqb a "0" && (Ascii.eqb b "x" || Ascii.eqb b "X") then (16, t) else (10, l)
    | _ => (10, l)
    end in
  let '(v, n, _) := take_digits radix l' 0 0 in
  if n =? 0 then None else Some (if neg then - v else v).

(** StringToNumber: the whole trimmed string must be a numeric literal;
    the empty string is 0. *)
Definition StringToNumber (s : string) : float :=
  let l := list_ascii_of_string (trim s) in
  let prefixed (radix : Z) (t : list ascii) : float :=
    match take_digits radix t 0 0 with
    | (v, n, []) => if n =? 0 then nan else nearest v 1
    | _ => nan
    end in
  match l with
  | [] => 0%float
  | a :: b :: t =>
      if Ascii.eqb a "0" && (Ascii.eqb b "x" || Ascii.eqb b "X") then prefixed 16 t
      else if Ascii.eqb a "0" && (Ascii.eqb b "o" || Ascii.eqb b "O") then prefixed 8 t
      else if Ascii.eqb a "0" && (Ascii.eqb b "b" || Ascii.eqb b "B") then prefixed 2 t
      else
        let '(neg, l') := take_sign l in
        match unsigned_decimal l' with
        | Some (v, []) => signed neg v
        | _ => nan
        end
  | _ =>
      let '(neg, l') := take_sign l in
      match unsigned_decimal l' with
      | Some (v, []) => signed neg v
      | _ => nan
      end
  end.

End JsNumber.
Import JsNumber.

(** ** Exceptions *)

Inductive res (A : Type) : Type :=
| Ok (a : A)
| Throw (e : string).
Arguments Ok {A} a.
Arguments Throw {A} e.

#[global] Instance res_ret : MRet res := fun A a => Ok a.
#[global] Instance res_bind : MBind res :=
  fun A B k c => match c with Ok a => k a | Throw e => Throw e end.

Definition TypeError : string := "TypeError".
Definition SyntaxError : string := "SyntaxError".

(** ** Values *)

Module JsValue.

Inductive value : Type :=
| VUndef
| VNull
| VBool (b : bool)
| VNum (x : float)
| VStr (s : string)
| VArr (l : list value)
| VObj (o : list (string * value)).

Fixpoint assoc {A : Type} (k : string) (o : list (string * A)) : option A :=
  match o with
  | [] => None
  | (k', v) :: t => if String.eqb k k' then Some v else assoc k t
  end.

Definition truthy (v : value) : bool :=
  match v with
  | VUndef | VNull => false
  | VBool b => b
  | VNum x => JsNumber.truthy x
  | VStr s => negb (is_empty s)
  | VArr _ | VObj _ => true
  end.

(** [a || b] *)
Definition or_else (a b : value) : value := if truthy a then a else b.

Definition is_array (v : value) : bool :=
  match v with VArr _ => true | _ => false end.

Definition is_string (v : value) : bool :=
  match v with VStr _ => true | _ => false end.

Definition is_number (v : value) : bool :=
  match v with VNum _ => true | _ => false end.

Definition is_undefined (v : value) : bool :=
  match v with VUndef => true | _ => false end.

(** [String(v)] *)
Fixpoint ToString (v : value) : string :=
  match v with
  | VUndef => "undefined"
  | VNull => "null"
  | VBool b => if b then "true" else "false"
  | VNum x => Number_toString x
  | VStr s => s
  | VArr l =>
      join ","
        (List.map (fun e => match e with
                            | VUndef | VNull => EmptyString
                            | _ => ToString e
                            end) l)
  | VObj _ => "[object Object]"
  end.

(** [Number(v)] *)
Definition ToNumber (v : value) : float :=
  match v with
  | VUndef => nan
  | VNull => 0%float
  | VBool b => if b then 1%float else 0%float
  | VNum x => x
  | VStr s => StringToNumber s
  | VArr _ | VObj _ => StringToNumber (ToString v)
  end.

Definition isNaN (v : value) : bool := is_nan (ToNumber v).
Definition parseFloat (v : value) : float := JsNumber.parseFloat (ToString v).
Definition parseInt (v : value) : option Z := JsNumber.parseInt (ToString v).

(** The property names every plain object inherits from
    [Object.prototype]. *)
Definition object_prototype_keys : list string :=
  ["constructor"; "__defineGetter__"; "__defineSetter__"; "hasOwnProperty";
   "__lookupGetter__"; "__lookupSetter__"; "isPrototypeOf";
   "propertyIsEnumerable"; "toString"; "valueOf"; "__proto__";
   "toLocaleString"].

Definition inherited (k : string) : bool :=
  existsb (String.eqb k) object_prototype_keys.

(** [v.k] for a [v] that is neither [undefined] nor [null], for the
    property names the converter reads: an own property, or the length of
    a string or an array. *)
Definition prop (v : value) (k : string) : value :=
  match v with
  | VObj o => match assoc k o with Some x => x | None => VUndef end
  | VArr l => if String.eqb k "length" then VNum (of_nat (List.length l)) else VUndef
  | VStr s => if String.eqb k "length" then VNum (of_nat (String.length s)) else VUndef
  | _ => VUndef
  end.

(** [v.k]: reading a property of [undefined] or [null] throws. *)
Definition get (v : value) (k : string) : res value :=
  match v with
  | VUndef | VNull => Throw TypeError
  | _ => Ok (prop v k)
  end.

(** [o.k = x] on an object whose keys are not array indices: an existing
    key keeps its place, a new key goes last. *)
Fixpoint set {A : Type} (k : string) (x : A) (o : list (string * A)) : list (string * A) :=
  match o with
  | [] => [(k, x)]
  | (k', y) :: t => if String.eqb k k' then (k, x) :: t else (k', y) :: set k x t
  end.

(** [Object.keys(v)] / [Object.entries(v)] *)
Fixpoint indexed (i : nat) (l : list value) : list (string * value) :=
  match l with
  | [] => []
  | x :: t => (N_to_string (N.of_nat i), x) :: indexed (S i) t
  end.

Definition entries (v : value) : list (string * value) :=
  match v with
  | VObj o => o
  | VArr l => indexed 0 l
  | VStr s => indexed 0 (List.map (fun c => VStr (String c EmptyString)) (list_ascii_of_string s))
  | _ => []
  end.

Definition is_finite (x : float) : bool :=
  negb (is_nan x) && negb (PrimFloat.is_infinity x).

(** What [JSON.stringify] then [JSON.parse] make of a value: [None] when
    the value is left out ([undefined]).  A number that is not finite
    becomes [null], and -0 becomes 0. *)
Fixpoint json_value (v : value) : option value :=
  match v with
  | VUndef => None
  | VNull => Some VNull
  | VBool b => Some (VBool b)
  | VNum x => Some (if is_finite x then VNum (if PrimFloat.is_zero x then 0%float else x) else VNull)
  | VStr s => Some (VStr s)
  | VArr l =>
      Some (VArr (List.map (fun e => match json_value e with
                                     | Some e' => e'
                                     | None => VNull
                                     end) l))
  | VObj o =>
      Some (VObj ((fix fields (o : list (string * value)) : list (string * value) :=
                     match o with
                     | [] => []
                     | (k, x) :: t =>
                         match json_value x with
                         | Some x' => (k, x') :: fields t
                         | None => fields t
                         end
                     end) o))
  end.

(** [JSON.parse(JSON.stringify(v))] *)
Definition json_clone (v : value) : res value :=
  match json_value v with
  | Some v' => Ok v'
  | None => Throw SyntaxError
  end.

End JsValue.
Import JsValue.

(** ** Configuration

    [constants/embeddings.js], [constants/processing.js] (its text is in
    [constants/README.md]) and the object [CONFIG] that
    [constants/config.js] builds from them: what the converter reads. *)

Module CONFIG.

Module EMBEDDINGS.
Definition DENSE_DIM : nat := 384.
Definition MAX_SPARSE_FEATURES : nat := 100.
Definition ENABLE_DENSE : bool := true.
Definition ENABLE_SPARSE : bool := true.
Definition ENABLE_HYBRID : bool := true.
Definition KEYWORD_BOOST : list (string * float) :=
  [("title", 3.0); ("brand", 2.5); ("category", 2.0);
   ("description", 1.5); ("features", 1.2)]%float.
Definition STEMMING_ENABLED : bool := true.
Definition SYNONYM_EXPANSION : bool := true.
End EMBEDDINGS.

Module LIMITS.
Definition MAX_DESCRIPTION_LENGTH : nat := 2000.
Definition MAX_CATEGORIES : nat := 10.
Definition MAX_TITLE_LENGTH : nat := 500.
End LIMITS.

Module PROCESSING.
Definition BATCH_SIZE : N := 1000.
Definition ENABLE_STREAMING : bool := false.
Definition SHARD_OUTPUT : bool := true.
Definition MAX_LINES_PER_SHARD : N := 1000000.
Definition RETRY_ATTEMPTS : nat := 3.
Definition CHECKPOINT_ENABLED : bool := true.
Definition CHECKPOINT_INTERVAL : N := 10000.
End PROCESSING.

(** The object [CONFIG] itself, for the property reads that go through
    it by name.  Its keys are those of [constants/config.js]; the groups
    the converter reads through the definitions above are left empty
    here. *)
Definition object : value :=
  VObj [("INPUT_DIRECTORY", VStr "./Data");
        ("OUTPUT_DIRECTORY", VStr "./output");
        ("FILE_PATTERNS", VObj []);
        ("EMBEDDINGS", VObj []);
        ("LIMITS", VObj [("MAX_DESCRIPTION_LENGTH", VNum 2000);
                         ("MAX_CATEGORIES", VNum 10);
                         ("MAX_TITLE_LENGTH", VNum 500)]);
        ("PROCESSING", VObj []);
        ("LOGGING", VObj []);
        ("OPTIMIZATION", VObj [])].

(** [CONFIG.COMMERCE.CURRENCY_CODE] *)
Definition COMMERCE_CURRENCY_CODE : res value :=
  c ← get object "COMMERCE"; get c "CURRENCY_CODE".

End CONFIG.

(** [TEXT_PATTERNS] of [constants/embeddings.js].  All five carry the [g]
    flag. *)
Module TEXT_PATTERNS.

(** [/\b(small|medium|large|xl|xxl|\d+\s*(oz|ml|g|kg|lb|lbs|mg|mcg))\b/gi] *)
Definition SIZES : regex :=
  seqs [WordB;
        alts [lit_i "small"; lit_i "medium"; lit_i "large"; lit_i "xl"; lit_i "xxl";
              seqs [plus digit; Star space;
                    words_i ["oz"; "ml"; "g"; "kg"; "lb"; "lbs"; "mg"; "mcg"]]];
        WordB].

(** [/\b(red|blue|green|yellow|black|white|brown|pink|purple|orange|gray|grey)\b/gi] *)
Definition COLORS : regex :=
  seqs [WordB;
        words_i ["red"; "blue"; "green"; "yellow"; "black"; "white"; "brown";
                 "pink"; "purple"; "orange"; "gray"; "grey"];
        WordB].

(** [/\b[A-Z][a-z]+(?:\s+[A-Z][a-z]+)*\b/g] *)
Definition BRANDS : regex :=
  seqs [WordB; Chr is_upper; plus (Chr is_lower);
        Star (seqs [plus space; Chr is_upper; plus (Chr is_lower)]);
        WordB].

(** [/\b\d+(?:\.\d+)?\b/g] *)
Definition NUMBERS : regex :=
  seqs [WordB; plus digit; opt (Seq (chr ".") (plus digit)); WordB].

(** [/\b(organic|natural|premium|professional|clinical|pharmaceutical|supplement|vitamin|protein|creatine|amino|bcaa)\b/gi] *)
Definition COMMERCE_TERMS : regex :=
  seqs [WordB;
        words_i ["organic"; "natural"; "premium"; "professional"; "clinical";
                 "pharmaceutical"; "supplement"; "vitamin"; "protein";
                 "creatine"; "amino"; "bcaa"];
        WordB].

End TEXT_PATTERNS.

Definition SYNONYMS : list (string * list string) :=
  [("supplement", ["vitamin"; "nutrient"; "pill"; "capsule"; "tablet"]);
   ("protein", ["whey"; "casein"; "isolate"; "concentrate"]);
   ("muscle", ["strength"; "power"; "building"; "growth"]);
   ("weight", ["mass"; "bulk"; "size"; "gain"; "loss"]);
   ("energy", ["boost"; "power"; "stamina"; "endurance"]);
   ("health", ["wellness"; "fitness"; "nutrition"; "healthy"])].

Module PATTERN_BOOSTS.
Definition COMMERCE_TERMS : float := 1.5.
Definition SIZES : float := 1.3.
Definition COLORS : float := 1.2.
Definition NUMBERS : float := 1.1.
Definition BRANDS : float := 1.4.
End PATTERN_BOOSTS.

(** The [lastIndex] of each of the five regular expression objects.  They
    are created once, when [constants/embeddings.js] is loaded, and every
    [TextProcessor] holds the same five objects. *)
Record RegexState : Type := mkRegexState {
  li_commerceTerms : nat;
  li_sizes : nat;
  li_colors : nat;
  li_numbers : nat;
  li_brands : nat
}.

Definition fresh : RegexState := mkRegexState 0 0 0 0 0.

(** ** Plain objects with number values

    [termFreq], [expansions] and the boost tables are objects created by
    literals: a read finds an own property, a property inherited from
    [Object.prototype] (a function, or the prototype itself), or nothing. *)

Inductive slot : Type :=
| Own (x : float)
| Inherited
| Missing.

Definition read (o : list (string * float)) (k : string) : slot :=
  match assoc k o with
  | Some x => Own x
  | None => if inherited k then Inherited else Missing
  end.

(** An array index: the canonical decimal of an integer below [2^32 - 1]. *)
Definition array_index (k : string) : option N :=
  match k with
  | EmptyString => None
  | String c t =>
      if forallb is_digit (list_ascii_of_string k)
         && (negb (Ascii.eqb c "0") || is_empty t)
      then
        match JsNumber.parseInt k with
        | Some z => if (z <? 4294967295)%Z then Some (Z.to_N z) else None
        | None => None
        end
      else None
  end.

Fixpoint insert_index {A : Type} (n : N) (e : string * A) (l : list (N * (string * A)))
  : list (N * (string * A)) :=
  match l with
  | [] => [(n, e)]
  | (m, e') :: t => if (n <? m)%N then (n, e) :: l else (m, e') :: insert_index n e t
  end.

(** [Object.entries(o)]: array indices in ascending order, then the other
    keys in the order they were created. *)
Definition enumerate {A : Type} (o : list (string * A)) : list (string * A) :=
  List.map snd
    (fold_left (fun acc e => match array_index (fst e) with
                             | Some n => insert_index n e acc
                             | None => acc
                             end) o [])
  ++ List.filter (fun e => match array_index (fst e) with
                           | Some _ => false
                           | None => true
                           end) o.

(** [Array.prototype.sort] with a comparator: a stable sort.  [later a b]
    says that the comparator is positive on [(a, b)], so that [b] goes
    before [a]. *)
Section Sort.
Context {A : Type} (later : A -> A -> bool).

Fixpoint insert_sorted (x : A) (l : list A) : list A :=
  match l with
  | [] => [x]
  | y :: t => if later x y then y :: insert_sorted x t else x :: l
  end.

Definition js_sort (l : list A) : list A := fold_right insert_sorted [] l.

(** [later] is asymmetric on [l] and its complement is transitive: what
    ECMAScript asks of a comparator for the order of the result to be
    defined. *)
Definition ordered_by (l : list A) : Prop :=
  (forall x y, In x l -> In y l -> later x y = true -> later y x = false)
  /\ (forall x y z, In x l -> In y l -> In z l ->
                   later x y = false -> later y z = false -> later x z = false).
End Sort.

(** The comparator [([,a], [,b]) => b - a]. *)
Definition by_weight_desc (x y : string * float) : bool :=
  PrimFloat.ltb 0 (snd y - snd x).

(** ** TextProcessor *)

Record keyword : Type := mkKeyword {
  term : string;
  weight : float;
  rawFreq : float
}.

Section TextProcessor.

(** The [natural] package: [WordTokenizer.tokenize],
    [PorterStemmer.stem] and membership in [stopwords]. *)
Variable tokenize : string -> list string.
Variable stem : string -> string.
Variable stopword : string -> bool.

Definition one_of (cs : string) (c : ascii) : bool :=
  existsb (Ascii.eqb c) (list_ascii_of_string cs).

(** [cleanText(text)] *)
Definition cleanText (text : value) : string :=
  match text with
  | VStr s =>
      (* /<[^>]*>/g *)
      let s := replace_all
                 (seqs [chr "<"; Star (Chr (fun c => negb (Ascii.eqb c ">"))); chr ">"])
                 " " s in
      (* /&[a-zA-Z0-9#]+;/g *)
      let s := replace_all
                 (seqs [chr "&"; plus (Chr (fun c => is_alnum c || Ascii.eqb c "#")); chr ";"])
                 " " s in
      (* /[^\w\s\-\.\(\)\[\]\/]/g *)
      let s := replace_all
                 (Chr (fun c => negb (is_word c || is_space c || one_of "-.()[]/" c)))
                 " " s in
      (* /\s+/g *)
      trim (replace_all (plus space) " " s)
  | _ => EmptyString
  end.

(** [getContextBoosts(context)]: the spread of [KEYWORD_BOOST] with the
    entry of the context written over it. *)
Definition getContextBoosts (context : string) : list (string * float) :=
  let boosts := CONFIG.EMBEDDINGS.KEYWORD_BOOST in
  if String.eqb context "title" then set "title" 3.0%float boosts
  else if String.eqb context "description" then set "description" 1.5%float boosts
  else if String.eqb context "category" then set "category" 2.0%float boosts
  else if String.eqb context "brand" then set "brand" 2.5%float boosts
  else boosts.

(** [getPatternBoost(token)]: five [test] calls on the shared global
    regular expressions, each reading and writing its [lastIndex]. *)
Definition getPatternBoost (token : string) (st : RegexState) : float * RegexState :=
  let boost := 1.0%float in
  let t1 := test_global TEXT_PATTERNS.COMMERCE_TERMS (li_commerceTerms st) token in
  let boost := if fst t1 then (boost * PATTERN_BOOSTS.COMMERCE_TERMS)%float else boost in
  let t2 := test_global TEXT_PATTERNS.SIZES (li_sizes st) token in
  let boost := if fst t2 then (boost * PATTERN_BOOSTS.SIZES)%float else boost in
  let t3 := test_global TEXT_PATTERNS.COLORS (li_colors st) token in
  let boost := if fst t3 then (boost * PATTERN_BOOSTS.COLORS)%float else boost in
  let t4 := test_global TEXT_PATTERNS.NUMBERS (li_numbers st) token in
  let boost := if fst t4 then (boost * PATTERN_BOOSTS.NUMBERS)%float else boost in
  let t5 := test_global TEXT_PATTERNS.BRANDS (li_brands st) token in
  let boost := if fst t5 then (boost * PATTERN_BOOSTS.BRANDS)%float else boost in
  (boost, mkRegexState (snd t1) (snd t2) (snd t3) (snd t4) (snd t5)).

(** The filter of [extractKeywords]. *)
Definition keep_token (token : string) : bool :=
  if Nat.ltb (String.length token) 2 || stopword token then false
  else
    match token with
    | EmptyString => false
    | String c _ =>
        (* /^[a-zA-Z0-9]/ *)
        if negb (is_alnum c) then false
        (* /^\d+$/ *)
        else if forallb is_digit (list_ascii_of_string token)
                && match JsNumber.parseInt token with
                   | Some n => (0 <? n)%Z && (n <? 10000)%Z
                   | None => false
                   end
        then true
        (* /^[a-zA-Z]/ *)
        else is_alpha c
    end.

(** [a || b] where [a] is a read of a boost table: a property inherited
    from [Object.prototype] is truthy and multiplies to NaN. *)
Definition boost_or (a : slot) (b : float) : float :=
  match a with
  | Own x => if JsNumber.truthy x then x else b
  | Inherited => nan
  | Missing => b
  end.

(** The state of the loop over the filtered tokens: [termFreq], whether
    [termFreq] has been given an own property that is not a number (the
    sum of an inherited function and a number is a string), and the
    regular expressions. *)
Record freq_state : Type := mkFreq {
  termFreq : list (string * float);
  not_a_number : bool;
  regexes : RegexState
}.

Definition count_token (contextBoosts : list (string * float))
    (acc : freq_state) (token : string) : freq_state :=
  let stemmed := if CONFIG.EMBEDDINGS.STEMMING_ENABLED then stem token else token in
  let baseWeight := 1%float in
  let boost := boost_or (read contextBoosts token)
                 (boost_or (read contextBoosts stemmed) 1%float) in
  let pb := getPatternBoost token (regexes acc) in
  let boost := (boost * fst pb)%float in
  match read (termFreq acc) stemmed with
  | Own x =>
      mkFreq (set stemmed ((if JsNumber.truthy x then x else 0) + baseWeight * boost)%float
                (termFreq acc))
             (not_a_number acc) (snd pb)
  | Missing =>
      mkFreq (set stemmed (0 + baseWeight * boost)%float (termFreq acc))
             (not_a_number acc) (snd pb)
  | Inherited =>
      (* an assignment to [__proto__] of a value that is not an object
         does nothing *)
      mkFreq (termFreq acc)
             (not_a_number acc || negb (String.eqb stemmed "__proto__")) (snd pb)
  end.

(** [expandSynonyms(termFreq, originalTokens)] *)
Definition add_synonym (termFreq : list (string * float)) (freq : float)
    (expansions : list (string * float)) (synonym : string) : list (string * float) :=
  let stemmedSynonym := if CONFIG.EMBEDDINGS.STEMMING_ENABLED then stem synonym else synonym in
  let absent := match read termFreq stemmedSynonym with
                | Own x => negb (JsNumber.truthy x)
                | Inherited => false
                | Missing => true
                end in
  if absent && negb (String.eqb stemmedSynonym "__proto__")
  then set stemmedSynonym (freq * 0.5)%float expansions
  else expansions.

Definition expandSynonyms (termFreq : list (string * float)) : list (string * float) :=
  let expansions :=
    fold_left (fun expansions e =>
                 match assoc (fst e) SYNONYMS with
                 | Some synonyms => fold_left (add_synonym termFreq (snd e)) synonyms expansions
                 | None => expansions
                 end) (enumerate termFreq) [] in
  (* Object.assign(termFreq, expansions) *)
  fold_left (fun tf e => set (fst e) (snd e) tf) (enumerate expansions) termFreq.

(** [extractKeywords(text, maxFeatures, context)].  It throws when a
    stem is the name of a function of [Object.prototype]:
    [this.synonyms[term]] is then that function, which has no
    [forEach]. *)
Definition extractKeywords (text : string) (maxFeatures : nat) (context : string)
    (st : RegexState) : res (list keyword) * RegexState :=
  let cleanedText := cleanText (VStr (toLowerCase text)) in
  let tokens := tokenize cleanedText in
  match tokens with
  | [] => (Ok [], st)
  | _ :: _ =>
      let filteredTokens := List.filter keep_token tokens in
      let contextBoosts := getContextBoosts context in
      let counted := fold_left (count_token contextBoosts) filteredTokens (mkFreq [] false st) in
      if CONFIG.EMBEDDINGS.SYNONYM_EXPANSION && not_a_number counted
      then (Throw TypeError, regexes counted)
      else
        let termFreq :=
          if CONFIG.EMBEDDINGS.SYNONYM_EXPANSION then expandSynonyms (termFreq counted)
          else termFreq counted in
        let totalTokens := of_nat (List.length filteredTokens) in
        (Ok (List.map (fun e => mkKeyword (fst e)
                                 (JsNumber.parseFloat (toFixed 4 (snd e / totalTokens)))
                                 (snd e))
               (firstn maxFeatures (js_sort by_weight_desc (enumerate termFreq)))),
         regexes counted)
  end.

(** [extractSearchPatterns(text)]: [String.prototype.match] with a global
    regular expression starts from [lastIndex] 0 and leaves it at 0. *)
Record patterns : Type := mkPatterns {
  p_sizes : list string;
  p_colors : list string;
  p_brands : list string;
  p_numbers : list string
}.

Definition extractSearchPatterns (text : string) (st : RegexState) : patterns * RegexState :=
  (mkPatterns (match_all TEXT_PATTERNS.SIZES text)
              (match_all TEXT_PATTERNS.COLORS text)
              (firstn 3 (match_all TEXT_PATTERNS.BRANDS text))
              (firstn 5 (match_all TEXT_PATTERNS.NUMBERS text)),
   mkRegexState (li_commerceTerms st) 0 0 0 0).

End TextProcessor.

(** ** EmbeddingGenerator *)

(** The component texts of a product ([searchableComponents]). *)
Record components : Type := mkComponents {
  c_title : string;
  c_description : string;
  c_categories : string;
  c_brands : string;
  c_attributes : string;
  c_keywords : string;
  c_specifications : string
}.

(** [text && text.trim()] *)
Definition present (text : string) : bool :=
  negb (is_empty text) && negb (is_empty (trim text)).

(** ToInt32 *)
Definition to_int32 (z : Z) : Z := ((z + 2 ^ 31) mod 2 ^ 32 - 2 ^ 31)%Z.

(** [hashString(str)] *)
Definition hashString (str : string) : Z :=
  Z.abs (fold_left (fun hash char =>
                      (* hash = ((hash << 5) - hash) + char; hash = hash & hash *)
                      to_int32 (to_int32 (hash * 32) - hash + Z.of_nat (code char))%Z)
           (list_ascii_of_string str) 0%Z).

(** [x % 1] *)
Definition mod1 (x : float) : float :=
  match to_ratio x with
  | Some (s, n, d) => signed s (nearest (n mod d) d)
  | None => nan
  end.

(** The key-to-weight [Map] of [generateSparseEmbedding]:
    [m.set(term, (m.get(term) || 0) + w)]. *)
Definition map_add (m : list (string * float)) (t : string) (w : float) : list (string * float) :=
  set t ((match assoc t m with
          | Some x => if JsNumber.truthy x then x else 0
          | None => 0
          end) + w)%float m.

(** [Array.prototype.join]: [undefined] and [null] are empty strings. *)
Definition join_values (sep : string) (l : list value) : string :=
  join sep (List.map (fun e => match e with
                               | VUndef | VNull => EmptyString
                               | _ => ToString e
                               end) l).

(** [v.map(f)] / [v.forEach(f)] exist on arrays only. *)
Definition as_array (v : value) : res (list value) :=
  match v with
  | VArr l => Ok l
  | _ => Throw TypeError
  end.

(** [Object.values(v)] for a truthy [v]. *)
Definition values (v : value) : list value := List.map snd (entries v).

(** [[a, b, ...].flat()] *)
Definition flat (l : list value) : list value :=
  concat (List.map (fun v => match v with VArr e => e | _ => [v] end) l).

(** Threading the regular expressions through a computation that may
    throw: an exception keeps the state reached. *)
Definition and_then {A B : Type} (c : res A * RegexState)
    (k : A -> RegexState -> res B * RegexState) : res B * RegexState :=
  match c with
  | (Ok a, st) => k a st
  | (Throw e, st) => (Throw e, st)
  end.

Section EmbeddingGenerator.

Variable tokenize : string -> list string.
Variable stem : string -> string.
Variable stopword : string -> bool.
(** [Math.sin] *)
Variable Math_sin : float -> float.

Abbreviation extractKeywords := (extractKeywords tokenize stem stopword).

(** [generateDenseEmbedding(text)]; [None] is [null]. *)
Definition generateDenseEmbedding (text : string) : option (list float) :=
  if negb CONFIG.EMBEDDINGS.ENABLE_DENSE then None
  else
    let hash := hashString text in
    let embedding :=
      List.map (fun i =>
                  let seed := of_Z (hash + Z.of_nat i) in
                  let value := mod1 (Math_sin seed * 10000)%float in
                  JsNumber.parseFloat (toFixed 6 value))
        (seq 0 CONFIG.EMBEDDINGS.DENSE_DIM) in
    (* L2 normalization *)
    let magnitude :=
      PrimFloat.sqrt (fold_left (fun sum val => sum + val * val)%float embedding 0%float) in
    Some (List.map (fun val => val / magnitude)%float embedding).

(** The five keyword extractions of [generateSparseEmbedding], in the
    order the object literal evaluates them. *)
Record sparse_parts : Type := mkParts {
  sp_general : list keyword;
  sp_title : list keyword;
  sp_category : list keyword;
  sp_brand : list keyword;
  sp_attributes : list keyword
}.

Definition component_keywords (text : option string) (maxFeatures : nat) (context : string)
    (st : RegexState) : res (list keyword) * RegexState :=
  match text with
  | Some t => if is_empty t then (Ok [], st) else extractKeywords t maxFeatures context st
  | None => (Ok [], st)
  end.

Definition sparse_extractions (text : string) (searchableComponents : option components)
    (st : RegexState) : res sparse_parts * RegexState :=
  let field (f : components -> string) := option_map f searchableComponents in
  and_then (extractKeywords text CONFIG.EMBEDDINGS.MAX_SPARSE_FEATURES "general" st)
    (fun general st =>
  and_then (component_keywords (field c_title) 20 "title" st)
    (fun title st =>
  and_then (component_keywords (field c_categories) 15 "category" st)
    (fun category st =>
  and_then (component_keywords (field c_brands) 10 "brand" st)
    (fun brand st =>
  and_then (component_keywords (field c_attributes) 25 "attributes" st)
    (fun attributes st =>
  (Ok (mkParts general title category brand attributes), st)))))).

(** The combination of the five extractions into one [Map]. *)
Definition combine_keywords (p : sparse_parts) : list (string * float) :=
  let m := fold_left (fun m kw => map_add m (term kw) (weight kw)) (sp_general p) [] in
  let m := fold_left (fun m kw => map_add m (term kw) (weight kw * 2.5)%float) (sp_title p) m in
  let m := fold_left (fun m kw => map_add m (term kw) (weight kw * 2.0)%float) (sp_category p) m in
  let m := fold_left (fun m kw => map_add m (term kw) (weight kw * 2.0)%float) (sp_brand p) m in
  fold_left (fun m kw => map_add m (term kw) (weight kw * 1.5)%float) (sp_attributes p) m.

Definition format_keyword (e : string * float) : string :=
  fst e +:+ ":" +:+ toFixed 4 (snd e).

Definition rank_keywords (combinedKeywords : list (string * float)) : list string :=
  List.map format_keyword
    (firstn CONFIG.EMBEDDINGS.MAX_SPARSE_FEATURES (js_sort by_weight_desc combinedKeywords)).

(** [generateSparseEmbedding(text, searchableComponents)]; [None] is
    [null]. *)
Definition generateSparseEmbedding (text : string) (searchableComponents : option components)
    (st : RegexState) : res (option (list string)) * RegexState :=
  if negb CONFIG.EMBEDDINGS.ENABLE_SPARSE then (Ok None, st)
  else
    and_then (sparse_extractions text searchableComponents st)
      (fun sparseEmbeddings st =>
         (Ok (Some (rank_keywords (combine_keywords sparseEmbeddings))), st)).

(** [calculateSearchReadinessScore(components, denseEmbeddings, sparseEmbedding)] *)
Definition calculateSearchReadinessScore {E : Type} (components : components)
    (denseEmbeddings : list (string * E)) (sparseEmbedding : option (list string)) : float :=
  let score := 0%float in
  let score := if present (c_title components) then (score + 0.3)%float else score in
  let score := if present (c_categories components) then (score + 0.25)%float else score in
  let score := if present (c_description components) then (score + 0.2)%float else score in
  let score := if Nat.ltb 0 (List.length denseEmbeddings) then (score + 0.1)%float else score in
  let score := if match sparseEmbedding with
                  | Some l => Nat.ltb 0 (List.length l)
                  | None => false
                  end then (score + 0.05)%float else score in
  let score := if present (c_brands components) then (score + 0.05)%float else score in
  let score := if present (c_attributes components) then (score + 0.05)%float else score in
  JsNumber.parseFloat (toFixed 2 score).

(** [generateMultipleDenseEmbeddings(searchableText, searchableComponents)]:
    the object with the keys [primary], [title], [category]. *)
Definition generateMultipleDenseEmbeddings (searchableText : string)
    (searchableComponents : components) : list (string * option (list float)) :=
  let embeddings := [] in
  let embeddings :=
    if CONFIG.EMBEDDINGS.ENABLE_DENSE
    then set "primary" (generateDenseEmbedding searchableText) embeddings
    else embeddings in
  let embeddings :=
    if present (c_title searchableComponents)
    then set "title" (generateDenseEmbedding (c_title searchableComponents)) embeddings
    else embeddings in
  if present (c_categories searchableComponents)
  then set "category" (generateDenseEmbedding (c_categories searchableComponents)) embeddings
  else embeddings.

(** [generateEnhancedHybridMetadata(...)]: the score, or [null]. *)
Definition generateEnhancedHybridMetadata (searchableComponents : components)
    (denseEmbeddings : list (string * option (list float)))
    (sparseEmbedding : option (list string)) : option float :=
  if negb CONFIG.EMBEDDINGS.ENABLE_HYBRID then None
  else Some (calculateSearchReadinessScore searchableComponents denseEmbeddings sparseEmbedding).

End EmbeddingGenerator.

(** The text of a product and its enrichment. *)

Definition empty_components : components :=
  mkComponents EmptyString EmptyString EmptyString EmptyString EmptyString
    EmptyString EmptyString.

Fixpoint copies {A : Type} (n : nat) (x : A) : list A :=
  match n with
  | O => []
  | S n' => x :: copies n' x
  end.

(** ** The store *)

(** Objects and arrays live in a store; a reference to one is its
    location.  A call that is given an object is given the reference. *)
Module Store.

Inductive ref : Type :=
| RUndef
| RNull
| RBool (b : bool)
| RNum (x : float)
| RStr (s : string)
| RLoc (l : nat).

Inductive cell : Type :=
| CArr (items : list ref)
| CObj (fields : list (string * ref)).

Abbreviation store := (list cell).

(** Every [Some]. *)
Fixpoint all_some {A : Type} (l : list (option A)) : option (list A) :=
  match l with
  | [] => Some []
  | Some x :: t => option_map (cons x) (all_some t)
  | None :: _ => None
  end.

(** The value a reference stands for: what the code reads through it.
    [fuel] bounds the depth. *)
Fixpoint load (fuel : nat) (h : store) (r : ref) : option value :=
  match r with
  | RUndef => Some VUndef
  | RNull => Some VNull
  | RBool b => Some (VBool b)
  | RNum x => Some (VNum x)
  | RStr s => Some (VStr s)
  | RLoc l =>
      match fuel with
      | O => None
      | S n =>
          match h !! l with
          | Some (CArr items) => option_map VArr (all_some (List.map (load n h) items))
          | Some (CObj fields) =>
              option_map VObj
                (all_some (List.map (fun f => option_map (pair (fst f)) (load n h (snd f)))
                             fields))
          | None => None
          end
      end
  end.

(** [JSON.parse] of the text of [v]: every array and object of the result
    is new. *)
Fixpoint alloc (v : value) (h : store) {struct v} : ref * store :=
  match v with
  | VUndef => (RUndef, h)
  | VNull => (RNull, h)
  | VBool b => (RBool b, h)
  | VNum x => (RNum x, h)
  | VStr s => (RStr s, h)
  | VArr l =>
      let fix items (l : list value) (h : store) {struct l} : list ref * store :=
        match l with
        | [] => ([], h)
        | x :: t =>
            let '(r, h) := alloc x h in
            let '(rs, h) := items t h in
            (r :: rs, h)
        end in
      let '(rs, h) := items l h in
      (RLoc (List.length h), (h ++ [CArr rs])%list)
  | VObj o =>
      let fix fields (o : list (string * value)) (h : store) {struct o}
        : list (string * ref) * store :=
        match o with
        | [] => ([], h)
        | (k, x) :: t =>
            let '(r, h) := alloc x h in
            let '(fs, h) := fields t h in
            ((k, r) :: fs, h)
        end in
      let '(fs, h) := fields o h in
      (RLoc (List.length h), (h ++ [CObj fs])%list)
  end.

Fixpoint alloc_items (l : list value) (h : store) : list ref * store :=
  match l with
  | [] => ([], h)
  | x :: t =>
      let '(r, h) := alloc x h in
      let '(rs, h) := alloc_items t h in
      (r :: rs, h)
  end.

Fixpoint alloc_fields (o : list (string * value)) (h : store) : list (string * ref) * store :=
  match o with
  | [] => ([], h)
  | (k, x) :: t =>
      let '(r, h) := alloc x h in
      let '(fs, h) := alloc_fields t h in
      ((k, r) :: fs, h)
  end.

(** Operations on the store that may throw. *)
Definition store_op (A : Type) : Type := store -> res A * store.

Definition op_ret {A : Type} (a : A) : store_op A := fun h => (Ok a, h).

Definition op_bind {A B : Type} (c : store_op A) (k : A -> store_op B) : store_op B :=
  fun h =>
    match c h with
    | (Ok a, h') => k a h'
    | (Throw e, h') => (Throw e, h')
    end.

Definition throw {A : Type} (e : string) : store_op A := fun h => (Throw e, h).

Definition lift {A : Type} (c : res A) : store_op A := fun h => (c, h).

Definition parse (v : value) : store_op ref := fun h => let '(r, h') := alloc v h in (Ok r, h').

(** [r[k]] of an object [r]. *)
Definition field (r : ref) (k : string) : store_op ref :=
  fun h =>
    match r with
    | RLoc l =>
        match h !! l with
        | Some (CObj fs) =>
            (Ok match assoc k fs with Some x => x | None => RUndef end, h)
        | Some (CArr _) => (Ok RUndef, h)
        | None => (Throw TypeError, h)
        end
    | RUndef | RNull => (Throw TypeError, h)
    | _ => (Ok RUndef, h)
    end.

(** [r[k] = x] in strict code: writing a property of a primitive throws.
    A named property written on an array is not part of the array's JSON
    text. *)
Definition assign (r : ref) (k : string) (x : ref) : store_op unit :=
  fun h =>
    match r with
    | RLoc l =>
        match h !! l with
        | Some (CObj fs) => (Ok tt, <[l := CObj (set k x fs)]> h)
        | Some (CArr _) => (Ok tt, h)
        | None => (Throw TypeError, h)
        end
    | _ => (Throw TypeError, h)
    end.

Definition ref_truthy (r : ref) : bool :=
  match r with
  | RUndef | RNull => false
  | RBool b => b
  | RNum x => JsNumber.truthy x
  | RStr s => negb (is_empty s)
  | RLoc _ => true
  end.

End Store.
Import Store.

#[export] Instance store_op_ret : MRet store_op := @op_ret.
#[export] Instance store_op_bind : MBind store_op := fun A B k c => op_bind c k.

(** What [addEmbeddingsToProduct] generates before it writes:
    [denseEmbeddings], [sparseEmbedding] and the score of
    [hybridMetadata]. *)
Record embeddings : Type := mkEmbeddings {
  e_dense : list (string * option (list float));
  e_sparse : option (list string);
  e_hybrid : option float
}.

Section Enrichment.

Variable tokenize : string -> list string.
Variable stem : string -> string.
Variable stopword : string -> bool.
Variable Math_sin : float -> float.

(** [(v || []).map(x => this.textProcessor.cleanText(x)).join(' ')] *)
Definition cleaned_join (v : value) : res string :=
  l ← as_array (or_else v (VArr []));
  mret (join " " (List.map cleanText l)).

(** The attribute texts [extractSearchableText] collects: the [text]
    array of an attribute, else its [numbers] as strings, else the
    attribute itself when it is a string. *)
Definition attribute_texts_all (attributes : value) : res (list value) :=
  fold_left (fun acc attr =>
               attributeTexts ← acc;
               text ← get attr "text";
               if truthy text && is_array text
               then mret (attributeTexts ++ List.map snd (entries text))%list
               else
                 let numbers := prop attr "numbers" in
                 if truthy numbers && is_array numbers
                 then mret (attributeTexts
                            ++ List.map (fun x => VStr (ToString (snd x))) (entries numbers))%list
                 else if is_string attr then mret (attributeTexts ++ [attr])%list
                 else mret attributeTexts)
    (values attributes) (Ok []).

(** The attribute texts [extractSearchableComponents] collects: the
    [text] arrays only. *)
Definition attribute_texts (attributes : value) : res (list value) :=
  fold_left (fun acc attr =>
               attributeTexts ← acc;
               text ← get attr "text";
               if truthy text && is_array text
               then mret (attributeTexts ++ List.map snd (entries text))%list
               else mret attributeTexts)
    (values attributes) (Ok []).

(** The branch of [extractSearchableText] for the formats [vertex] and
    [generic]. *)
Definition text_components (product : value) : res components :=
  title ← get product "title";
  let title := cleanText (or_else title (or_else (prop product "name") (VStr EmptyString))) in
  let description := cleanText (or_else (prop product "description") (VStr EmptyString)) in
  categories ← cleaned_join (prop product "categories");
  brands ← cleaned_join (prop product "brands");
  attributes ←
    (if truthy (prop product "attributes")
     then l ← attribute_texts_all (prop product "attributes"); mret (join_values " " l)
     else mret EmptyString);
  let additionalFields :=
    join_values " "
      (flat [or_else (prop product "tags") (VArr []);
             or_else (prop product "features") (VArr []);
             or_else (prop product "specifications") (VArr []);
             or_else (prop product "keywords") (VArr [])]) in
  let priceInfo := or_else (prop product "priceInfo") (prop product "price") in
  let specifications :=
    if truthy priceInfo && truthy (prop priceInfo "price")
    then additionalFields +:+ " " +:+ ToString (prop priceInfo "price") +:+ " "
         +:+ ToString (or_else (prop priceInfo "currencyCode") (VStr "USD"))
    else additionalFields in
  mret (mkComponents title description categories brands attributes EmptyString specifications).

(** [extractSearchableText(product, format)] *)
Definition extractSearchableText (product : value) (format : string) (st : RegexState)
  : res string * RegexState :=
  let searchableComponents :=
    format ← (if String.eqb format "auto"
              then title ← get product "title";
                   mret (if truthy title || truthy (prop product "categories")
                         then "vertex" else "generic")
              else mret format);
    if String.eqb format "vertex" || String.eqb format "generic"
    then text_components product
    else mret empty_components in
  match searchableComponents with
  | Throw e => (Throw e, st)
  | Ok c =>
      let weightedText :=
        join " "
          (List.filter (fun s => negb (is_empty s))
             (copies 5 (c_title c) ++ copies 3 (c_categories c) ++ copies 3 (c_brands c)
              ++ copies 2 (c_description c) ++ copies 2 (c_attributes c)
              ++ [c_keywords c; c_specifications c])%list) in
      let found := extractSearchPatterns weightedText st in
      let patterns := fst found in
      let add (l : list string) (patternText : string) :=
        match l with
        | [] => patternText
        | _ :: _ => patternText +:+ " " +:+ join " " l
        end in
      let patternText :=
        add (p_numbers patterns) (add (p_colors patterns) (add (p_sizes patterns) EmptyString)) in
      (Ok (substring0 (CONFIG.LIMITS.MAX_DESCRIPTION_LENGTH * 3) (weightedText +:+ patternText)),
       snd found)
  end.

(** [extractSearchableComponents(product, format)] *)
Definition extractSearchableComponents (product : value) : res components :=
  title ← get product "title";
  let title := cleanText (or_else title (or_else (prop product "name") (VStr EmptyString))) in
  let description := cleanText (or_else (prop product "description") (VStr EmptyString)) in
  categories ← cleaned_join (prop product "categories");
  brands ← cleaned_join (prop product "brands");
  attributes ←
    (if truthy (prop product "attributes")
     then l ← attribute_texts (prop product "attributes"); mret (join_values " " l)
     else mret EmptyString);
  mret (mkComponents title description categories brands attributes EmptyString EmptyString).

Definition numbers_value (l : list float) : value :=
  VObj [("numbers", VArr (List.map VNum l))].

(** [productWithEmbeddings.attributes.k = x].  The method is class code,
    hence strict: writing a property of a primitive throws.  On an array
    the assignment adds a named property, which [value] has no place for
    and [JSON.stringify] does not print: the array is returned as it is,
    which is the record as it is written to the output. *)
Definition set_attribute (k : string) (x : value) (productWithEmbeddings : value) : res value :=
  match productWithEmbeddings with
  | VObj o =>
      match assoc "attributes" o with
      | Some (VObj a) => Ok (VObj (set "attributes" (VObj (set k x a)) o))
      | Some (VArr l) => Ok productWithEmbeddings
      | _ => Throw TypeError
      end
  | _ => Throw TypeError
  end.

(** [if (!productWithEmbeddings.attributes) productWithEmbeddings.attributes = {}].
    Only an object has the properties the searchable text is made of, so
    the clone is one. *)
Definition ensure_attributes (productWithEmbeddings : value) : res value :=
  match productWithEmbeddings with
  | VObj o => if truthy (prop productWithEmbeddings "attributes")
              then mret productWithEmbeddings
              else mret (VObj (set "attributes" (VObj []) o))
  | _ => Throw TypeError
  end.

(** The six assignments to [productWithEmbeddings.attributes]. *)
Definition add_embeddings (denseEmbeddings : list (string * option (list float)))
    (sparseEmbedding : option (list string)) (hybridMetadata : option float)
    (productWithEmbeddings : value) : res value :=
  let embedding (k attr : string) (p : value) : res value :=
    match assoc k denseEmbeddings with
    | Some (Some numbers) => set_attribute attr (numbers_value numbers) p
    | _ => mret p
    end in
  productWithEmbeddings ← embedding "primary" "dense_embedding" productWithEmbeddings;
  productWithEmbeddings ← embedding "title" "title_embedding" productWithEmbeddings;
  productWithEmbeddings ← embedding "category" "category_embedding" productWithEmbeddings;
  productWithEmbeddings ←
    match sparseEmbedding with
    | Some (t :: l) =>
        set_attribute "sparse_embedding"
          (VObj [("text", VArr (List.map VStr (t :: l)))]) productWithEmbeddings
    | _ => mret productWithEmbeddings
    end;
  productWithEmbeddings ←
    match hybridMetadata with
    | Some score =>
        if JsNumber.truthy score
        then set_attribute "search_readiness_score" (numbers_value [score]) productWithEmbeddings
        else mret productWithEmbeddings
    | None => mret productWithEmbeddings
    end;
  set_attribute "embedding_count"
    (numbers_value [of_nat (List.length denseEmbeddings
                            + match sparseEmbedding with Some _ => 1 | None => 0 end)])
    productWithEmbeddings.

(** The second half of the [try] block of [addEmbeddingsToProduct]: the
    clone and the attributes written on it. *)
Definition inject (product : value) (denseEmbeddings : list (string * option (list float)))
    (sparseEmbedding : option (list string)) (hybridMetadata : option float) : res value :=
  productWithEmbeddings ← json_clone product;
  productWithEmbeddings ← ensure_attributes productWithEmbeddings;
  add_embeddings denseEmbeddings sparseEmbedding hybridMetadata productWithEmbeddings.

(** The same on the store: the clone is made of new objects, and the
    assignments go to them. *)
Definition set_attribute_in_store (k : string) (x : value) (productWithEmbeddings : ref)
  : store_op unit :=
  attributes ← field productWithEmbeddings "attributes";
  x ← parse x;
  assign attributes k x.

Definition ensure_attributes_in_store (productWithEmbeddings : ref) : store_op unit :=
  attributes ← field productWithEmbeddings "attributes";
  if ref_truthy attributes then mret tt
  else (empty ← parse (VObj []); assign productWithEmbeddings "attributes" empty).

Definition add_embeddings_in_store (denseEmbeddings : list (string * option (list float)))
    (sparseEmbedding : option (list string)) (hybridMetadata : option float)
    (productWithEmbeddings : ref) : store_op ref :=
  let embedding (k attr : string) : store_op unit :=
    match assoc k denseEmbeddings with
    | Some (Some numbers) =>
        set_attribute_in_store attr (numbers_value numbers) productWithEmbeddings
    | _ => mret tt
    end in
  _ ← embedding "primary" "dense_embedding";
  _ ← embedding "title" "title_embedding";
  _ ← embedding "category" "category_embedding";
  _ ← match sparseEmbedding with
      | Some (t :: l) =>
          set_attribute_in_store "sparse_embedding"
            (VObj [("text", VArr (List.map VStr (t :: l)))]) productWithEmbeddings
      | _ => mret tt
      end;
  _ ← match hybridMetadata with
      | Some score =>
          if JsNumber.truthy score
          then set_attribute_in_store "search_readiness_score" (numbers_value [score])
                 productWithEmbeddings
          else mret tt
      | None => mret tt
      end;
  _ ← set_attribute_in_store "embedding_count"
        (numbers_value [of_nat (List.length denseEmbeddings
                                + match sparseEmbedding with Some _ => 1 | None => 0 end)])
        productWithEmbeddings;
  mret productWithEmbeddings.

Definition inject_in_store (product : value)
    (denseEmbeddings : list (string * option (list float)))
    (sparseEmbedding : option (list string)) (hybridMetadata : option float)
  : store_op ref :=
  clone ← lift (json_clone product);
  productWithEmbeddings ← parse clone;
  _ ← match clone with VObj _ => mret tt | _ => throw TypeError end;
  _ ← ensure_attributes_in_store productWithEmbeddings;
  add_embeddings_in_store denseEmbeddings sparseEmbedding hybridMetadata productWithEmbeddings.

(** The first half of the [try] block of [addEmbeddingsToProduct]: the
    searchable text and what is generated from it; [None] when there is no
    searchable text. *)
Definition generate (product : value) (format : string) (st : RegexState)
  : res (option embeddings) * RegexState :=
  and_then (extractSearchableText product format st)
    (fun searchableText st =>
       if is_empty (trim searchableText)
       then (_ ← get product "id"; mret None, st)
       else
         match extractSearchableComponents product with
         | Throw e => (Throw e, st)
         | Ok searchableComponents =>
             let denseEmbeddings :=
               generateMultipleDenseEmbeddings Math_sin searchableText searchableComponents in
             and_then (generateSparseEmbedding tokenize stem stopword
                         searchableText (Some searchableComponents) st)
               (fun sparseEmbedding st =>
                  let hybridMetadata :=
                    generateEnhancedHybridMetadata searchableComponents
                      denseEmbeddings sparseEmbedding in
                  (Ok (Some (mkEmbeddings denseEmbeddings sparseEmbedding hybridMetadata)), st))
         end).

(** The [try] block of [addEmbeddingsToProduct]. *)
Definition enrich (product : value) (format : string) (st : RegexState)
  : res value * RegexState :=
  and_then (generate product format st)
    (fun generated st =>
       match generated with
       | None => (Ok product, st)
       | Some g =>
           (inject product (e_dense g) (e_sparse g) (e_hybrid g), st)
       end).

(** [addEmbeddingsToProduct(product, format)]: the [catch] block logs the
    product's id and returns the product. *)
Definition addEmbeddingsToProduct (product : value) (format : string) (st : RegexState)
  : res value * RegexState :=
  match enrich product format st with
  | (Ok productWithEmbeddings, st') => (Ok productWithEmbeddings, st')
  | (Throw _, st') => (_ ← get product "id"; mret product, st')
  end.

(** [addEmbeddingsToProduct(product, format)] on a reference: what is
    read of the product is read through the reference, the clone is made
    of new objects, and the writes go to them. *)
Definition addEmbeddingsToProduct_in_store (product : ref) (format : string) (st : RegexState)
    (h : store) : res ref * RegexState * store :=
  match load (List.length h) h product with
  | None => (Throw TypeError, st, h)
  | Some p =>
      let caught (st : RegexState) (h : store) :=
        (_ ← get p "id"; mret product, st, h) in
      match generate p format st with
      | (Throw _, st) => caught st h
      | (Ok None, st) => (Ok product, st, h)
      | (Ok (Some g), st) =>
          match inject_in_store p (e_dense g) (e_sparse g) (e_hybrid g) h with
          | (Ok productWithEmbeddings, h) => (Ok productWithEmbeddings, st, h)
          | (Throw _, h) => caught st h
          end
      end
  end.

End Enrichment.

(** ** ProductConverter *)

Definition promotionalKeywords : list string :=
  ["sale"; "new"; "clearance"; "promo"; "deal"; "special"; "limited"].

Definition promotional (cat : string) : bool :=
  let lowerCat := toLowerCase cat in
  existsb (fun keyword => includes lowerCat keyword) promotionalKeywords.

(** [processCategories(categories)] *)
Definition processCategories (categories : value) : list string :=
  match categories with
  | VArr l =>
      firstn CONFIG.LIMITS.MAX_CATEGORIES
        (List.filter (fun cat => negb (promotional cat)) (List.map cleanText l))
  | _ => []
  end.

(** [categories.length > 0 ? categories : ['Products']] *)
Definition categories_or_default (categories : list string) : list string :=
  match categories with
  | [] => ["Products"]
  | _ :: _ => categories
  end.

(** [processDescription(description)] *)
Definition processDescription (description : value) : string :=
  if negb (truthy description) then EmptyString
  else substring0 CONFIG.LIMITS.MAX_DESCRIPTION_LENGTH (cleanText description).

(** [processPriceInfo(price)] *)
Definition processPriceInfo (price : value) : res value :=
  if negb (truthy price) || isNaN price then mret VNull
  else
    currencyCode ← CONFIG.COMMERCE_CURRENCY_CODE;
    mret (VObj [("currencyCode", currencyCode); ("price", VNum (parseFloat price))]).

(** [generateProductUri(productId, title)] *)
Definition generateProductUri (productId : value) (title : string) : string :=
  let slug :=
    substring0 50
      (replace_all (plus space) "-"
         (* /[^a-z0-9\s-]/g *)
         (replace_all (Chr (fun c => negb (is_lower c || is_digit c || is_space c
                                           || Ascii.eqb c "-")))
            EmptyString (toLowerCase title))) in
  "/products/" +:+ slug +:+ "-" +:+ ToString productId.

Definition IN_STOCK : string := "IN_STOCK".
Definition OUT_OF_STOCK : string := "OUT_OF_STOCK".

(** What one availability field says, if anything. *)
Definition availability_signal (x : value) : option string :=
  if is_undefined x then None
  else
    let value := toLowerCase (ToString x) in
    if includes value "stock" || includes value "available"
       || String.eqb value "true" || String.eqb value "1"
    then Some IN_STOCK
    else if includes value "out" || String.eqb value "false" || String.eqb value "0"
    then Some OUT_OF_STOCK
    else None.

(** What one quantity field says, if anything. *)
Definition quantity_signal (x : value) : option string :=
  if negb (is_undefined x) && negb (isNaN x)
  then Some (match parseInt x with
             | Some n => if (0 <? n)%Z then IN_STOCK else OUT_OF_STOCK
             | None => OUT_OF_STOCK
             end)
  else None.

(** The first field of [fields] with a signal. *)
Fixpoint first_signal (signal : value -> option string) (product : value)
    (fields : list string) : option string :=
  match fields with
  | [] => None
  | field :: rest =>
      match signal (prop product field) with
      | Some a => Some a
      | None => first_signal signal product rest
      end
  end.

Definition availabilityFields : list string :=
  ["availability"; "status"; "stock_status"; "in_stock"; "available"].

Definition quantityFields : list string :=
  ["quantity"; "stock"; "inventory"; "qty"].

(** [determineGenericAvailability(product)] *)
Definition determineGenericAvailability (product : value) : string :=
  match first_signal availability_signal product availabilityFields with
  | Some a => a
  | None =>
      match first_signal quantity_signal product quantityFields with
      | Some a => a
      | None => IN_STOCK
      end
  end.

(** The first truthy field of [fields], or [undefined]. *)
Fixpoint first_truthy (product : value) (fields : list string) : value :=
  match fields with
  | [] => VUndef
  | field :: rest =>
      if truthy (prop product field) then prop product field
      else first_truthy product rest
  end.

(** [{text: values.map(val => this.textProcessor.cleanText(String(val)))}] *)
Definition text_attribute (x : value) : value :=
  let values := match x with VArr l => l | _ => [VStr (ToString x)] end in
  VObj [("text", VArr (List.map (fun val => VStr (cleanText (VStr (ToString val)))) values))].

Definition attributeFields : list string :=
  ["sku"; "model"; "color"; "size"; "weight"; "dimensions"; "material";
   "features"; "specifications"; "keywords"; "tags"].

Definition systemFields : list string :=
  ["id"; "title"; "name"; "description"; "price"; "categories"; "brand"; "availability"].

(** [processGenericAttributes(genericProduct)] *)
Definition processGenericAttributes (genericProduct : value) : value :=
  let attributes :=
    fold_left (fun attributes sourceField =>
                 if truthy (prop genericProduct sourceField)
                 then set sourceField (text_attribute (prop genericProduct sourceField)) attributes
                 else attributes)
      attributeFields [] in
  VObj
    (fold_left (fun attributes e =>
                  let key := fst e in
                  if negb (existsb (String.eqb key) systemFields)
                     (* !attributes[key]: an own or an inherited property is truthy *)
                     && negb (match assoc key attributes with
                              | Some _ => true
                              | None => inherited key
                              end)
                     && negb (match snd e with VNull | VUndef => true | _ => false end)
                  then set ("custom_" +:+ key) (text_attribute (snd e)) attributes
                  else attributes)
       (entries genericProduct) attributes).

(** [...(c && {k: x})] at the end of an object literal. *)
Definition spread_if (c : bool) (k : string) (x : value) (o : list (string * value))
  : list (string * value) :=
  if c then set k x o else o.

(** The category list [convertGenericProduct] takes from the source: the
    first truthy field of [categoryFields], when it is an array or a
    string. *)
Definition generic_categories (genericProduct : value) : value :=
  match first_truthy genericProduct
          ["categories"; "category"; "product_categories"; "tags"; "types"] with
  | VArr l => VArr l
  | VStr s => VArr [VStr s]
  | _ => VArr []
  end.

(** [convertGenericProduct(genericProduct)], with the value [Date.now()]
    returns.  [Ok VNull] is the [null] of the [catch] block, which first
    reads [genericProduct.id] for the log. *)
Definition generic_body (now : Z) (genericProduct : value) : res value :=
  id ← get genericProduct "id";
  let productId :=
    or_else id
      (or_else (prop genericProduct "product_id")
         (or_else (prop genericProduct "sku")
            (VStr ("generic-product-" +:+ Z_to_string now)))) in
  let title :=
    substring0 CONFIG.LIMITS.MAX_TITLE_LENGTH
      (cleanText
         (or_else (prop genericProduct "title")
            (or_else (prop genericProduct "name")
               (or_else (prop genericProduct "product_name")
                  (or_else (prop genericProduct "display_name")
                     (VStr "Untitled Product")))))) in
  let categories := processCategories (generic_categories genericProduct) in
  let description :=
    processDescription
      (or_else (prop genericProduct "description")
         (or_else (prop genericProduct "details")
            (or_else (prop genericProduct "summary")
               (or_else (prop genericProduct "content") (VStr EmptyString))))) in
  priceInfo ←
    match List.find (fun field => truthy (prop genericProduct field)
                                  && negb (isNaN (prop genericProduct field)))
            ["price"; "cost"; "amount"; "value"] with
    | Some field => processPriceInfo (prop genericProduct field)
    | None => mret VNull
    end;
  let brand := first_truthy genericProduct ["brand"; "manufacturer"; "company"; "vendor"] in
  mret (VObj
          (spread_if (truthy brand) "brands" (VArr [brand])
             (spread_if (truthy priceInfo) "priceInfo" priceInfo
                [("id", productId);
                 ("title", VStr title);
                 ("categories", VArr (List.map VStr (categories_or_default categories)));
                 ("description", VStr description);
                 ("uri", VStr (generateProductUri productId title));
                 ("availability", VStr (determineGenericAvailability genericProduct));
                 ("languageCode", VStr "en")])
           ++ [("attributes", processGenericAttributes genericProduct)])%list).

Definition convertGenericProduct (now : Z) (genericProduct : value) : res value :=
  match generic_body now genericProduct with
  | Ok commerceProduct => Ok commerceProduct
  | Throw _ => _ ← get genericProduct "id"; mret VNull
  end.

(** SameValueZero, the equality of [Array.prototype.includes]: two
    objects parsed from JSON are never the same object. *)
Definition same_value (a b : value) : bool :=
  match a, b with
  | VUndef, VUndef | VNull, VNull => true
  | VBool x, VBool y => Bool.eqb x y
  | VNum x, VNum y => PrimFloat.eqb x y || (is_nan x && is_nan y)
  | VStr x, VStr y => String.eqb x y
  | _, _ => false
  end.

(** [[...v]] *)
Definition spread_iterable (v : value) : res (list value) :=
  match v with
  | VArr l => Ok l
  | VStr _ => Ok (values v)
  | _ => Throw TypeError
  end.

(** [processVertexAttributes(vertexProduct)] *)
Definition processVertexAttributes (vertexProduct : value) : res value :=
  let attributes := entries (or_else (prop vertexProduct "attributes") (VObj [])) in
  let audience := prop vertexProduct "audience" in
  if truthy audience && truthy (prop audience "genders")
  then
    let genders := match prop audience "genders" with
                   | VArr l => l
                   | g => [g]
                   end in
    let attributes := set "gender_esai" (VObj [("text", VArr genders)]) attributes in
    let filter_fields := match assoc "filter_fields" attributes with
                         | Some f => f
                         | None => VUndef
                         end in
    if truthy filter_fields && truthy (prop filter_fields "text")
    then
      currentFilterFields ← spread_iterable (prop filter_fields "text");
      let newFilterFields :=
        fold_left (fun newFilterFields gender =>
                     if existsb (same_value gender) newFilterFields then newFilterFields
                     else (newFilterFields ++ [gender])%list)
          genders currentFilterFields in
      mret (VObj (set "filter_fields" (VObj [("text", VArr newFilterFields)]) attributes))
    else mret (VObj attributes)
  else mret (VObj attributes).

(** [convertVertexProduct(vertexProduct)] *)
Definition vertex_body (now : Z) (vertexProduct : value) : res value :=
  id ← get vertexProduct "id";
  let productId := or_else id (VStr ("vertex-product-" +:+ Z_to_string now)) in
  let title :=
    substring0 CONFIG.LIMITS.MAX_TITLE_LENGTH
      (cleanText (or_else (prop vertexProduct "title") (VStr "Untitled Product"))) in
  let categories := processCategories (or_else (prop vertexProduct "categories") (VArr [])) in
  let description :=
    processDescription (or_else (prop vertexProduct "description") (VStr EmptyString)) in
  let price := prop vertexProduct "price" in
  priceInfo ←
    (if truthy price
     then
       currencyCode ←
         (if truthy (prop price "currency") then mret (prop price "currency")
          else CONFIG.COMMERCE_CURRENCY_CODE);
       mret (VObj [("currencyCode", currencyCode);
                   ("price", VNum (parseFloat (or_else (prop price "amount") (VNum 0))))])
     else mret VUndef);
  let brands := prop vertexProduct "brands" in
  attributes ← processVertexAttributes vertexProduct;
  mret (VObj
          (spread_if (truthy (prop vertexProduct "images")) "images" (prop vertexProduct "images")
             ((spread_if (truthy brands && PrimFloat.ltb 0 (ToNumber (prop brands "length")))
                 "brands" brands
                 (spread_if (truthy price) "priceInfo" priceInfo
                    [("id", productId);
                     ("title", VStr title);
                     ("categories", VArr (List.map VStr (categories_or_default categories)));
                     ("description", VStr description);
                     ("uri", or_else (prop vertexProduct "uri")
                               (VStr (generateProductUri productId title)));
                     ("availability", or_else (prop vertexProduct "availability") (VStr IN_STOCK));
                     ("languageCode", or_else (prop vertexProduct "languageCode") (VStr "en"))]))
              ++ [("attributes", attributes)])%list)).

Definition convertVertexProduct (now : Z) (vertexProduct : value) : res value :=
  match vertex_body now vertexProduct with
  | Ok commerceProduct => Ok commerceProduct
  | Throw _ => _ ← get vertexProduct "id"; mret VNull
  end.

(** ** UniversalConverter: one file *)

(** [parseWithFallback(filePath)], from the parsed JSON text on.
    [ENABLE_STREAMING] is false, so it is the parser of every file. *)
Definition parseWithFallback (jsonData : value) : res (list value) :=
  match jsonData with
  | VArr l => Ok l
  | _ =>
      products ← get jsonData "products";
      if truthy products && is_array products then as_array products
      else if truthy (prop jsonData "data") && is_array (prop jsonData "data")
      then as_array (prop jsonData "data")
      else if truthy (prop jsonData "items") && is_array (prop jsonData "items")
      then as_array (prop jsonData "items")
      else mret [jsonData]
  end.

(** [detectFormatAndExtractProducts(jsonData, formatHint)] *)
Definition detectFormatAndExtractProducts (jsonData : value) (formatHint : string)
  : res (list value * string) :=
  let detectedFormat := if String.eqb formatHint "auto" then "generic" else formatHint in
  match jsonData with
  | VArr products =>
      match products with
      | firstProduct :: _ =>
          if String.eqb formatHint "auto"
          then
            title ← get firstProduct "title";
            mret (products,
                  if truthy title || truthy (prop firstProduct "categories")
                  then "vertex" else "generic")
          else mret (products, detectedFormat)
      | [] => mret (products, detectedFormat)
      end
  | _ =>
      products ← get jsonData "products";
      if truthy products && is_array products
      then l ← as_array products;
           mret (l, if String.eqb formatHint "auto" then "vertex" else detectedFormat)
      else if truthy (prop jsonData "data") && is_array (prop jsonData "data")
      then l ← as_array (prop jsonData "data"); mret (l, detectedFormat)
      else if truthy (prop jsonData "items") && is_array (prop jsonData "items")
      then l ← as_array (prop jsonData "items"); mret (l, detectedFormat)
      else mret ([jsonData], detectedFormat)
  end.

Section Pipeline.

Variable tokenize : string -> list string.
Variable stem : string -> string.
Variable stopword : string -> bool.
Variable Math_sin : float -> float.

(** The converter [processBatchWithRetry] picks.  [ProductConverter] has
    no method [convertBPNProduct]: calling it throws. *)
Definition convert (detectedFormat : string) (now : Z) (product : value) : res value :=
  if String.eqb detectedFormat "bpn" then Throw TypeError
  else if String.eqb detectedFormat "vertex" then convertVertexProduct now product
  else convertGenericProduct now product.

(** The [while] loop of [processBatchWithRetry] for one product that is
    not [null] or [undefined], with [n] attempts left: what it pushes on
    [results].  For [null] and [undefined] the handler of the last attempt
    throws on [product.id]; [retry_loop] below has that case. *)
Fixpoint attempts_loop (n : nat) (detectedFormat : string) (now : Z) (product : value)
    (st : RegexState) : list value * RegexState :=
  match n with
  | O => ([], st)
  | S n' =>
      let failed (st : RegexState) :=
        match n' with
        | O => ([VNull], st)
        | S _ => attempts_loop n' detectedFormat now product st
        end in
      match convert detectedFormat now product with
      | Ok commerceProduct =>
          if truthy commerceProduct
          then
            match addEmbeddingsToProduct tokenize stem stopword Math_sin
                    commerceProduct detectedFormat st with
            | (Ok productWithEmbeddings, st') => ([productWithEmbeddings], st')
            | (Throw _, st') => failed st'
            end
          else attempts_loop n' detectedFormat now product st
      | Throw _ => failed st
      end
  end.

(** [processBatchWithRetry], over all the batches of a file none of whose
    products is [null] or [undefined]: the records written to the output,
    in order.  [clock i] is what [Date.now()] returns while product [i] is
    converted.  [processBatchesWithSharding] below is the loop for every
    list of products. *)
Fixpoint processBatches (detectedFormat : string) (clock : nat -> Z) (i : nat)
    (products : list value) (st : RegexState) : list value * RegexState :=
  match products with
  | [] => ([], st)
  | product :: rest =>
      let r := attempts_loop CONFIG.PROCESSING.RETRY_ATTEMPTS detectedFormat (clock i) product st in
      let rs := processBatches detectedFormat clock (S i) rest (snd r) in
      ((List.filter truthy (fst r) ++ fst rs)%list, snd rs)
  end.

(** [processAnyJSONFile(inputFilePath, outputFilePath, formatHint)], from
    the parsed JSON text on: the detected format and the records written,
    for a file none of whose products is [null] or [undefined]. *)
Definition processAnyJSONFile (jsonData : value) (formatHint : string) (clock : nat -> Z)
    (st : RegexState) : res (string * list value) * RegexState :=
  match (products ← parseWithFallback jsonData;
         d ← detectFormatAndExtractProducts (VObj [("products", VArr products)]) formatHint;
         mret (products, snd d)) with
  | Throw e => (Throw e, st)
  | Ok (products, detectedFormat) =>
      let r := processBatches detectedFormat clock 0 products st in
      (Ok (detectedFormat, fst r), snd r)
  end.

End Pipeline.

(** ** UniversalConverter: a run over the input directory *)

Module Run.

(** The checkpoint file: absent, not parsable, or holding the names of
    the files it records as processed. *)
Inductive checkpoint_file : Type :=
| Absent
| Unreadable
| Saved (processedFiles : list string).

(** What processing one input file comes to: [processAnyJSONFile] returns
    after [n] products, or throws after [n] products. *)
Inductive outcome : Type :=
| Converted (n : N)
| Failed (n : N).

Record state : Type := mkState {
  checkpointFile : checkpoint_file;
  processedFiles : gset string;
  opened : list string;
  failures : list string;
  converted : N
}.

(** [loadCheckpoint()] *)
Definition loadCheckpoint (s : state) : bool * state :=
  if CONFIG.PROCESSING.CHECKPOINT_ENABLED then
    match checkpointFile s with
    | Saved l =>
        (true, mkState (checkpointFile s) (list_to_set l) (opened s) (failures s) (converted s))
    | Unreadable | Absent => (false, s)
    end
  else (false, s).

(** [saveCheckpoint()], when the file can be written; the method catches
    and logs a failed write. *)
Definition saveCheckpoint (s : state) : state :=
  if CONFIG.PROCESSING.CHECKPOINT_ENABLED
  then mkState (Saved (elements (processedFiles s))) (processedFiles s)
         (opened s) (failures s) (converted s)
  else s.

(** The checkpoints [processBatchesWithSharding] saves while it processes
    [n] products: one whenever the count of processed products is a
    multiple of [CHECKPOINT_INTERVAL]; the count grows by [BATCH_SIZE]. *)
Definition saves_during (n : N) (s : state) : state :=
  if (CONFIG.PROCESSING.CHECKPOINT_INTERVAL <=? n)%N then saveCheckpoint s else s.

Section Files.

(** What is in each input file, and whether the combined output and the
    final report can be written. *)
Variable process : string -> outcome.
Variable combined_output_ok : bool.
Variable report_ok : bool.

(** [processFileWithTracking(filePath)] *)
Definition processFileWithTracking (s : state) (fileName : string) : state :=
  let s := mkState (checkpointFile s) (processedFiles s)
             (opened s ++ [fileName])%list (failures s) (converted s) in
  match process fileName with
  | Converted n =>
      let s := saves_during n s in
      mkState (checkpointFile s) ({[fileName]} ∪ processedFiles s) (opened s) (failures s)
        (converted s + n)
  | Failed n =>
      let s := saves_during n s in
      mkState (checkpointFile s) (processedFiles s) (opened s) (failures s ++ [fileName])%list
        (converted s)
  end.

(** [processAllDataFiles()] where the files are processed one after the
    other, as they are without the package [p-queue]: [None] when it
    throws.  [dataDir] lists the JSON files of the input directory, [None]
    when the directory is missing.  The combined output is written when a
    product was converted; the final report is written after the
    checkpoint file is removed. *)
Definition processAllDataFiles (dataDir : option (list string)) (s : state)
  : option unit * state :=
  let loaded := loadCheckpoint s in
  let resuming := fst loaded in
  let s := snd loaded in
  match dataDir with
  | None | Some [] => (None, s)
  | Some jsonFiles =>
      let filesToProcess :=
        if resuming
        then List.filter (fun file => negb (bool_decide (file ∈ processedFiles s))) jsonFiles
        else jsonFiles in
      let s := fold_left processFileWithTracking filesToProcess s in
      if (0 <? converted s)%N && negb combined_output_ok
      then (None, s)
      else
        (* Clean up checkpoint file on successful completion *)
        let s := if CONFIG.PROCESSING.CHECKPOINT_ENABLED
                 then mkState Absent (processedFiles s) (opened s) (failures s) (converted s)
                 else s in
        (* Generate comprehensive final report *)
        (if report_ok then Some tt else None, s)
  end.

End Files.

Definition start (c : checkpoint_file) : state := mkState c ∅ [] [] 0.

End Run.

(** ** UniversalConverter: batches and shards *)

(** What [processBatchesWithSharding] has done so far: the shards it has
    closed, the lines of the shard it is writing and their count, the
    products it returns, the count of processed products, that count at
    each call of [saveCheckpoint], and the exception that ended it, if
    one did. *)
Record sharded : Type := mkSharded {
  closedShards : list (list value);
  currentShard : list value;
  currentShardLines : N;
  convertedProducts : list value;
  processedCount : N;
  checkpoints : list N;
  thrown : option string
}.

Section Sharding.

Variable tokenize : string -> list string.
Variable stem : string -> string.
Variable stopword : string -> bool.
Variable Math_sin : float -> float.

(** The [while] loop of [processBatchWithRetry] for one product, with
    [n] attempts left: what it pushes on [results].  The handler of the
    last attempt reads [product.id] for the log, which throws when the
    product is [null]; [attempts_loop] is this loop for the other
    products. *)
Fixpoint retry_loop (n : nat) (detectedFormat : string) (now : Z) (product : value)
    (st : RegexState) : res (list value) * RegexState :=
  match n with
  | O => (Ok [], st)
  | S n' =>
      let handler (st : RegexState) :=
        match n' with
        | O => (_ ← get product "id"; mret [VNull], st)
        | S _ => retry_loop n' detectedFormat now product st
        end in
      match convert detectedFormat now product with
      | Ok commerceProduct =>
          if truthy commerceProduct
          then
            match addEmbeddingsToProduct tokenize stem stopword Math_sin
                    commerceProduct detectedFormat st with
            | (Ok productWithEmbeddings, st') => (Ok [productWithEmbeddings], st')
            | (Throw _, st') => handler st'
            end
          else retry_loop n' detectedFormat now product st
      | Throw _ => handler st
      end
  end.

(** [processBatchWithRetry(batch, detectedFormat, fileName)]: the
    results, [null] for a product that failed; [i] is the index of the
    first product of the batch. *)
Fixpoint processBatchWithRetry (detectedFormat : string) (clock : nat -> Z) (i : nat)
    (batch : list value) (st : RegexState) : res (list value) * RegexState :=
  match batch with
  | [] => (Ok [], st)
  | product :: rest =>
      match retry_loop CONFIG.PROCESSING.RETRY_ATTEMPTS detectedFormat (clock i) product st with
      | (Ok pushed, st') =>
          match processBatchWithRetry detectedFormat clock (S i) rest st' with
          | (Ok results, st'') => (Ok (pushed ++ results)%list, st'')
          | (Throw e, st'') => (Throw e, st'')
          end
      | (Throw e, st') => (Throw e, st')
      end
  end.

(** The body of [for (const product of batchResults)]. *)
Definition write_result (shouldShard : bool) (maxLinesPerShard : N)
    (o : sharded) (product : value) : sharded :=
  if truthy product then
    let o :=
      if shouldShard && (maxLinesPerShard <=? currentShardLines o)%N
      then mkSharded (closedShards o ++ [currentShard o])%list [] 0
             (convertedProducts o) (processedCount o) (checkpoints o) (thrown o)
      else o in
    mkSharded (closedShards o) (currentShard o ++ [product])%list (currentShardLines o + 1)
      (convertedProducts o ++ [product])%list (processedCount o) (checkpoints o) (thrown o)
  else o.

(** The loop [for (let i = 0; i < products.length; i += batchSize)];
    [remaining] is [products.slice(i)], and [fuel] bounds the number of
    batches. *)
Fixpoint batch_loop (fuel : nat) (batchSize : nat) (maxLinesPerShard checkpointInterval : N)
    (shouldShard : bool) (detectedFormat : string) (clock : nat -> Z) (i : nat)
    (remaining : list value) (o : sharded) (st : RegexState) : sharded * RegexState :=
  match fuel with
  | O => (o, st)
  | S fuel' =>
      match remaining with
      | [] => (o, st)
      | _ :: _ =>
          let batch := firstn batchSize remaining in
          match processBatchWithRetry detectedFormat clock i batch st with
          | (Throw e, st') =>
              (mkSharded (closedShards o) (currentShard o) (currentShardLines o)
                 (convertedProducts o) (processedCount o) (checkpoints o) (Some e), st')
          | (Ok batchResults, st') =>
              let o := fold_left (write_result shouldShard maxLinesPerShard) batchResults o in
              let processedCount := (processedCount o + N.of_nat (List.length batch))%N in
              let o := mkSharded (closedShards o) (currentShard o) (currentShardLines o)
                         (convertedProducts o) processedCount
                         (if (processedCount mod checkpointInterval =? 0)%N
                          then (checkpoints o ++ [processedCount])%list
                          else checkpoints o) (thrown o) in
              batch_loop fuel' batchSize maxLinesPerShard checkpointInterval shouldShard
                detectedFormat clock (i + batchSize) (skipn batchSize remaining) o st'
          end
      end
  end.

(** [processBatchesWithSharding(products, outputFilePath, detectedFormat, fileName)]:
    it returns [convertedProducts] unless it has thrown. *)
Definition processBatchesWithSharding (products : list value) (detectedFormat : string)
    (clock : nat -> Z) (st : RegexState) : sharded * RegexState :=
  let batchSize := N.to_nat CONFIG.PROCESSING.BATCH_SIZE in
  let maxLinesPerShard := CONFIG.PROCESSING.MAX_LINES_PER_SHARD in
  let shouldShard :=
    CONFIG.PROCESSING.SHARD_OUTPUT && (maxLinesPerShard <? N.of_nat (List.length products))%N in
  batch_loop (List.length products) batchSize maxLinesPerShard
    CONFIG.PROCESSING.CHECKPOINT_INTERVAL shouldShard detectedFormat clock 0 products
    (mkSharded [] [] 0 [] 0 [] None) st.

(** The files written: the closed shards, then the one left open. *)
Definition outputFiles (o : sharded) : list (list value) :=
  (closedShards o ++ [currentShard o])%list.

End Sharding.

(** ** UniversalConverter: the combined output *)

(** The body of the loop of [writeCombinedOutput]: the files written so
    far, the last one being [this.currentCombinedStream], and
    [currentShardLines]. *)
Definition write_combined_line (maxLinesPerShard : N) (o : list (list value) * N)
    (product : value) : list (list value) * N :=
  let files := if (snd o =? 0)%N then (fst o ++ [[]])%list else fst o in
  let files := (removelast files ++ [(List.last files [] ++ [product])%list])%list in
  let currentShardLines := (snd o + 1)%N in
  if (maxLinesPerShard <=? currentShardLines)%N then (files, 0%N)
  else (files, currentShardLines).

(** [writeCombinedOutput(allConvertedProducts)]: the lines of the files
    it writes. *)
Definition writeCombinedOutput (allConvertedProducts : list value) : list (list value) :=
  if CONFIG.PROCESSING.SHARD_OUTPUT
     && (CONFIG.PROCESSING.MAX_LINES_PER_SHARD <? N.of_nat (List.length allConvertedProducts))%N
  then fst (fold_left (write_combined_line CONFIG.PROCESSING.MAX_LINES_PER_SHARD)
              allConvertedProducts ([], 0%N))
  else [allConvertedProducts].

(** ** UniversalConverter: the final report *)

(** [v?.k] *)
Definition chain (v : value) (k : string) : value :=
  match v with
  | VUndef | VNull => VUndef
  | _ => prop v k
  end.

(** [v > 0] *)
Definition is_positive (v : value) : bool := PrimFloat.ltb 0 (ToNumber v).

(** The filter of [countProductsWithEmbeddings]. *)
Definition hasEmbeddings (product : value) : bool :=
  if negb (truthy product) || negb (truthy (prop product "attributes")) then false
  else
    let attributes := prop product "attributes" in
    is_positive (chain (chain (prop attributes "dense_embedding") "numbers") "length")
    || is_positive (chain (chain (prop attributes "title_embedding") "numbers") "length")
    || is_positive (chain (chain (prop attributes "category_embedding") "numbers") "length")
    || is_positive (chain (chain (prop attributes "sparse_embedding") "text") "length")
    || match chain (prop attributes "search_optimization") "vertex_ai_ready" with
       | VBool true => true
       | _ => false
       end.

(** [countProductsWithEmbeddings(products)] for an array [products]. *)
Definition countProductsWithEmbeddings (products : list value) : N :=
  N.of_nat (List.length (List.filter hasEmbeddings products)).

(** An entry of [stats.processedFiles]: the fields the report and its
    validation read. *)
Record file_stats : Type := mkFileStats {
  outputPath : option string;
  totalProducts : N;
  withEmbeddings : N;
  processed : bool
}.

(** The entry [processFileWithTracking] records for a file:
    [Some convertedProducts] when [processAnyJSONFile] returned, [None]
    when it threw; [actualOutputPath] is what [getActualOutputPath]
    returns. *)
Definition file_entry (actualOutputPath : string) (result : option (list value))
  : file_stats :=
  match result with
  | Some convertedProducts =>
      mkFileStats (Some actualOutputPath) (N.of_nat (List.length convertedProducts))
        (countProductsWithEmbeddings convertedProducts) true
  | None => mkFileStats None 0 0 false
  end.

(** The report, as far as [validateReportAccuracy] reads it. *)
Record report : Type := mkReport {
  duration_seconds : value;
  total_files_discovered : N;
  successfully_processed : N;
  failed_to_process : N;
  success_rate : string;
  total_products : N;
  products_with_embeddings : N;
  embedding_success_rate : string;
  processed_files : list (string * file_stats)
}.

(** [n] as a double. *)
Definition of_N (n : N) : float := of_Z (Z.of_N n).

(** [((part / whole) * 100).toFixed(2) + '%'] *)
Definition percentage (part whole : N) : string :=
  toFixed 2 (of_N part / of_N whole * 100)%float +:+ "%".

(** The report [generateDynamicFinalReport(startTime)] builds, from
    [stats.combined.totalFiles], [stats.processedFiles] and the time
    [Date.now()] returns. *)
Definition dynamicFinalReport (startTime endTime : float) (totalFiles : N)
    (stats_processedFiles : list (string * file_stats)) : report :=
  let processedFiles := enumerate stats_processedFiles in
  let duration :=
    if JsNumber.truthy startTime
    then VStr (toFixed 2 ((endTime - startTime) / 1000)%float)
    else VNull in
  let successfulFiles := List.filter (fun f => processed (snd f)) processedFiles in
  let failedFiles := List.filter (fun f => negb (processed (snd f))) processedFiles in
  let total := fold_left (fun sum f => (sum + totalProducts (snd f))%N) successfulFiles 0%N in
  let withEmbeddings :=
    fold_left (fun sum f => (sum + withEmbeddings (snd f))%N) successfulFiles 0%N in
  mkReport
    (VNum (parseFloat duration))
    totalFiles
    (N.of_nat (List.length successfulFiles))
    (N.of_nat (List.length failedFiles))
    (match processedFiles with
     | [] => "0.00%"
     | _ :: _ => percentage (N.of_nat (List.length successfulFiles))
                   (N.of_nat (List.length processedFiles))
     end)
    total
    withEmbeddings
    (if (0 <? total)%N then percentage withEmbeddings total else "0.00%")
    stats_processedFiles.

(** What [validateReportAccuracy] returns. *)
Record validation : Type := mkValidation {
  isValid : bool;
  warnings : list string;
  errors : list string
}.

(** [validateReportAccuracy(report)]; [existsSync] says which output
    files exist. *)
Definition validateReportAccuracy (existsSync : string -> bool) (report : report)
  : validation :=
  (* file statistics *)
  let errors :=
    if (total_files_discovered report =? 0)%N
    then ["No files discovered - check input directory"] else [] in
  let errors :=
    if (successfully_processed report =? 0)%N && (0 <? total_files_discovered report)%N
    then (errors ++ ["No files successfully processed despite files being discovered"])%list
    else errors in
  (* product statistics *)
  let warnings :=
    if (total_products report =? 0)%N then ["No products found in processed files"] else [] in
  let expectedEmbeddingRate :=
    if (0 <? total_products report)%N
    then percentage (products_with_embeddings report) (total_products report)
    else "0%" in
  let errors :=
    if negb (String.eqb (embedding_success_rate report) expectedEmbeddingRate)
    then (errors ++ ["Embedding success rate calculation mismatch: reported "
                     +:+ embedding_success_rate report +:+ ", expected "
                     +:+ expectedEmbeddingRate])%list
    else errors in
  (* processed files *)
  let checked :=
    fold_left
      (fun (acc : list string * list string) (f : string * file_stats) =>
         let fileData := snd f in
         let warnings :=
           match outputPath fileData with
           | Some path =>
               if processed fileData && negb (is_empty path) && negb (existsSync path)
               then (fst acc ++ ["Output file not found: " +:+ path])%list
               else fst acc
           | None => fst acc
           end in
         let errors :=
           if (totalProducts fileData <? withEmbeddings fileData)%N
           then (snd acc ++ ["File " +:+ fst f +:+ ": embedding count ("
                             +:+ N_to_string (withEmbeddings fileData)
                             +:+ ") exceeds total products ("
                             +:+ N_to_string (totalProducts fileData) +:+ ")"])%list
           else snd acc in
         (warnings, errors))
      (enumerate (processed_files report)) (warnings, errors) in
  let warnings := fst checked in
  let errors := snd checked in
  (* duration *)
  let warnings :=
    match duration_seconds report with
    | VNull | VUndef =>
        (warnings ++ ["Duration not recorded - timing information missing"])%list
    | _ => warnings
    end in
  mkValidation (match errors with [] => true | _ :: _ => false end) warnings errors.

(** ** Stand-ins for the [natural] package and for [Math.sin]

    Used where a statement is evaluated on an input: a tokenizer that
    splits at the characters that are not word characters, a stemmer that
    changes nothing, a short stop word list, and a constant in place of
    the sine. *)

Module Sample.

Fixpoint split_words (l : list ascii) (cur : list ascii) : list string :=
  match l with
  | [] =>
      match cur with
      | [] => []
      | _ :: _ => [string_of_list_ascii (rev cur)]
      end
  | c :: t =>
      if is_word c then split_words t (c :: cur)
      else
        match cur with
        | [] => split_words t []
        | _ :: _ => string_of_list_ascii (rev cur) :: split_words t []
        end
  end.

Definition tokenize (s : string) : list string :=
  split_words (list_ascii_of_string s) [].

Definition stem (s : string) : string := s.

Definition stopword (s : string) : bool :=
  existsb (String.eqb s) ["a"; "an"; "and"; "the"; "of"; "for"; "with"].

Definition Math_sin (x : float) : float := 0.12345%float.

End Sample.

(** ** The vocabulary of the statements *)

(** The weights of the readiness score, in hundredths, over a test [has]
    of a component text. *)
Definition readiness_hundredths {E : Type} (has : string -> bool) (c : components)
    (denseEmbeddings : list (string * E)) (sparseEmbedding : option (list string)) : Z :=
  ((if has (c_title c) then 30 else 0)
   + (if has (c_categories c) then 25 else 0)
   + (if has (c_description c) then 20 else 0)
   + (if Nat.ltb 0 (List.length denseEmbeddings) then 10 else 0)
   + (if match sparseEmbedding with Some (_ :: _) => true | _ => false end then 5 else 0)
   + (if has (c_brands c) then 5 else 0)
   + (if has (c_attributes c) then 5 else 0))%Z.

(** The score with a component counting as soon as its text is not the
    empty string. *)
Definition claimed_score {E : Type} (c : components)
    (denseEmbeddings : list (string * E)) (sparseEmbedding : option (list string)) : float :=
  nearest (readiness_hundredths (fun s => negb (is_empty s)) c denseEmbeddings sparseEmbedding)
    100.

(** [cat] contains [keyword] as a substring, case-insensitively. *)
Definition contains_ci (cat keyword : string) : Prop :=
  exists pre mid post, cat = pre +:+ mid +:+ post /\ toLowerCase mid = keyword.

(** The contributions to the combined weights of the sparse embedding, in
    the order [generateSparseEmbedding] adds them: each keyword's weight
    times the boost of its component. *)
Definition contributions (p : sparse_parts) : list (string * float) :=
  (List.map (fun kw => (term kw, weight kw)) (sp_general p)
   ++ List.map (fun kw => (term kw, weight kw * 2.5)%float) (sp_title p)
   ++ List.map (fun kw => (term kw, weight kw * 2.0)%float) (sp_category p)
   ++ List.map (fun kw => (term kw, weight kw * 2.0)%float) (sp_brand p)
   ++ List.map (fun kw => (term kw, weight kw * 1.5)%float) (sp_attributes p))%list.

(** The sum of the contributions of the term [t], from left to right,
    starting from [undefined || 0]. *)
Definition or_zero (acc : option float) : float :=
  match acc with
  | Some x => if JsNumber.truthy x then x else 0%float
  | None => 0%float
  end.

Definition term_total (t : string) (l : list (string * float)) : option float :=
  fold_left (fun acc e => if String.eqb t (fst e) then Some (or_zero acc + snd e)%float else acc)
    l None.

(** No weight of [l] is NaN. *)
Definition no_nan (l : list (string * float)) : bool :=
  forallb (fun e => negb (JsNumber.is_nan (snd e))) l.

(** A key that orders the floating-point numbers other than NaN as
    [SFcompare] does: sign, then exponent, then mantissa. *)
Definition float_key (x : spec_float) : Z * Z * Z :=
  match x with
  | S754_zero _ => (0, 0, 0)
  | S754_infinity false => (2, 0, 0)
  | S754_infinity true => (-2, 0, 0)
  | S754_nan => (0, 0, 0)
  | S754_finite false m e => (1, e, Zpos m)
  | S754_finite true m e => (-1, - e, - Zpos m)
  end%Z.

Definition key_lt (a b : Z * Z * Z) : Prop :=
  let '(a1, a2, a3) := a in
  let '(b1, b2, b3) := b in
  (a1 < b1 \/ (a1 = b1 /\ (a2 < b2 \/ (a2 = b2 /\ a3 < b3))))%Z.

Definition spec_is_nan (x : spec_float) : bool :=
  match x with S754_nan => true | _ => false end.

(** The attributes [addEmbeddingsToProduct] writes. *)
Definition generated_keys : list string :=
  ["dense_embedding"; "title_embedding"; "category_embedding"; "sparse_embedding";
   "search_readiness_score"; "embedding_count"].

(** The attribute [k] of a record whose [attributes] is an object. *)
Definition attribute (p : value) (k : string) : option value :=
  match prop p "attributes" with
  | VObj a => assoc k a
  | _ => None
  end.

(** [q] is the object [p] but for the attributes named in [keys]. *)
Definition same_outside (keys : list string) (p q : value) : Prop :=
  exists o o',
    p = VObj o /\ q = VObj o'
    /\ (forall k, k <> "attributes" -> assoc k o' = assoc k o)
    /\ (forall k, ~ In k keys -> attribute q k = attribute p k).

(** The store: what a reference stands for, and what a call leaves as it
    was. *)

(** [r] stands for [v] in every store that agrees with [H] on the
    locations from [lo] up to [hi]. *)
Definition rep (lo hi : nat) (H : store) (r : ref) (v : value) : Prop :=
  exists n, forall H' : store,
      (forall l, lo <= l < hi -> H' !! l = H !! l) -> load n H' r = Some v.

(** [r] stands for [v] in every store that agrees with [H] on the
    locations of [H] outside [A]. *)
Definition stable (A : list nat) (H : store) (r : ref) (v : value) : Prop :=
  exists n, forall H' : store,
      (forall l, l < List.length H -> ~ In l A -> H' !! l = H !! l) -> load n H' r = Some v.

Definition untouched (h H : store) : Prop := forall l c, h !! l = Some c -> H !! l = Some c.

Definition alloc_ok (v : value) : Prop :=
  forall h, exists ext,
    snd (alloc v h) = (h ++ ext)%list
    /\ rep (List.length h) (List.length (snd (alloc v h))) (snd (alloc v h)) (fst (alloc v h)) v.

Definition field_stable (A : list nat) (H : store) (f : string * ref) (e : string * value)
  : Prop :=
  fst f = fst e /\ stable A H (snd f) (snd e).

(** The clone at [lr], its attributes object at [la]: the root holds the
    fields of [o1], then [attributes], then the fields of [o2]. *)
Definition cloned (h H : store) (lr la : nat) (o1 o2 a : list (string * value)) : Prop :=
  exists fs1 fs2 fa,
    untouched h H /\ List.length h <= lr /\ List.length h <= la /\ la <> lr
    /\ H !! lr = Some (CObj (fs1 ++ ("attributes", RLoc la) :: fs2)%list)
    /\ H !! la = Some (CObj fa)
    /\ ~ In "attributes" (List.map fst o1)
    /\ Forall2 (field_stable [la; lr] H) fs1 o1
    /\ Forall2 (field_stable [la; lr] H) fs2 o2
    /\ Forall2 (field_stable [la; lr] H) fa a.

(** The clone at [lr] stands for the value, and the store still holds
    what [h] held. *)
Inductive sim (h H : store) (lr : nat) : value -> Prop :=
| sim_object (la : nat) (o1 o2 a : list (string * value)) :
    cloned h H lr la o1 o2 a ->
    sim h H lr (VObj (o1 ++ ("attributes", VObj a) :: o2)%list)
| sim_other (fs : list (string * ref)) (o : list (string * value)) (x : value) :
    untouched h H -> List.length h <= lr ->
    H !! lr = Some (CObj fs) ->
    Forall2 (field_stable [] H) fs o ->
    assoc "attributes" o = Some x -> (forall a, x <> VObj a) -> truthy x = true ->
    sim h H lr (VObj o).

Definition outcome_agrees (h : store) (lr : nat) (out : res unit * store) (pure : res value)
  : Prop :=
  match out, pure with
  | (Ok _, H2), Ok v2 => sim h H2 lr v2
  | (Throw _, H2), Throw _ => untouched h H2
  | _, _ => False
  end.

(** The operation [c] on the store does to the clone at [lr] what [p]
    does to the value. *)
Definition simulates (h : store) (lr : nat) (c : store_op unit) (p : value -> res value)
  : Prop :=
  forall H v, sim h H lr v -> outcome_agrees h lr (c H) (p v).

Definition result_agrees (h : store) (lr : nat) (out : res ref * store) (pure : res value)
  : Prop :=
  match out, pure with
  | (Ok r, H2), Ok v2 => r = RLoc lr /\ sim h H2 lr v2
  | (Throw _, H2), Throw _ => untouched h H2
  | _, _ => False
  end.

Definition simulates_to (h : store) (lr : nat) (c : store_op ref) (p : value -> res value)
  : Prop :=
  forall H v, sim h H lr v -> result_agrees h lr (c H) (p v).

(** The input of scenario B. *)
Definition scenario_B : value := VArr [VObj [("name", VStr "Widget"); ("cost", VNum 5)]].

(** The files a run processes and the state it starts from, by what
    [loadCheckpoint] finds. *)
Definition files_to_process (c : Run.checkpoint_file) (jsonFiles : list string) : list string :=
  match c with
  | Run.Saved recorded =>
      List.filter (fun file => negb (bool_decide (file ∈ (list_to_set recorded : gset string))))
        jsonFiles
  | Run.Unreadable | Run.Absent => jsonFiles
  end.

Definition loaded_state (c : Run.checkpoint_file) : Run.state :=
  match c with
  | Run.Saved recorded => Run.mkState c (list_to_set recorded) [] [] 0
  | Run.Unreadable | Run.Absent => Run.start c
  end.

(** The number a string of decimal digits stands for, from [v] on. *)
Definition decimal_value (l : list ascii) (v : N) : N :=
  fold_left (fun v c => (10 * v + (N_of_ascii c - 48))%N) l v.

(** The source gives no id: none of the id fields is truthy. *)
Definition without_id (fields : list string) (product : value) : Prop :=
  forall f, In f fields -> truthy (prop product f) = false.

(** The attributes of the clone after the six assignments of
    [addEmbeddingsToProduct], from the attributes [a] it had. *)
Definition with_embeddings (denseEmbeddings : list (string * option (list float)))
    (sparseEmbedding : option (list string)) (hybridMetadata : option float)
    (a : list (string * value)) : list (string * value) :=
  let embedding (k attr : string) (a : list (string * value)) :=
    match assoc k denseEmbeddings with
    | Some (Some numbers) => set attr (numbers_value numbers) a
    | _ => a
    end in
  let a := embedding "primary" "dense_embedding" a in
  let a := embedding "title" "title_embedding" a in
  let a := embedding "category" "category_embedding" a in
  let a := match sparseEmbedding with
           | Some (t :: l) =>
               set "sparse_embedding" (VObj [("text", VArr (List.map VStr (t :: l)))]) a
           | _ => a
           end in
  let a := match hybridMetadata with
           | Some score =>
               if JsNumber.truthy score
               then set "search_readiness_score" (numbers_value [score]) a
               else a
           | None => a
           end in
  set "embedding_count"
    (numbers_value [of_nat (List.length denseEmbeddings
                            + match sparseEmbedding with Some _ => 1 | None => 0 end)]) a.

(** The keywords [generateSparseEmbedding] extracts for one component:
    none for a text that is absent or empty, else those of
    [extractKeywords]. *)
Definition component_extraction (tokenize : string -> list string) (stem : string -> string)
    (stopword : string -> bool) (text : option string) (maxFeatures : nat) (context : string)
    (st : RegexState) (keywords : list keyword) (st' : RegexState) : Prop :=
  match text with
  | Some (String c t) =>
      extractKeywords tokenize stem stopword (String c t) maxFeatures context st
      = (Ok keywords, st')
  | _ => keywords = [] /\ st' = st
  end.

(** ** The vocabulary of the further statements *)

(** A regular expression that matches at a cursor exactly when the next
    character is in the class [q], and then matches something. *)
Definition led_by (q : ascii -> bool) (r : regex) : Prop :=
  forall c : cursor,
    match rest c with
    | a :: _ =>
        if q a then exists e, match_here r c = Some e /\ pos c < e
        else match_here r c = None
    | [] => match_here r c = None
    end.

(** The list does not begin with white space. *)
Definition no_leading_space (k : list ascii) : Prop :=
  match k with
  | a :: _ => is_space a = false
  | [] => True
  end.

(** The characters [cleanText] lets through: word characters, the space,
    and [- . ( ) [ ] /]. *)
Definition kept_by_cleanText (c : ascii) : bool :=
  is_word c || Ascii.eqb c " " || one_of "-.()[]/" c.

(** The characters of a slug: [a-z], [0-9], and the hyphen. *)
Definition slug_character (c : ascii) : bool :=
  is_lower c || is_digit c || Ascii.eqb c "-".

(** The length of the longest prefix in the class [q]. *)
Fixpoint run_length (q : ascii -> bool) (l : list ascii) : nat :=
  match l with
  | a :: t => if q a then S (run_length q t) else 0
  | [] => 0
  end.

(** No two white space characters in a row; [after_space] says that the
    character before the list is one. *)
Fixpoint spaced (after_space : bool) (l : list ascii) : bool :=
  match l with
  | [] => true
  | a :: t => if is_space a then negb after_space && spaced true t else spaced false t
  end.

(** A text as [cleanText] leaves it: made of the characters it keeps,
    with single spaces only, none of them first or last. *)
Definition tidy (s : string) : Prop :=
  let l := list_ascii_of_string s in
  List.Forall (fun c => kept_by_cleanText c = true) l
  /\ spaced false l = true
  /\ no_leading_space l
  /\ no_leading_space (rev l).

(** A name every plain object inherits from [Object.prototype], other than
    [__proto__]: a read of it yields a function. *)
Definition prototype_method (k : string) : bool :=
  inherited k && negb (String.eqb k "__proto__").

(** [k] got its weight as a synonym: half the weight of a term of
    [termFreq] that has [k] as the stem of one of its synonyms. *)
Definition synonym_weight (stem : string -> string) (termFreq : list (string * float))
    (k : string) (y : float) : Prop :=
  exists term freq synonyms synonym,
    In (term, freq) termFreq /\ assoc term SYNONYMS = Some synonyms
    /\ In synonym synonyms /\ k = stem synonym /\ y = (freq * 0.5)%float.

(** [!termFreq[k]] for a key that is an own property or no property. *)
Definition no_weight (termFreq : list (string * float)) (k : string) : Prop :=
  match assoc k termFreq with
  | Some x => JsNumber.truthy x = false
  | None => True
  end.

(** What [expandSynonyms] keeps true of [expansions]. *)
Definition expansions_ok (stem : string -> string)
    (termFreq expansions : list (string * float)) : Prop :=
  NoDup (List.map fst expansions)
  /\ forall k y, assoc k expansions = Some y ->
                 no_weight termFreq k /\ synonym_weight stem termFreq k y.

(** The polynomial with base 31 over the character codes of [l], by
    Horner's rule from [acc] on. *)
Fixpoint poly31 (l : list ascii) (acc : Z) : Z :=
  match l with
  | [] => acc
  | c :: t => poly31 t (31 * acc + Z.of_nat (code c))%Z
  end.

(** [stats.processedFiles] after [processFileWithTracking] has recorded
    the files of [results], each with its output path and what
    [processAnyJSONFile] came to.  An assignment to [__proto__] sets the
    prototype, and no property. *)
Definition recorded (results : list (string * (string * option (list value))))
  : list (string * file_stats) :=
  fold_left (fun stats r =>
               if String.eqb (fst r) "__proto__" then stats
               else set (fst r) (file_entry (fst (snd r)) (snd (snd r))) stats)
    results [].

(** The error of the validation for a report of no products. *)
Definition rate_mismatch : string :=
  "Embedding success rate calculation mismatch: reported 0.00%, expected 0%".

(** The warning of the validation for a report without a duration. *)
Definition duration_missing : string :=
  "Duration not recorded - timing information missing".

(** An entry that counts no more products with embeddings than products. *)
Definition counted_within (f : string * file_stats) : Prop :=
  (withEmbeddings (snd f) <= totalProducts (snd f))%N.

(** A record whose attributes hold a dense embedding of the configured
    dimension. *)
Definition carries_dense_embedding (p : value) : Prop :=
  exists o a numbers,
    p = VObj o /\ assoc "attributes" o = Some (VObj a)
    /\ assoc "dense_embedding" a = Some (numbers_value numbers)
    /\ List.length numbers = CONFIG.EMBEDDINGS.DENSE_DIM.

(** The fields [convertGenericProduct] looks for a price in, and what it
    takes for one: a truthy value that is a number. *)
Definition priceFields : list string := ["price"; "cost"; "amount"; "value"].

(** [genericProduct[field] && !isNaN(genericProduct[field])] *)
Definition priced (product : value) (field : string) : bool :=
  truthy (prop product field) && negb (isNaN (prop product field)).

(** An attribute in the form the import takes: [{text: [...]}] with
    cleaned strings. *)
Definition text_attribute_of (texts : list string) (v : value) : Prop :=
  v = VObj [("text", VArr (List.map VStr texts))]
  /\ List.Forall (fun text => List.Forall (fun c => kept_by_cleanText c = true)
                                (list_ascii_of_string text)) texts.

(** A text of a canonical record: cleaned, and at most [limit]
    characters long. *)
Definition cleaned_within (limit : nat) (v : value) : Prop :=
  exists text, v = VStr text
               /\ String.length text <= limit
               /\ List.Forall (fun c => kept_by_cleanText c = true) (list_ascii_of_string text).

(** The attributes of the source record, as the spread
    [{...(vertexProduct.attributes || {})}] copies them. *)
Definition source_attributes (vertexProduct : value) : list (string * value) :=
  entries (or_else (prop vertexProduct "attributes") (VObj [])).

(** [audience.genders], as an array. *)
Definition audience_genders (vertexProduct : value) : option (list value) :=
  let audience := prop vertexProduct "audience" in
  if truthy audience && truthy (prop audience "genders")
  then Some (match prop audience "genders" with VArr l => l | g => [g] end)
  else None.

(** Ways of saying that a product cannot be had that contain the word
    "stock" or the word "available". *)
Definition unavailable_phrases : list string :=
  ["out of stock"; "out_of_stock"; "out-of-stock"; "outofstock"; "no stock";
   "not in stock"; "unavailable"; "not available"].

(** [null] or [undefined]: the values a property of which cannot be read. *)
Definition nullish (v : value) : bool :=
  match v with
  | VUndef | VNull => true
  | _ => false
  end.

(** The shards while sharding is on, and the one file while it is off. *)
Definition shards_ok (shouldShard : bool) (maxLinesPerShard : N) (o : sharded) : Prop :=
  currentShardLines o = N.of_nat (List.length (currentShard o))
  /\ concat (closedShards o ++ [currentShard o]) = convertedProducts o
  /\ if shouldShard
     then List.Forall (fun shard => N.of_nat (List.length shard) = maxLinesPerShard)
            (closedShards o)
          /\ (N.of_nat (List.length (currentShard o)) <= maxLinesPerShard)%N
     else closedShards o = [].

(** A file of exactly [maxLinesPerShard] lines. *)
Definition full_shard (maxLinesPerShard : N) (file : list value) : Prop :=
  N.of_nat (List.length file) = maxLinesPerShard.

(** What the loop of [writeCombinedOutput] keeps true: the files are
    full, but for the one being written, which has [currentShardLines]
    lines and room for more. *)
Definition combined_ok (maxLinesPerShard : N) (o : list (list value) * N) : Prop :=
  if (snd o =? 0)%N then Forall (full_shard maxLinesPerShard) (fst o)
  else exists files file,
      fst o = (files ++ [file])%list /\ Forall (full_shard maxLinesPerShard) files
      /\ N.of_nat (List.length file) = snd o /\ (snd o < maxLinesPerShard)%N.

(** * Properties *)

(** ** The error monad, strings, objects *)

Lemma bind_Ok {A B : Type} (c : res A) (k : A -> res B) (b : B) :
  (c ≫= k) = Ok b -> exists a, c = Ok a /\ k a = Ok b.
Proof. destruct c as [a|e]; cbn; [eauto | discriminate]. Qed.

Lemma and_then_Ok {A B : Type} (c : res A * RegexState)
    (k : A -> RegexState -> res B * RegexState) (b : B) (st : RegexState) :
  and_then c k = (Ok b, st) -> exists a st0, c = (Ok a, st0) /\ k a st0 = (Ok b, st).
Proof. destruct c as [[a|e] st0]; cbn; [eauto | discriminate]. Qed.

Lemma get_Ok (v x : value) (k : string) : get v k = Ok x -> x = prop v k.
Proof. destruct v; cbn; intros H; try discriminate H; now injection H as <-. Qed.

Lemma append_cons (c : ascii) (a b : string) : String c a +:+ b = String c (a +:+ b).
Proof. reflexivity. Qed.

Lemma prefix_app (p s : string) :
  String.prefix p s = true <-> exists post, s = p +:+ post.
Proof.
  revert s. induction p as [|a p IH]; intros s.
  - split; [intros _; exists s; reflexivity | intros _; destruct s; reflexivity].
  - destruct s as [|b s]; cbn.
    + split; [discriminate | intros [post H]; discriminate H].
    + destruct (Ascii.ascii_dec a b) as [->|Hne].
      * rewrite IH. split; intros [post H]; exists post.
        -- now rewrite append_cons, H.
        -- rewrite append_cons in H. now injection H.
      * split; [discriminate|].
        intros [post H]. rewrite append_cons in H. injection H. intros; congruence.
Qed.

Lemma includes_app (s sub : string) :
  includes s sub = true <-> exists pre post, s = pre +:+ sub +:+ post.
Proof.
  induction s as [|a s IH]; cbn [includes]; rewrite orb_true_iff, prefix_app.
  - split.
    + intros [[post H]|H]; [|discriminate H]. exists EmptyString, post. exact H.
    + intros (pre & post & H). left. destruct pre; [exists post; exact H | discriminate H].
  - rewrite IH. split.
    + intros [[post H]|(pre & post & H)].
      * exists EmptyString, post. exact H.
      * exists (String a pre), post. rewrite append_cons. now rewrite H.
    + intros (pre & post & H). destruct pre as [|b pre].
      * left. exists post. exact H.
      * right. rewrite append_cons in H. injection H as _ H. exists pre, post. exact H.
Qed.

Lemma toLowerCase_app (a b : string) :
  toLowerCase (a +:+ b) = toLowerCase a +:+ toLowerCase b.
Proof.
  induction a as [|c a IH]; [reflexivity|].
  rewrite append_cons. cbn [toLowerCase]. rewrite append_cons. now rewrite IH.
Qed.

Lemma toLowerCase_split (s a b : string) :
  toLowerCase s = a +:+ b ->
  exists a' b', s = a' +:+ b' /\ toLowerCase a' = a /\ toLowerCase b' = b.
Proof.
  revert s. induction a as [|c a IH]; intros s H.
  - exists EmptyString, s. auto.
  - rewrite append_cons in H. destruct s as [|d s]; cbn in H; [discriminate H|].
    injection H as Hc H. destruct (IH s H) as (a' & b' & -> & Ha & Hb).
    exists (String d a'), b'. cbn. now rewrite Hc, Ha.
Qed.

Lemma assoc_set {A : Type} (k k' : string) (x : A) (o : list (string * A)) :
  assoc k (set k' x o) = if String.eqb k k' then Some x else assoc k o.
Proof.
  induction o as [|[k0 y] o IH]; cbn.
  - destruct (String.eqb k k'); reflexivity.
  - destruct (String.eqb k' k0) eqn:E; cbn.
    + apply String.eqb_eq in E. subst k0. destruct (String.eqb k k'); reflexivity.
    + rewrite IH. destruct (String.eqb k k') eqn:E'; [|reflexivity].
      apply String.eqb_eq in E'. subst k'. now rewrite E.
Qed.

Lemma set_keys {A : Type} (k : string) (x : A) (o : list (string * A)) :
  List.map fst (set k x o)
  = match assoc k o with
    | Some _ => List.map fst o
    | None => (List.map fst o ++ [k])%list
    end.
Proof.
  induction o as [|[k0 y] o IH]; cbn; [reflexivity|].
  destruct (String.eqb k k0) eqn:E; cbn.
  - apply String.eqb_eq in E. now subst.
  - rewrite IH. destruct (assoc k o); reflexivity.
Qed.

Lemma assoc_None_keys {A : Type} (k : string) (o : list (string * A)) :
  assoc k o = None -> ~ In k (List.map fst o).
Proof.
  induction o as [|[k0 y] o IH]; cbn; [tauto|].
  destruct (String.eqb k k0) eqn:E; [discriminate|].
  intros H [H0|H0]; [subst; now rewrite String.eqb_refl in E | now apply IH].
Qed.

Lemma set_NoDup {A : Type} (k : string) (x : A) (o : list (string * A)) :
  NoDup (List.map fst o) -> NoDup (List.map fst (set k x o)).
Proof.
  intros H. rewrite set_keys. destruct (assoc k o) eqn:E; [exact H|].
  apply NoDup_app. split; [exact H|]. split; [|apply NoDup_singleton].
  intros y Hy Hk. apply list_elem_of_singleton in Hk. subst y.
  apply list_elem_of_In in Hy. exact (assoc_None_keys _ _ E Hy).
Qed.

(** What the two converters return when they return a record. *)
Lemma convertVertexProduct_body (now : Z) (p r : value) :
  convertVertexProduct now p = Ok r -> r <> VNull -> vertex_body now p = Ok r.
Proof.
  unfold convertVertexProduct. destruct (vertex_body now p) as [c|e]; [auto|].
  destruct (get p "id"); cbn; [|discriminate]. intros H. injection H as <-. congruence.
Qed.

Lemma convertGenericProduct_body (now : Z) (p r : value) :
  convertGenericProduct now p = Ok r -> r <> VNull -> generic_body now p = Ok r.
Proof.
  unfold convertGenericProduct. destruct (generic_body now p) as [c|e]; [auto|].
  destruct (get p "id"); cbn; [|discriminate]. intros H. injection H as <-. congruence.
Qed.

(** The fields of the record a converter builds. *)
Lemma vertex_fields (c1 c2 c3 : bool) (x y z i t c d u a l w : value) :
  let r := VObj (spread_if c3 "images" z
                   (spread_if c1 "brands" x
                      (spread_if c2 "priceInfo" y
                         [("id", i); ("title", t); ("categories", c); ("description", d);
                          ("uri", u); ("availability", a); ("languageCode", l)])
                    ++ [("attributes", w)])%list) in
  prop r "id" = i /\ prop r "categories" = c /\ prop r "availability" = a.
Proof. destruct c1, c2, c3; repeat split. Qed.

Lemma generic_fields (c1 c2 : bool) (x y i t c d u a l w : value) :
  let r := VObj (spread_if c1 "brands" x
                   (spread_if c2 "priceInfo" y
                      [("id", i); ("title", t); ("categories", c); ("description", d);
                       ("uri", u); ("availability", a); ("languageCode", l)])
                 ++ [("attributes", w)])%list in
  prop r "id" = i /\ prop r "categories" = c /\ prop r "availability" = a.
Proof. destruct c1, c2; repeat split. Qed.

Lemma vertex_record (now : Z) (p r : value) :
  convertVertexProduct now p = Ok r -> r <> VNull ->
  prop r "id" = or_else (prop p "id") (VStr ("vertex-product-" +:+ Z_to_string now))
  /\ prop r "categories"
     = VArr (List.map VStr
               (categories_or_default
                  (processCategories (or_else (prop p "categories") (VArr [])))))
  /\ prop r "availability" = or_else (prop p "availability") (VStr IN_STOCK).
Proof.
  intros H Hr. apply convertVertexProduct_body in H; [|exact Hr]. unfold vertex_body in H.
  apply bind_Ok in H. destruct H as (id & Hid & H).
  apply bind_Ok in H. destruct H as (priceInfo & _ & H).
  apply bind_Ok in H. destruct H as (attributes & _ & H).
  injection H as <-. apply get_Ok in Hid. subst id. apply vertex_fields.
Qed.

Lemma generic_record (now : Z) (p r : value) :
  convertGenericProduct now p = Ok r -> r <> VNull ->
  prop r "id"
  = or_else (prop p "id")
      (or_else (prop p "product_id")
         (or_else (prop p "sku") (VStr ("generic-product-" +:+ Z_to_string now))))
  /\ prop r "categories"
     = VArr (List.map VStr (categories_or_default (processCategories (generic_categories p))))
  /\ prop r "availability" = VStr (determineGenericAvailability p).
Proof.
  intros H Hr. apply convertGenericProduct_body in H; [|exact Hr]. unfold generic_body in H.
  apply bind_Ok in H. destruct H as (id & Hid & H).
  apply bind_Ok in H. destruct H as (priceInfo & _ & H).
  injection H as <-. apply get_Ok in Hid. subst id. apply generic_fields.
Qed.

(** ** Categories *)

Lemma promotional_contains (cat : string) :
  promotional cat = true <->
  exists keyword, In keyword promotionalKeywords /\ contains_ci cat keyword.
Proof.
  unfold promotional. rewrite existsb_exists.
  split; intros (keyword & Hin & H); exists keyword; (split; [exact Hin|]).
  - apply includes_app in H. destruct H as (pre & post & H).
    apply toLowerCase_split in H. destruct H as (pre' & rest & -> & _ & H).
    apply toLowerCase_split in H. destruct H as (mid & post' & -> & Hmid & _).
    exists pre', mid, post'. auto.
  - destruct H as (pre & mid & post & -> & <-).
    apply includes_app. exists (toLowerCase pre), (toLowerCase post).
    now rewrite !toLowerCase_app.
Qed.

(** C8: of the cleaned categories, those that contain a promotional
    keyword (case-insensitively, as a substring) are removed and the others
    kept in order, at most [MAX_CATEGORIES] of them; what is not an array
    gives no category; both converters emit the list that results, or
    ['Products'] when it is empty, so the emitted list is never empty. *)
Theorem categories_filtered_truncated_with_fallback :
  (forall categories : list value,
      let cleaned := List.map cleanText categories in
      let survivors := List.filter (fun cat => negb (promotional cat)) cleaned in
      let kept := processCategories (VArr categories) in
      kept = firstn CONFIG.LIMITS.MAX_CATEGORIES survivors
      /\ (forall cat,
             In cat survivors <->
             In cat cleaned
             /\ ~ (exists keyword, In keyword promotionalKeywords /\ contains_ci cat keyword))
      /\ List.length kept <= CONFIG.LIMITS.MAX_CATEGORIES
      /\ categories_or_default kept <> []
      /\ (kept = [] -> categories_or_default kept = ["Products"])
      /\ (kept <> [] -> categories_or_default kept = kept))
  /\ (forall v, is_array v = false -> processCategories v = [])
  /\ (forall now product r,
         convertVertexProduct now product = Ok r -> r <> VNull ->
         prop r "categories"
         = VArr (List.map VStr
                   (categories_or_default
                      (processCategories (or_else (prop product "categories") (VArr []))))))
  /\ (forall now product r,
         convertGenericProduct now product = Ok r -> r <> VNull ->
         prop r "categories"
         = VArr (List.map VStr
                   (categories_or_default (processCategories (generic_categories product))))).
Proof.
  split; [|split; [|split]].
  - intros categories cleaned survivors kept.
    split; [reflexivity|]. split.
    { intros cat. unfold survivors. rewrite filter_In, negb_true_iff.
      rewrite <- promotional_contains. destruct (promotional cat); intuition congruence. }
    split.
    { unfold kept, processCategories. apply firstn_le_length. }
    split; [destruct kept; discriminate|].
    split; [intros ->; reflexivity|].
    destruct kept; [congruence | reflexivity].
  - intros v Hv. destruct v; try reflexivity. discriminate Hv.
  - intros now product r H Hr. apply (vertex_record now product r H Hr).
  - intros now product r H Hr. apply (generic_record now product r H Hr).
Qed.

(** Scenario A: the only category holds "Clearance". *)
Example clearance_category_replaced :
  processCategories (VArr [VStr "Clearance Shirts"]) = []
  /\ categories_or_default (processCategories (VArr [VStr "Clearance Shirts"])) = ["Products"]
  /\ processCategories (VArr [VStr "Shirts &amp; Tops"; VStr "<b>NEW</b> in"; VStr "Outdoor"])
     = ["Shirts Tops"; "Outdoor"].
Proof. vm_compute. auto. Qed.

(** ** Availability *)

Lemma first_signal_app (signal : value -> option string) (p : value)
    (before after : list string) (field : string) (a : string) :
  (forall f, In f before -> signal (prop p f) = None) ->
  signal (prop p field) = Some a ->
  first_signal signal p (before ++ field :: after) = Some a.
Proof.
  intros Hb Hf. induction before as [|f before IH]; cbn.
  - now rewrite Hf.
  - rewrite (Hb f (or_introl eq_refl)). apply IH. intros g Hg. apply Hb. now right.
Qed.

Lemma first_signal_none (signal : value -> option string) (p : value) (fields : list string) :
  (forall f, In f fields -> signal (prop p f) = None) ->
  first_signal signal p fields = None.
Proof.
  induction fields as [|f fields IH]; intros H; cbn; [reflexivity|].
  rewrite (H f (or_introl eq_refl)). apply IH. intros g Hg. apply H. now right.
Qed.

Lemma first_signal_enum (p : value) (fields : list string) (a : string) :
  forall signal : value -> option string,
    (forall x b, signal x = Some b -> b = IN_STOCK \/ b = OUT_OF_STOCK) ->
    first_signal signal p fields = Some a -> a = IN_STOCK \/ a = OUT_OF_STOCK.
Proof.
  intros signal Hs. induction fields as [|f fields IH]; cbn; [discriminate|].
  destruct (signal (prop p f)) as [b|] eqn:E; [|exact IH].
  intros H. injection H as <-. eapply Hs, E.
Qed.

Lemma availability_signal_enum (x : value) (b : string) :
  availability_signal x = Some b -> b = IN_STOCK \/ b = OUT_OF_STOCK.
Proof.
  unfold availability_signal.
  repeat match goal with |- context [if ?c then _ else _] => destruct c end;
    intros H; try discriminate H; injection H as <-; auto.
Qed.

Lemma quantity_signal_enum (x : value) (b : string) :
  quantity_signal x = Some b -> b = IN_STOCK \/ b = OUT_OF_STOCK.
Proof.
  unfold quantity_signal.
  destruct (negb (is_undefined x) && negb (isNaN x)); [|discriminate].
  intros H. injection H as <-. destruct (parseInt x) as [n|]; [destruct (0 <? n)%Z|]; auto.
Qed.



(** The precedence on inputs: a status wins over a count, a count over
    the default. *)
Example availability_examples :
  determineGenericAvailability (VObj [("status", VStr "Available"); ("quantity", VNum 0)])
  = IN_STOCK
  /\ determineGenericAvailability (VObj [("in_stock", VBool false); ("quantity", VNum 7)])
     = OUT_OF_STOCK
  /\ determineGenericAvailability (VObj [("status", VStr "discontinued"); ("qty", VNum 3)])
     = IN_STOCK
  /\ determineGenericAvailability (VObj [("stock", VStr "0")]) = OUT_OF_STOCK
  /\ determineGenericAvailability (VObj [("inventory", VNum (-2))]) = OUT_OF_STOCK
  /\ determineGenericAvailability (VObj [("name", VStr "Widget")]) = IN_STOCK.
Proof. vm_compute. auto 10. Qed.

(** The test for "stock" comes before the test for "out": a status that
    says out of stock reads as in stock. *)
Example out_of_stock_status :
  availability_signal (VStr "OUT_OF_STOCK") = Some IN_STOCK
  /\ determineGenericAvailability (VObj [("availability", VStr "OUT_OF_STOCK")]) = IN_STOCK
  /\ determineGenericAvailability (VObj [("status", VStr "Out of Stock"); ("quantity", VNum 0)])
     = IN_STOCK
  /\ determineGenericAvailability (VObj [("status", VStr "sold out")]) = OUT_OF_STOCK.
Proof. vm_compute. auto. Qed.

(** ** Decimal numerals *)

Lemma digits_fuel_value (fuel : nat) :
  forall (n : N) (acc : string) (v : N),
    (n < 2 ^ N.of_nat fuel)%N ->
    exists k,
      decimal_value (list_ascii_of_string (digits_fuel fuel n acc)) v
      = decimal_value (list_ascii_of_string acc) (v * 10 ^ k + n)%N.
Proof.
  induction fuel as [|fuel IH]; intros n acc v Hn.
  - exists 0%N. cbn in Hn. replace n with 0%N by lia. cbn [digits_fuel]. f_equal. lia.
  - cbn [digits_fuel].
    assert (Hd : N_of_ascii (ascii_of_N (48 + n mod 10)) = (48 + n mod 10)%N).
    { apply N_ascii_embedding. pose proof (N.mod_upper_bound n 10). lia. }
    destruct (n <? 10)%N eqn:E.
    + apply N.ltb_lt in E. exists 1%N. cbn [list_ascii_of_string decimal_value fold_left].
      rewrite Hd. unfold decimal_value. f_equal. rewrite N.mod_small by exact E. lia.
    + apply N.ltb_ge in E.
      destruct (IH (n / 10)%N (String (ascii_of_N (48 + n mod 10)) acc) v) as [k Hk].
      { rewrite Nnat.Nat2N.inj_succ, N.pow_succ_r' in Hn.
        apply N.Div0.div_lt_upper_bound. lia. }
      exists (N.succ k). rewrite Hk. cbn [list_ascii_of_string decimal_value fold_left].
      rewrite Hd. unfold decimal_value. f_equal. rewrite N.pow_succ_r'.
      pose proof (N.div_mod n 10 ltac:(lia)) as Hdm.
      set (q := (n / 10)%N) in *. set (m := (n mod 10)%N) in *. clearbody q m.
      rewrite Hdm. replace (48 + m - 48)%N with m by lia. ring.
Qed.

Lemma N_to_string_value (n : N) :
  decimal_value (list_ascii_of_string (N_to_string n)) 0 = n.
Proof.
  unfold N_to_string.
  destruct (digits_fuel_value (S (N.to_nat (N.log2 n))) n EmptyString 0) as [k ->].
  - rewrite Nnat.Nat2N.inj_succ, Nnat.N2Nat.id.
    destruct n as [|p]; [reflexivity|]. apply N.log2_spec. lia.
  - cbn. lia.
Qed.

Lemma N_to_string_inj (n m : N) : N_to_string n = N_to_string m -> n = m.
Proof.
  intros H. rewrite <- (N_to_string_value n), <- (N_to_string_value m). now rewrite H.
Qed.

Lemma digits_fuel_head (fuel : nat) :
  forall (n : N) (acc : string),
    match digits_fuel (S fuel) n acc with
    | String c _ => is_digit c = true
    | EmptyString => False
    end.
Proof.
  assert (Hd : forall n, is_digit (ascii_of_N (48 + n mod 10)) = true).
  { intros n. pose proof (N.mod_upper_bound n 10 ltac:(lia)) as H.
    assert (E : exists d, (n mod 10 = N.of_nat d)%N /\ d < 10).
    { exists (N.to_nat (n mod 10)). split; lia. }
    destruct E as (d & -> & Hlt).
    do 10 (destruct d as [|d]; [reflexivity|]). lia. }
  induction fuel as [|fuel IH]; intros n acc.
  - cbn [digits_fuel]. destruct (n <? 10)%N; apply Hd.
  - change (digits_fuel (S (S fuel)) n acc)
      with (if (n <? 10)%N then String (ascii_of_N (48 + n mod 10)) acc
            else digits_fuel (S fuel) (n / 10)%N (String (ascii_of_N (48 + n mod 10)) acc)).
    destruct (n <? 10)%N; [apply Hd | apply IH].
Qed.

Lemma Z_to_string_inj (z1 z2 : Z) : Z_to_string z1 = Z_to_string z2 -> z1 = z2.
Proof.
  assert (Hpos : forall p, match N_to_string (Npos p) with
                           | String c _ => is_digit c = true
                           | EmptyString => False
                           end).
  { intros p. unfold N_to_string. apply digits_fuel_head. }
  assert (Hz : forall p, N_to_string (Npos p) <> "0").
  { intros p H. apply (f_equal (fun s => decimal_value (list_ascii_of_string s) 0)) in H.
    rewrite N_to_string_value in H. discriminate H. }
  assert (Hm : forall p q, N_to_string (Npos p) <> "-" +:+ N_to_string (Npos q)).
  { intros p q H. specialize (Hpos p). rewrite H in Hpos. cbn in Hpos. discriminate Hpos. }
  destruct z1 as [|p|p], z2 as [|q|q]; cbn [Z_to_string]; intros H;
    try reflexivity.
  - symmetry in H. now apply Hz in H.
  - discriminate H.
  - now apply Hz in H.
  - apply N_to_string_inj in H. now injection H as ->.
  - now apply Hm in H.
  - discriminate H.
  - symmetry in H. now apply Hm in H.
  - injection H as H. apply N_to_string_inj in H. now injection H as ->.
Qed.

(** ** Identifiers *)

Lemma or_else_truthy (a d : value) : truthy d = true -> truthy (or_else a d) = true.
Proof. unfold or_else. destruct (truthy a) eqn:E; auto. Qed.

Lemma or_else_falsy (a d : value) : truthy a = false -> or_else a d = d.
Proof. unfold or_else. now intros ->. Qed.

(** C5, as amended: the id of a record is the first truthy one of the
    source's id fields ([id], [product_id], [sku] for a generic record,
    [id] for a vertex record) and otherwise the prefix [generic-product-]
    or [vertex-product-] followed by the clock reading; it is truthy, so
    never the empty string.  Two records without a source id that one
    converter normalizes get the same id exactly when the clock reads the
    same at the two conversions. *)
Theorem product_id_from_source_or_clock :
  (forall now product r,
      convertGenericProduct now product = Ok r -> r <> VNull ->
      prop r "id"
      = or_else (prop product "id")
          (or_else (prop product "product_id")
             (or_else (prop product "sku")
                (VStr ("generic-product-" +:+ Z_to_string now))))
      /\ truthy (prop r "id") = true)
  /\ (forall now product r,
         convertVertexProduct now product = Ok r -> r <> VNull ->
         prop r "id"
         = or_else (prop product "id") (VStr ("vertex-product-" +:+ Z_to_string now))
         /\ truthy (prop r "id") = true)
  /\ (forall now1 now2 product1 product2 r1 r2,
         convertGenericProduct now1 product1 = Ok r1 -> r1 <> VNull ->
         convertGenericProduct now2 product2 = Ok r2 -> r2 <> VNull ->
         without_id ["id"; "product_id"; "sku"] product1 ->
         without_id ["id"; "product_id"; "sku"] product2 ->
         (prop r1 "id" = prop r2 "id" <-> now1 = now2))
  /\ (forall now1 now2 product1 product2 r1 r2,
         convertVertexProduct now1 product1 = Ok r1 -> r1 <> VNull ->
         convertVertexProduct now2 product2 = Ok r2 -> r2 <> VNull ->
         without_id ["id"] product1 ->
         without_id ["id"] product2 ->
         (prop r1 "id" = prop r2 "id" <-> now1 = now2)).
Proof.
  split; [|split; [|split]].
  - intros now product r H Hr. rewrite (proj1 (generic_record now product r H Hr)).
    split; [reflexivity|]. repeat apply or_else_truthy. reflexivity.
  - intros now product r H Hr. rewrite (proj1 (vertex_record now product r H Hr)).
    split; [reflexivity|]. apply or_else_truthy. reflexivity.
  - intros now1 now2 p1 p2 r1 r2 H1 Hr1 H2 Hr2 N1 N2.
    rewrite (proj1 (generic_record now1 p1 r1 H1 Hr1)),
            (proj1 (generic_record now2 p2 r2 H2 Hr2)).
    rewrite !or_else_falsy by (first [apply N1 | apply N2]; cbn; tauto).
    split; [|now intros ->].
    intros H. injection H as H. now apply Z_to_string_inj.
  - intros now1 now2 p1 p2 r1 r2 H1 Hr1 H2 Hr2 N1 N2.
    rewrite (proj1 (vertex_record now1 p1 r1 H1 Hr1)),
            (proj1 (vertex_record now2 p2 r2 H2 Hr2)).
    rewrite !or_else_falsy by (first [apply N1 | apply N2]; cbn; tauto).
    split; [|now intros ->].
    intros H. injection H as H. now apply Z_to_string_inj.
Qed.

(** The theorem on a record without an id, normalized when the clock
    reads 1700000000000, and on two records without an id normalized at
    two readings. *)
Lemma product_id_witness :
  let product := VObj [("name", VStr "Widget")] in
  let r := VObj [("id", VStr "generic-product-1700000000000"); ("title", VStr "Widget");
                 ("categories", VArr [VStr "Products"]); ("description", VStr "");
                 ("uri", VStr "/products/widget-generic-product-1700000000000");
                 ("availability", VStr "IN_STOCK"); ("languageCode", VStr "en");
                 ("attributes", VObj [])] in
  let gadget := VObj [("name", VStr "Gadget")] in
  let r' := VObj [("id", VStr "generic-product-1700000000001"); ("title", VStr "Gadget");
                  ("categories", VArr [VStr "Products"]); ("description", VStr "");
                  ("uri", VStr "/products/gadget-generic-product-1700000000001");
                  ("availability", VStr "IN_STOCK"); ("languageCode", VStr "en");
                  ("attributes", VObj [])] in
  convertGenericProduct 1700000000000 product = Ok r
  /\ convertGenericProduct 1700000000001 gadget = Ok r'
  /\ prop r "id"
     = or_else (prop product "id")
         (or_else (prop product "product_id")
            (or_else (prop product "sku")
               (VStr ("generic-product-" +:+ Z_to_string 1700000000000))))
  /\ truthy (prop r "id") = true
  /\ (prop r "id" = prop r' "id" <-> 1700000000000%Z = 1700000000001%Z).
Proof.
  intros product r gadget r'. split; [vm_compute; reflexivity|].
  split; [vm_compute; reflexivity|].
  destruct (proj1 product_id_from_source_or_clock 1700000000000%Z product r) as [H1 H2];
    [vm_compute; reflexivity | discriminate |].
  split; [exact H1|]. split; [exact H2|].
  apply (proj1 (proj2 (proj2 product_id_from_source_or_clock))
           1700000000000%Z 1700000000001%Z product gadget r r');
    try (vm_compute; reflexivity); try discriminate;
    intros f [<-|[<-|[<-|[]]]]; reflexivity.
Defined.

(** C5, the counterexample: one record without an id normalized at two
    clock readings gets two ids, and two records normalized at one reading
    get one id; an id that is a number in the source is a number in the
    record. *)
Lemma synthesized_id_follows_the_clock :
  let widget := VObj [("name", VStr "Widget")] in
  let gadget := VObj [("name", VStr "Gadget")] in
  let numbered := VObj [("id", VNum 123); ("name", VStr "Widget")] in
  exists r1 r2 r3 r4,
    convertGenericProduct 1700000000000 widget = Ok r1
    /\ convertGenericProduct 1700000000001 widget = Ok r2
    /\ convertGenericProduct 1700000000000 gadget = Ok r3
    /\ convertGenericProduct 1700000000000 numbered = Ok r4
    /\ prop r1 "id" = VStr "generic-product-1700000000000"
    /\ prop r2 "id" = VStr "generic-product-1700000000001"
    /\ prop r1 "id" <> prop r2 "id"
    /\ prop r3 "id" = prop r1 "id"
    /\ prop r4 "id" = VNum 123
    /\ is_string (prop r4 "id") = false.
Proof.
  do 4 eexists. split; [vm_compute; reflexivity|].
  split; [vm_compute; reflexivity|]. split; [vm_compute; reflexivity|].
  split; [vm_compute; reflexivity|].
  repeat split; vm_compute; discriminate.
Qed.

(** ** Scenario B *)

(** C4: on the bare array of scenario B the detector itself answers
    [generic], but [processAnyJSONFile] hands it the array wrapped in
    [{products}], for which it answers [vertex]; the vertex converter then
    reads neither [name] nor [cost].  The generic converter would not
    return a record either: [processPriceInfo] reads
    [CONFIG.COMMERCE.CURRENCY_CODE] and [CONFIG] has no [COMMERCE]. *)
Theorem scenario_B_detected_vertex_and_untitled :
  let widget := VObj [("name", VStr "Widget"); ("cost", VNum 5)] in
  detectFormatAndExtractProducts scenario_B "auto" = Ok ([widget], "generic")
  /\ processPriceInfo (VNum 5) = Throw TypeError
  /\ (forall now, convertGenericProduct now widget = Ok VNull)
  /\ exists r st,
      processAnyJSONFile Sample.tokenize Sample.stem Sample.stopword Sample.Math_sin
        scenario_B "auto" (fun _ => 1700000000000%Z) fresh
      = (Ok ("vertex", [r]), st)
      /\ prop r "title" = VStr "Untitled Product"
      /\ prop r "priceInfo" = VUndef.
Proof.
  intros widget. split; [vm_compute; reflexivity|]. split; [vm_compute; reflexivity|].
  split; [intros now; reflexivity|].
  do 2 eexists. split; [vm_compute; reflexivity|]. split; reflexivity.
Qed.

(** With the format given as [generic] the record of scenario B is
    dropped: the output of the file is empty. *)
Example scenario_B_generic_dropped :
  fst (processAnyJSONFile Sample.tokenize Sample.stem Sample.stopword Sample.Math_sin
         scenario_B "generic" (fun _ => 1700000000000%Z) fresh)
  = Ok ("generic", []).
Proof. vm_compute. reflexivity. Qed.

(** ** The order of the weights *)

(** The comparator [b - a] of the two sorts is positive exactly when
    [a < b]: from the specification of the floating-point operations,
    the difference of two numbers has the sign of the exact difference, the
    numbers being multiples of the least subnormal one. *)
Section FloatOrder.
Local Open Scope Z_scope.

Abbreviation prec := FloatOps.prec.
Abbreviation emax := FloatOps.emax.
Abbreviation emin := (SpecFloat.emin prec emax).
Abbreviation fexp := (SpecFloat.fexp prec emax).

Lemma compare_cont_Eq (m1 m2 : positive) : Pos.compare_cont Eq m1 m2 = Pos.compare m1 m2.
Proof. reflexivity. Qed.

Lemma SFltb_key (x y : spec_float) :
  spec_is_nan x = false -> spec_is_nan y = false ->
  (SFltb x y = true <-> key_lt (float_key x) (float_key y)).
Proof.
  intros Hx Hy. unfold SFltb.
  destruct x as [sx|sx| |sx mx ex], y as [sy|sy| |sy my ey]; try discriminate;
    try destruct sx; try destruct sy; cbn -[Z.compare Pos.compare];
    try (split; [discriminate | lia]); try (split; [lia | reflexivity]).
  all: rewrite ?compare_cont_Eq.
  all: destruct (Z.compare_spec ex ey); destruct (Pos.compare_spec mx my); cbn;
    split; try discriminate; try reflexivity; try lia.
Qed.


Lemma digits2_pos_bounds (m : positive) :
  2 ^ (Zpos (digits2_pos m) - 1) <= Zpos m < 2 ^ Zpos (digits2_pos m).
Proof.
  induction m as [m IH|m IH|]; cbn [digits2_pos].
  - rewrite Pos2Z.inj_succ. change (Zpos m~1) with (2 * Zpos m + 1).
    replace (Z.succ (Zpos (digits2_pos m)) - 1) with (Z.succ (Zpos (digits2_pos m) - 1)) by lia.
    rewrite !Z.pow_succ_r by lia.
    set (a := 2 ^ (Zpos (digits2_pos m) - 1)) in *.
    set (b := 2 ^ Zpos (digits2_pos m)) in *. clearbody a b. lia.
  - rewrite Pos2Z.inj_succ. change (Zpos m~0) with (2 * Zpos m).
    replace (Z.succ (Zpos (digits2_pos m)) - 1) with (Z.succ (Zpos (digits2_pos m) - 1)) by lia.
    rewrite !Z.pow_succ_r by lia.
    set (a := 2 ^ (Zpos (digits2_pos m) - 1)) in *.
    set (b := 2 ^ Zpos (digits2_pos m)) in *. clearbody a b. lia.
  - cbn. lia.
Qed.

Lemma iter_xO (m d : positive) : Zpos (Pos.iter xO m d) = Zpos m * 2 ^ Zpos d.
Proof.
  rewrite <- Z.shiftl_mul_pow2 by lia. cbn [Z.shiftl].
  apply (Pos.iter_swap_gen _ _ Zpos xO (Z.mul 2)). reflexivity.
Qed.

Lemma shl_align_le (mx : positive) (ex ez : Z) :
  ez <= ex -> Zpos (fst (shl_align mx ex ez)) = Zpos mx * 2 ^ (ex - ez).
Proof.
  intros H. unfold shl_align. destruct (ez - ex) as [|d|d] eqn:E; cbn [fst]; try lia.
  - replace (ex - ez) with 0 by lia. cbn. lia.
  - rewrite iter_xO. f_equal. f_equal. lia.
Qed.

Lemma shr_1_m (r : shr_record) : 0 <= shr_m r -> shr_m (shr_1 r) = Z.div2 (shr_m r).
Proof. destruct r as [[|[p|p|]|p] r s]; cbn; intros H; try reflexivity; lia. Qed.

Lemma iter_shr_1 (p : positive) (r : shr_record) :
  0 <= shr_m r -> shr_m (SpecFloat.iter_pos shr_1 p r) = shr_m r / 2 ^ Zpos p.
Proof.
  revert r. induction p as [p IH|p IH|]; intros r H; cbn [SpecFloat.iter_pos].
  - assert (H1 : 0 <= shr_m (shr_1 r)) by (rewrite shr_1_m, Z.div2_div by lia; apply Z.div_pos; lia).
    assert (H2 : 0 <= shr_m (SpecFloat.iter_pos shr_1 p (shr_1 r)))
      by (rewrite IH by lia; apply Z.div_pos; lia).
    rewrite IH, IH, shr_1_m, Z.div2_div by lia.
    rewrite !Z.div_div by lia. f_equal.
    replace (Zpos p~1) with (1 + (Zpos p + Zpos p)) by lia.
    rewrite !Z.pow_add_r by lia. reflexivity.
  - assert (H2 : 0 <= shr_m (SpecFloat.iter_pos shr_1 p r))
      by (rewrite IH by lia; apply Z.div_pos; lia).
    rewrite IH, IH by lia. rewrite Z.div_div by lia. f_equal.
    replace (Zpos p~0) with (Zpos p + Zpos p) by lia.
    rewrite Z.pow_add_r by lia. reflexivity.
  - rewrite shr_1_m, Z.div2_div by lia. reflexivity.
Qed.

Lemma shr_record_of_loc_m (m : Z) (l : location) : shr_m (shr_record_of_loc m l) = m.
Proof. destruct l as [|[]]; reflexivity. Qed.

Lemma shr_fexp_pos (m : positive) (e : Z) (l : location) :
  emin <= e ->
  0 < shr_m (fst (shr_fexp prec emax (Zpos m) e l))
  /\ emin <= snd (shr_fexp prec emax (Zpos m) e l).
Proof.
  intros He. unfold shr_fexp, shr. cbn [Zdigits2].
  destruct (fexp (Zpos (digits2_pos m) + e) - e) as [|q|q] eqn:E; cbn [fst snd];
    rewrite ?shr_record_of_loc_m; try lia.
  rewrite iter_shr_1 by (rewrite shr_record_of_loc_m; lia).
  rewrite shr_record_of_loc_m. split; [|lia].
  pose proof (digits2_pos_bounds m) as [Hlo _].
  unfold SpecFloat.fexp in E.
  assert (Hq : Zpos q <= Zpos (digits2_pos m) - 1).
  { unfold SpecFloat.emin, FloatOps.prec, FloatOps.emax in *. lia. }
  apply Z.div_str_pos. split; [apply Z.pow_pos_nonneg; lia|].
  etransitivity; [|exact Hlo]. apply Z.pow_le_mono_r; lia.
Qed.

Lemma binary_round_aux_sign (sx : bool) (m : positive) (e : Z) (l : location) :
  emin <= e ->
  (exists m' e', binary_round_aux prec emax sx (Zpos m) e l = S754_finite sx m' e')
  \/ binary_round_aux prec emax sx (Zpos m) e l = S754_infinity sx.
Proof.
  intros He. unfold binary_round_aux.
  destruct (shr_fexp_pos m e l He) as [H1 H2].
  destruct (shr_fexp prec emax (Zpos m) e l) as [mrs' e']. cbn [fst snd] in H1, H2.
  assert (Hr : 0 < round_nearest_even (shr_m mrs') (loc_of_shr_record mrs')).
  { unfold round_nearest_even.
    destruct (loc_of_shr_record mrs') as [|[]]; try lia.
    destruct (Z.even (shr_m mrs')); lia. }
  destruct (round_nearest_even (shr_m mrs') (loc_of_shr_record mrs')) as [|m2|m2]; try lia.
  destruct (shr_fexp_pos m2 e' loc_Exact H2) as [H3 _].
  destruct (shr_fexp prec emax (Zpos m2) e' loc_Exact) as [mrs'' e'']. cbn [fst] in H3.
  destruct (shr_m mrs'') as [|m3|m3]; try lia.
  destruct (e'' <=? emax - prec); eauto.
Qed.

Lemma binary_round_sign (sx : bool) (m : positive) (e : Z) :
  emin <= e ->
  (exists m' e', binary_round prec emax sx m e = S754_finite sx m' e')
  \/ binary_round prec emax sx m e = S754_infinity sx.
Proof.
  intros He. unfold binary_round.
  destruct (shl_align m e (fexp (Zpos (digits2_pos m) + e))) as [mz ez] eqn:E.
  apply binary_round_aux_sign.
  unfold shl_align in E.
  destruct (fexp (Zpos (digits2_pos m) + e) - e); injection E as <- <-; try lia.
  unfold SpecFloat.fexp. lia.
Qed.

Lemma binary_normalize_sign (m e : Z) :
  emin <= e ->
  SFltb (S754_zero false) (binary_normalize prec emax m e false) = (0 <? m).
Proof.
  intros He. destruct m as [|m|m]; cbn [binary_normalize]; [reflexivity| |].
  - destruct (binary_round_sign false m e He) as [(m' & e' & ->)| ->]; reflexivity.
  - destruct (binary_round_sign true m e He) as [(m' & e' & ->)| ->]; reflexivity.
Qed.

Lemma bounded_canonical (m : positive) (e : Z) :
  bounded prec emax m e = true ->
  emin <= e /\ Zpos (digits2_pos m) <= prec /\ (emin < e -> Zpos (digits2_pos m) = prec).
Proof.
  unfold bounded, canonical_mantissa. intros H. apply andb_true_iff in H.
  destruct H as [H _]. apply Z.eqb_eq in H. unfold SpecFloat.fexp in H.
  unfold SpecFloat.emin, FloatOps.prec, FloatOps.emax in *. lia.
Qed.

Lemma magnitude_by_exponent (mx my : positive) (ex ey : Z) :
  bounded prec emax mx ex = true -> bounded prec emax my ey = true ->
  ex < ey -> Zpos mx < Zpos my * 2 ^ (ey - ex).
Proof.
  intros Hx Hy Hlt.
  apply bounded_canonical in Hx. apply bounded_canonical in Hy.
  destruct Hx as (Hx1 & Hx2 & _). destruct Hy as (_ & _ & Hy3).
  pose proof (digits2_pos_bounds mx) as [_ Hmx].
  pose proof (digits2_pos_bounds my) as [Hmy _].
  rewrite Hy3 in Hmy by lia.
  assert (H2 : 2 ^ 1 <= 2 ^ (ey - ex)) by (apply Z.pow_le_mono_r; lia).
  assert (Hp : 2 ^ Zpos (digits2_pos mx) <= 2 ^ prec) by (apply Z.pow_le_mono_r; lia).
  assert (Hprec : 2 ^ prec = 2 ^ (prec - 1) * 2 ^ 1)
    by (rewrite <- Z.pow_add_r by (unfold FloatOps.prec; lia); f_equal; lia).
  assert (0 < 2 ^ (prec - 1)) by (apply Z.pow_pos_nonneg; unfold FloatOps.prec; lia).
  nia.
Qed.

Lemma SFsub_sign (x y : spec_float) :
  SpecFloat.valid_binary prec emax x = true -> SpecFloat.valid_binary prec emax y = true ->
  SFltb (S754_zero false) (SFsub prec emax y x) = SFltb x y.
Proof.
  intros Hx Hy.
  destruct x as [sx|sx| |sx mx ex], y as [sy|sy| |sy my ey];
    try (destruct sx; destruct sy; reflexivity);
    try (destruct sx; reflexivity); try (destruct sy; reflexivity); try reflexivity.
  cbn [SpecFloat.valid_binary] in Hx, Hy. cbn [SFsub].
  pose proof (bounded_canonical _ _ Hx) as (Hex & _).
  pose proof (bounded_canonical _ _ Hy) as (Hey & _).
  rewrite binary_normalize_sign by lia.
  rewrite !shl_align_le by lia.
  apply eq_true_iff_eq. rewrite Z.ltb_lt.
  rewrite SFltb_key by reflexivity.
  assert (Hpow : forall a b, 0 < 2 ^ (a - Z.min a b))
    by (intros a b; apply Z.pow_pos_nonneg; lia).
  pose proof (Hpow ex ey) as Hpx. pose proof (Hpow ey ex) as Hpy.
  rewrite (Z.min_comm ey ex) in Hpy |- *.
  destruct (Z.lt_total ex ey) as [Hlt|[Heq|Hgt]].
  - pose proof (magnitude_by_exponent mx my ex ey Hx Hy Hlt) as Hm.
    replace (Z.min ex ey) with ex in * by lia.
    replace (ex - ex) with 0 in * by lia. rewrite Z.pow_0_r, Z.mul_1_r in *.
    destruct sx, sy; cbn [cond_Zopp float_key key_lt]; lia.
  - subst ey. replace (Z.min ex ex) with ex in * by lia.
    replace (ex - ex) with 0 in * by lia. rewrite Z.pow_0_r, !Z.mul_1_r in *.
    destruct sx, sy; cbn [cond_Zopp float_key key_lt]; lia.
  - pose proof (magnitude_by_exponent my mx ey ex Hy Hx Hgt) as Hm.
    replace (Z.min ex ey) with ey in * by lia.
    replace (ey - ey) with 0 in * by lia. rewrite Z.pow_0_r, Z.mul_1_r in *.
    destruct sx, sy; cbn [cond_Zopp float_key key_lt]; lia.
Qed.

Lemma SFleb_key (x y : spec_float) :
  spec_is_nan x = false -> spec_is_nan y = false ->
  (SFleb y x = true <-> ~ key_lt (float_key x) (float_key y)).
Proof.
  intros Hx Hy. unfold SFleb.
  destruct x as [sx|sx| |sx mx ex], y as [sy|sy| |sy my ey]; try discriminate;
    try destruct sx; try destruct sy; cbn -[Z.compare Pos.compare];
    try (split; [intros _; lia | reflexivity]); try (split; [discriminate | lia]).
  all: rewrite ?compare_cont_Eq.
  all: destruct (Z.compare_spec ey ex); destruct (Pos.compare_spec my mx); cbn;
    split; try discriminate; try reflexivity; try lia.
Qed.

Lemma SFltb_not_nan (x y : spec_float) :
  SFltb x y = true -> spec_is_nan x = false /\ spec_is_nan y = false.
Proof. destruct x as [| | |], y as [| | |]; try discriminate; auto. Qed.

Lemma SFltb_asym (x y : spec_float) : SFltb x y = true -> SFltb y x = false.
Proof.
  intros H. destruct (SFltb_not_nan x y H) as [Hx Hy].
  apply (SFltb_key x y Hx Hy) in H.
  destruct (SFltb y x) eqn:E; [|reflexivity].
  apply (SFltb_key y x Hy Hx) in E.
  destruct (float_key x) as [[a1 a2] a3], (float_key y) as [[b1 b2] b3]. cbn in *. lia.
Qed.

Lemma SFltb_negtrans (x y z : spec_float) :
  spec_is_nan y = false -> SFltb x y = false -> SFltb y z = false -> SFltb x z = false.
Proof.
  intros Hy H1 H2. destruct (SFltb x z) eqn:E; [|reflexivity].
  destruct (SFltb_not_nan x z E) as [Hx Hz].
  apply (SFltb_key x z Hx Hz) in E.
  assert (K1 : ~ key_lt (float_key x) (float_key y))
    by (rewrite <- (SFltb_key x y Hx Hy); congruence).
  assert (K2 : ~ key_lt (float_key y) (float_key z))
    by (rewrite <- (SFltb_key y z Hy Hz); congruence).
  destruct (float_key x) as [[a1 a2] a3], (float_key y) as [[b1 b2] b3], (float_key z) as [[c1 c2] c3].
  cbn in *. lia.
Qed.

Lemma not_nan_spec (x : float) : PrimFloat.is_nan x = false -> spec_is_nan (Prim2SF x) = false.
Proof.
  unfold PrimFloat.is_nan. rewrite FloatAxioms.eqb_spec.
  destruct (Prim2SF x); try reflexivity. cbn. discriminate.
Qed.

Lemma ltb_sub (x y : float) : PrimFloat.ltb 0 (y - x) = PrimFloat.ltb x y.
Proof.
  rewrite !ltb_spec, sub_spec. change (Prim2SF 0) with (S754_zero false).
  apply SFsub_sign; apply Prim2SF_valid.
Qed.

Lemma ltb_asym (x y : float) : PrimFloat.ltb x y = true -> PrimFloat.ltb y x = false.
Proof. rewrite !ltb_spec. apply SFltb_asym. Qed.

Lemma ltb_negtrans (x y z : float) :
  PrimFloat.is_nan y = false ->
  PrimFloat.ltb x y = false -> PrimFloat.ltb y z = false -> PrimFloat.ltb x z = false.
Proof. rewrite !ltb_spec. intros H. apply SFltb_negtrans. now apply not_nan_spec. Qed.

Lemma leb_of_not_ltb (x y : float) :
  PrimFloat.is_nan x = false -> PrimFloat.is_nan y = false ->
  PrimFloat.ltb x y = false -> PrimFloat.leb y x = true.
Proof.
  rewrite ltb_spec, leb_spec. intros Hx Hy H.
  apply not_nan_spec in Hx, Hy. apply (SFleb_key _ _ Hx Hy).
  rewrite <- (SFltb_key _ _ Hx Hy). congruence.
Qed.

End FloatOrder.

Lemma by_weight_desc_ltb (x y : string * float) :
  by_weight_desc x y = PrimFloat.ltb (snd x) (snd y).
Proof. apply ltb_sub. Qed.

Lemma by_weight_desc_ordered (l : list (string * float)) :
  no_nan l = true -> ordered_by by_weight_desc l.
Proof.
  unfold no_nan. rewrite forallb_forall. intros H. split.
  - intros x y _ _. rewrite !by_weight_desc_ltb. apply ltb_asym.
  - intros x y z _ Hy _. rewrite !by_weight_desc_ltb. apply ltb_negtrans.
    apply negb_true_iff. exact (H y Hy).
Qed.

(** ** The sparse embedding *)

Lemma map_add_total (l : list (string * float)) (m : list (string * float)) (t : string) :
  assoc t (fold_left (fun m e => map_add m (fst e) (snd e)) l m)
  = fold_left (fun acc e => if String.eqb t (fst e) then Some (or_zero acc + snd e)%float else acc)
      l (assoc t m).
Proof.
  revert m. induction l as [|[t' w] l IH]; intros m; cbn [fold_left]; [reflexivity|].
  rewrite IH. f_equal. unfold map_add. rewrite assoc_set. cbn [fst snd].
  destruct (String.eqb t t') eqn:E; [|reflexivity].
  apply String.eqb_eq in E. subst t'. reflexivity.
Qed.

Lemma map_add_NoDup (l : list (string * float)) (m : list (string * float)) :
  NoDup (List.map fst m) ->
  NoDup (List.map fst (fold_left (fun m e => map_add m (fst e) (snd e)) l m)).
Proof.
  revert m. induction l as [|e l IH]; intros m H; cbn [fold_left]; [exact H|].
  apply IH. now apply set_NoDup.
Qed.

Lemma fold_left_map {A B C : Type} (f : A -> B -> A) (g : C -> B) (l : list C) (a : A) :
  fold_left f (List.map g l) a = fold_left (fun a c => f a (g c)) l a.
Proof. revert a. induction l as [|c l IH]; intros a; cbn; [reflexivity | apply IH]. Qed.

Lemma combine_contributions (p : sparse_parts) :
  combine_keywords p
  = fold_left (fun m e => map_add m (fst e) (snd e)) (contributions p) [].
Proof.
  unfold combine_keywords, contributions.
  rewrite !fold_left_app, !fold_left_map. reflexivity.
Qed.

Section SortFacts.
Context {A : Type} (later : A -> A -> bool).

Lemma insert_sorted_perm (x : A) (l : list A) : Permutation (insert_sorted later x l) (x :: l).
Proof.
  induction l as [|y l IH]; cbn; [reflexivity|].
  destruct (later x y); [|reflexivity].
  rewrite IH. apply perm_swap.
Qed.

Lemma js_sort_perm (l : list A) : Permutation (js_sort later l) l.
Proof.
  induction l as [|x l IH]; cbn; [reflexivity|].
  unfold js_sort in *. cbn. rewrite insert_sorted_perm. now constructor.
Qed.

Lemma insert_sorted_sorted (x : A) (l : list A) :
  ordered_by later (x :: l) ->
  StronglySorted (fun a b => later a b = false) l ->
  StronglySorted (fun a b => later a b = false) (insert_sorted later x l).
Proof.
  intros [Hasym Htrans] Hs. induction Hs as [|y l Hs IH Hy]; cbn.
  - repeat constructor.
  - destruct (later x y) eqn:E.
    + constructor.
      * apply IH.
        -- intros a b Ha Hb. apply Hasym; cbn in *; tauto.
        -- intros a b c Ha Hb Hc. apply Htrans; cbn in *; tauto.
      * apply List.Forall_forall. intros z Hz.
        apply (Permutation_in _ (insert_sorted_perm x l)) in Hz.
        destruct Hz as [<-|Hz].
        -- apply Hasym; cbn; auto.
        -- rewrite List.Forall_forall in Hy. now apply Hy.
    + constructor; [now constructor|].
      constructor; [exact E|].
      apply List.Forall_forall. intros z Hz. rewrite List.Forall_forall in Hy.
      apply (Htrans x y z); cbn; auto.
Qed.

Lemma js_sort_sorted (l : list A) :
  ordered_by later l -> StronglySorted (fun a b => later a b = false) (js_sort later l).
Proof.
  induction l as [|x l IH]; intros H; [constructor|].
  change (js_sort later (x :: l)) with (insert_sorted later x (js_sort later l)).
  apply insert_sorted_sorted.
  - destruct H as [Hasym Htrans]. split.
    + intros a b Ha Hb. apply Hasym.
      * destruct Ha as [<-|Ha]; [now left | right; exact (Permutation_in _ (js_sort_perm l) Ha)].
      * destruct Hb as [<-|Hb]; [now left | right; exact (Permutation_in _ (js_sort_perm l) Hb)].
    + intros a b c Ha Hb Hc. apply Htrans.
      * destruct Ha as [<-|Ha]; [now left | right; exact (Permutation_in _ (js_sort_perm l) Ha)].
      * destruct Hb as [<-|Hb]; [now left | right; exact (Permutation_in _ (js_sort_perm l) Hb)].
      * destruct Hc as [<-|Hc]; [now left | right; exact (Permutation_in _ (js_sort_perm l) Hc)].
  - apply IH. destruct H as [Hasym Htrans]. split.
    + intros a b Ha Hb. apply Hasym; now right.
    + intros a b c Ha Hb Hc. apply Htrans; now right.
Qed.

End SortFacts.

Lemma StronglySorted_weaken {A : Type} (R R' : A -> A -> Prop) (l : list A) :
  (forall a b, In a l -> In b l -> R a b -> R' a b) ->
  StronglySorted R l -> StronglySorted R' l.
Proof.
  intros H Hs. induction Hs as [|x l Hs IH Hx]; constructor.
  - apply IH. intros a b Ha Hb. apply H; now right.
  - rewrite List.Forall_forall in *. intros b Hb. apply H; [now left | now right | now apply Hx].
Qed.

(** ** Repeated generation *)

(** The patterns of [TEXT_PATTERNS] carry the flag [g], so [test] starts at
    the [lastIndex] the previous [test] left. *)
Example commerce_term_tested_twice :
  getPatternBoost "organic" fresh = (1.5%float, mkRegexState 7 0 0 0 0)
  /\ getPatternBoost "organic" (mkRegexState 7 0 0 0 0) = (1%float, fresh).
Proof. split; vm_compute; reflexivity. Qed.

Lemma enumerate_one {A : Type} (e : string * A) : enumerate [e] = [e].
Proof. unfold enumerate. cbn. destruct (array_index (fst e)); reflexivity. Qed.

Section Organic.
Variable tokenize : string -> list string.
Variable stem : string -> string.
Variable stopword : string -> bool.

Lemma extract_one_token (st : RegexState) (boosted : float) (st' : RegexState) :
  tokenize "organic" = ["organic"] ->
  stopword "organic" = false ->
  read CONFIG.EMBEDDINGS.KEYWORD_BOOST (stem "organic") = Missing ->
  assoc (stem "organic") SYNONYMS = None ->
  getPatternBoost "organic" st = (boosted, st') ->
  extractKeywords tokenize stem stopword "organic" CONFIG.EMBEDDINGS.MAX_SPARSE_FEATURES "general" st
  = (Ok [mkKeyword (stem "organic")
           (JsNumber.parseFloat (toFixed 4 ((0 + 1 * (1 * boosted)) / 1)))
           (0 + 1 * (1 * boosted))], st').
Proof.
  intros Htok Hstop Hboost Hsyn Hpat.
  assert (Hkeep : keep_token stopword "organic" = true).
  { unfold keep_token. rewrite Hstop. reflexivity. }
  assert (Hinh : inherited (stem "organic") = false).
  { unfold read in Hboost. destruct (assoc _ _); [discriminate|].
    destruct (inherited _); [discriminate | reflexivity]. }
  assert (Hcount :
    count_token stem (getContextBoosts "general") (mkFreq [] false st) "organic"
    = mkFreq [(stem "organic", (0 + 1 * (1 * boosted))%float)] false st').
  { unfold count_token. cbn [CONFIG.EMBEDDINGS.STEMMING_ENABLED regexes termFreq not_a_number].
    change (getContextBoosts "general") with CONFIG.EMBEDDINGS.KEYWORD_BOOST.
    rewrite Hboost, Hpat.
    replace (read CONFIG.EMBEDDINGS.KEYWORD_BOOST "organic") with Missing by reflexivity.
    unfold read. cbn [assoc]. rewrite Hinh. reflexivity. }
  unfold extractKeywords.
  replace (cleanText (VStr (toLowerCase "organic"))) with "organic" by (vm_compute; reflexivity).
  rewrite Htok. cbn [List.filter]. rewrite Hkeep. cbn [fold_left]. rewrite Hcount.
  cbn [not_a_number CONFIG.EMBEDDINGS.SYNONYM_EXPANSION andb regexes termFreq].
  unfold expandSynonyms. rewrite enumerate_one. cbn [fold_left fst snd]. rewrite Hsyn.
  change (enumerate (@nil (string * float))) with (@nil (string * float)).
  cbn [fold_left]. rewrite enumerate_one. reflexivity.
Qed.

End Organic.

(** C1: with a tokenizer that leaves the word [organic] whole, the
    first [generateSparseEmbedding("organic", null)] of a process gives the
    weight 1.5000 and leaves the [lastIndex] of the commerce pattern at 7,
    and the second call, on the same text, gives 1.0000: the sparse
    embedding of a text depends on the calls made before. *)
Theorem sparse_embedding_changes_between_calls :
  forall (tokenize : string -> list string) (stem : string -> string)
         (stopword : string -> bool),
    tokenize "organic" = ["organic"] ->
    stopword "organic" = false ->
    read CONFIG.EMBEDDINGS.KEYWORD_BOOST (stem "organic") = Missing ->
    assoc (stem "organic") SYNONYMS = None ->
    exists st1,
      generateSparseEmbedding tokenize stem stopword "organic" None fresh
      = (Ok (Some [stem "organic" +:+ ":1.5000"]), st1)
      /\ generateSparseEmbedding tokenize stem stopword "organic" None st1
         = (Ok (Some [stem "organic" +:+ ":1.0000"]), fresh)
      /\ st1 = mkRegexState 7 0 0 0 0.
Proof.
  intros tokenize stem stopword Htok Hstop Hboost Hsyn.
  exists (mkRegexState 7 0 0 0 0).
  unfold generateSparseEmbedding, sparse_extractions.
  cbn [CONFIG.EMBEDDINGS.ENABLE_SPARSE negb].
  rewrite (extract_one_token tokenize stem stopword fresh 1.5%float (mkRegexState 7 0 0 0 0))
    by (auto; vm_compute; reflexivity).
  rewrite (extract_one_token tokenize stem stopword (mkRegexState 7 0 0 0 0) 1%float fresh)
    by (auto; vm_compute; reflexivity).
  repeat split.
Qed.

(** The theorem with the sample tokenizer. *)
Lemma sparse_embedding_changes_witness :
  exists st1,
    generateSparseEmbedding Sample.tokenize Sample.stem Sample.stopword "organic" None fresh
    = (Ok (Some [Sample.stem "organic" +:+ ":1.5000"]), st1)
    /\ generateSparseEmbedding Sample.tokenize Sample.stem Sample.stopword "organic" None st1
       = (Ok (Some [Sample.stem "organic" +:+ ":1.0000"]), fresh)
    /\ st1 = mkRegexState 7 0 0 0 0.
Proof.
  apply (sparse_embedding_changes_between_calls Sample.tokenize Sample.stem Sample.stopword);
    vm_compute; reflexivity.
Defined.

(** The same on a record: one record enriched twice in a row gets two
    sparse embeddings; its dense embedding and its score are the same. *)
Example record_enriched_twice :
  let product :=
    VObj [("id", VStr "p1"); ("title", VStr "Organic Tea");
          ("categories", VArr [VStr "Tea Organic"]); ("description", VStr "");
          ("attributes", VObj [])] in
  let add := addEmbeddingsToProduct Sample.tokenize Sample.stem Sample.stopword
               Sample.Math_sin product "vertex" in
  exists r1 st1 r2 st2,
    add fresh = (Ok r1, st1) /\ add st1 = (Ok r2, st2)
    /\ prop (prop (prop r1 "attributes") "sparse_embedding") "text"
       = VArr [VStr "organic:3.5000"; VStr "tea:2.7500"]
    /\ prop (prop (prop r2 "attributes") "sparse_embedding") "text"
       = VArr [VStr "organic:3.4688"; VStr "tea:2.7500"]
    /\ prop (prop r1 "attributes") "dense_embedding"
       = prop (prop r2 "attributes") "dense_embedding"
    /\ prop (prop r1 "attributes") "search_readiness_score"
       = prop (prop r2 "attributes") "search_readiness_score".
Proof.
  do 4 eexists. split; [vm_compute; reflexivity|]. split; [vm_compute; reflexivity|].
  repeat split; vm_compute; reflexivity.
Qed.

(** ** Enrichment *)

Lemma same_outside_refl (keys : list string) (o : list (string * value)) :
  same_outside keys (VObj o) (VObj o).
Proof. exists o, o. auto. Qed.

Lemma same_outside_trans (keys : list string) (p q r : value) :
  same_outside keys p q -> same_outside keys q r -> same_outside keys p r.
Proof.
  intros (o & o' & -> & -> & H1 & H2) (o1 & o2 & [= <-] & -> & H3 & H4).
  exists o, o2. repeat split; auto.
  - intros k Hk. now rewrite H3, H1.
  - intros k Hk. now rewrite H4, H2.
Qed.

Lemma set_attribute_frame (keys : list string) (k : string) (x p q : value) :
  In k keys -> set_attribute k x p = Ok q -> same_outside keys p q.
Proof.
  intros Hk. unfold set_attribute. destruct p as [| | | | | |o]; try discriminate.
  destruct (assoc "attributes" o) as [[| | | | |l|a]|] eqn:E; try discriminate;
    intros [= <-].
  - apply same_outside_refl.
  - exists o, (set "attributes" (VObj (set k x a)) o). repeat split.
    + intros k' Hk'. rewrite assoc_set.
      destruct (String.eqb k' "attributes") eqn:E'; [|reflexivity].
      apply String.eqb_eq in E'. contradiction.
    + intros k' Hk'. unfold attribute, prop. rewrite assoc_set, E. cbn.
      rewrite assoc_set. destruct (String.eqb k' k) eqn:E'; [|reflexivity].
      apply String.eqb_eq in E'. subst. contradiction.
Qed.

Lemma ensure_attributes_frame (keys : list string) (o : list (string * value)) :
  truthy (prop (VObj o) "attributes") = false ->
  same_outside keys (VObj o) (VObj (set "attributes" (VObj []) o)).
Proof.
  intros H. exists o, (set "attributes" (VObj []) o). repeat split.
  - intros k Hk. rewrite assoc_set.
    destruct (String.eqb k "attributes") eqn:E'; [|reflexivity].
    apply String.eqb_eq in E'. contradiction.
  - intros k Hk. unfold attribute, prop in *. rewrite assoc_set. cbn.
    destruct (assoc "attributes" o) as [[]|]; try reflexivity. discriminate H.
Qed.

Lemma inject_frame (product clone r : value)
    (dense : list (string * option (list float)))
    (sparse : option (list string)) (hybrid : option float) :
  json_value product = Some clone ->
  inject product dense sparse hybrid = Ok r ->
  same_outside generated_keys clone r.
Proof.
  intros Hclone. unfold inject, json_clone. rewrite Hclone. cbn [mbind res_bind].
  intros H.
  apply bind_Ok in H. destruct H as (p0 & H0 & H).
  assert (F0 : same_outside generated_keys clone p0).
  { unfold ensure_attributes in H0. destruct clone as [| | | | | |o]; try discriminate H0.
    destruct (truthy (prop (VObj o) "attributes")) eqn:E; injection H0 as <-.
    - apply same_outside_refl.
    - now apply ensure_attributes_frame. }
  unfold add_embeddings in H.
  assert (Hemb : forall k attr p q,
             In attr generated_keys ->
             match assoc k dense with
             | Some (Some numbers) => set_attribute attr (numbers_value numbers) p
             | _ => mret p
             end = Ok q ->
             same_outside generated_keys clone p -> same_outside generated_keys clone q).
  { intros k attr p q Hin Hq Hp. destruct (assoc k dense) as [[numbers|]|].
    - eapply same_outside_trans; [exact Hp|]. eapply set_attribute_frame; eauto.
    - now injection Hq as <-.
    - now injection Hq as <-. }
  apply bind_Ok in H. destruct H as (p1 & H1 & H).
  apply (Hemb "primary" "dense_embedding" p0 p1 ltac:(cbn; tauto)) in H1; [|exact F0].
  apply bind_Ok in H. destruct H as (p2 & H2 & H).
  apply (Hemb "title" "title_embedding" p1 p2 ltac:(cbn; tauto)) in H2; [|exact H1].
  apply bind_Ok in H. destruct H as (p3 & H3 & H).
  apply (Hemb "category" "category_embedding" p2 p3 ltac:(cbn; tauto)) in H3; [|exact H2].
  apply bind_Ok in H. destruct H as (p4 & H4 & H).
  assert (F4 : same_outside generated_keys clone p4).
  { destruct sparse as [[|t l]|]; try (now injection H4 as <-).
    eapply same_outside_trans; [exact H3|].
    eapply set_attribute_frame; [|exact H4]. cbn; tauto. }
  apply bind_Ok in H. destruct H as (p5 & H5 & H).
  assert (F5 : same_outside generated_keys clone p5).
  { destruct hybrid as [score|]; [destruct (JsNumber.truthy score)|];
      try (now injection H5 as <-).
    eapply same_outside_trans; [exact F4|].
    eapply set_attribute_frame; [|exact H5]. cbn; tauto. }
  eapply same_outside_trans; [exact F5|].
  eapply set_attribute_frame; [|exact H]. cbn; tauto.
Qed.

Section EnrichmentFacts.
Variable tokenize : string -> list string.
Variable stem : string -> string.
Variable stopword : string -> bool.
Variable Math_sin : float -> float.

Lemma enrich_result (product r : value) (format : string) (st st' : RegexState) :
  enrich tokenize stem stopword Math_sin product format st = (Ok r, st') ->
  r = product
  \/ exists dense sparse hybrid, inject product dense sparse hybrid = Ok r.
Proof.
  unfold enrich. intros H.
  apply and_then_Ok in H. destruct H as ([g|] & st0 & _ & H).
  - injection H as H _. right. eauto.
  - injection H as <- _. now left.
Qed.

(** A successful [addEmbeddingsToProduct] returns either its argument or
    the JSON clone of the argument changed at the six generated attributes
    only. *)
Lemma addEmbeddingsToProduct_frame :
  forall (o : list (string * value)) (format : string) (st st' : RegexState) (r : value),
    addEmbeddingsToProduct tokenize stem stopword Math_sin (VObj o) format st = (Ok r, st') ->
    (r = VObj o
     \/ exists clone, json_value (VObj o) = Some clone /\ same_outside generated_keys clone r)
    /\ (json_value (VObj o) = Some (VObj o) -> same_outside generated_keys (VObj o) r).
Proof.
  intros o format st st' r H.
  assert (Hr : r = VObj o
               \/ exists clone, json_value (VObj o) = Some clone
                                /\ same_outside generated_keys clone r).
  { unfold addEmbeddingsToProduct in H.
    destruct (enrich tokenize stem stopword Math_sin (VObj o) format st) as [[q|e] st0] eqn:E.
    - injection H as <- <-. apply enrich_result in E.
      destruct E as [->|(dense & sparse & hybrid & E)]; [now left|].
      right. destruct (json_value (VObj o)) as [clone|] eqn:Hc.
      + exists clone. split; [reflexivity|]. eapply inject_frame; eauto.
      + unfold inject, json_clone in E. rewrite Hc in E. discriminate E.
    - cbn in H. injection H as <- _. now left. }
  split; [exact Hr|].
  intros Hs. destruct Hr as [->|(clone & Hc & F)].
  - apply same_outside_refl.
  - rewrite Hs in Hc. now injection Hc as <-.
Qed.

End EnrichmentFacts.

(** ** The store *)

Section ValueInduction.
Variable P : value -> Prop.
Hypothesis Hundef : P VUndef.
Hypothesis Hnull : P VNull.
Hypothesis Hbool : forall b, P (VBool b).
Hypothesis Hnum : forall x, P (VNum x).
Hypothesis Hstr : forall s, P (VStr s).
Hypothesis Harr : forall l, List.Forall P l -> P (VArr l).
Hypothesis Hobj : forall o, List.Forall (fun e => P (snd e)) o -> P (VObj o).

Fixpoint value_induction (v : value) : P v :=
  match v with
  | VUndef => Hundef
  | VNull => Hnull
  | VBool b => Hbool b
  | VNum x => Hnum x
  | VStr s => Hstr s
  | VArr l =>
      Harr l ((fix all (l : list value) : List.Forall P l :=
                 match l with
                 | [] => @List.Forall_nil _ P
                 | x :: t => @List.Forall_cons _ P x t (value_induction x) (all t)
                 end) l)
  | VObj o =>
      Hobj o ((fix all (o : list (string * value)) : List.Forall (fun e => P (snd e)) o :=
                 match o with
                 | [] => @List.Forall_nil _ (fun e => P (snd e))
                 | e :: t => @List.Forall_cons _ (fun e => P (snd e)) e t (value_induction (snd e)) (all t)
                 end) o)
  end.
End ValueInduction.

Lemma all_some_map {A B : Type} (f g : A -> option B) (l : list A) (ys : list B) :
  (forall x y, In x l -> f x = Some y -> g x = Some y) ->
  all_some (List.map f l) = Some ys -> all_some (List.map g l) = Some ys.
Proof.
  revert ys. induction l as [|x l IH]; intros ys H; cbn; [auto|].
  destruct (f x) as [y|] eqn:E; [|discriminate].
  rewrite (H x y (or_introl eq_refl) E).
  destruct (all_some (List.map f l)) as [ys'|] eqn:E'; [|discriminate].
  rewrite (IH ys') by (try reflexivity; intros; apply H; auto; now right).
  auto.
Qed.

Lemma load_mono (n m : nat) (h : store) (r : ref) (v : value) :
  load n h r = Some v -> n <= m -> load m h r = Some v.
Proof.
  revert m r v. induction n as [|n IH]; intros m r v H Hm; destruct r; try exact H;
    try (destruct m; exact H); try discriminate.
  destruct m as [|m]; [lia|]. cbn [load] in *.
  destruct (h !! l) as [[items|fields]|]; [| |discriminate].
  - destruct (all_some (List.map (load n h) items)) as [vs|] eqn:E; [|discriminate].
    erewrite all_some_map; [exact H| |exact E].
    intros x y _ Hx. apply IH; [exact Hx | lia].
  - destruct (all_some (List.map (fun f => option_map (pair (fst f)) (load n h (snd f))) fields))
      as [vs|] eqn:E; [|discriminate].
    erewrite all_some_map; [exact H| |exact E].
    intros x y _ Hx. cbn in *. destruct (load n h (snd x)) as [w|] eqn:Ew; [|discriminate].
    rewrite (IH m (snd x) w Ew) by lia. exact Hx.
Qed.

Lemma load_agree (n : nat) (h h' : store) (r : ref) (v : value) :
  load n h r = Some v -> untouched h h' -> load n h' r = Some v.
Proof.
  revert r v. induction n as [|n IH]; intros r v H Hh; destruct r; try exact H.
  cbn [load] in *.
  destruct (h !! l) as [c|] eqn:El; [|discriminate]. rewrite (Hh l c El).
  destruct c as [items|fields].
  - destruct (all_some (List.map (load n h) items)) as [vs|] eqn:E; [|discriminate].
    erewrite all_some_map; [exact H| |exact E].
    intros x y _ Hx. now apply IH.
  - destruct (all_some (List.map (fun f => option_map (pair (fst f)) (load n h (snd f))) fields))
      as [vs|] eqn:E; [|discriminate].
    erewrite all_some_map; [exact H| |exact E].
    intros x y _ Hx. cbn in *. destruct (load n h (snd x)) as [w|] eqn:Ew; [|discriminate].
    rewrite (IH (snd x) w Ew Hh). exact Hx.
Qed.

Lemma all_some_fields (g : ref -> option value) (fs : list (string * ref))
    (o : list (string * value)) :
  Forall2 (fun f e => fst f = fst e /\ g (snd f) = Some (snd e)) fs o ->
  all_some (List.map (fun f => option_map (pair (fst f)) (g (snd f))) fs) = Some o.
Proof.
  induction 1 as [|f e fs o [Hk Hv] _ IH]; [reflexivity|].
  cbn. rewrite Hv. cbn. rewrite IH. cbn. destruct e; cbn in *. now subst.
Qed.

Lemma all_some_items (g : ref -> option value) (rs : list ref) (vs : list value) :
  Forall2 (fun r v => g r = Some v) rs vs -> all_some (List.map g rs) = Some vs.
Proof.
  induction 1 as [|r v rs vs Hv _ IH]; [reflexivity|].
  cbn. rewrite Hv. rewrite IH. reflexivity.
Qed.

Lemma load_obj (n : nat) (H : store) (l : nat) (fs : list (string * ref))
    (o : list (string * value)) :
  H !! l = Some (CObj fs) ->
  Forall2 (fun f e => fst f = fst e /\ load n H (snd f) = Some (snd e)) fs o ->
  load (S n) H (RLoc l) = Some (VObj o).
Proof.
  intros Hl Hfs. cbn [load]. rewrite Hl.
  now rewrite (all_some_fields (load n H) fs o Hfs).
Qed.

Lemma load_arr (n : nat) (H : store) (l : nat) (rs : list ref) (vs : list value) :
  H !! l = Some (CArr rs) ->
  Forall2 (fun r v => load n H r = Some v) rs vs ->
  load (S n) H (RLoc l) = Some (VArr vs).
Proof.
  intros Hl Hrs. cbn [load]. rewrite Hl.
  now rewrite (all_some_items (load n H) rs vs Hrs).
Qed.

Lemma alloc_obj (o : list (string * value)) (h : store) :
  alloc (VObj o) h
  = let '(fs, h') := alloc_fields o h in (RLoc (List.length h'), (h' ++ [CObj fs])%list).
Proof. reflexivity. Qed.

Lemma alloc_arr (l : list value) (h : store) :
  alloc (VArr l) h
  = let '(rs, h') := alloc_items l h in (RLoc (List.length h'), (h' ++ [CArr rs])%list).
Proof. reflexivity. Qed.

(** One fuel for all the fields. *)
Lemma fields_fuel (Q : store -> Prop) (fs : list (string * ref)) (o : list (string * value)) :
  Forall2 (fun f e => fst f = fst e
                      /\ exists n, forall H', Q H' -> load n H' (snd f) = Some (snd e)) fs o ->
  exists n, forall H', Q H' ->
      Forall2 (fun f e => fst f = fst e /\ load n H' (snd f) = Some (snd e)) fs o.
Proof.
  induction 1 as [|f e fs o [Hk [n Hn]] _ [m Hm]].
  - exists 0. constructor.
  - exists (n + m). intros H' HQ. constructor.
    + split; [exact Hk|]. apply (load_mono n); [auto | lia].
    + eapply Forall2_impl; [exact (Hm H' HQ)|].
      intros f' e' [Hk' Hv']. split; [exact Hk'|]. apply (load_mono m); [auto | lia].
Qed.

Lemma items_fuel (Q : store -> Prop) (rs : list ref) (vs : list value) :
  Forall2 (fun r v => exists n, forall H', Q H' -> load n H' r = Some v) rs vs ->
  exists n, forall H', Q H' -> Forall2 (fun r v => load n H' r = Some v) rs vs.
Proof.
  induction 1 as [|r v rs vs [n Hn] _ [m Hm]].
  - exists 0. constructor.
  - exists (n + m). intros H' HQ. constructor.
    + apply (load_mono n); [auto | lia].
    + eapply Forall2_impl; [exact (Hm H' HQ)|].
      intros r' v' Hv'. apply (load_mono m); [auto | lia].
Qed.

Lemma rep_transfer (lo hi lo' hi' : nat) (H H1 : store) (r : ref) (v : value) :
  rep lo hi H r v ->
  lo' <= lo -> hi <= hi' ->
  (forall l, lo <= l < hi -> H1 !! l = H !! l) ->
  rep lo' hi' H1 r v.
Proof.
  intros [n Hn] Hlo Hhi Hag. exists n. intros H' HQ. apply Hn.
  intros l Hl. rewrite <- Hag by exact Hl. apply HQ. lia.
Qed.

Lemma lookup_app_old {A : Type} (h ext : list A) (l : nat) :
  l < List.length h -> (h ++ ext)%list !! l = h !! l.
Proof. intros H. apply lookup_app_l. exact H. Qed.

Lemma alloc_fields_ok (o : list (string * value)) :
  List.Forall (fun e => alloc_ok (snd e)) o ->
  forall h, exists ext,
    snd (alloc_fields o h) = (h ++ ext)%list
    /\ Forall2 (fun f e => fst f = fst e
                           /\ rep (List.length h) (List.length (snd (alloc_fields o h)))
                                (snd (alloc_fields o h)) (snd f) (snd e))
         (fst (alloc_fields o h)) o.
Proof.
  induction 1 as [|[k x] o Hx _ IH]; intros h.
  - exists []. cbn. rewrite app_nil_r. split; [reflexivity | constructor].
  - cbn [alloc_fields]. cbn [snd] in Hx.
    destruct (Hx h) as (e1 & E1 & R1).
    destruct (alloc x h) as [r h1]. cbn [fst snd] in *.
    destruct (IH h1) as (e2 & E2 & R2).
    destruct (alloc_fields o h1) as [fs h2]. cbn [fst snd] in *.
    subst h1 h2. exists (e1 ++ e2)%list. split; [now rewrite app_assoc|].
    rewrite !length_app in *. constructor.
    + split; [reflexivity|]. cbn [snd].
      eapply rep_transfer; [exact R1 | lia | lia |].
      intros l Hl. apply lookup_app_old. rewrite length_app. lia.
    + eapply Forall2_impl; [exact R2|].
      intros f e [Hk R]. split; [exact Hk|].
      eapply rep_transfer; [exact R | lia | lia | reflexivity].
Qed.

Lemma alloc_items_ok (l : list value) :
  List.Forall alloc_ok l ->
  forall h, exists ext,
    snd (alloc_items l h) = (h ++ ext)%list
    /\ Forall2 (fun r v => rep (List.length h) (List.length (snd (alloc_items l h)))
                             (snd (alloc_items l h)) r v)
         (fst (alloc_items l h)) l.
Proof.
  induction 1 as [|x l Hx _ IH]; intros h.
  - exists []. cbn. rewrite app_nil_r. split; [reflexivity | constructor].
  - cbn [alloc_items].
    destruct (Hx h) as (e1 & E1 & R1).
    destruct (alloc x h) as [r h1]. cbn [fst snd] in *.
    destruct (IH h1) as (e2 & E2 & R2).
    destruct (alloc_items l h1) as [rs h2]. cbn [fst snd] in *.
    subst h1 h2. exists (e1 ++ e2)%list. split; [now rewrite app_assoc|].
    rewrite !length_app in *. constructor.
    + eapply rep_transfer; [exact R1 | lia | lia |].
      intros l' Hl. apply lookup_app_old. rewrite length_app. lia.
    + eapply Forall2_impl; [exact R2|].
      intros r' v' R.
      eapply rep_transfer; [exact R | lia | lia | reflexivity].
Qed.

Lemma alloc_spec (v : value) : alloc_ok v.
Proof.
  induction v as [| | | | |l IH|o IH] using value_induction; intros h;
    try (exists []; cbn; rewrite app_nil_r; split; [reflexivity|]; exists 0; reflexivity).
  - rewrite alloc_arr.
    destruct (alloc_items_ok l IH h) as (ext & E & R).
    destruct (alloc_items l h) as [rs h1]. cbn [fst snd] in *. subst h1.
    exists (ext ++ [CArr rs])%list. split; [now rewrite app_assoc|].
    destruct (items_fuel _ _ _ R) as [n Hn].
    exists (S n). intros H' HQ. apply (load_arr _ _ _ rs).
    + rewrite HQ by (rewrite !length_app; cbn; lia).
      apply list_lookup_middle. reflexivity.
    + apply Hn. intros l' Hl. rewrite HQ by (rewrite !length_app in *; cbn; lia).
      apply lookup_app_old. lia.
  - rewrite alloc_obj.
    destruct (alloc_fields_ok o IH h) as (ext & E & R).
    destruct (alloc_fields o h) as [fs h1]. cbn [fst snd] in *. subst h1.
    exists (ext ++ [CObj fs])%list. split; [now rewrite app_assoc|].
    destruct (fields_fuel _ _ _ R) as [n Hn].
    exists (S n). intros H' HQ. apply (load_obj _ _ _ fs).
    + rewrite HQ by (rewrite !length_app; cbn; lia).
      apply list_lookup_middle. reflexivity.
    + apply Hn. intros l' Hl. rewrite HQ by (rewrite !length_app in *; cbn; lia).
      apply lookup_app_old. lia.
Qed.

Lemma stable_mono (A : list nat) (H H1 : store) (r : ref) (v : value) :
  stable A H r v ->
  List.length H <= List.length H1 ->
  (forall l, l < List.length H -> ~ In l A -> H1 !! l = H !! l) ->
  stable A H1 r v.
Proof.
  intros [n Hn] Hlen Hag. exists n. intros H' HQ. apply Hn.
  intros l Hl HA. rewrite <- Hag by assumption. apply HQ; [lia | exact HA].
Qed.

Lemma stable_of_rep (A : list nat) (lo hi : nat) (H : store) (r : ref) (v : value) :
  rep lo hi H r v ->
  hi <= List.length H ->
  (forall l, In l A -> ~ (lo <= l < hi)) ->
  stable A H r v.
Proof.
  intros [n Hn] Hhi HA. exists n. intros H' HQ. apply Hn.
  intros l Hl. apply HQ; [lia|]. intros Hin. exact (HA l Hin Hl).
Qed.

Lemma stable_load (A : list nat) (H : store) (r : ref) (v : value) :
  stable A H r v -> exists n, load n H r = Some v.
Proof. intros [n Hn]. exists n. apply Hn. reflexivity. Qed.

Lemma fields_stable_mono (A : list nat) (H H1 : store)
    (fs : list (string * ref)) (o : list (string * value)) :
  Forall2 (field_stable A H) fs o ->
  List.length H <= List.length H1 ->
  (forall l, l < List.length H -> ~ In l A -> H1 !! l = H !! l) ->
  Forall2 (field_stable A H1) fs o.
Proof.
  intros HF Hlen Hag. eapply Forall2_impl; [exact HF|].
  intros f e [Hk Hs]. split; [exact Hk|]. eapply stable_mono; eauto.
Qed.

Lemma fields_keys (A : list nat) (H : store)
    (fs : list (string * ref)) (o : list (string * value)) :
  Forall2 (field_stable A H) fs o -> List.map fst fs = List.map fst o.
Proof. induction 1 as [|f e fs o [Hk _] _ IH]; cbn; congruence. Qed.

Lemma fields_set (A : list nat) (H : store) (k : string) (r : ref) (x : value)
    (fs : list (string * ref)) (o : list (string * value)) :
  Forall2 (field_stable A H) fs o ->
  stable A H r x ->
  Forall2 (field_stable A H) (set k r fs) (set k x o).
Proof.
  intros HF Hr. induction HF as [|[k1 r1] [k2 x2] fs o [Hk Hs] HF IH]; cbn in *.
  - constructor; [split; auto | constructor].
  - subst k2. destruct (String.eqb k k1).
    + constructor; [split; auto | exact HF].
    + constructor; [split; auto | exact IH].
Qed.

Lemma fields_assoc (A : list nat) (H : store) (k : string)
    (fs : list (string * ref)) (o : list (string * value)) :
  Forall2 (field_stable A H) fs o ->
  match assoc k fs, assoc k o with
  | Some r, Some x => stable A H r x
  | None, None => True
  | _, _ => False
  end.
Proof.
  induction 1 as [|[k1 r1] [k2 x2] fs o [Hk Hs] HF IH]; cbn in *; [exact I|].
  subst k2. destruct (String.eqb k k1); [exact Hs | exact IH].
Qed.

Lemma assoc_split {A : Type} (k : string) (x : A) (o : list (string * A)) :
  assoc k o = Some x ->
  exists o1 o2, o = (o1 ++ (k, x) :: o2)%list /\ ~ In k (List.map fst o1).
Proof.
  induction o as [|[k1 y] o IH]; cbn; [discriminate|].
  destruct (String.eqb k k1) eqn:E.
  - intros [= ->]. apply String.eqb_eq in E. subst k1. exists [], o. split; [reflexivity | cbn; tauto].
  - intros Hx. destruct (IH Hx) as (o1 & o2 & -> & Hn).
    exists ((k1, y) :: o1), o2. split; [reflexivity|].
    cbn. intros [->|Hin]; [now rewrite String.eqb_refl in E | tauto].
Qed.

Lemma assoc_app_notin {A : Type} (k : string) (o1 o2 : list (string * A)) :
  ~ In k (List.map fst o1) -> assoc k (o1 ++ o2) = assoc k o2.
Proof.
  induction o1 as [|[k1 y] o1 IH]; cbn; [reflexivity|].
  intros Hn. destruct (String.eqb k k1) eqn:E.
  - apply String.eqb_eq in E. subst k1. tauto.
  - apply IH. tauto.
Qed.

Lemma set_app_notin {A : Type} (k : string) (x : A) (o1 o2 : list (string * A)) :
  ~ In k (List.map fst o1) -> set k x (o1 ++ o2) = (o1 ++ set k x o2)%list.
Proof.
  induction o1 as [|[k1 y] o1 IH]; cbn; [reflexivity|].
  intros Hn. destruct (String.eqb k k1) eqn:E.
  - apply String.eqb_eq in E. subst k1. tauto.
  - rewrite IH by tauto. reflexivity.
Qed.

Lemma set_head {A : Type} (k : string) (x y : A) (o : list (string * A)) :
  set k x ((k, y) :: o) = (k, x) :: o.
Proof. cbn. now rewrite String.eqb_refl. Qed.

Lemma assoc_head {A : Type} (k : string) (y : A) (o : list (string * A)) :
  assoc k ((k, y) :: o) = Some y.
Proof. cbn. now rewrite String.eqb_refl. Qed.

Lemma sim_untouched (h H : store) (lr : nat) (v : value) : sim h H lr v -> untouched h H.
Proof. intros [la o1 o2 a (fs1 & fs2 & fa & Hu & _)|fs o x Hu _ _ _ _ _ _]; exact Hu. Qed.

Lemma fields_load (A : list nat) (H : store)
    (fs : list (string * ref)) (o : list (string * value)) :
  Forall2 (field_stable A H) fs o ->
  exists n, forall H',
      (forall l, l < List.length H -> ~ In l A -> H' !! l = H !! l) ->
      Forall2 (fun f e => fst f = fst e /\ load n H' (snd f) = Some (snd e)) fs o.
Proof. intros HF. apply (fields_fuel _ fs o). exact HF. Qed.

Lemma sim_load (h H : store) (lr : nat) (v : value) :
  sim h H lr v -> exists n, load n H (RLoc lr) = Some v.
Proof.
  intros [la o1 o2 a (fs1 & fs2 & fa & Hu & Hlr & Hla & Hne & Er & Ea & Hn & F1 & F2 & Fa)
         |fs o x Hu Hlr Er F _ _ _].
  - destruct (fields_load _ _ _ _ F1) as [n1 L1].
    destruct (fields_load _ _ _ _ F2) as [n2 L2].
    destruct (fields_load _ _ _ _ Fa) as [na La].
    exists (S (S (n1 + n2 + na))).
    apply (load_obj _ _ _ (fs1 ++ ("attributes", RLoc la) :: fs2)%list); [exact Er|].
    apply Forall2_app; [|constructor].
    + eapply Forall2_impl; [apply L1; reflexivity|].
      intros f e [Hk Hv]. split; [exact Hk|]. apply (load_mono n1); [exact Hv | lia].
    + split; [reflexivity|]. cbn [snd].
      apply (load_mono (S na)); [|lia].
      apply (load_obj _ _ _ fa); [exact Ea|]. apply La. reflexivity.
    + eapply Forall2_impl; [apply L2; reflexivity|].
      intros f e [Hk Hv]. split; [exact Hk|]. apply (load_mono n2); [exact Hv | lia].
  - destruct (fields_load _ _ _ _ F) as [n L].
    exists (S n). apply (load_obj _ _ _ fs); [exact Er|]. apply L. reflexivity.
Qed.

Lemma load_shape (n : nat) (H : store) (r : ref) (v : value) :
  load n H r = Some v ->
  match v with
  | VUndef => r = RUndef
  | VNull => r = RNull
  | VBool b => r = RBool b
  | VNum x => r = RNum x
  | VStr s => r = RStr s
  | VArr _ => exists l rs, r = RLoc l /\ H !! l = Some (CArr rs)
  | VObj _ => exists l fs, r = RLoc l /\ H !! l = Some (CObj fs)
  end.
Proof.
  destruct n, r; cbn; try (intros [= <-]; reflexivity); try discriminate.
  destruct (H !! l) as [[rs|fs]|] eqn:E; [| |discriminate].
  - destruct (all_some _); [|discriminate]. intros [= <-]. eauto.
  - destruct (all_some _); [|discriminate]. intros [= <-]. eauto.
Qed.

Lemma set_attribute_in_store_eq (k : string) (x : value) (lr : nat) (H : store)
    (fs : list (string * ref)) :
  H !! lr = Some (CObj fs) ->
  set_attribute_in_store k x (RLoc lr) H
  = assign (match assoc "attributes" fs with Some r => r | None => RUndef end) k
      (fst (alloc x H)) (snd (alloc x H)).
Proof.
  intros E. unfold set_attribute_in_store, mbind, store_op_bind, op_bind, field, parse.
  rewrite E. destruct (alloc x H). reflexivity.
Qed.

Lemma untouched_app (h H ext : store) : untouched h H -> untouched h (H ++ ext)%list.
Proof. intros Hu l c Hl. apply lookup_app_l_Some. now apply Hu. Qed.

Lemma untouched_insert (h H : store) (l : nat) (c : cell) :
  untouched h H -> List.length h <= l -> untouched h (<[l := c]> H).
Proof.
  intros Hu Hl l' c' E. rewrite list_lookup_insert_ne; [now apply Hu|].
  apply lookup_lt_Some in E. lia.
Qed.

Lemma set_attribute_simulates (h : store) (lr : nat) (k : string) (x : value) :
  simulates h lr (set_attribute_in_store k x (RLoc lr)) (set_attribute k x).
Proof.
  intros H v Hsim.
  destruct Hsim as [la o1 o2 a (fs1 & fs2 & fa & Hu & Hlr & Hla & Hne & Er & Ea & Hn & F1 & F2 & Fa)
                   |fs o x0 Hu Hlr Er F Hx Hno Ht].
  - rewrite (set_attribute_in_store_eq k x lr H _ Er).
    rewrite assoc_app_notin by (rewrite (fields_keys _ _ _ _ F1); exact Hn).
    rewrite assoc_head.
    destruct (alloc_spec x H) as (ext & E & R).
    destruct (alloc x H) as [rx H1]. cbn [fst snd] in *. subst H1.
    pose proof (lookup_lt_Some _ _ _ Er) as Hlr'.
    pose proof (lookup_lt_Some _ _ _ Ea) as Hla'.
    unfold assign. rewrite (lookup_app_l_Some _ _ _ _ Ea).
    unfold set_attribute. rewrite assoc_app_notin by exact Hn. rewrite assoc_head.
    rewrite set_app_notin by exact Hn. rewrite set_head.
    cbn [outcome_agrees]. apply (sim_object _ _ _ la).
    set (H2 := <[la := CObj (set k rx fa)]> (H ++ ext)%list).
    assert (Hlen : List.length H <= List.length H2)
      by (unfold H2; rewrite length_insert, length_app; lia).
    assert (Hag : forall l, l < List.length H -> ~ In l [la; lr] -> H2 !! l = H !! l).
    { intros l Hl Hnot. unfold H2. rewrite list_lookup_insert_ne by (cbn in Hnot; tauto).
      now apply lookup_app_l. }
    exists fs1, fs2, (set k rx fa). repeat split; try assumption.
    + unfold H2. apply untouched_insert; [|exact Hla]. now apply untouched_app.
    + unfold H2. rewrite list_lookup_insert_ne by exact Hne.
      now apply lookup_app_l_Some.
    + unfold H2. apply list_lookup_insert_eq. rewrite length_app. lia.
    + eapply fields_stable_mono; eauto.
    + eapply fields_stable_mono; eauto.
    + apply fields_set; [eapply fields_stable_mono; eauto|].
      apply (stable_of_rep _ (List.length H) (List.length (H ++ ext)%list)).
      * eapply rep_transfer; [exact R | lia | lia |].
        intros l Hl. unfold H2. apply list_lookup_insert_ne. lia.
      * unfold H2. rewrite length_insert. lia.
      * intros l [<-|[<-|[]]]; lia.
  - rewrite (set_attribute_in_store_eq k x lr H _ Er).
    pose proof (fields_assoc _ _ "attributes" _ _ F) as Hattr. rewrite Hx in Hattr.
    destruct (assoc "attributes" fs) as [r|]; [|contradiction].
    destruct (stable_load _ _ _ _ Hattr) as [n Hload].
    apply load_shape in Hload.
    destruct (alloc_spec x H) as (ext & E & R).
    destruct (alloc x H) as [rx H1]. cbn [fst snd] in *. subst H1.
    unfold set_attribute. rewrite Hx.
    destruct x0 as [| |b|y|s|l|a]; try discriminate Ht.
    + subst r. exact (untouched_app _ _ _ Hu).
    + subst r. exact (untouched_app _ _ _ Hu).
    + subst r. exact (untouched_app _ _ _ Hu).
    + destruct Hload as (l' & rs & -> & El). unfold assign.
      rewrite (lookup_app_l_Some _ _ _ _ El). cbn [outcome_agrees].
      apply (sim_other _ _ _ fs o (VArr l)); try assumption.
      * now apply untouched_app.
      * now apply lookup_app_l_Some.
      * eapply fields_stable_mono; [exact F | rewrite length_app; lia |].
        intros l0 Hl0 _. now apply lookup_app_l.
    + exfalso. exact (Hno a eq_refl).
Qed.

Lemma skip_simulates (h : store) (lr : nat) : simulates h lr (mret tt) Ok.
Proof. intros H v Hsim. exact Hsim. Qed.

Lemma seq_simulates (h : store) (lr : nat) (c1 c2 : store_op unit)
    (p1 p2 : value -> res value) :
  simulates h lr c1 p1 -> simulates h lr c2 p2 ->
  simulates h lr (_ ← c1; c2) (fun v => v ← p1 v; p2 v).
Proof.
  intros S1 S2 H v Hsim. specialize (S1 H v Hsim).
  unfold mbind, store_op_bind, op_bind.
  destruct (c1 H) as [[[]|e] H1], (p1 v) as [v1|e']; cbn in *; try contradiction.
  - apply S2. exact S1.
  - exact S1.
Qed.

Lemma alloc_fields_spec (o : list (string * value)) (h : store) :
  exists ext,
    snd (alloc_fields o h) = (h ++ ext)%list
    /\ Forall2 (fun f e => fst f = fst e
                           /\ rep (List.length h) (List.length (snd (alloc_fields o h)))
                                (snd (alloc_fields o h)) (snd f) (snd e))
         (fst (alloc_fields o h)) o.
Proof.
  apply alloc_fields_ok. apply List.Forall_forall. intros e _. apply alloc_spec.
Qed.

Lemma alloc_fields_app (o1 o2 : list (string * value)) (h : store) :
  alloc_fields (o1 ++ o2) h
  = let '(fs1, h1) := alloc_fields o1 h in
    let '(fs2, h2) := alloc_fields o2 h1 in
    ((fs1 ++ fs2)%list, h2).
Proof.
  revert h. induction o1 as [|[k x] o1 IH]; intros h; cbn [alloc_fields app].
  - destruct (alloc_fields o2 h). reflexivity.
  - destruct (alloc x h) as [r h1]. rewrite IH.
    destruct (alloc_fields o1 h1) as [fs1 h2]. destruct (alloc_fields o2 h2). reflexivity.
Qed.

Lemma fields_set_split (A : list nat) (H : store) (k : string) (r : ref) (x : value)
    (fs : list (string * ref)) (o : list (string * value)) :
  Forall2 (field_stable A H) fs o ->
  exists fs1 fs2 o1 o2,
    set k r fs = (fs1 ++ (k, r) :: fs2)%list
    /\ set k x o = (o1 ++ (k, x) :: o2)%list
    /\ ~ In k (List.map fst o1)
    /\ Forall2 (field_stable A H) fs1 o1
    /\ Forall2 (field_stable A H) fs2 o2.
Proof.
  induction 1 as [|[k1 r1] [k2 x2] fs o [Hk Hs] HF IH]; cbn in *.
  - exists [], [], [], []. repeat split; auto.
  - subst k2. destruct (String.eqb k k1) eqn:E.
    + exists [], fs, [], o. repeat split; auto.
    + destruct IH as (fs1 & fs2 & o1 & o2 & -> & -> & Hn & F1 & F2).
      exists ((k1, r1) :: fs1), fs2, ((k1, x2) :: o1), o2. repeat split; auto.
      * cbn. intros [->|Hin]; [now rewrite String.eqb_refl in E | tauto].
      * constructor; [split; auto | exact F1].
Qed.

Lemma fields_of_rep (A : list nat) (lo hi : nat) (Hs H : store)
    (fs : list (string * ref)) (o : list (string * value)) :
  Forall2 (fun f e => fst f = fst e /\ rep lo hi Hs (snd f) (snd e)) fs o ->
  (forall l, lo <= l < hi -> H !! l = Hs !! l) ->
  hi <= List.length H ->
  (forall l, In l A -> ~ (lo <= l < hi)) ->
  Forall2 (field_stable A H) fs o.
Proof.
  intros HF Hag Hhi HA. eapply Forall2_impl; [exact HF|].
  intros f e [Hk R]. split; [exact Hk|].
  apply (stable_of_rep A lo hi); [|exact Hhi|exact HA].
  eapply rep_transfer; [exact R | lia | lia | exact Hag].
Qed.

Lemma attributes_truthy (H : store) (k : string)
    (fs : list (string * ref)) (o : list (string * value)) :
  Forall2 (field_stable [] H) fs o ->
  ref_truthy (match assoc k fs with Some r => r | None => RUndef end)
  = truthy (match assoc k o with Some x => x | None => VUndef end).
Proof.
  intros F. pose proof (fields_assoc _ _ k _ _ F) as Hk.
  destruct (assoc k fs) as [r|], (assoc k o) as [x|]; try contradiction; [|reflexivity].
  destruct (stable_load _ _ _ _ Hk) as [n Hn]. apply load_shape in Hn.
  destruct x; try (subst r; reflexivity).
  - destruct Hn as (l' & rs & -> & _). reflexivity.
  - destruct Hn as (l' & fs' & -> & _). reflexivity.
Qed.

Lemma ensure_attributes_in_store_eq (lr : nat) (H : store) (fs : list (string * ref)) :
  H !! lr = Some (CObj fs) ->
  ensure_attributes_in_store (RLoc lr) H
  = if ref_truthy (match assoc "attributes" fs with Some r => r | None => RUndef end)
    then (Ok tt, H)
    else (Ok tt, <[lr := CObj (set "attributes" (RLoc (List.length H)) fs)]>
                   (H ++ [CObj []])%list).
Proof.
  intros E. unfold ensure_attributes_in_store, mbind, store_op_bind, op_bind, field.
  rewrite E. destruct (ref_truthy _); [reflexivity|].
  unfold parse. cbn [alloc]. cbn [app]. unfold assign.
  rewrite (lookup_app_l_Some _ _ _ _ E). reflexivity.
Qed.

Ltac is_prefix := first [reflexivity | apply prefix_app_r; is_prefix].

Ltac old_lookup :=
  symmetry; apply prefix_lookup_lt;
  [rewrite ?length_app in *; cbn [List.length] in *; lia | is_prefix].

Lemma untouched_refl (h : store) : untouched h h.
Proof. intros l c E. exact E. Qed.

(** The clone of an object, once its [attributes] are ensured. *)
Lemma clone_sim (o : list (string * value)) (h : store) :
  exists lr H0,
    alloc (VObj o) h = (RLoc lr, H0)
    /\ untouched h H0
    /\ outcome_agrees h lr (ensure_attributes_in_store (RLoc lr) H0)
         (ensure_attributes (VObj o)).
Proof.
  destruct (assoc "attributes" o) as [[| | | | | |a]|] eqn:Hx.
  7: {
    (* the attributes are an object *)
    destruct (assoc_split _ _ _ Hx) as (o1 & o2 & -> & Hn).
    rewrite alloc_obj, alloc_fields_app.
    destruct (alloc_fields_spec o1 h)
      as (e1 & E1 & F1).
    destruct (alloc_fields o1 h) as [fs1 h1]. cbn [fst snd] in *. subst h1.
    cbn [alloc_fields]. rewrite alloc_obj.
    destruct (alloc_fields_spec a (h ++ e1)%list) as (e2 & E2 & Fa).
    destruct (alloc_fields a (h ++ e1)%list) as [fa h2]. cbn [fst snd] in *. subst h2.
    destruct (alloc_fields_spec o2 (((h ++ e1) ++ e2) ++ [CObj fa])%list) as (e3 & E3 & F2).
    destruct (alloc_fields o2 _) as [fs2 h4]. cbn [fst snd] in *. subst h4.
    set (la := List.length ((h ++ e1) ++ e2)%list) in *.
    set (h3 := (((h ++ e1) ++ e2) ++ [CObj fa])%list) in *.
    set (lr := List.length (h3 ++ e3)%list).
    set (root := CObj (fs1 ++ ("attributes", RLoc la) :: fs2)%list).
    exists lr, ((h3 ++ e3) ++ [root])%list.
    assert (Hu : untouched h ((h3 ++ e3) ++ [root])%list).
    { unfold h3. repeat apply untouched_app. apply untouched_refl. }
    assert (Er : ((h3 ++ e3) ++ [root])%list !! lr = Some root)
      by (apply list_lookup_middle; reflexivity).
    assert (Ea : ((h3 ++ e3) ++ [root])%list !! la = Some (CObj fa)).
    { rewrite <- app_assoc. rewrite lookup_app_l by (unfold la, h3; rewrite !length_app; cbn; lia).
      unfold h3. apply list_lookup_middle. reflexivity. }
    assert (Hla : la < lr) by (unfold la, lr, h3; rewrite !length_app; cbn; lia).
    assert (Hh : List.length h <= la) by (unfold la; rewrite !length_app; lia).
    split; [reflexivity|]. split; [exact Hu|].
    rewrite (ensure_attributes_in_store_eq lr _ _ Er).
    assert (K1 : List.map fst fs1 = List.map fst o1).
    { clear -F1. induction F1 as [|f e fs o [Hk _] _ IH]; cbn; congruence. }
    rewrite assoc_app_notin by (rewrite K1; exact Hn). rewrite assoc_head.
    cbn [ref_truthy]. unfold ensure_attributes, prop.
    rewrite assoc_app_notin by exact Hn. rewrite assoc_head. cbn [truthy mret].
    cbn [outcome_agrees]. apply (sim_object _ _ _ la).
    exists fs1, fs2, fa. repeat split; try assumption; try lia.
    - apply (fields_of_rep _ _ _ _ _ _ _ F1).
      + intros l Hl. unfold la, h3 in *. old_lookup.
      + unfold la, h3 in *. rewrite !length_app in *. cbn [List.length] in *. lia.
      + intros l [<-|[<-|[]]]; unfold la, lr, h3; rewrite !length_app; cbn; lia.
    - apply (fields_of_rep _ _ _ _ _ _ _ F2).
      + intros l Hl. unfold la, h3 in *. old_lookup.
      + unfold la, h3 in *. rewrite !length_app in *. cbn [List.length] in *. lia.
      + intros l [<-|[<-|[]]]; unfold la, lr, h3; rewrite !length_app; cbn; lia.
    - apply (fields_of_rep _ _ _ _ _ _ _ Fa).
      + intros l Hl. unfold la, h3 in *. old_lookup.
      + unfold la, h3 in *. rewrite !length_app in *. cbn [List.length] in *. lia.
      + intros l [<-|[<-|[]]]; unfold la, lr, h3; rewrite !length_app; cbn; lia. }
  all: rewrite alloc_obj.
  all: destruct (alloc_fields_spec o h)
         as (ext & E & F).
  all: destruct (alloc_fields o h) as [fs h1]; cbn [fst snd] in *; subst h1.
  all: set (lr := List.length (h ++ ext)%list).
  all: exists lr, ((h ++ ext) ++ [CObj fs])%list.
  all: assert (Hu : untouched h ((h ++ ext) ++ [CObj fs])%list)
         by (repeat apply untouched_app; apply untouched_refl).
  all: assert (Er : ((h ++ ext) ++ [CObj fs])%list !! lr = Some (CObj fs))
         by (apply list_lookup_middle; reflexivity).
  all: split; [reflexivity|]; split; [exact Hu|].
  all: rewrite (ensure_attributes_in_store_eq lr _ _ Er).
  all: assert (F0 : Forall2 (field_stable [] ((h ++ ext) ++ [CObj fs])%list) fs o)
         by (apply (fields_of_rep _ _ _ _ _ _ _ F);
             [intros l0 Hl; old_lookup
             |rewrite !length_app in *; cbn; lia
             |intros l0 []]).
  all: rewrite (attributes_truthy _ "attributes" _ _ F0).
  all: unfold ensure_attributes, prop; rewrite Hx.
  all: destruct (truthy _) eqn:Ht; cbn [mret outcome_agrees].
  (* the attributes are truthy and no object *)
  all: try (eapply (sim_other _ _ _ fs o); eauto; try discriminate;
            unfold lr; rewrite length_app; lia).
  (* no attributes, or falsy ones: a new object *)
  all: set (la := List.length ((h ++ ext) ++ [CObj fs])%list).
  all: set (H1 := <[lr := CObj (set "attributes" (RLoc la) fs)]>
                    (((h ++ ext) ++ [CObj fs]) ++ [CObj []])%list).
  all: assert (Hla : la = S lr) by (unfold la, lr; rewrite !length_app; cbn; lia).
  all: assert (Hlen : List.length H1 = S (S lr))
         by (unfold H1, lr; rewrite length_insert, !length_app; cbn; lia).
  all: assert (F1 : Forall2 (field_stable [la; lr] H1) fs o)
         by (apply (fields_of_rep _ _ _ _ _ _ _ F);
             [intros l0 Hl; unfold H1; rewrite list_lookup_insert_ne by (unfold lr; lia);
              old_lookup
             |rewrite Hlen; unfold lr; lia
             |intros l0 [<-|[<-|[]]]; unfold lr in *; lia]).
  all: destruct (fields_set_split _ _ "attributes" (RLoc la) (VObj []) _ _ F1)
         as (fs1 & fs2 & o1 & o2 & Es & Eo & Hn & G1 & G2).
  all: rewrite Eo; apply (sim_object _ _ _ la); exists fs1, fs2, [].
  all: assert (Hh : List.length h <= lr) by (unfold lr; rewrite length_app; lia).
  all: split; [unfold H1; apply untouched_insert; [now apply untouched_app | exact Hh]|].
  all: split; [exact Hh|]. all: split; [lia|]. all: split; [lia|].
  all: split; [unfold H1; rewrite Es; apply list_lookup_insert_eq;
               rewrite !length_app; cbn [List.length]; unfold lr; rewrite length_app; lia|].
  all: split; [unfold H1; rewrite list_lookup_insert_ne by lia;
               apply list_lookup_middle; reflexivity|].
  all: split; [exact Hn|]. all: split; [exact G1|]. all: split; [exact G2 | constructor].
Qed.

Lemma seq_simulates_to (h : store) (lr : nat) (c1 : store_op unit) (c2 : store_op ref)
    (p1 p2 : value -> res value) :
  simulates h lr c1 p1 -> simulates_to h lr c2 p2 ->
  simulates_to h lr (_ ← c1; c2) (fun v => v ← p1 v; p2 v).
Proof.
  intros S1 S2 H v Hsim. specialize (S1 H v Hsim).
  unfold mbind, store_op_bind, op_bind.
  destruct (c1 H) as [[[]|e] H1], (p1 v) as [v1|e']; cbn in *; try contradiction.
  - apply S2. exact S1.
  - exact S1.
Qed.

Lemma last_simulates_to (h : store) (lr : nat) (c1 : store_op unit) (p1 : value -> res value) :
  simulates h lr c1 p1 ->
  simulates_to h lr (_ ← c1; mret (RLoc lr)) p1.
Proof.
  intros S1 H v Hsim. specialize (S1 H v Hsim).
  unfold mbind, store_op_bind, op_bind.
  destruct (c1 H) as [[[]|e] H1], (p1 v) as [v1|e']; cbn in *; try contradiction.
  - split; [reflexivity | exact S1].
  - exact S1.
Qed.

Lemma add_embeddings_simulates (h : store) (lr : nat)
    (denseEmbeddings : list (string * option (list float)))
    (sparseEmbedding : option (list string)) (hybridMetadata : option float) :
  simulates_to h lr
    (add_embeddings_in_store denseEmbeddings sparseEmbedding hybridMetadata (RLoc lr))
    (add_embeddings denseEmbeddings sparseEmbedding hybridMetadata).
Proof.
  unfold add_embeddings_in_store, add_embeddings. cbv zeta.
  apply seq_simulates_to.
  { destruct (assoc "primary" denseEmbeddings) as [[numbers|]|];
      [apply set_attribute_simulates | apply skip_simulates | apply skip_simulates]. }
  apply seq_simulates_to.
  { destruct (assoc "title" denseEmbeddings) as [[numbers|]|];
      [apply set_attribute_simulates | apply skip_simulates | apply skip_simulates]. }
  apply seq_simulates_to.
  { destruct (assoc "category" denseEmbeddings) as [[numbers|]|];
      [apply set_attribute_simulates | apply skip_simulates | apply skip_simulates]. }
  apply seq_simulates_to.
  { destruct sparseEmbedding as [[|t l]|];
      [apply skip_simulates | apply set_attribute_simulates | apply skip_simulates]. }
  apply seq_simulates_to.
  { destruct hybridMetadata as [score|]; [destruct (JsNumber.truthy score)|];
      [apply set_attribute_simulates | apply skip_simulates | apply skip_simulates]. }
  apply last_simulates_to. apply set_attribute_simulates.
Qed.

Lemma inject_in_store_eq (product : value)
    (denseEmbeddings : list (string * option (list float)))
    (sparseEmbedding : option (list string)) (hybridMetadata : option float) (h : store) :
  inject_in_store product denseEmbeddings sparseEmbedding hybridMetadata h
  = match json_value product with
    | None => (Throw SyntaxError, h)
    | Some clone =>
        match clone with
        | VObj _ =>
            match ensure_attributes_in_store (fst (alloc clone h)) (snd (alloc clone h)) with
            | (Ok _, H1) =>
                add_embeddings_in_store denseEmbeddings sparseEmbedding hybridMetadata
                  (fst (alloc clone h)) H1
            | (Throw e, H1) => (Throw e, H1)
            end
        | _ => (Throw TypeError, snd (alloc clone h))
        end
    end.
Proof.
  unfold inject_in_store, json_clone, lift, parse, throw.
  unfold mbind at 1 2 3 4. unfold store_op_bind, op_bind.
  destruct (json_value product) as [clone|]; [|reflexivity].
  destruct (alloc clone h) as [p H0]. cbn [fst snd].
  destruct clone; reflexivity.
Qed.

(** [inject] on the store and on values. *)
Lemma inject_agrees (product : value)
    (denseEmbeddings : list (string * option (list float)))
    (sparseEmbedding : option (list string)) (hybridMetadata : option float) (h : store) :
  untouched h (snd (inject_in_store product denseEmbeddings sparseEmbedding hybridMetadata h))
  /\ match fst (inject_in_store product denseEmbeddings sparseEmbedding hybridMetadata h),
           inject product denseEmbeddings sparseEmbedding hybridMetadata with
     | Ok r, Ok v =>
         exists n,
           load n (snd (inject_in_store product denseEmbeddings sparseEmbedding
                          hybridMetadata h)) r = Some v
     | Throw _, Throw _ => True
     | _, _ => False
     end.
Proof.
  rewrite inject_in_store_eq. unfold inject, json_clone.
  destruct (json_value product) as [clone|]; cbn [fst snd mbind res_bind];
    [|split; [apply untouched_refl | exact I]].
  destruct clone as [| | | | |l|o];
    try (cbn; split; [apply untouched_refl | exact I]).
  { destruct (alloc_spec (VArr l) h) as (ext & E & _). rewrite E.
    cbn. split; [apply untouched_app, untouched_refl | exact I]. }
  destruct (clone_sim o h) as (lr & H0 & E & Hu & Hens). rewrite E. cbn [fst snd].
  unfold outcome_agrees in Hens.
  destruct (ensure_attributes_in_store (RLoc lr) H0) as [[[]|e] H1],
    (ensure_attributes (VObj o)) as [v1|e']; try contradiction.
  - pose proof (add_embeddings_simulates h lr denseEmbeddings sparseEmbedding hybridMetadata
                  H1 v1 Hens) as Hadd.
    unfold result_agrees in Hadd. cbn [mbind res_bind].
    destruct (add_embeddings_in_store _ _ _ (RLoc lr) H1) as [[r|e] H2],
      (add_embeddings _ _ _ v1) as [v2|e']; try contradiction; cbn [fst snd].
    + destruct Hadd as [-> Hsim]. split; [exact (sim_untouched _ _ _ _ Hsim)|].
      exact (sim_load _ _ _ _ Hsim).
    + split; [exact Hadd | exact I].
  - cbn. split; [exact Hens | exact I].
Qed.

Section StoreFacts.
Variable tokenize : string -> list string.
Variable stem : string -> string.
Variable stopword : string -> bool.
Variable Math_sin : float -> float.

(** [addEmbeddingsToProduct] on the store does what it does on values,
    and writes to no object that was there. *)
Lemma addEmbeddingsToProduct_in_store_agrees (h : store) (product : ref) (p : value)
    (format : string) (st : RegexState) :
  load (List.length h) h product = Some p ->
  let out := addEmbeddingsToProduct_in_store tokenize stem stopword Math_sin product format st h in
  let pure := addEmbeddingsToProduct tokenize stem stopword Math_sin p format st in
  snd (fst out) = snd pure
  /\ untouched h (snd out)
  /\ match fst (fst out), fst pure with
     | Ok r, Ok v =>
         ((r = product /\ v = p) \/ exists d s hy, inject p d s hy = Ok v)
         /\ exists n, load n (snd out) r = Some v
     | Throw _, Throw _ => True
     | _, _ => False
     end.
Proof.
  intros Hp. unfold addEmbeddingsToProduct_in_store, addEmbeddingsToProduct, enrich.
  rewrite Hp.
  destruct (generate tokenize stem stopword Math_sin p format st) as [[[g|]|e] st1];
    cbn [and_then fst snd].
  - pose proof (inject_agrees p (e_dense g) (e_sparse g) (e_hybrid g) h) as [Hu Hr].
    destruct (inject_in_store p (e_dense g) (e_sparse g) (e_hybrid g) h) as [[r|e] H'],
      (inject p (e_dense g) (e_sparse g) (e_hybrid g)) as [v|e'] eqn:Ei; cbn [fst snd] in *;
      try contradiction.
    + split; [reflexivity|]. split; [exact Hu|]. split; [|exact Hr].
      right. exists (e_dense g), (e_sparse g), (e_hybrid g). exact Ei.
    + split; [reflexivity|]. split; [exact Hu|].
      destruct (get p "id"); cbn; [|exact I].
      split; [left; split; reflexivity|]. exists (List.length h). exact (load_agree _ _ _ _ _ Hp Hu).
  - split; [reflexivity|]. split; [apply untouched_refl|].
    split; [left; split; reflexivity|]. exists (List.length h). exact Hp.
  - split; [reflexivity|]. split; [apply untouched_refl|].
    destruct (get p "id"); cbn; [|exact I].
    split; [left; split; reflexivity|]. exists (List.length h). exact Hp.
Qed.



End StoreFacts.




(** ** Checkpoints *)

Section Checkpoint.
Import Run.

Section RunFacts.
Variable process : string -> outcome.

Lemma saves_during_keeps (n : N) (s : state) :
  opened (saves_during n s) = opened s
  /\ failures (saves_during n s) = failures s
  /\ processedFiles (saves_during n s) = processedFiles s
  /\ converted (saves_during n s) = converted s
  /\ (checkpointFile s <> Absent -> checkpointFile (saves_during n s) <> Absent).
Proof.
  unfold saves_during, saveCheckpoint.
  destruct (CONFIG.PROCESSING.CHECKPOINT_INTERVAL <=? n)%N; cbn; repeat split; auto; discriminate.
Qed.

Lemma tracking_opened (files : list string) (s : state) :
  opened (fold_left (processFileWithTracking process) files s) = (opened s ++ files)%list.
Proof.
  revert s. induction files as [|f files IH]; intros s; cbn [fold_left].
  - now rewrite app_nil_r.
  - rewrite IH. unfold processFileWithTracking.
    destruct (process f); cbn; rewrite (proj1 (saves_during_keeps _ _)); cbn;
      now rewrite <- app_assoc.
Qed.

Lemma tracking_checkpoint (files : list string) (s : state) :
  checkpointFile s <> Absent ->
  checkpointFile (fold_left (processFileWithTracking process) files s) <> Absent.
Proof.
  revert s. induction files as [|f files IH]; intros s H; cbn [fold_left]; [exact H|].
  apply IH. unfold processFileWithTracking.
  destruct (process f); cbn; apply saves_during_keeps; exact H.
Qed.

End RunFacts.

Lemma run_shape (process : string -> outcome) (ok report : bool) (c : checkpoint_file)
    (f0 : string) (files : list string) :
  let s := fold_left (processFileWithTracking process)
             (files_to_process c (f0 :: files)) (loaded_state c) in
  processAllDataFiles process ok report (Some (f0 :: files)) (start c)
  = if (0 <? converted s)%N && negb ok then (None, s)
    else (if report then Some tt else None,
          mkState Absent (processedFiles s) (opened s) (failures s) (converted s)).
Proof. destruct c; reflexivity. Qed.

Lemma files_to_process_spec (c : checkpoint_file) (jsonFiles : list string) (file : string) :
  In file (files_to_process c jsonFiles) <->
  In file jsonFiles /\ (forall recorded, c = Saved recorded -> ~ In file recorded).
Proof.
  destruct c as [| |recorded]; cbn.
  1,2: split; [intros H; split; [exact H | discriminate] | tauto].
  rewrite filter_In, negb_true_iff, bool_decide_eq_false, elem_of_list_to_set, list_elem_of_In.
  split; intros [H1 H2]; (split; [exact H1|]).
  - intros ? [= <-]. exact H2.
  - now apply H2.
Qed.

(** C9, as amended: a run that starts with a checkpoint opens none of
    the files the checkpoint records, and opens discovered files only; a
    checkpoint file that was there is removed exactly when JSON files were
    discovered and the combined output, if any product was converted, could
    be written, and the run completes exactly when, besides, the final
    report could be written: whether a file failed plays no part. *)
Theorem resumed_run_skips_recorded_files :
  forall (process : string -> outcome) (combined_output_ok report_ok : bool)
         (dataDir : option (list string)) (c : checkpoint_file),
    let r := processAllDataFiles process combined_output_ok report_ok dataDir (start c) in
    let reached_the_end :=
      exists jsonFiles, dataDir = Some jsonFiles /\ jsonFiles <> []
                        /\ (converted (snd r) = 0%N \/ combined_output_ok = true) in
    (forall recorded file, c = Saved recorded -> In file recorded -> ~ In file (opened (snd r)))
    /\ (forall file, In file (opened (snd r)) ->
                     exists jsonFiles, dataDir = Some jsonFiles /\ In file jsonFiles)
    /\ (fst r = Some tt -> checkpointFile (snd r) = Absent)
    /\ (c <> Absent -> (checkpointFile (snd r) = Absent <-> reached_the_end))
    /\ (fst r = Some tt <-> reached_the_end /\ report_ok = true).
Proof.
  intros process ok report dataDir c r. subst r. cbv zeta.
  assert (Hcases : (exists f0 files, dataDir = Some (f0 :: files))
                   \/ (dataDir = Some [] \/ dataDir = None))
    by (destruct dataDir as [[|f0 files]|]; eauto).
  destruct Hcases as [(f0 & files & ->)|Hd].
  - rewrite run_shape.
    set (s := fold_left _ _ _).
    assert (Hopened : opened s = files_to_process c (f0 :: files)).
    { unfold s. rewrite tracking_opened. destruct c; reflexivity. }
    assert (Hkept : c <> Absent -> checkpointFile s <> Absent).
    { intros Hc. apply tracking_checkpoint. destruct c; cbn; congruence. }
    assert (Hskip : forall recorded file,
               c = Saved recorded -> In file recorded -> ~ In file (opened s)).
    { intros recorded file Hc Hin. rewrite Hopened, files_to_process_spec.
      intros [_ H]. exact (H recorded Hc Hin). }
    assert (Hfound : forall file,
               In file (opened s) ->
               exists jsonFiles, Some (f0 :: files) = Some jsonFiles /\ In file jsonFiles).
    { intros file. rewrite Hopened, files_to_process_spec. intros [H _]. eauto. }
    destruct ((0 <? converted s)%N && negb ok) eqn:E; cbn [fst snd opened checkpointFile converted].
    + assert (Hnot : ~ (exists jsonFiles : list string,
                           Some (f0 :: files) = Some jsonFiles /\ jsonFiles <> []
                           /\ (converted s = 0%N \/ ok = true))).
      { intros (l & _ & _ & H). apply andb_true_iff in E. destruct E as [E1 E2].
        apply N.ltb_lt in E1. destruct H as [H| ->]; [lia | discriminate E2]. }
      split; [exact Hskip|]. split; [exact Hfound|]. split; [discriminate|]. split.
      * intros Hc. split; [intros Ha; exfalso; exact (Hkept Hc Ha) | tauto].
      * split; [discriminate | tauto].
    + assert (Hend : exists jsonFiles : list string,
                       Some (f0 :: files) = Some jsonFiles /\ jsonFiles <> []
                       /\ (converted s = 0%N \/ ok = true)).
      { exists (f0 :: files). split; [reflexivity|]. split; [discriminate|].
        apply andb_false_iff in E. destruct E as [E|E].
        - left. apply N.ltb_ge in E. lia.
        - right. now destruct ok. }
      split; [exact Hskip|]. split; [exact Hfound|]. split; [reflexivity|]. split.
      * intros _. split; [intros _; exact Hend | reflexivity].
      * destruct report; split; try tauto; try discriminate.
        intros [_ H]. discriminate H.
  - assert (Hrun : processAllDataFiles process ok report dataDir (start c)
                   = (None, snd (loadCheckpoint (start c))))
      by (destruct Hd as [-> | ->]; reflexivity).
    rewrite Hrun.
    assert (Hload : opened (snd (loadCheckpoint (start c))) = []
                    /\ checkpointFile (snd (loadCheckpoint (start c))) = c)
      by (destruct c; split; reflexivity).
    destruct Hload as [Ho Hc]. cbn [fst snd]. rewrite Ho, Hc.
    assert (Hnot : forall P : Prop,
               ~ (exists jsonFiles : list string,
                     dataDir = Some jsonFiles /\ jsonFiles <> [] /\ P)).
    { intros P (l & Hl & Hne & _). destruct Hd as [Hd|Hd]; rewrite Hd in Hl; congruence. }
    split; [intros recorded file _ _ []|]. split; [intros file []|].
    split; [discriminate|]. split.
    + intros Hcne. split; [intros Ha; congruence | intros Hr; exfalso; exact (Hnot _ Hr)].
    + split; [discriminate | intros [Hr _]; exfalso; exact (Hnot _ Hr)].
Qed.

(** C9, the counterexample: [b.json] fails, and the run completes and
    deletes the checkpoint. *)
Lemma checkpoint_deleted_after_a_failed_file :
  let process := fun file => if String.eqb file "b.json" then Failed 0 else Converted 1 in
  let r := processAllDataFiles process true true (Some ["a.json"; "b.json"])
             (start (Saved ["a.json"])) in
  fst r = Some tt
  /\ opened (snd r) = ["b.json"]
  /\ failures (snd r) = ["b.json"]
  /\ checkpointFile (snd r) = Absent.
Proof. vm_compute. auto. Qed.

End Checkpoint.

(** * Further properties *)

(** ** Regular expressions *)

Lemma cursor_from_rest (n : nat) (p : option ascii) (l : list ascii) (i : nat) :
  rest (cursor_from p l i n) = skipn n l.
Proof.
  revert p l i. induction n as [|n IH]; intros p [|a t] i; cbn; try reflexivity.
  apply IH.
Qed.

Lemma cursor_from_pos (n : nat) (p : option ascii) (l : list ascii) (i : nat) :
  n <= List.length l -> pos (cursor_from p l i n) = i + n.
Proof.
  revert p l i. induction n as [|n IH]; intros p [|a t] i H; cbn in *; try lia.
  rewrite IH; lia.
Qed.

Lemma cursor_from_S (n : nat) (p : option ascii) (a : ascii) (t : list ascii) (i : nat) :
  cursor_from p (a :: t) i (S n) = cursor_from (Some a) t (S i) n.
Proof. reflexivity. Qed.

(** The result of a search: where the leftmost match starts, and that
    there is no match further left. *)
Lemma search_Some (r : regex) (l : list ascii) (p : option ascii) (i b e : nat) :
  search r p l i = Some (b, e) ->
  exists n, b = i + n /\ n <= List.length l
            /\ match_here r (cursor_from p l i n) = Some e
            /\ forall j, j < n -> match_here r (cursor_from p l i j) = None.
Proof.
  revert p i. induction l as [|a t IH]; intros p i; cbn [search].
  - destruct (match_here r (Cursor p [] i)) as [e'|] eqn:E; [|discriminate].
    intros [= <- <-]. exists 0. cbn. repeat split; [lia | lia | exact E | lia].
  - destruct (match_here r (Cursor p (a :: t) i)) as [e'|] eqn:E.
    + intros [= <- <-]. exists 0. cbn. repeat split; [lia | lia | exact E | lia].
    + intros H. destruct (IH _ _ H) as (n & -> & Hn & Hm & Hj).
      exists (S n). rewrite cursor_from_S. repeat split; [lia | cbn; lia | exact Hm |].
      intros [|j] Hlt; [exact E|]. rewrite cursor_from_S. apply Hj. lia.
Qed.

Lemma search_None (r : regex) (l : list ascii) (p : option ascii) (i : nat) :
  search r p l i = None ->
  forall j, j <= List.length l -> match_here r (cursor_from p l i j) = None.
Proof.
  revert p i. induction l as [|a t IH]; intros p i; cbn [search].
  - destruct (match_here r (Cursor p [] i)) eqn:E; [discriminate|].
    intros _ [|j] Hj; [exact E | cbn in Hj; lia].
  - destruct (match_here r (Cursor p (a :: t) i)) eqn:E; [discriminate|].
    intros H [|j] Hj; [exact E|]. rewrite cursor_from_S. apply (IH _ _ H). cbn in Hj. lia.
Qed.

Lemma search_None_intro (r : regex) (l : list ascii) (p : option ascii) (i : nat) :
  (forall j, j <= List.length l -> match_here r (cursor_from p l i j) = None) ->
  search r p l i = None.
Proof.
  revert p i. induction l as [|a t IH]; intros p i H; cbn [search].
  - pose proof (H 0 ltac:(cbn; lia)) as H0. cbn in H0. now rewrite H0.
  - pose proof (H 0 ltac:(cbn; lia)) as H0. cbn in H0. rewrite H0. apply IH. intros j Hj.
    rewrite <- (cursor_from_S j p a t i). apply H. cbn. lia.
Qed.

(** What a replacement is made of: the replacement text and characters
    of the subject. *)
Lemma replace_loop_chars (r : regex) (by_ : list ascii) (fuel : nat) :
  forall (p : option ascii) (l : list ascii) (i : nat) (x : ascii),
    In x (replace_loop fuel r by_ p l i) -> In x by_ \/ In x l.
Proof.
  induction fuel as [|fuel IH]; intros p l i x; cbn [replace_loop]; [tauto|].
  destruct (search r p l i) as [[b e]|]; [|tauto].
  assert (Hsk : forall n (l0 : list ascii) y, In y (skipn n l0) -> In y l0).
  { intros n l0 y Hy. rewrite <- (firstn_skipn n l0). apply in_or_app. now right. }
  destruct (Nat.ltb b e).
  - rewrite !in_app_iff. intros [H|[H|H]].
    + right. rewrite <- (firstn_skipn (b - i) l). apply in_or_app. now left.
    + now left.
    + apply IH in H. destruct H as [H|H]; [now left|]. right.
      rewrite !cursor_from_rest in H. apply Hsk in H. now apply Hsk in H.
  - destruct (rest (cursor_from p l i (b - i))) as [|a t] eqn:E.
    + rewrite in_app_iff. intros [H|H]; [|now left].
      right. rewrite <- (firstn_skipn (b - i) l). apply in_or_app. now left.
    + rewrite cursor_from_rest in E.
      rewrite !in_app_iff. cbn [In]. intros [H|[H|[H|H]]].
      * right. rewrite <- (firstn_skipn (b - i) l). apply in_or_app. now left.
      * now left.
      * right. apply (Hsk (b - i)). rewrite E. left. exact H.
      * apply IH in H. destruct H as [H|H]; [now left|]. right.
        apply (Hsk (b - i)). rewrite E. now right.
Qed.

Lemma In_skipn (x : ascii) (l : list ascii) :
  In x l -> exists j t, j < List.length l /\ skipn j l = x :: t.
Proof.
  intros H. apply in_split in H. destruct H as (l1 & l2 & ->).
  exists (List.length l1), l2. rewrite length_app. cbn. split; [lia|].
  rewrite skipn_app, Nat.sub_diag, skipn_all. reflexivity.
Qed.

Lemma In_firstn_skipn (x : ascii) (n : nat) (l : list ascii) :
  In x (firstn n l) -> exists j t, j < n /\ j < List.length l /\ skipn j l = x :: t.
Proof.
  intros H. destruct (In_skipn _ _ H) as (j & t & Hj & E).
  exists j, (t ++ skipn n l)%list. rewrite length_firstn in Hj. split; [lia|]. split; [lia|].
  rewrite <- (firstn_skipn n l) at 1. rewrite skipn_app, E.
  replace (j - List.length (firstn n l)) with 0 by (rewrite length_firstn; lia).
  reflexivity.
Qed.

Lemma replace_loop_led (q : ascii -> bool) (r : regex) (by_ : list ascii) :
  led_by q r ->
  forall (fuel : nat) (p : option ascii) (l : list ascii) (i : nat) (x : ascii),
    List.length l < fuel ->
    In x (replace_loop fuel r by_ p l i) -> In x by_ \/ (In x l /\ q x = false).
Proof.
  intros Hled. induction fuel as [|fuel IH]; intros p l i x Hf; [lia|].
  cbn [replace_loop].
  assert (Hq : forall j y t, match_here r (cursor_from p l i j) = None ->
                             skipn j l = y :: t -> q y = false).
  { intros j y t Hm E. specialize (Hled (cursor_from p l i j)).
    rewrite cursor_from_rest, E in Hled. destruct (q y); [|reflexivity].
    destruct Hled as (e & He & _). congruence. }
  destruct (search r p l i) as [[b e]|] eqn:Es.
  - apply search_Some in Es. destruct Es as (n & -> & Hn & Hm & Hj).
    replace (i + n - i) with n by lia.
    pose proof (Hled (cursor_from p l i n)) as Hl.
    rewrite cursor_from_rest in Hl. rewrite cursor_from_pos in Hl by assumption.
    destruct (skipn n l) as [|a t] eqn:Esk; [congruence|].
    destruct (q a) eqn:Hqa; [|congruence].
    destruct Hl as (e' & He' & Hlt). assert (e' = e) by congruence. subst e'.
    apply Nat.ltb_lt in Hlt. rewrite Hlt. rewrite !in_app_iff. intros [H|[H|H]].
    + right. split.
      * rewrite <- (firstn_skipn n l). apply in_or_app. now left.
      * destruct (In_firstn_skipn _ _ _ H) as (j & t' & Hjn & _ & E).
        exact (Hq j x t' (Hj j Hjn) E).
    + now left.
    + rewrite !cursor_from_rest, Esk in H. apply Nat.ltb_lt in Hlt.
      assert (Hlen : List.length (skipn (e - (i + n)) (a :: t)) < fuel).
      { rewrite length_skipn. assert (List.length (a :: t) <= List.length l).
        { rewrite <- Esk, length_skipn. lia. } cbn [List.length] in *. lia. }
      apply IH in H; [|exact Hlen]. destruct H as [H|[H Hx]]; [now left|].
      right. split; [|exact Hx].
      rewrite <- (firstn_skipn n l). apply in_or_app. right. rewrite Esk.
      rewrite <- (firstn_skipn (e - (i + n)) (a :: t)). apply in_or_app. now right.
  - intros H. right. split; [exact H|].
    destruct (In_skipn _ _ H) as (j & t & Hj & E).
    apply (Hq j x t); [|exact E]. apply (search_None _ _ _ _ Es). lia.
Qed.

(** Matching goes forward. *)
Lemma run_forward (r : regex) :
  forall k : cursor -> option nat,
    (forall c e, k c = Some e -> pos c <= e) ->
    forall c e, run r k c = Some e -> pos c <= e.
Proof.
  induction r as [| |q|a IHa b IHb|a IHa b IHb|a IHa| | |]; intros k Hk c e; cbn [run].
  - apply Hk.
  - discriminate.
  - destruct (rest c) as [|x t]; [discriminate|]. destruct (q x); [|discriminate].
    intros H. apply Hk in H. cbn in H. lia.
  - apply IHa. intros c' e'. now apply IHb.
  - destruct (run a k c) eqn:E; [intros [= <-]; eapply IHa; eauto|]. now apply IHb.
  - assert (L : forall n c e,
               (fix loop (n : nat) (c : cursor) {struct n} : option nat :=
                  match n with
                  | O => k c
                  | S n' =>
                      match run a (fun c' => if Nat.ltb (pos c) (pos c') then loop n' c' else None) c with
                      | Some e => Some e
                      | None => k c
                      end
                  end) n c = Some e -> pos c <= e).
    { induction n as [|n IHn]; intros c0 e0; [apply Hk|].
      destruct (run a _ c0) as [e'|] eqn:E; [|apply Hk].
      intros [= <-]. eapply IHa; [|exact E].
      intros c' e''. cbn beta. destruct (Nat.ltb (pos c0) (pos c')); [apply IHn|discriminate]. }
    apply (L (S (List.length (rest c)))).
  - destruct (at_boundary c); [apply Hk|discriminate].
  - destruct (Nat.eqb (pos c) 0); [apply Hk|discriminate].
  - destruct (rest c); [apply Hk|discriminate].
Qed.

Lemma led_by_Chr (q : ascii -> bool) : led_by q (Chr q).
Proof.
  intros [p [|a t] i]; cbn; [reflexivity|].
  destruct (q a); [|reflexivity]. eexists. split; [reflexivity|]. lia.
Qed.

Lemma match_here_plus (q : ascii -> bool) (p : option ascii) (a : ascii) (t : list ascii)
    (i : nat) :
  match_here (plus (Chr q)) (Cursor p (a :: t) i)
  = if q a
    then run (Star (Chr q)) (fun c => Some (pos c)) (Cursor (Some a) t (S i))
    else None.
Proof. reflexivity. Qed.

Lemma star_matches (q : ascii -> bool) (c : cursor) :
  exists e, run (Star (Chr q)) (fun c => Some (pos c)) c = Some e /\ pos c <= e.
Proof.
  destruct (run (Star (Chr q)) (fun c => Some (pos c)) c) as [e|] eqn:E.
  - exists e. split; [reflexivity|]. apply run_forward in E; [exact E|].
    intros c0 e0 [= <-]. lia.
  - exfalso. revert E. cbn [run].
    match goal with |- match ?X with Some _ => _ | None => _ end = _ -> _ => destruct X end;
      discriminate.
Qed.

Lemma led_by_plus (q : ascii -> bool) : led_by q (plus (Chr q)).
Proof.
  intros [p [|a t] i]; cbn [rest]; [reflexivity|].
  rewrite match_here_plus. destruct (q a); [|reflexivity].
  destruct (star_matches q (Cursor (Some a) t (S i))) as (e & E & Hle).
  exists e. split; [exact E|]. cbn in *. lia.
Qed.

(** ** Strings *)

Lemma replace_all_chars (r : regex) (by_ s : string) (x : ascii) :
  In x (list_ascii_of_string (replace_all r by_ s)) ->
  In x (list_ascii_of_string by_) \/ In x (list_ascii_of_string s).
Proof.
  unfold replace_all. rewrite list_ascii_of_string_of_list_ascii. apply replace_loop_chars.
Qed.

Lemma replace_all_led (q : ascii -> bool) (r : regex) (by_ s : string) (x : ascii) :
  led_by q r ->
  In x (list_ascii_of_string (replace_all r by_ s)) ->
  In x (list_ascii_of_string by_) \/ (In x (list_ascii_of_string s) /\ q x = false).
Proof.
  intros Hled. unfold replace_all. rewrite list_ascii_of_string_of_list_ascii.
  apply (replace_loop_led q r _ Hled). lia.
Qed.

Lemma drop_space_In (x : ascii) (l : list ascii) : In x (drop_space l) -> In x l.
Proof.
  induction l as [|a l IH]; cbn; [tauto|].
  destruct (is_space a); [auto | cbn; tauto].
Qed.

Lemma trim_chars (s : string) (x : ascii) :
  In x (list_ascii_of_string (trim s)) -> In x (list_ascii_of_string s).
Proof.
  unfold trim. rewrite list_ascii_of_string_of_list_ascii.
  intros H. apply in_rev in H. apply drop_space_In in H. apply in_rev in H.
  now apply drop_space_In in H.
Qed.

Lemma substring0_chars (n : nat) (s : string) (x : ascii) :
  In x (list_ascii_of_string (substring0 n s)) -> In x (list_ascii_of_string s).
Proof.
  unfold substring0. revert n. induction s as [|a s IH]; intros [|n]; cbn; try tauto.
  intros [H|H]; [now left | right; eauto].
Qed.

Lemma length_substring0 (n : nat) (s : string) : String.length (substring0 n s) <= n.
Proof.
  unfold substring0. revert n. induction s as [|c s IH]; intros [|n]; cbn; try lia.
  specialize (IH n). lia.
Qed.

Lemma drop_space_fixed (k : list ascii) : no_leading_space k -> drop_space k = k.
Proof. destruct k as [|a k]; cbn; [reflexivity|]. now intros ->. Qed.

Lemma drop_space_no_leading (k : list ascii) : no_leading_space (drop_space k).
Proof.
  induction k as [|a k IH]; cbn; [exact I|].
  destruct (is_space a) eqn:E; [exact IH | exact E].
Qed.

Lemma drop_space_last (k : list ascii) (a : ascii) :
  is_space a = false -> exists u, drop_space (k ++ [a]) = (u ++ [a])%list.
Proof.
  intros Ha. induction k as [|b k IH]; cbn.
  - rewrite Ha. now exists [].
  - destruct (is_space b); [exact IH|]. now exists (b :: k).
Qed.

Lemma trim_trim (s : string) : trim (trim s) = trim s.
Proof.
  unfold trim. rewrite list_ascii_of_string_of_list_ascii. f_equal.
  set (d := drop_space (list_ascii_of_string s)).
  assert (Hd : no_leading_space d) by apply drop_space_no_leading.
  assert (Hr : no_leading_space (rev (drop_space (rev d)))).
  { destruct d as [|a t]; [exact I|]. cbn [no_leading_space] in Hd. cbn [rev].
    destruct (drop_space_last (rev t) a Hd) as [u ->].
    rewrite rev_app_distr. exact Hd. }
  rewrite (drop_space_fixed _ Hr), rev_involutive.
  rewrite (drop_space_fixed (drop_space (rev d))) by apply drop_space_no_leading.
  reflexivity.
Qed.

(** ** TextProcessor: cleaned text *)

Lemma cleanText_kept (text : value) :
  List.Forall (fun c => kept_by_cleanText c = true) (list_ascii_of_string (cleanText text)).
Proof.
  apply List.Forall_forall. intros x Hx.
  destruct text as [| | | |s| |]; try (cbn in Hx; tauto).
  unfold cleanText in Hx. apply trim_chars in Hx.
  apply (replace_all_led is_space) in Hx; [|apply led_by_plus].
  destruct Hx as [Hx|[Hx Hs]].
  { cbn in Hx. destruct Hx as [<-|[]]. reflexivity. }
  apply (replace_all_led _ _ _ _ _ (led_by_Chr _)) in Hx.
  destruct Hx as [Hx|[_ Hx]].
  { cbn in Hx. destruct Hx as [<-|[]]. reflexivity. }
  apply negb_false_iff in Hx. unfold kept_by_cleanText.
  rewrite Hs in Hx. destruct (is_word x); [reflexivity|].
  cbn [orb] in *. rewrite Hx. apply orb_true_r.
Qed.

Lemma cleanText_trimmed (text : value) : trim (cleanText text) = cleanText text.
Proof.
  destruct text as [| | | |s| |]; try reflexivity.
  unfold cleanText. apply trim_trim.
Qed.

(** X1: the text [cleanText] returns holds only word characters,
    spaces, hyphens, full stops, round and square brackets and slashes, and
    has no white space at either end; for a value that is not a string it
    is the empty string. *)
Theorem cleaned_text_characters :
  forall text : value,
    List.Forall (fun c => kept_by_cleanText c = true) (list_ascii_of_string (cleanText text))
    /\ trim (cleanText text) = cleanText text
    /\ (is_string text = false -> cleanText text = "").
Proof.
  intros text. split; [apply cleanText_kept|]. split; [apply cleanText_trimmed|].
  destruct text; cbn; try reflexivity. discriminate.
Qed.

(** ** ProductConverter: the URI of a product *)

(** X15: the URI [generateProductUri] builds is /products/, a slug of at
    most 50 characters out of a-z, 0-9 and the hyphen, a hyphen, and the
    product id. *)
Theorem product_uri_shape :
  forall (productId : value) (title : string),
    exists slug : string,
      generateProductUri productId title = "/products/" +:+ slug +:+ "-" +:+ ToString productId
      /\ String.length slug <= 50
      /\ List.Forall (fun c => slug_character c = true) (list_ascii_of_string slug).
Proof.
  intros productId title. unfold generateProductUri. eexists. split; [reflexivity|].
  split; [apply length_substring0|].
  apply List.Forall_forall. intros x Hx. apply substring0_chars in Hx.
  apply (replace_all_led is_space) in Hx; [|apply led_by_plus].
  destruct Hx as [Hx|[Hx Hs]].
  { cbn in Hx. destruct Hx as [<-|[]]. reflexivity. }
  apply (replace_all_led _ _ _ _ _ (led_by_Chr _)) in Hx.
  destruct Hx as [[]|[_ Hx]].
  apply negb_false_iff in Hx. unfold slug_character. rewrite Hs in Hx.
  destruct (is_lower x), (is_digit x); cbn in *; auto.
Qed.

(** ** TextProcessor: cleaning is idempotent *)

Lemma star_greedy (q : ascii -> bool) (c : cursor) :
  run (Star (Chr q)) (fun c => Some (pos c)) c = Some (pos c + run_length q (rest c)).
Proof.
  cbn [run].
  change (Some (pos c + run_length q (rest c)))
    with ((fun c0 => Some (pos c0 + run_length q (rest c0))) c).
  assert (L : forall n c,
             List.length (rest c) < n ->
             (fix loop (n : nat) (c : cursor) {struct n} : option nat :=
                match n with
                | O => Some (pos c)
                | S n' =>
                    match run (Chr q)
                            (fun c' => if Nat.ltb (pos c) (pos c') then loop n' c' else None) c with
                    | Some e => Some e
                    | None => Some (pos c)
                    end
                end) n c = Some (pos c + run_length q (rest c))).
  { induction n as [|n IHn]; intros [p l i] Hn; [lia|].
    cbn [rest pos] in *. destruct l as [|a t]; cbn [run rest run_length].
    - now rewrite Nat.add_0_r.
    - destruct (q a); [|now rewrite Nat.add_0_r].
      cbn [advance pos]. rewrite (proj2 (Nat.ltb_lt i (S i))) by lia.
      rewrite IHn by (cbn in *; lia). unfold advance. cbn [pos rest]. apply f_equal. lia. }
  apply (L (S (List.length (rest c)))). lia.
Qed.

Lemma match_here_plus_exact (q : ascii -> bool) (p : option ascii) (a : ascii)
    (t : list ascii) (i : nat) :
  match_here (plus (Chr q)) (Cursor p (a :: t) i)
  = if q a then Some (S i + run_length q t) else None.
Proof. rewrite match_here_plus. destruct (q a); [|reflexivity]. apply star_greedy. Qed.

Lemma spaced_weaken (b : bool) (l : list ascii) : spaced b l = true -> spaced false l = true.
Proof. destruct l as [|a t]; cbn; [auto|]. destruct (is_space a), b; cbn; auto; discriminate. Qed.

Lemma spaced_tail (b : bool) (a : ascii) (t : list ascii) :
  spaced b (a :: t) = true -> spaced false t = true.
Proof.
  cbn. destruct (is_space a).
  - intros H. apply andb_true_iff in H. eapply spaced_weaken, H.
  - auto.
Qed.

Lemma spaced_suffix (b : bool) (l1 l2 : list ascii) :
  spaced b (l1 ++ l2) = true -> spaced false l2 = true.
Proof.
  revert b. induction l1 as [|a l1 IH]; intros b; cbn [app].
  - apply spaced_weaken.
  - cbn. destruct (is_space a); [|apply IH].
    intros H. apply andb_true_iff in H. eapply IH, H.
Qed.

Lemma spaced_prefix (b : bool) (l1 l2 : list ascii) :
  spaced b (l1 ++ l2) = true -> spaced b l1 = true.
Proof.
  revert b. induction l1 as [|a l1 IH]; intros b; cbn [app]; [reflexivity|].
  cbn. destruct (is_space a); [|apply IH].
  intros H. apply andb_true_iff in H. destruct H as [-> H]. cbn. eapply IH, H.
Qed.

Lemma spaced_after_words (pre m : list ascii) (b : bool) :
  List.Forall (fun c => is_space c = false) pre ->
  spaced b (pre ++ m) = match pre with [] => spaced b m | _ :: _ => spaced false m end.
Proof.
  intros H. revert b. induction H as [|a pre Ha H IH]; intros b; [reflexivity|].
  cbn [app spaced]. rewrite Ha, IH. now destruct pre.
Qed.

Lemma drop_space_suffix (l : list ascii) : exists x, l = (x ++ drop_space l)%list.
Proof.
  induction l as [|a l [x IH]]; [now exists []|]. cbn.
  destruct (is_space a); [exists (a :: x); cbn; now rewrite <- IH | now exists []].
Qed.

Lemma trim_segment (l : list ascii) :
  exists x y, l = (x ++ rev (drop_space (rev (drop_space l))) ++ y)%list.
Proof.
  destruct (drop_space_suffix l) as [x Hx].
  destruct (drop_space_suffix (rev (drop_space l))) as [y Hy].
  exists x, (rev y). rewrite <- rev_app_distr, <- Hy, rev_involutive. exact Hx.
Qed.

Lemma split_at_first (q : ascii -> bool) (l : list ascii) :
  List.Forall (fun c => q c = false) l
  \/ exists pre a t, l = (pre ++ a :: t)%list
                     /\ List.Forall (fun c => q c = false) pre /\ q a = true.
Proof.
  induction l as [|a l IH]; [left; constructor|].
  destruct (q a) eqn:E.
  - right. exists [], a, l. split; [reflexivity|]. split; [constructor | exact E].
  - destruct IH as [IH|(pre & b & t & -> & Hp & Hb)].
    + left. now constructor.
    + right. exists (a :: pre), b, t. split; [reflexivity|]. split; [now constructor | exact Hb].
Qed.

Lemma search_plus_at (q : ascii -> bool) (pre : list ascii) (a : ascii) (t : list ascii) :
  List.Forall (fun c => q c = false) pre -> q a = true ->
  forall (p : option ascii) (i : nat),
    search (plus (Chr q)) p (pre ++ a :: t) i
    = Some (i + List.length pre, S (i + List.length pre) + run_length q t).
Proof.
  intros Hp Ha. induction Hp as [|b pre Hb Hp IH]; intros p i.
  - cbn [app search List.length]. rewrite match_here_plus_exact, Ha, Nat.add_0_r.
    reflexivity.
  - cbn [app search List.length]. rewrite match_here_plus_exact, Hb, IH.
    rewrite <- !Nat.add_succ_comm. reflexivity.
Qed.

Lemma search_plus_none (q : ascii -> bool) (l : list ascii) :
  List.Forall (fun c => q c = false) l ->
  forall (p : option ascii) (i : nat), search (plus (Chr q)) p l i = None.
Proof.
  intros H. induction H as [|b l Hb H IH]; intros p i; cbn [search].
  - reflexivity.
  - rewrite match_here_plus_exact, Hb. apply IH.
Qed.

Lemma replace_plus_none (q : ascii -> bool) (by_ l : list ascii) :
  List.Forall (fun c => q c = false) l ->
  forall (fuel : nat) (p : option ascii) (i : nat),
    replace_loop fuel (plus (Chr q)) by_ p l i = l.
Proof.
  intros H [|fuel] p i; [reflexivity|]. cbn [replace_loop].
  now rewrite search_plus_none.
Qed.

Lemma replace_plus_step (q : ascii -> bool) (by_ pre : list ascii) (a : ascii)
    (t : list ascii) :
  List.Forall (fun c => q c = false) pre -> q a = true ->
  forall (fuel : nat) (p : option ascii) (i : nat),
    exists p' i',
      replace_loop (S fuel) (plus (Chr q)) by_ p (pre ++ a :: t) i
      = (pre ++ by_
         ++ replace_loop fuel (plus (Chr q)) by_ p' (skipn (run_length q t) t) i')%list.
Proof.
  intros Hp Ha fuel p i. cbn [replace_loop]. rewrite (search_plus_at q pre a t Hp Ha).
  replace (i + List.length pre - i) with (List.length pre) by lia.
  rewrite (proj2 (Nat.ltb_lt _ _)) by lia.
  rewrite !cursor_from_rest.
  rewrite firstn_app, firstn_all, Nat.sub_diag, firstn_O, app_nil_r.
  rewrite skipn_app, skipn_all, Nat.sub_diag. cbn [app skipn].
  replace (S (i + List.length pre) + run_length q t - (i + List.length pre))
    with (S (run_length q t)) by lia.
  cbn [skipn]. eauto.
Qed.

Lemma run_length_le (q : ascii -> bool) (t : list ascii) : run_length q t <= List.length t.
Proof. induction t as [|a t IH]; cbn; [lia|]. destruct (q a); lia. Qed.

Lemma after_the_run (q : ascii -> bool) (t : list ascii) :
  match skipn (run_length q t) t with
  | a :: _ => q a = false
  | [] => True
  end.
Proof.
  induction t as [|a t IH]; cbn; [exact I|]. destruct (q a) eqn:E; [exact IH | exact E].
Qed.

Lemma spaced_words (b : bool) (l : list ascii) :
  List.Forall (fun c => is_space c = false) l -> spaced b l = true.
Proof. intros H. revert b. induction H as [|a l Ha H IH]; intros b; cbn; [|rewrite Ha]; auto. Qed.

(** What replacing [\s+] by one space gives. *)
Lemma squeezed (fuel : nat) :
  forall (p : option ascii) (l : list ascii) (i : nat),
    List.length l < fuel ->
    let O := replace_loop fuel (plus space) [" "%char] p l i in
    spaced false O = true
    /\ match l with
       | a :: _ => is_space a = false -> exists O', O = a :: O'
       | [] => O = []
       end.
Proof.
  induction fuel as [|fuel IH]; intros p l i Hf; [lia|].
  destruct (split_at_first is_space l) as [Hl|(pre & a & t & -> & Hp & Ha)].
  - cbv zeta. unfold space. rewrite (replace_plus_none is_space _ l Hl).
    split; [now apply spaced_words|]. destruct l; eauto.
  - destruct (replace_plus_step is_space [" "%char] pre a t Hp Ha fuel p i) as (p' & i' & E).
    cbv zeta. unfold space in *. rewrite E.
    set (t' := skipn (run_length is_space t) t).
    assert (Hlen : List.length t' < fuel).
    { subst t'. rewrite length_skipn, length_app in *. cbn [List.length] in *. lia. }
    destruct (IH p' t' i' Hlen) as [Hs Hh]. cbv zeta in Hs, Hh. unfold space in *.
    set (O' := replace_loop fuel (plus (Chr is_space)) [" "%char] p' t' i') in *.
    assert (Hs' : spaced true O' = true).
    { pose proof (after_the_run is_space t) as Hr. fold t' in Hr.
      destruct t' as [|a' t'']; [now rewrite Hh|].
      destruct (Hh Hr) as [O'' HO]. rewrite HO in *. cbn [spaced] in *. now rewrite Hr in *. }
    split.
    + rewrite spaced_after_words by exact Hp.
      assert (spaced false ([" "%char] ++ O') = true) by exact Hs'.
      now destruct pre.
    + destruct pre as [|a0 pre]; cbn [app].
      * intros Hn. congruence.
      * intros _. eauto.
Qed.

(** Replacing [\s+] by one space changes nothing where every white space
    is one space. *)
Lemma squeeze_fixed (fuel : nat) :
  forall (p : option ascii) (l : list ascii) (i : nat),
    List.length l < fuel ->
    List.Forall (fun c => is_space c = true -> c = " "%char) l ->
    spaced false l = true ->
    replace_loop fuel (plus space) [" "%char] p l i = l.
Proof.
  induction fuel as [|fuel IH]; intros p l i Hf Hc Hs; [lia|].
  destruct (split_at_first is_space l) as [Hl|(pre & a & t & -> & Hp & Ha)].
  - unfold space. now apply replace_plus_none.
  - destruct (replace_plus_step is_space [" "%char] pre a t Hp Ha fuel p i) as (p' & i' & E).
    unfold space in *. rewrite E.
    apply Forall_app in Hc. destruct Hc as [_ Hc].
    pose proof (List.Forall_inv Hc Ha) as Hsp. apply List.Forall_inv_tail in Hc.
    apply spaced_suffix in Hs. cbn [spaced] in Hs. rewrite Ha in Hs. cbn [negb andb] in Hs.
    assert (Hr : run_length is_space t = 0).
    { destruct t as [|b t]; [reflexivity|]. cbn [spaced run_length] in *.
      destruct (is_space b); [discriminate | reflexivity]. }
    rewrite Hr. change (skipn 0 t) with t. rewrite IH.
    + now rewrite Hsp.
    + rewrite length_app in Hf. cbn [List.length] in Hf. lia.
    + exact Hc.
    + eapply spaced_weaken, Hs.
Qed.

Lemma match_here_Seq_Chr (q : ascii -> bool) (X : regex) (c : cursor) :
  match_here (Seq (Chr q) X) c
  = match rest c with
    | a :: t => if q a then run X (fun c' => Some (pos c')) (advance a t c) else None
    | [] => None
    end.
Proof. reflexivity. Qed.

Lemma match_here_Chr (q : ascii -> bool) (c : cursor) :
  match_here (Chr q) c
  = match rest c with
    | a :: t => if q a then Some (S (pos c)) else None
    | [] => None
    end.
Proof. reflexivity. Qed.

(** A search finds nothing where no character can start a match. *)
Lemma search_nothing (q : ascii -> bool) (r : regex) (l : list ascii) :
  (forall c, match_here r c
             = match rest c with
               | a :: t => if q a then match_here r c else None
               | [] => None
               end) ->
  List.Forall (fun c => q c = false) l ->
  forall (p : option ascii) (i : nat), search r p l i = None.
Proof.
  intros Hr H. induction H as [|a l Ha H IH]; intros p i; cbn [search].
  - now rewrite Hr.
  - rewrite Hr. cbn [rest]. rewrite Ha. apply IH.
Qed.

Lemma replace_all_nothing (q : ascii -> bool) (r : regex) (by_ s : string) :
  (forall c, match_here r c
             = match rest c with
               | a :: t => if q a then match_here r c else None
               | [] => None
               end) ->
  List.Forall (fun c => q c = false) (list_ascii_of_string s) ->
  replace_all r by_ s = s.
Proof.
  intros Hr H. unfold replace_all. cbn [replace_loop].
  rewrite (search_nothing q r _ Hr H). apply string_of_list_ascii_of_string.
Qed.

Lemma kept_space (c : ascii) :
  kept_by_cleanText c = true -> is_space c = true -> c = " "%char.
Proof.
  destruct c as [[] [] [] [] [] [] [] []]; vm_compute; intros H1 H2;
    first [reflexivity | discriminate].
Qed.

Lemma kept_not (c : ascii) :
  kept_by_cleanText c = true ->
  Ascii.eqb "<" c = false /\ Ascii.eqb "&" c = false
  /\ negb (is_word c || is_space c || one_of "-.()[]/" c) = false.
Proof.
  destruct c as [[] [] [] [] [] [] [] []]; vm_compute; intros H;
    first [discriminate | repeat split].
Qed.

Lemma trim_fixed (s : string) :
  no_leading_space (list_ascii_of_string s) ->
  no_leading_space (rev (list_ascii_of_string s)) ->
  trim s = s.
Proof.
  intros H1 H2. unfold trim.
  rewrite (drop_space_fixed _ H1), (drop_space_fixed _ H2), rev_involutive.
  apply string_of_list_ascii_of_string.
Qed.

Lemma tidy_fixed (s : string) : tidy s -> cleanText (VStr s) = s.
Proof.
  intros (Hk & Hs & Hl & Ht). unfold cleanText.
  rewrite (replace_all_nothing (Ascii.eqb "<")
             (seqs [chr "<"; Star (Chr (fun c => negb (Ascii.eqb c ">"))); chr ">"])).
  2: { intros [p [|a t] i]; cbn [rest]; [reflexivity|].
       destruct (Ascii.eqb "<" a) eqn:E; [reflexivity|].
       cbn [seqs]. unfold chr at 1. rewrite match_here_Seq_Chr. cbn [rest]. now rewrite E. }
  2: { eapply List.Forall_impl; [|exact Hk]. intros c Hc. apply (kept_not c Hc). }
  rewrite (replace_all_nothing (Ascii.eqb "&")
             (seqs [chr "&"; plus (Chr (fun c => is_alnum c || Ascii.eqb c "#")); chr ";"])).
  2: { intros [p [|a t] i]; cbn [rest]; [reflexivity|].
       destruct (Ascii.eqb "&" a) eqn:E; [reflexivity|].
       cbn [seqs]. unfold chr at 1. rewrite match_here_Seq_Chr. cbn [rest]. now rewrite E. }
  2: { eapply List.Forall_impl; [|exact Hk]. intros c Hc. apply (kept_not c Hc). }
  rewrite (replace_all_nothing
             (fun c => negb (is_word c || is_space c || one_of "-.()[]/" c))
             (Chr (fun c => negb (is_word c || is_space c || one_of "-.()[]/" c)))).
  2: { intros [p [|a t] i]; cbn [rest]; [reflexivity|].
       destruct (negb (is_word a || is_space a || one_of "-.()[]/" a)) eqn:E; [reflexivity|].
       rewrite match_here_Chr. cbn [rest]. now rewrite E. }
  2: { eapply List.Forall_impl; [|exact Hk]. intros c Hc. apply (kept_not c Hc). }
  assert (E : replace_all (plus space) " " s = s).
  { unfold replace_all. change (list_ascii_of_string " ") with [" "%char].
    rewrite squeeze_fixed; [apply string_of_list_ascii_of_string | lia | | exact Hs].
    eapply List.Forall_impl; [|exact Hk]. intros c Hc. now apply kept_space. }
  rewrite E. now apply trim_fixed.
Qed.

Lemma trim_no_leading (l : list ascii) :
  no_leading_space (rev (drop_space (rev (drop_space l)))).
Proof.
  set (d := drop_space l).
  assert (Hd : no_leading_space d) by apply drop_space_no_leading.
  destruct d as [|a t]; [exact I|]. cbn [no_leading_space] in Hd. cbn [rev].
  destruct (drop_space_last (rev t) a Hd) as [u ->].
  rewrite rev_app_distr. exact Hd.
Qed.

Lemma cleanText_tidy (text : value) : tidy (cleanText text).
Proof.
  unfold tidy. cbv zeta. split; [apply cleanText_kept|].
  destruct text as [| | | |s| |];
    try (split; [reflexivity | split; exact I]).
  unfold cleanText, trim. rewrite list_ascii_of_string_of_list_ascii.
  match goal with |- context [drop_space (list_ascii_of_string ?x)] =>
    set (l4 := list_ascii_of_string x) end.
  split; [|split].
  - assert (H4 : spaced false l4 = true).
    { subst l4. unfold replace_all at 1. rewrite list_ascii_of_string_of_list_ascii.
      change (list_ascii_of_string " ") with [" "%char]. apply squeezed. lia. }
    clearbody l4.
    destruct (trim_segment l4) as (x & y & E). rewrite E in H4.
    apply spaced_suffix in H4. now apply spaced_prefix in H4.
  - apply trim_no_leading.
  - rewrite rev_involutive. apply drop_space_no_leading.
Qed.

(** X2: [cleanText] is idempotent: cleaning a cleaned text returns it
    unchanged. *)
Theorem cleaning_twice_changes_nothing :
  forall text : value, cleanText (VStr (cleanText text)) = cleanText text.
Proof. intros text. apply tidy_fixed, cleanText_tidy. Qed.

(** ** TextProcessor: keywords *)

Lemma read_inherited (o : list (string * float)) (k : string) :
  (forall k', In k' (List.map fst o) -> inherited k' = false) ->
  inherited k = true -> read o k = Inherited.
Proof.
  intros Ho Hk. unfold read. destruct (assoc k o) eqn:E.
  - assert (In k (List.map fst o)).
    { clear Ho. induction o as [|[k0 y] o IH]; cbn in *; [discriminate|].
      destruct (String.eqb k k0) eqn:E0; [left; symmetry; now apply String.eqb_eq | right; auto]. }
    rewrite (Ho k) in Hk by assumption. discriminate.
  - now rewrite Hk.
Qed.

Lemma read_not_inherited (o : list (string * float)) (k : string) :
  inherited k = false -> read o k <> Inherited.
Proof. intros Hk. unfold read. destruct (assoc k o); [discriminate|]. now rewrite Hk. Qed.

Lemma set_keys_In {A : Type} (k k' : string) (x : A) (o : list (string * A)) :
  In k' (List.map fst (set k x o)) -> k' = k \/ In k' (List.map fst o).
Proof.
  rewrite set_keys. destruct (assoc k o); [tauto|].
  rewrite in_app_iff. cbn. intuition.
Qed.

Section Keywords.
Variable tokenize : string -> list string.
Variable stem : string -> string.
Variable stopword : string -> bool.

Lemma count_tokens_flag (contextBoosts : list (string * float)) (tokens : list string)
    (acc : freq_state) :
  (forall k, In k (List.map fst (termFreq acc)) -> inherited k = false) ->
  NoDup (List.map fst (termFreq acc)) ->
  let counted := fold_left (count_token stem contextBoosts) tokens acc in
  not_a_number counted
  = not_a_number acc || existsb (fun token => prototype_method (stem token)) tokens
  /\ (forall k, In k (List.map fst (termFreq counted)) -> inherited k = false)
  /\ NoDup (List.map fst (termFreq counted)).
Proof.
  revert acc. induction tokens as [|token tokens IH]; intros acc Hk Hn; cbn [fold_left existsb].
  - now rewrite orb_false_r.
  - set (acc' := count_token stem contextBoosts acc token).
    assert (H' : not_a_number acc' = not_a_number acc || prototype_method (stem token)
                 /\ (forall k, In k (List.map fst (termFreq acc')) -> inherited k = false)
                 /\ NoDup (List.map fst (termFreq acc'))).
    { subst acc'. unfold count_token. cbn [CONFIG.EMBEDDINGS.STEMMING_ENABLED].
      destruct (inherited (stem token)) eqn:Hi.
      - rewrite (read_inherited _ _ Hk Hi). cbn [not_a_number termFreq].
        unfold prototype_method. rewrite Hi. auto.
      - pose proof (read_not_inherited (termFreq acc) _ Hi) as Hr.
        assert (Hp : prototype_method (stem token) = false)
          by (unfold prototype_method; now rewrite Hi).
        rewrite Hp, orb_false_r.
        destruct (read (termFreq acc) (stem token)); [| congruence |];
          cbn [not_a_number termFreq]; (split; [reflexivity|]);
          (split; [|now apply set_NoDup]);
          intros k Hin; apply set_keys_In in Hin; destruct Hin as [->|Hin]; auto. }
    destruct H' as (Hf & Hk' & Hn'). destruct (IH acc' Hk' Hn') as (IH1 & IH2 & IH3).
    cbv zeta in *. rewrite IH1, Hf, orb_assoc. auto.
Qed.

Lemma insert_index_perm {A : Type} (n : N) (e : string * A) (l : list (N * (string * A))) :
  Permutation (insert_index n e l) ((n, e) :: l).
Proof.
  induction l as [|[m e'] l IH]; cbn; [reflexivity|].
  destruct (n <? m)%N; [reflexivity|].
  rewrite IH. apply perm_swap.
Qed.

Lemma enumerate_perm {A : Type} (o : list (string * A)) : Permutation (enumerate o) o.
Proof.
  unfold enumerate.
  set (step := fun (acc : list (N * (string * A))) (e : string * A) =>
                 match array_index (fst e) with
                 | Some n => insert_index n e acc
                 | None => acc
                 end).
  set (other := fun e : string * A => match array_index (fst e) with
                                      | Some _ => false
                                      | None => true
                                      end).
  assert (H : forall acc,
             Permutation (List.map snd (fold_left step o acc) ++ List.filter other o)
                         (List.map snd acc ++ o)).
  { induction o as [|e o IH]; intros acc; cbn [fold_left List.filter].
    - reflexivity.
    - unfold step at 2, other at 1. destruct (array_index (fst e)) as [n|].
      + rewrite IH. rewrite insert_index_perm. cbn [List.map snd].
        exact (Permutation_middle _ _ _).
      + etransitivity; [symmetry; exact (Permutation_middle _ _ _)|].
        etransitivity; [|exact (Permutation_middle _ _ _)].
        apply perm_skip. apply IH. }
  exact (H []).
Qed.

Lemma expandSynonyms_NoDup (termFreq : list (string * float)) :
  NoDup (List.map fst termFreq) -> NoDup (List.map fst (expandSynonyms stem termFreq)).
Proof.
  unfold expandSynonyms. generalize (enumerate (fold_left
    (fun expansions e =>
       match assoc (fst e) SYNONYMS with
       | Some synonyms => fold_left (add_synonym stem termFreq (snd e)) synonyms expansions
       | None => expansions
       end) (enumerate termFreq) [])).
  intros l. revert termFreq. induction l as [|e l IH]; intros termFreq H; cbn [fold_left].
  - exact H.
  - apply IH. now apply set_NoDup.
Qed.

Abbreviation kept_tokens text :=
  (List.filter (keep_token stopword) (tokenize (cleanText (VStr (toLowerCase text))))).

(** X3: [extractKeywords] throws a TypeError exactly when the stem of a
    token it keeps is the name of a method of [Object.prototype], such as
    constructor or toString; otherwise it returns keywords. *)
Theorem keyword_extraction_throws_on_prototype_methods :
  forall (text : string) (maxFeatures : nat) (context : string) (st : RegexState),
    let outcome := fst (extractKeywords tokenize stem stopword text maxFeatures context st) in
    (outcome = Throw TypeError
     <-> exists token, In token (kept_tokens text) /\ prototype_method (stem token) = true)
    /\ (outcome = Throw TypeError \/ exists keywords, outcome = Ok keywords).
Proof.
  intros text maxFeatures context st outcome. subst outcome. unfold extractKeywords.
  destruct (tokenize (cleanText (VStr (toLowerCase text)))) as [|t0 tokens] eqn:Et.
  - cbn [fst List.filter]. split; [|right; eauto].
    split; [discriminate | intros (token & [] & _)].
  - set (kept := List.filter (keep_token stopword) (t0 :: tokens)).
    destruct (count_tokens_flag (getContextBoosts context) kept (mkFreq [] false st))
      as (Hf & _ & _); [cbn; tauto | constructor |].
    cbv zeta in Hf. cbn [not_a_number orb] in Hf.
    cbn [CONFIG.EMBEDDINGS.SYNONYM_EXPANSION andb]. rewrite Hf.
    destruct (existsb (fun token => prototype_method (stem token)) kept) eqn:Ex; cbn [fst].
    + split; [|now left]. split; [intros _|reflexivity].
      apply existsb_exists in Ex. exact Ex.
    + split; [|right; eauto]. split; [discriminate|].
      intros Hex. apply existsb_exists in Hex. congruence.
Qed.

(** X4: the keywords [extractKeywords] returns are at most
    [maxFeatures], their terms are pairwise distinct, and there are none
    when no token is kept. *)
Theorem keywords_are_bounded_and_distinct :
  forall (text : string) (maxFeatures : nat) (context : string) (st st' : RegexState)
         (keywords : list keyword),
    extractKeywords tokenize stem stopword text maxFeatures context st = (Ok keywords, st') ->
    List.length keywords <= maxFeatures
    /\ NoDup (List.map term keywords)
    /\ (kept_tokens text = [] -> keywords = []).
Proof.
  intros text maxFeatures context st st' keywords. unfold extractKeywords.
  destruct (tokenize (cleanText (VStr (toLowerCase text)))) as [|t0 tokens] eqn:Et.
  - intros [= <- _]. cbn. split; [lia|]. split; [constructor | reflexivity].
  - set (kept := List.filter (keep_token stopword) (t0 :: tokens)).
    destruct (count_tokens_flag (getContextBoosts context) kept (mkFreq [] false st))
      as (_ & _ & Hn); [cbn; tauto | constructor |].
    cbv zeta in Hn. set (counted := fold_left _ kept _) in *.
    cbn [CONFIG.EMBEDDINGS.SYNONYM_EXPANSION andb].
    destruct (not_a_number counted); [discriminate|].
    intros [= <- _]. rewrite length_map, map_map. cbn [term].
    split; [apply firstn_le_length|]. split.
    + rewrite <- List.firstn_map. eapply sublist_NoDup; [|apply sublist_take].
      assert (P : Permutation
                    (List.map fst (js_sort by_weight_desc
                                     (enumerate (expandSynonyms stem (termFreq counted)))))
                    (List.map fst (expandSynonyms stem (termFreq counted)))).
      { apply Permutation_map. etransitivity; [apply js_sort_perm | apply enumerate_perm]. }
      change (fun x : string * float => fst x) with (@fst string float).
      rewrite P. now apply expandSynonyms_NoDup.
    + intros Hk. subst counted. rewrite Hk. now destruct maxFeatures.
Qed.

End Keywords.

(** The theorem on a text of three tokens, two of them the same. *)
Lemma keywords_witness :
  List.length [mkKeyword "organic" 1 3; mkKeyword "tea" 0.3333 1] <= 5
  /\ NoDup (List.map term [mkKeyword "organic" 1 3; mkKeyword "tea" 0.3333 1])
  /\ (List.filter (keep_token Sample.stopword)
        (Sample.tokenize (cleanText (VStr (toLowerCase "Organic tea, organic!")))) = [] ->
      [mkKeyword "organic" 1 3; mkKeyword "tea" 0.3333 1] = []).
Proof.
  apply (keywords_are_bounded_and_distinct Sample.tokenize Sample.stem Sample.stopword
           "Organic tea, organic!" 5 "general" fresh (mkRegexState 7 0 0 0 0)).
  vm_compute. reflexivity.
Defined.

(** ** TextProcessor: synonyms *)

Lemma In_assoc {A : Type} (k : string) (x : A) (o : list (string * A)) :
  NoDup (List.map fst o) -> In (k, x) o -> assoc k o = Some x.
Proof.
  induction o as [|[k0 y] o IH]; cbn [List.map fst assoc In]; [tauto|].
  intros Hn [H|H].
  - injection H as -> ->. now rewrite String.eqb_refl.
  - apply NoDup_cons in Hn. destruct Hn as [Hk Hn].
    destruct (String.eqb k k0) eqn:E.
    + apply String.eqb_eq in E. subst k0. exfalso. apply Hk. apply list_elem_of_In.
      apply in_map_iff. exists (k, x). auto.
    + auto.
Qed.

Lemma assoc_In {A : Type} (k : string) (x : A) (o : list (string * A)) :
  assoc k o = Some x -> In (k, x) o.
Proof.
  induction o as [|[k0 y] o IH]; cbn [assoc In]; [discriminate|].
  destruct (String.eqb k k0) eqn:E.
  - apply String.eqb_eq in E. intros [= ->]. left. now subst.
  - auto.
Qed.

Section Synonyms.
Variable stem : string -> string.

Lemma add_synonym_ok (termFreq : list (string * float)) (term : string) (freq : float)
    (synonyms : list string) :
  In (term, freq) termFreq -> assoc term SYNONYMS = Some synonyms ->
  forall (l : list string) (expansions : list (string * float)),
    incl l synonyms ->
    expansions_ok stem termFreq expansions ->
    expansions_ok stem termFreq (fold_left (add_synonym stem termFreq freq) l expansions).
Proof.
  intros Ht Hs. induction l as [|synonym l IH]; intros expansions Hl H; cbn [fold_left].
  - exact H.
  - apply IH; [intros x Hx; apply Hl; now right|].
    unfold add_synonym. cbn [CONFIG.EMBEDDINGS.STEMMING_ENABLED].
    destruct (_ && _) eqn:E; [|exact H].
    apply andb_true_iff in E. destruct E as [E _].
    destruct H as [Hn H]. split; [now apply set_NoDup|].
    intros k y. rewrite assoc_set. destruct (String.eqb k (stem synonym)) eqn:Ek; [|apply H].
    apply String.eqb_eq in Ek. subst k. intros [= <-]. split.
    + unfold no_weight. unfold read in E. destruct (assoc (stem synonym) termFreq).
      * now apply negb_true_iff in E.
      * exact I.
    + exists term, freq, synonyms, synonym. repeat split; auto. apply Hl. now left.
Qed.

Lemma expansions_are_ok (termFreq : list (string * float)) :
  forall (l expansions : list (string * float)),
    incl l termFreq ->
    expansions_ok stem termFreq expansions ->
    expansions_ok stem termFreq
      (fold_left (fun expansions e =>
                    match assoc (fst e) SYNONYMS with
                    | Some synonyms =>
                        fold_left (add_synonym stem termFreq (snd e)) synonyms expansions
                    | None => expansions
                    end) l expansions).
Proof.
  induction l as [|[term freq] l IH]; intros expansions Hl H; cbn [fold_left].
  - exact H.
  - apply IH; [intros x Hx; apply Hl; now right|]. cbn [fst snd].
    destruct (assoc term SYNONYMS) as [synonyms|] eqn:Es; [|exact H].
    apply (add_synonym_ok termFreq term freq synonyms); auto.
    + apply Hl. now left.
    + apply incl_refl.
Qed.

Lemma assign_assoc (l termFreq : list (string * float)) (k : string) :
  assoc k (fold_left (fun tf e => set (fst e) (snd e) tf) l termFreq) = assoc k termFreq
  \/ exists y, In (k, y) l
               /\ assoc k (fold_left (fun tf e => set (fst e) (snd e) tf) l termFreq) = Some y.
Proof.
  revert termFreq. induction l as [|[k0 y0] l IH]; intros termFreq; cbn [fold_left fst snd].
  - now left.
  - destruct (IH (set k0 y0 termFreq)) as [H|(y & Hy & H)].
    + rewrite H, assoc_set. destruct (String.eqb k k0) eqn:E.
      * apply String.eqb_eq in E. subst k0. right. exists y0. split; [now left|].
        reflexivity.
      * now left.
    + right. exists y. split; [now right | exact H].
Qed.

Lemma assign_keys (l termFreq : list (string * float)) (k : string) :
  In k (List.map fst termFreq) ->
  In k (List.map fst (fold_left (fun tf e => set (fst e) (snd e) tf) l termFreq)).
Proof.
  revert termFreq. induction l as [|e l IH]; intros termFreq H; cbn [fold_left]; [exact H|].
  apply IH. rewrite set_keys. destruct (assoc (fst e) termFreq); [exact H|].
  apply in_app_iff. now left.
Qed.

(** X5: on term weights none of which is filed under a name inherited
    from [Object.prototype], [expandSynonyms] only adds: a term with a
    truthy weight keeps it, every key stays, and an entry of the result is
    an entry of [termFreq] or carries half the weight of a term that has it
    as a stemmed synonym. *)
Theorem synonym_expansion_only_adds :
  forall (termFreq : list (string * float)),
    (forall term, In term (List.map fst termFreq) -> inherited term = false) ->
    forall k : string,
      (forall x, assoc k termFreq = Some x -> JsNumber.truthy x = true ->
                 assoc k (expandSynonyms stem termFreq) = Some x)
      /\ (In k (List.map fst termFreq) -> In k (List.map fst (expandSynonyms stem termFreq)))
      /\ (forall y, assoc k (expandSynonyms stem termFreq) = Some y ->
                    assoc k termFreq = Some y \/ synonym_weight stem termFreq k y).
Proof.
  intros termFreq _ k. unfold expandSynonyms.
  set (expansions := fold_left _ (enumerate termFreq) []).
  assert (He : expansions_ok stem termFreq expansions).
  { apply expansions_are_ok.
    - intros e H. eapply Permutation_in; [apply enumerate_perm | exact H].
    - split; [constructor | discriminate]. }
  destruct He as [Hn He].
  assert (Hin : forall y, In (k, y) (enumerate expansions) ->
                          no_weight termFreq k /\ synonym_weight stem termFreq k y).
  { intros y H. apply He. apply In_assoc; [exact Hn|].
    eapply Permutation_in; [apply enumerate_perm | exact H]. }
  destruct (assign_assoc (enumerate expansions) termFreq k) as [H|(y & Hy & H)].
  - rewrite H. split; [auto|]. split; [apply assign_keys | auto].
  - rewrite H. destruct (Hin y Hy) as [Hw Hs]. split; [|split].
    + intros x Hx Ht. unfold no_weight in Hw. rewrite Hx in Hw. congruence.
    + apply assign_keys.
    + intros y' [= <-]. now right.
Qed.

End Synonyms.

(** The theorem on the term muscle and its synonym strength. *)
Lemma synonyms_witness :
  let termFreq := [("muscle", 2%float)] in
  (forall x, assoc "strength" termFreq = Some x -> JsNumber.truthy x = true ->
             assoc "strength" (expandSynonyms Sample.stem termFreq) = Some x)
  /\ (In "strength" (List.map fst termFreq) ->
      In "strength" (List.map fst (expandSynonyms Sample.stem termFreq)))
  /\ (forall y, assoc "strength" (expandSynonyms Sample.stem termFreq) = Some y ->
                assoc "strength" termFreq = Some y
                \/ synonym_weight Sample.stem termFreq "strength" y).
Proof.
  intros termFreq.
  apply (synonym_expansion_only_adds Sample.stem termFreq).
  intros term [<-|[]]. reflexivity.
Defined.

(** ** EmbeddingGenerator: the hash *)

Section HashFacts.

Local Open Scope Z_scope.

Lemma to_int32_range (z : Z) : - 2 ^ 31 <= to_int32 z < 2 ^ 31.
Proof. unfold to_int32. pose proof (Z.mod_pos_bound (z + 2 ^ 31) (2 ^ 32) ltac:(lia)). lia. Qed.

Lemma to_int32_wraps (z : Z) : exists k, to_int32 z = z + k * 2 ^ 32.
Proof.
  exists (- ((z + 2 ^ 31) / 2 ^ 32)). unfold to_int32.
  pose proof (Z.div_mod (z + 2 ^ 31) (2 ^ 32) ltac:(lia)). lia.
Qed.

Lemma to_int32_shift (z k : Z) : to_int32 (z + k * 2 ^ 32) = to_int32 z.
Proof.
  unfold to_int32. replace (z + k * 2 ^ 32 + 2 ^ 31) with (z + 2 ^ 31 + k * 2 ^ 32) by lia.
  now rewrite Z_mod_plus_full.
Qed.

Lemma hash_step (hash acc : Z) (c : ascii) :
  hash = to_int32 acc ->
  to_int32 (to_int32 (hash * 32) - hash + Z.of_nat (code c))
  = to_int32 (31 * acc + Z.of_nat (code c)).
Proof.
  intros ->.
  destruct (to_int32_wraps acc) as [k Hk].
  destruct (to_int32_wraps (to_int32 acc * 32)) as [j Hj].
  rewrite Hj, Hk.
  replace ((acc + k * 2 ^ 32) * 32 + j * 2 ^ 32 - (acc + k * 2 ^ 32) + Z.of_nat (code c))
    with (31 * acc + Z.of_nat (code c) + (31 * k + j) * 2 ^ 32) by lia.
  apply to_int32_shift.
Qed.

Lemma hash_fold (l : list ascii) (hash acc : Z) :
  hash = to_int32 acc ->
  fold_left (fun hash char => to_int32 (to_int32 (hash * 32) - hash + Z.of_nat (code char)))
    l hash
  = to_int32 (poly31 l acc).
Proof.
  revert hash acc. induction l as [|c t IH]; intros hash acc H; cbn [fold_left poly31].
  - exact H.
  - apply IH. now apply hash_step.
Qed.

(** X6: [hashString] is the absolute value of the polynomial hash with
    base 31 over the character codes, wrapped to 32 bits; it lies between 0
    and 2^31. *)
Theorem hashString_is_the_wrapped_polynomial :
  forall str : string,
    hashString str = Z.abs (to_int32 (poly31 (list_ascii_of_string str) 0))
    /\ 0 <= hashString str <= 2 ^ 31.
Proof.
  intros str. unfold hashString.
  rewrite (hash_fold _ 0 0) by reflexivity.
  split; [reflexivity|].
  pose proof (to_int32_range (poly31 (list_ascii_of_string str) 0)). lia.
Qed.

End HashFacts.

(** ** EmbeddingGenerator: dense embeddings *)

Section Dense.
Variable Math_sin : float -> float.

(** X7: [generateMultipleDenseEmbeddings] returns between one and three
    embeddings, keyed primary, title or category, the primary one always
    among them, each of [DENSE_DIM] numbers. *)
Theorem dense_embeddings_have_the_configured_dimension :
  forall (searchableText : string) (searchableComponents : components),
    let denseEmbeddings :=
      generateMultipleDenseEmbeddings Math_sin searchableText searchableComponents in
    (exists numbers, assoc "primary" denseEmbeddings = Some (Some numbers))
    /\ List.Forall (fun e => In (fst e) ["primary"; "title"; "category"]
                             /\ exists numbers, snd e = Some numbers
                                  /\ List.length numbers = CONFIG.EMBEDDINGS.DENSE_DIM)
         denseEmbeddings
    /\ (1 <= List.length denseEmbeddings <= 3)%nat.
Proof.
  intros searchableText searchableComponents.
  assert (D : forall text, exists numbers,
             generateDenseEmbedding Math_sin text = Some numbers
             /\ List.length numbers = CONFIG.EMBEDDINGS.DENSE_DIM).
  { intros text. unfold generateDenseEmbedding. cbn [CONFIG.EMBEDDINGS.ENABLE_DENSE negb].
    eexists. split; [reflexivity|]. now rewrite !length_map, length_seq. }
  unfold generateMultipleDenseEmbeddings. cbn [CONFIG.EMBEDDINGS.ENABLE_DENSE].
  destruct (D searchableText) as (n0 & E0 & L0).
  destruct (D (c_title searchableComponents)) as (n1 & E1 & L1).
  destruct (D (c_categories searchableComponents)) as (n2 & E2 & L2).
  rewrite E0, E1, E2. cbn zeta.
  destruct (present (c_title searchableComponents)),
           (present (c_categories searchableComponents)); cbn;
    (split; [eauto|]); (split; [|lia]);
    repeat (apply List.Forall_cons; [cbn; split; [tauto|eauto]|]); apply List.Forall_nil.
Qed.
End Dense.

(** ** EmbeddingGenerator: the searchable text *)

Lemma extractSearchPatterns_state (text : string) (st : RegexState) :
  snd (extractSearchPatterns text st) = mkRegexState (li_commerceTerms st) 0 0 0 0.
Proof. reflexivity. Qed.

(** X8: the text [extractSearchableText] returns is at most three times
    [MAX_DESCRIPTION_LENGTH] characters long, and the call leaves the
    [lastIndex] of every pattern but [commerceTerms] at 0. *)
Theorem searchable_text_is_bounded :
  forall (product : value) (format : string) (st st' : RegexState) (text : string),
    extractSearchableText product format st = (Ok text, st') ->
    String.length text <= 3 * CONFIG.LIMITS.MAX_DESCRIPTION_LENGTH
    /\ st' = mkRegexState (li_commerceTerms st) 0 0 0 0.
Proof.
  intros product format st st' text. rewrite Nat.mul_comm. unfold extractSearchableText.
  generalize (CONFIG.LIMITS.MAX_DESCRIPTION_LENGTH * 3). intros n.
  match goal with |- context [match ?X with Ok _ => _ | Throw _ => _ end] => destruct X as [c|e] end;
    [|discriminate].
  cbv zeta.
  match goal with |- context [extractSearchPatterns ?w st] =>
    pose proof (extractSearchPatterns_state w st) as Hs;
    generalize dependent (extractSearchPatterns w st) end.
  intros found Hs H. split; [|congruence].
  set (x := substring0 n _) in H. assert (Hx : String.length x <= n) by apply length_substring0.
  clearbody x. congruence.
Qed.

(** The theorem on a record of tea with markup in its title. *)
Lemma searchable_text_is_bounded_witness :
  String.length "Organic Tea 250 g Organic Tea 250 g Organic Tea 250 g Organic Tea 250 g Organic Tea 250 g 250 g 250 g 250 g 250 g 250 g 250 250 250 250 250"
  <= 3 * CONFIG.LIMITS.MAX_DESCRIPTION_LENGTH
  /\ mkRegexState 7 0 0 0 0 = mkRegexState 7 0 0 0 0.
Proof.
  apply (searchable_text_is_bounded
           (VObj [("id", VStr "p3"); ("title", VStr "Organic <b>Tea</b> 250 g")])
           "vertex" (mkRegexState 7 3 0 0 1)).
  vm_compute. reflexivity.
Defined.

(** ** EmbeddingGenerator: other formats *)

Lemma extractSearchPatterns_empty (st : RegexState) :
  extractSearchPatterns "" st
  = (mkPatterns [] [] [] [], mkRegexState (li_commerceTerms st) 0 0 0 0).
Proof. unfold extractSearchPatterns. f_equal. Qed.

Lemma extractSearchableText_other_format (product : value) (format : string) (st : RegexState) :
  format <> "auto" -> format <> "vertex" -> format <> "generic" ->
  extractSearchableText product format st
  = (Ok "", mkRegexState (li_commerceTerms st) 0 0 0 0).
Proof.
  intros Ha Hv Hg. unfold extractSearchableText.
  apply String.eqb_neq in Ha, Hv, Hg. rewrite Ha.
  cbn [mbind res_bind mret res_ret]. rewrite Hv, Hg. cbn [orb].
  change (mret empty_components) with (Ok empty_components). cbv beta iota.
  change (join " " _) with "". rewrite extractSearchPatterns_empty. reflexivity.
Qed.

(** ** EmbeddingGenerator: what a record leaves behind *)

Lemma extractSearchableText_state (product : value) (format : string) (st1 st2 : RegexState) :
  li_commerceTerms st1 = li_commerceTerms st2 ->
  (exists e, extractSearchableText product format st1 = (Throw e, st1)
             /\ extractSearchableText product format st2 = (Throw e, st2))
  \/ (exists text st', extractSearchableText product format st1 = (Ok text, st')
                       /\ extractSearchableText product format st2 = (Ok text, st')).
Proof.
  intros H. unfold extractSearchableText.
  match goal with |- context [match ?X with Ok _ => _ | Throw _ => _ end] => destruct X as [c|e] end.
  - right. cbv zeta. unfold extractSearchPatterns. cbn [fst snd]. rewrite H. eauto.
  - left. eauto.
Qed.

Section Carry.
Variable tokenize : string -> list string.
Variable stem : string -> string.
Variable stopword : string -> bool.
Variable Math_sin : float -> float.

(** X10: of the state of the regular expressions only the [lastIndex]
    of [commerceTerms] bears on [addEmbeddingsToProduct]: from two states
    that agree on it the call returns the same record, and leaves the same
    state when the searchable text could be built. *)
Theorem only_the_commerce_terms_index_carries_over :
  forall (product : value) (format : string) (st1 st2 : RegexState),
    li_commerceTerms st1 = li_commerceTerms st2 ->
    let r1 := addEmbeddingsToProduct tokenize stem stopword Math_sin product format st1 in
    let r2 := addEmbeddingsToProduct tokenize stem stopword Math_sin product format st2 in
    fst r1 = fst r2
    /\ ((exists text st', extractSearchableText product format st1 = (Ok text, st')) ->
        r1 = r2).
Proof.
  intros product format st1 st2 H r1 r2. subst r1 r2.
  unfold addEmbeddingsToProduct, enrich, generate.
  destruct (extractSearchableText_state product format st1 st2 H)
    as [(e & E1 & E2)|(text & st' & E1 & E2)]; rewrite E1, E2; cbn [and_then].
  - split; [reflexivity|]. intros (text & st' & [=]).
  - split; reflexivity.
Qed.

End Carry.

(** The theorem on a record of tea and two states of the patterns. *)
Lemma carry_witness :
  let tea := VObj [("id", VStr "p3"); ("title", VStr "Organic Tea")] in
  let r1 := addEmbeddingsToProduct Sample.tokenize Sample.stem Sample.stopword Sample.Math_sin
              tea "vertex" (mkRegexState 7 3 1 4 2) in
  let r2 := addEmbeddingsToProduct Sample.tokenize Sample.stem Sample.stopword Sample.Math_sin
              tea "vertex" (mkRegexState 7 0 0 0 0) in
  fst r1 = fst r2
  /\ ((exists text st', extractSearchableText tea "vertex" (mkRegexState 7 3 1 4 2)
                        = (Ok text, st')) ->
      r1 = r2).
Proof.
  intros tea.
  apply (only_the_commerce_terms_index_carries_over
           Sample.tokenize Sample.stem Sample.stopword Sample.Math_sin tea "vertex"
           (mkRegexState 7 3 1 4 2) (mkRegexState 7 0 0 0 0)).
  reflexivity.
Defined.

(** ** UniversalConverter: the final report *)

Lemma set_Forall {A : Type} (P : string * A -> Prop) (k : string) (x : A)
    (o : list (string * A)) :
  P (k, x) -> List.Forall P o -> List.Forall P (set k x o).
Proof.
  intros Hx Ho. induction Ho as [|[k0 y] o Hy Ho IH]; cbn.
  - now constructor.
  - destruct (String.eqb k k0); constructor; auto.
Qed.

Lemma enumerate_Forall {A : Type} (P : string * A -> Prop) (o : list (string * A)) :
  List.Forall P o -> List.Forall P (enumerate o).
Proof.
  rewrite !List.Forall_forall. intros H x Hx. apply H.
  eapply Permutation_in; [apply enumerate_perm | exact Hx].
Qed.

Lemma count_le_length (products : list value) :
  (countProductsWithEmbeddings products <= N.of_nat (List.length products))%N.
Proof.
  unfold countProductsWithEmbeddings.
  pose proof (List.filter_length_le hasEmbeddings products). lia.
Qed.

Lemma recorded_within (results : list (string * (string * option (list value)))) :
  List.Forall counted_within (recorded results).
Proof.
  unfold recorded. generalize (@nil (string * file_stats)) (List.Forall_nil counted_within).
  induction results as [|r results IH]; intros stats Hs; cbn [fold_left]; [exact Hs|].
  apply IH. destruct (String.eqb (fst r) "__proto__"); [exact Hs|].
  apply set_Forall; [|exact Hs].
  unfold counted_within, file_entry. cbn [snd].
  destruct (snd (snd r)); cbn [withEmbeddings totalProducts]; [apply count_le_length | lia].
Qed.

Lemma files_checked (existsSync : string -> bool) (files : list (string * file_stats)) :
  List.Forall counted_within files ->
  forall (warnings errors : list string),
    (forall w, In w warnings -> w <> duration_missing) ->
    let checked :=
      fold_left
        (fun (acc : list string * list string) (f : string * file_stats) =>
           let fileData := snd f in
           let warnings :=
             match outputPath fileData with
             | Some path =>
                 if processed fileData && negb (is_empty path) && negb (existsSync path)
                 then (fst acc ++ ["Output file not found: " +:+ path])%list
                 else fst acc
             | None => fst acc
             end in
           let errors :=
             if (totalProducts fileData <? withEmbeddings fileData)%N
             then (snd acc ++ ["File " +:+ fst f +:+ ": embedding count ("
                               +:+ N_to_string (withEmbeddings fileData)
                               +:+ ") exceeds total products ("
                               +:+ N_to_string (totalProducts fileData) +:+ ")"])%list
             else snd acc in
           (warnings, errors))
        files (warnings, errors) in
    snd checked = errors /\ (forall w, In w (fst checked) -> w <> duration_missing).
Proof.
  intros Hf. induction Hf as [|f files Hc Hf IH]; intros warnings errors Hw; [now split|].
  cbn [fold_left]. cbv zeta. cbn [fst snd].
  unfold counted_within in Hc. apply N.ltb_ge in Hc. rewrite Hc.
  apply IH. destruct (outputPath (snd f)) as [path|]; [|exact Hw].
  destruct (processed (snd f) && negb (is_empty path) && negb (existsSync path));
    [|exact Hw].
  intros w Hin. apply in_app_iff in Hin. destruct Hin as [Hin|[<-|[]]]; [now apply Hw|].
  discriminate.
Qed.

Lemma successful_when_products (startTime endTime : float) (totalFiles : N)
    (stats : list (string * file_stats)) :
  let report := dynamicFinalReport startTime endTime totalFiles stats in
  (0 < total_products report)%N -> successfully_processed report <> 0%N.
Proof.
  cbv zeta. unfold dynamicFinalReport. cbn [total_products successfully_processed].
  destruct (List.filter (fun f => processed (snd f)) (enumerate stats));
    cbn [fold_left List.length]; lia.
Qed.

(** X29: when files were discovered, the validation of the final report
    finds it valid exactly when products were converted: with none, the
    reported rate 0.00% is compared with 0%.  It never warns of a missing
    duration, as [parseFloat] returns a number. *)
Theorem report_is_valid_when_products_were_converted :
  forall (startTime endTime : float) (totalFiles : N) (existsSync : string -> bool)
         (results : list (string * (string * option (list value)))),
    (0 < totalFiles)%N ->
    let report := dynamicFinalReport startTime endTime totalFiles (recorded results) in
    let v := validateReportAccuracy existsSync report in
    isValid v = (0 <? total_products report)%N
    /\ (total_products report = 0%N -> In rate_mismatch (errors v))
    /\ ~ In duration_missing (warnings v).
Proof.
  intros startTime endTime totalFiles existsSync results Ht report v.
  pose proof (recorded_within results) as Hw.
  subst v. unfold validateReportAccuracy. cbv zeta.
  set (errors0 := (if (successfully_processed report =? 0)%N
                      && (0 <? total_files_discovered report)%N then _ else _)).
  set (errors1 := (if negb (String.eqb _ _) then _ else _)).
  set (warnings0 := (if (total_products report =? 0)%N then _ else _)).
  assert (Herr : errors1
                 = if (0 <? total_products report)%N then []
                   else (errors0 ++ [rate_mismatch])%list).
  { pose proof (successful_when_products startTime endTime totalFiles (recorded results))
      as Hsum. cbv zeta in Hsum. fold report in Hsum.
    assert (Hrate : embedding_success_rate report
                    = if (0 <? total_products report)%N
                      then percentage (products_with_embeddings report) (total_products report)
                      else "0.00%") by reflexivity.
    subst errors1 errors0. rewrite Hrate.
    change (total_files_discovered report) with totalFiles.
    replace (totalFiles =? 0)%N with false by (symmetry; apply N.eqb_neq; lia).
    destruct (0 <? total_products report)%N eqn:Ep.
    - apply N.ltb_lt in Ep. specialize (Hsum Ep). apply N.eqb_neq in Hsum.
      rewrite Hsum, String.eqb_refl. reflexivity.
    - reflexivity. }
  destruct (files_checked existsSync (enumerate (processed_files report))
              (enumerate_Forall _ _ Hw) warnings0 errors1) as [He Hd].
  { subst warnings0. intros w. destruct (total_products report =? 0)%N; cbn; [|tauto].
    intros [<-|[]]. discriminate. }
  cbv zeta in He, Hd. cbn [isValid errors warnings]. rewrite He.
  match type of Hd with forall w, In w ?ws -> _ => set (checked := ws) in * end.
  clearbody checked. rewrite Herr.
  change (duration_seconds report) with (VNum (parseFloat
    (if JsNumber.truthy startTime
     then VStr (toFixed 2 ((endTime - startTime) / 1000)%float) else VNull))).
  cbv iota.
  destruct (0 <? total_products report)%N eqn:Ep.
  - apply N.ltb_lt in Ep. split; [reflexivity|]. split.
    + intros Hz. rewrite Hz in Ep. exact (False_ind _ (N.lt_irrefl _ Ep)).
    + intros Hin. exact (Hd _ Hin eq_refl).
  - split; [now destruct errors0|]. split.
    + intros _. apply in_or_app. right. now left.
    + intros Hin. exact (Hd _ Hin eq_refl).
Qed.

(** The theorem on a run over two files, one converted and one failed. *)
Lemma report_witness :
  let results := [("a.json", ("out/a.jsonl", Some [VObj [("id", VStr "p")]]));
                  ("b.json", ("", None))] in
  let report := dynamicFinalReport 1000 5000 2 (recorded results) in
  let v := validateReportAccuracy (fun _ => true) report in
  isValid v = (0 <? total_products report)%N
  /\ (total_products report = 0%N -> In rate_mismatch (errors v))
  /\ ~ In duration_missing (warnings v).
Proof.
  intros results. apply (report_is_valid_when_products_were_converted 1000 5000 2). lia.
Defined.

(** ** EmbeddingGenerator: the records the report counts *)

Lemma carries_dense_counted (p : value) : carries_dense_embedding p -> hasEmbeddings p = true.
Proof.
  intros (o & a & numbers & -> & Ha & Hd & Hn). unfold hasEmbeddings.
  cbn [truthy negb orb prop]. rewrite Ha. cbn [truthy negb prop]. rewrite Hd.
  unfold numbers_value. cbn [chain prop assoc String.eqb Ascii.eqb Bool.eqb].
  rewrite length_map, Hn. vm_compute. reflexivity.
Qed.

Lemma set_attribute_keeps_dense (k : string) (x p q : value) :
  k <> "dense_embedding" ->
  set_attribute k x p = Ok q -> carries_dense_embedding p -> carries_dense_embedding q.
Proof.
  intros Hk H (o & a & numbers & -> & Ha & Hd & Hn). unfold set_attribute in H.
  rewrite Ha in H. injection H as <-.
  exists (set "attributes" (VObj (set k x a)) o), (set k x a), numbers.
  split; [reflexivity|]. split; [now rewrite assoc_set|]. split; [|exact Hn].
  rewrite assoc_set. apply not_eq_sym in Hk. apply String.eqb_neq in Hk. now rewrite Hk.
Qed.

Lemma json_attributes (o : list (string * value)) (a : list (string * value)) :
  assoc "attributes" o = Some (VObj a) ->
  exists o' a', json_value (VObj o) = Some (VObj o') /\ assoc "attributes" o' = Some (VObj a').
Proof.
  intros H. cbn [json_value].
  match goal with |- exists o' a', Some (VObj (?f o)) = _ /\ _ =>
    exists (f o); set (fields := f) end.
  enough (exists a', assoc "attributes" (fields o) = Some (VObj a')) as [a' Ha]
    by (exists a'; split; [reflexivity | exact Ha]).
  induction o as [|[k x] o IH]; [discriminate|].
  cbn [assoc] in H. destruct (String.eqb "attributes" k) eqn:E.
  - injection H as ->. apply String.eqb_eq in E. subst k. subst fields. cbn [json_value].
    eexists. cbn [assoc String.eqb Ascii.eqb Bool.eqb]. reflexivity.
  - destruct (IH H) as (a' & Ha). exists a'. subst fields. cbn beta iota.
    destruct (json_value x) as [x'|]; [cbn [assoc]; rewrite E|]; exact Ha.
Qed.

Section Counted.
Variable tokenize : string -> list string.
Variable stem : string -> string.
Variable stopword : string -> bool.
Variable Math_sin : float -> float.

Lemma primary_embedding (searchableText : string) (searchableComponents : components) :
  exists numbers,
    assoc "primary"
      (generateMultipleDenseEmbeddings Math_sin searchableText searchableComponents)
    = Some (Some numbers)
    /\ List.length numbers = CONFIG.EMBEDDINGS.DENSE_DIM.
Proof.
  assert (D : forall text, exists numbers,
             generateDenseEmbedding Math_sin text = Some numbers
             /\ List.length numbers = CONFIG.EMBEDDINGS.DENSE_DIM).
  { intros text. unfold generateDenseEmbedding. cbn [CONFIG.EMBEDDINGS.ENABLE_DENSE negb].
    eexists. split; [reflexivity|]. now rewrite !length_map, length_seq. }
  unfold generateMultipleDenseEmbeddings. cbn [CONFIG.EMBEDDINGS.ENABLE_DENSE].
  destruct (D searchableText) as (n0 & E0 & L0).
  destruct (D (c_title searchableComponents)) as (n1 & E1 & L1).
  destruct (D (c_categories searchableComponents)) as (n2 & E2 & L2).
  rewrite E0, E1, E2. clear E0 E1 E2.
  destruct (present (c_title searchableComponents)),
           (present (c_categories searchableComponents)); cbn; eauto.
Qed.

Lemma generate_primary (product : value) (format : string) (st st' : RegexState)
    (g : embeddings) :
  generate tokenize stem stopword Math_sin product format st = (Ok (Some g), st') ->
  exists numbers, assoc "primary" (e_dense g) = Some (Some numbers)
                  /\ List.length numbers = CONFIG.EMBEDDINGS.DENSE_DIM.
Proof.
  unfold generate. intros H.
  apply and_then_Ok in H. destruct H as (text & st0 & _ & H).
  destruct (is_empty (trim text)).
  - destruct (get product "id"); cbn in H; discriminate.
  - destruct (extractSearchableComponents product) as [comps|e]; [|discriminate].
    apply and_then_Ok in H. destruct H as (sparse & st1 & _ & H).
    injection H as <- _. cbn [e_dense]. apply primary_embedding.
Qed.

Lemma inject_carries (o a : list (string * value))
    (dense : list (string * option (list float))) (sparse : option (list string))
    (hybrid : option float) (numbers : list float) (r : value) :
  assoc "attributes" o = Some (VObj a) ->
  assoc "primary" dense = Some (Some numbers) ->
  List.length numbers = CONFIG.EMBEDDINGS.DENSE_DIM ->
  inject (VObj o) dense sparse hybrid = Ok r ->
  carries_dense_embedding r.
Proof.
  intros Ha Hp Hn. destruct (json_attributes o a Ha) as (o' & a' & Hj & Ha').
  unfold inject, json_clone. rewrite Hj. cbn [mbind res_bind].
  unfold ensure_attributes. cbn [prop]. rewrite Ha'. cbn [truthy mret res_ret mbind res_bind].
  unfold add_embeddings. rewrite Hp. intros H.
  apply bind_Ok in H. destruct H as (p1 & H1 & H).
  assert (C1 : carries_dense_embedding p1).
  { unfold set_attribute in H1. rewrite Ha' in H1. injection H1 as <-.
    exists (set "attributes" (VObj (set "dense_embedding" (numbers_value numbers) a')) o'),
           (set "dense_embedding" (numbers_value numbers) a'), numbers.
    split; [reflexivity|]. split; [now rewrite assoc_set|]. split; [|exact Hn].
    now rewrite assoc_set. }
  assert (Hemb : forall k attr p q,
             attr <> "dense_embedding" ->
             match assoc k dense with
             | Some (Some numbers) => set_attribute attr (numbers_value numbers) p
             | _ => mret p
             end = Ok q ->
             carries_dense_embedding p -> carries_dense_embedding q).
  { intros k attr p q Hne Hq Hc. destruct (assoc k dense) as [[ns|]|].
    - eapply set_attribute_keeps_dense; eauto.
    - now injection Hq as <-.
    - now injection Hq as <-. }
  apply bind_Ok in H. destruct H as (p2 & H2 & H).
  apply (Hemb "title" "title_embedding" p1 p2 ltac:(discriminate)) in H2; [|exact C1].
  apply bind_Ok in H. destruct H as (p3 & H3 & H).
  apply (Hemb "category" "category_embedding" p2 p3 ltac:(discriminate)) in H3; [|exact H2].
  apply bind_Ok in H. destruct H as (p4 & H4 & H).
  assert (C4 : carries_dense_embedding p4).
  { destruct sparse as [[|t l]|]; try (now injection H4 as <-).
    eapply set_attribute_keeps_dense; [|exact H4|exact H3]. discriminate. }
  apply bind_Ok in H. destruct H as (p5 & H5 & H).
  assert (C5 : carries_dense_embedding p5).
  { destruct hybrid as [score|]; [destruct (JsNumber.truthy score)|];
      try (now injection H5 as <-).
    eapply set_attribute_keeps_dense; [|exact H5|exact C4]. discriminate. }
  eapply set_attribute_keeps_dense; [|exact H|exact C5]. discriminate.
Qed.

(** X11: for a record with an attributes object, what
    [addEmbeddingsToProduct] returns is the record it was given or a record
    that [countProductsWithEmbeddings] counts. *)
Theorem enriched_records_are_counted :
  forall (o a : list (string * value)) (format : string) (st st' : RegexState) (r : value),
    assoc "attributes" o = Some (VObj a) ->
    addEmbeddingsToProduct tokenize stem stopword Math_sin (VObj o) format st = (Ok r, st') ->
    r = VObj o \/ countProductsWithEmbeddings [r] = 1%N.
Proof.
  intros o a format st st' r Ha H.
  assert (Hc : forall p, hasEmbeddings p = true -> countProductsWithEmbeddings [p] = 1%N).
  { intros p Hp. unfold countProductsWithEmbeddings. cbn [List.filter]. now rewrite Hp. }
  { unfold addEmbeddingsToProduct in H.
    destruct (enrich tokenize stem stopword Math_sin (VObj o) format st) as [[q|e] st0] eqn:E.
    + injection H as <- <-. unfold enrich in E.
      apply and_then_Ok in E. destruct E as ([g|] & st1 & Hg & E).
      * injection E as E _. right. apply Hc, carries_dense_counted.
        destruct (generate_primary _ _ _ _ _ Hg) as (numbers & Hp & Hn).
        exact (inject_carries o a _ _ _ numbers q Ha Hp Hn E).
      * injection E as <- _. now left.
    + cbn in H. injection H as <- _. now left. }
Qed.

End Counted.

(** The theorem on a record of tea. *)
Lemma enriched_records_witness :
  let tea :=
    [("id", VStr "p3"); ("title", VStr "Tea");
     ("attributes", VObj [("origin", VObj [("text", VArr [VStr "Assam"])])])] in
  exists r,
    fst (addEmbeddingsToProduct Sample.tokenize Sample.stem Sample.stopword Sample.Math_sin
           (VObj tea) "vertex" fresh) = Ok r
    /\ (r = VObj tea \/ countProductsWithEmbeddings [r] = 1%N).
Proof.
  intros tea.
  destruct (addEmbeddingsToProduct Sample.tokenize Sample.stem Sample.stopword Sample.Math_sin
              (VObj tea) "vertex" fresh) as [[r|e] st'] eqn:E;
    [|vm_compute in E; discriminate E].
  exists r. split; [reflexivity|].
  apply (enriched_records_are_counted Sample.tokenize Sample.stem Sample.stopword
           Sample.Math_sin tea [("origin", VObj [("text", VArr [VStr "Assam"])])]
           "vertex" fresh st' r); [reflexivity | exact E].
Defined.

(** ** EmbeddingGenerator: the attributes of an enriched record *)

Lemma set_set {A : Type} (k : string) (x y : A) (o : list (string * A)) :
  set k x (set k y o) = set k x o.
Proof.
  induction o as [|[k' z] o IH]; cbn.
  - now rewrite String.eqb_refl.
  - destruct (String.eqb k k') eqn:E; cbn; rewrite ?String.eqb_refl, ?E; [reflexivity|].
    now rewrite IH.
Qed.

Lemma set_same {A : Type} (k : string) (x : A) (o : list (string * A)) :
  assoc k o = Some x -> set k x o = o.
Proof.
  induction o as [|[k' z] o IH]; cbn; [discriminate|].
  destruct (String.eqb k k') eqn:E.
  - apply String.eqb_eq in E. now intros [= ->]; subst.
  - intros H. now rewrite IH.
Qed.

Lemma set_attribute_step (k : string) (x : value) (a o : list (string * value)) :
  set_attribute k x (VObj (set "attributes" (VObj a) o))
  = Ok (VObj (set "attributes" (VObj (set k x a)) o)).
Proof. unfold set_attribute. rewrite assoc_set, String.eqb_refl. now rewrite set_set. Qed.

Lemma add_embeddings_object (dense : list (string * option (list float)))
    (sparse : option (list string)) (hybrid : option float) (a o : list (string * value)) :
  add_embeddings dense sparse hybrid (VObj (set "attributes" (VObj a) o))
  = Ok (VObj (set "attributes" (VObj (with_embeddings dense sparse hybrid a)) o)).
Proof.
  unfold add_embeddings, with_embeddings.
  repeat match goal with
         | |- context [match assoc ?k dense with _ => _ end] =>
             destruct (assoc k dense) as [[?|]|]
         end;
    destruct sparse as [[|t0 rest]|]; destruct hybrid as [score|];
    try destruct (JsNumber.truthy score);
    cbn [mbind res_bind mret res_ret];
    rewrite ?set_attribute_step; cbn [mbind res_bind mret res_ret];
    rewrite ?set_attribute_step; cbn [mbind res_bind mret res_ret];
    rewrite ?set_attribute_step; cbn [mbind res_bind mret res_ret];
    rewrite ?set_attribute_step; cbn [mbind res_bind mret res_ret];
    rewrite ?set_attribute_step; cbn [mbind res_bind mret res_ret];
    rewrite ?set_attribute_step; reflexivity.
Qed.

Lemma inject_object (o a : list (string * value))
    (dense : list (string * option (list float))) (sparse : option (list string))
    (hybrid : option float) :
  assoc "attributes" o = Some (VObj a) ->
  exists o' a',
    json_value (VObj o) = Some (VObj o')
    /\ assoc "attributes" o' = Some (VObj a')
    /\ inject (VObj o) dense sparse hybrid
       = Ok (VObj (set "attributes" (VObj (with_embeddings dense sparse hybrid a')) o')).
Proof.
  intros Ha. destruct (json_attributes o a Ha) as (o' & a' & Hj & Ha').
  exists o', a'. split; [exact Hj|]. split; [exact Ha'|].
  unfold inject, json_clone. rewrite Hj. cbn [mbind res_bind].
  unfold ensure_attributes. cbn [prop]. rewrite Ha'. cbn [truthy mret res_ret mbind res_bind].
  rewrite <- (set_same "attributes" (VObj a') o' Ha') at 1.
  apply add_embeddings_object.
Qed.

Lemma score_truthy {E : Type} (c : components) (d : string * E) (dense : list (string * E))
    (sparse : option (list string)) :
  JsNumber.truthy (calculateSearchReadinessScore c (d :: dense) sparse) = true.
Proof.
  unfold calculateSearchReadinessScore.
  destruct (present (c_title c)), (present (c_categories c)),
    (present (c_description c)), (present (c_brands c)), (present (c_attributes c));
    destruct sparse as [[|t l]|]; cbn [List.length Nat.ltb Nat.leb]; vm_compute; reflexivity.
Qed.

Lemma sparse_length (tokenize : string -> list string) (stem : string -> string)
    (stopword : string -> bool) (text : string) (c : option components)
    (st st' : RegexState) (out : list string) :
  generateSparseEmbedding tokenize stem stopword text c st = (Ok (Some out), st') ->
  List.length out <= CONFIG.EMBEDDINGS.MAX_SPARSE_FEATURES.
Proof.
  unfold generateSparseEmbedding. cbn [CONFIG.EMBEDDINGS.ENABLE_SPARSE negb]. intros H.
  apply and_then_Ok in H. destruct H as (parts & st0 & _ & H). injection H as <- _.
  unfold rank_keywords. rewrite length_map. apply firstn_le_length.
Qed.

Section Enriched.
Variable tokenize : string -> list string.
Variable stem : string -> string.
Variable stopword : string -> bool.
Variable Math_sin : float -> float.

(** What [addEmbeddingsToProduct] returns for a record with an attributes
    object: the record, or its JSON clone with the generated attributes. *)
Lemma enriched_record (o a : list (string * value)) (format : string)
    (st st' : RegexState) (r : value) :
  assoc "attributes" o = Some (VObj a) ->
  addEmbeddingsToProduct tokenize stem stopword Math_sin (VObj o) format st = (Ok r, st') ->
  r = VObj o
  \/ exists text st0 c sparse o' a',
      extractSearchableText (VObj o) format st = (Ok text, st0)
      /\ is_empty (trim text) = false
      /\ extractSearchableComponents (VObj o) = Ok c
      /\ generateSparseEmbedding tokenize stem stopword text (Some c) st0 = (Ok sparse, st')
      /\ json_value (VObj o) = Some (VObj o')
      /\ assoc "attributes" o' = Some (VObj a')
      /\ let dense := generateMultipleDenseEmbeddings Math_sin text c in
         r = VObj (set "attributes"
                     (VObj (with_embeddings dense sparse
                              (generateEnhancedHybridMetadata c dense sparse) a')) o').
Proof.
  intros Ha H. unfold addEmbeddingsToProduct in H.
  destruct (enrich tokenize stem stopword Math_sin (VObj o) format st) as [[q|e] st1] eqn:E.
  2: { cbn in H. injection H as <- _. now left. }
  injection H as <- <-. unfold enrich in E.
  apply and_then_Ok in E. destruct E as ([g|] & st2 & Hg & E).
  2: { injection E as <- _. now left. }
  injection E as E <-. right. unfold generate in Hg.
  apply and_then_Ok in Hg. destruct Hg as (text & st0 & Ht & Hg).
  destruct (is_empty (trim text)) eqn:Et.
  { destruct (get (VObj o) "id"); cbn in Hg; discriminate. }
  destruct (extractSearchableComponents (VObj o)) as [c|e] eqn:Ec; [|discriminate].
  apply and_then_Ok in Hg. destruct Hg as (sparse & st3 & Hs & Hg).
  injection Hg as <- <-. cbn [e_dense e_sparse e_hybrid] in E.
  destruct (inject_object o a
              (generateMultipleDenseEmbeddings Math_sin text c) sparse
              (generateEnhancedHybridMetadata c
                 (generateMultipleDenseEmbeddings Math_sin text c) sparse) Ha)
    as (o' & a' & Hj & Ha' & Hi).
  rewrite Hi in E. injection E as <-.
  exists text, st0, c, sparse, o', a'. cbv zeta. repeat split; auto.
Qed.

(** The other direction: where the text is not blank and the components
    and the sparse embedding are produced, the clone with the generated
    attributes is what the call returns. *)
Lemma record_enriched (o a : list (string * value)) (format : string)
    (st st0 st' : RegexState) (text : string) (c : components)
    (sparse : option (list string)) :
  assoc "attributes" o = Some (VObj a) ->
  extractSearchableText (VObj o) format st = (Ok text, st0) ->
  is_empty (trim text) = false ->
  extractSearchableComponents (VObj o) = Ok c ->
  generateSparseEmbedding tokenize stem stopword text (Some c) st0 = (Ok sparse, st') ->
  exists o' a',
    json_value (VObj o) = Some (VObj o')
    /\ assoc "attributes" o' = Some (VObj a')
    /\ let dense := generateMultipleDenseEmbeddings Math_sin text c in
       addEmbeddingsToProduct tokenize stem stopword Math_sin (VObj o) format st
       = (Ok (VObj (set "attributes"
                      (VObj (with_embeddings dense sparse
                               (generateEnhancedHybridMetadata c dense sparse) a')) o')),
          st').
Proof.
  intros Ha Ht Et Hc Hs.
  destruct (inject_object o a
              (generateMultipleDenseEmbeddings Math_sin text c) sparse
              (generateEnhancedHybridMetadata c
                 (generateMultipleDenseEmbeddings Math_sin text c) sparse) Ha)
    as (o' & a' & Hj & Ha' & Hi).
  exists o', a'. split; [exact Hj|]. split; [exact Ha'|]. cbv zeta.
  unfold addEmbeddingsToProduct, enrich, generate.
  rewrite Ht. cbn [and_then]. rewrite Et, Hc, Hs. cbn [and_then e_dense e_sparse e_hybrid].
  now rewrite Hi.
Qed.

(** The readiness score is the attribute [search_readiness_score] of the
    clone with the generated attributes. *)
Lemma score_attribute (text : string) (c : components) (sparse : option (list string))
    (o' a' : list (string * value)) :
  let dense := generateMultipleDenseEmbeddings Math_sin text c in
  attribute (VObj (set "attributes"
                     (VObj (with_embeddings dense sparse
                              (generateEnhancedHybridMetadata c dense sparse) a')) o'))
    "search_readiness_score"
  = Some (numbers_value [calculateSearchReadinessScore c dense sparse]).
Proof.
  cbv zeta. set (dense := generateMultipleDenseEmbeddings Math_sin text c).
  unfold attribute. cbn [prop]. rewrite assoc_set, String.eqb_refl.
  unfold with_embeddings, generateEnhancedHybridMetadata.
  cbn [CONFIG.EMBEDDINGS.ENABLE_HYBRID negb].
  destruct (primary_embedding Math_sin text c) as (numbers & Hp & _). fold dense in Hp.
  destruct dense as [|d dense']; [discriminate Hp|].
  rewrite score_truthy. rewrite assoc_set.
  cbn [String.eqb Ascii.eqb Bool.eqb]. now rewrite assoc_set, String.eqb_refl.
Qed.

(** The attribute [sparse_embedding] of the clone with the generated
    attributes: the generated list when it has an entry, else what the
    clone had. *)
Lemma sparse_attribute (dense : list (string * option (list float)))
    (sparse : option (list string)) (hybrid : option float)
    (o' a' : list (string * value)) :
  assoc "attributes" o' = Some (VObj a') ->
  attribute (VObj (set "attributes" (VObj (with_embeddings dense sparse hybrid a')) o'))
    "sparse_embedding"
  = match sparse with
    | Some (t :: l) => Some (VObj [("text", VArr (List.map VStr (t :: l)))])
    | _ => attribute (VObj o') "sparse_embedding"
    end.
Proof.
  intros Ha'. unfold attribute. cbn [prop]. rewrite assoc_set, String.eqb_refl, Ha'.
  unfold with_embeddings.
  repeat match goal with
         | |- context [match assoc ?k dense with _ => _ end] =>
             destruct (assoc k dense) as [[?|]|]
         end;
    destruct sparse as [[|t0 rest]|]; destruct hybrid as [score|];
    try destruct (JsNumber.truthy score);
    repeat (rewrite assoc_set; cbn [String.eqb Ascii.eqb Bool.eqb]); reflexivity.
Qed.

End Enriched.

(** ** The search readiness score of a record *)

(** C3, as amended: the score is the number with two decimals that the
    weights 0.30 (title), 0.25 (categories), 0.20 (description), 0.10 (a
    dense embedding), 0.05 (a sparse embedding with an entry), 0.05
    (brands), 0.05 (attributes) add up to, a text counting when it has a
    character that is not white space; it lies between 0 and 1.  For a
    record with an attributes object whose searchable text is not blank and
    whose components and sparse embedding are produced,
    [addEmbeddingsToProduct] returns a record whose attribute
    [search_readiness_score] is that score of the record's components and
    of the embeddings generated for it; and whatever it returns is the
    record it was given or such a record. *)
Theorem readiness_score_weighted_sum :
  (forall (E : Type) (c : components) (denseEmbeddings : list (string * E))
          (sparseEmbedding : option (list string)),
      let score := calculateSearchReadinessScore c denseEmbeddings sparseEmbedding in
      score = nearest (readiness_hundredths present c denseEmbeddings sparseEmbedding) 100
      /\ PrimFloat.leb 0 score = true
      /\ PrimFloat.leb score 1 = true)
  /\ (forall (tokenize : string -> list string) (stem : string -> string)
             (stopword : string -> bool) (Math_sin : float -> float)
             (o a : list (string * value)) (format : string) (st st0 st' : RegexState)
             (text : string) (c : components) (sparseEmbedding : option (list string)),
         assoc "attributes" o = Some (VObj a) ->
         extractSearchableText (VObj o) format st = (Ok text, st0) ->
         is_empty (trim text) = false ->
         extractSearchableComponents (VObj o) = Ok c ->
         generateSparseEmbedding tokenize stem stopword text (Some c) st0
         = (Ok sparseEmbedding, st') ->
         exists r,
           addEmbeddingsToProduct tokenize stem stopword Math_sin (VObj o) format st
           = (Ok r, st')
           /\ let denseEmbeddings := generateMultipleDenseEmbeddings Math_sin text c in
              attribute r "search_readiness_score"
              = Some (numbers_value
                        [nearest (readiness_hundredths present c denseEmbeddings
                                    sparseEmbedding) 100]))
  /\ (forall (tokenize : string -> list string) (stem : string -> string)
             (stopword : string -> bool) (Math_sin : float -> float)
             (o a : list (string * value)) (format : string) (st st' : RegexState)
             (r : value),
         assoc "attributes" o = Some (VObj a) ->
         addEmbeddingsToProduct tokenize stem stopword Math_sin (VObj o) format st
         = (Ok r, st') ->
         r = VObj o
         \/ exists text st0 c sparseEmbedding,
             extractSearchableText (VObj o) format st = (Ok text, st0)
             /\ is_empty (trim text) = false
             /\ extractSearchableComponents (VObj o) = Ok c
             /\ generateSparseEmbedding tokenize stem stopword text (Some c) st0
                = (Ok sparseEmbedding, st')
             /\ let denseEmbeddings := generateMultipleDenseEmbeddings Math_sin text c in
                attribute r "search_readiness_score"
                = Some (numbers_value
                          [nearest (readiness_hundredths present c denseEmbeddings
                                      sparseEmbedding) 100])).
Proof.
  assert (A : forall (E : Type) (c : components) (denseEmbeddings : list (string * E))
                     (sparseEmbedding : option (list string)),
             let score := calculateSearchReadinessScore c denseEmbeddings sparseEmbedding in
             score = nearest (readiness_hundredths present c denseEmbeddings sparseEmbedding) 100
             /\ PrimFloat.leb 0 score = true
             /\ PrimFloat.leb score 1 = true).
  { intros E c dense sparse.
    unfold calculateSearchReadinessScore, readiness_hundredths.
    destruct (present (c_title c)), (present (c_categories c)),
      (present (c_description c)), (present (c_brands c)), (present (c_attributes c));
      destruct dense as [|d dense]; destruct sparse as [[|t l]|];
      cbn [List.length Nat.ltb Nat.leb]; vm_compute; auto. }
  split; [exact A|]. split.
  - intros tokenize stem stopword Math_sin o a format st st0 st' text c sparse
      Ha Ht Et Hc Hs.
    destruct (record_enriched tokenize stem stopword Math_sin o a format st st0 st'
                text c sparse Ha Ht Et Hc Hs) as (o' & a' & _ & _ & Hr).
    cbv zeta in Hr. eexists. split; [exact Hr|]. cbv zeta.
    rewrite score_attribute. now rewrite (proj1 (A _ c _ sparse)).
  - intros tokenize stem stopword Math_sin o a format st st' r Ha H.
    destruct (enriched_record tokenize stem stopword Math_sin o a format st st' r Ha H)
      as [->|(text & st0 & c & sparse & o' & a' & Ht & Et & Hc & Hs & _ & _ & Hr)];
      [now left|].
    right. exists text, st0, c, sparse. repeat (split; [assumption|]).
    cbv zeta in *. subst r. rewrite score_attribute. now rewrite (proj1 (A _ c _ sparse)).
Qed.

(** The theorem on the record of the counterexample: its categories clean
    to one space, and its score is 0.45. *)
Lemma readiness_score_witness :
  let widget := [("id", VStr "p1"); ("title", VStr "Widget");
                 ("categories", VArr [VStr "!!"; VStr "??"]); ("attributes", VObj [])] in
  exists r text st0 c sparseEmbedding,
    fst (addEmbeddingsToProduct Sample.tokenize Sample.stem Sample.stopword Sample.Math_sin
           (VObj widget) "vertex" fresh) = Ok r
    /\ extractSearchableText (VObj widget) "vertex" fresh = (Ok text, st0)
    /\ extractSearchableComponents (VObj widget) = Ok c
    /\ c_categories c = " "
    /\ attribute r "search_readiness_score"
       = Some (numbers_value
                 [nearest (readiness_hundredths present c
                             (generateMultipleDenseEmbeddings Sample.Math_sin text c)
                             sparseEmbedding) 100])
    /\ attribute r "search_readiness_score" = Some (numbers_value [0.45%float]).
Proof.
  intros widget.
  destruct (addEmbeddingsToProduct Sample.tokenize Sample.stem Sample.stopword
              Sample.Math_sin (VObj widget) "vertex" fresh) as [[r|e] st'] eqn:E;
    [|vm_compute in E; discriminate E].
  destruct (proj2 (proj2 readiness_score_weighted_sum) Sample.tokenize Sample.stem
              Sample.stopword Sample.Math_sin widget [] "vertex" fresh st' r eq_refl E)
    as [->|(text & st0 & c & sparse & Ht & _ & Hc & _ & Hs)].
  - vm_compute in E. discriminate E.
  - exists r, text, st0, c, sparse. split; [reflexivity|]. split; [exact Ht|].
    split; [exact Hc|]. split; [vm_compute in Hc; now injection Hc as <-|].
    split; [exact Hs|].
    vm_compute in E. injection E as <- _. vm_compute. reflexivity.
Defined.

(** C3, the counterexample: two categories that clean to nothing make the
    categories text one space.  The text is not empty, and the score
    leaves the 0.25 out. *)
Lemma readiness_score_blank_categories :
  let product := VObj [("title", VStr "Widget"); ("categories", VArr [VStr "!!"; VStr "??"])] in
  exists c : components,
    extractSearchableComponents product = Ok c
    /\ c_categories c = " "
    /\ toFixed 2 (calculateSearchReadinessScore c [("primary", tt)] None) = "0.40"
    /\ toFixed 2 (claimed_score c [("primary", tt)] None) = "0.65"
    /\ calculateSearchReadinessScore c [("primary", tt)] None
       <> claimed_score c [("primary", tt)] None.
Proof.
  eexists. split; [vm_compute; reflexivity|].
  repeat split; try (vm_compute; reflexivity).
  intros H. apply (f_equal (toFixed 2)) in H. vm_compute in H. discriminate H.
Qed.

(** ** The sparse embedding of a record *)



(** On that input no weight is NaN, and the ranking is the one printed. *)
Example shirt_ranking :
  exists parts,
    sparse_extractions Sample.tokenize Sample.stem Sample.stopword
      "red shirt red cotton shirt"
      (Some (mkComponents "Red Shirt" "" "Shirts" "" "" "" "")) fresh
    = (Ok parts, fresh)
    /\ no_nan (combine_keywords parts) = true
    /\ List.map fst (js_sort by_weight_desc (combine_keywords parts))
       = ["shirts"; "red"; "shirt"; "cotton"]
    /\ CONFIG.EMBEDDINGS.MAX_SPARSE_FEATURES = 100.
Proof. eexists. split; [vm_compute; reflexivity|]. repeat split; vm_compute; reflexivity. Qed.

(** A weight is NaN when a token names a property every object inherits
    and the stemmer changes the token: [contextBoosts.constructor] is a
    function, not a number.  With a stemmer that leaves the token alone the
    extraction throws instead. *)
Example nan_weight_with_a_shortening_stemmer :
  let shortening (s : string) := if String.eqb s "constructor" then "construct" else s in
  fst (generateSparseEmbedding Sample.tokenize shortening Sample.stopword
         "red constructor shirt" None fresh)
  = Ok (Some ["red:0.4000"; "construct:NaN"; "shirt:0.3333"])
  /\ fst (generateSparseEmbedding Sample.tokenize Sample.stem Sample.stopword
            "red constructor shirt" None fresh)
     = Throw TypeError.
Proof. split; vm_compute; reflexivity. Qed.


(** ** ProductConverter: prices *)

Lemma currency_code_throws : CONFIG.COMMERCE_CURRENCY_CODE = Throw TypeError.
Proof. reflexivity. Qed.

Lemma processPriceInfo_throws (price : value) :
  truthy price && negb (isNaN price) = true -> processPriceInfo price = Throw TypeError.
Proof.
  intros H. apply andb_true_iff in H. destruct H as [Ht Hn].
  apply negb_true_iff in Hn. unfold processPriceInfo. rewrite Ht, Hn. reflexivity.
Qed.

Lemma spread_if_assoc (c : bool) (k k' : string) (x : value) (o : list (string * value)) :
  k' <> k -> assoc k' (spread_if c k x o) = assoc k' o.
Proof.
  intros H. unfold spread_if. destruct c; [|reflexivity].
  rewrite assoc_set. apply String.eqb_neq in H. now rewrite H.
Qed.

Lemma assoc_app {A : Type} (k : string) (o1 o2 : list (string * A)) :
  assoc k (o1 ++ o2) = match assoc k o1 with Some x => Some x | None => assoc k o2 end.
Proof.
  induction o1 as [|[k1 y] o1 IH]; cbn; [reflexivity|].
  destruct (String.eqb k k1); [reflexivity | exact IH].
Qed.

Section Prices.
Variable tokenize : string -> list string.
Variable stem : string -> string.
Variable stopword : string -> bool.
Variable Math_sin : float -> float.

(** X16: [convertGenericProduct] returns null for a product whose price,
    cost, amount or value is truthy and numeric, as [processPriceInfo] reads
    [CONFIG.COMMERCE.CURRENCY_CODE]; nothing is emitted for the product.
    Without such a field the record has no [priceInfo]. *)
Theorem generic_product_with_a_price_is_dropped :
  forall (now : Z) (o : list (string * value)),
    (existsb (priced (VObj o)) priceFields = true ->
     convertGenericProduct now (VObj o) = Ok VNull
     /\ forall (clock : nat -> Z) (i : nat) (st : RegexState),
          processBatches tokenize stem stopword Math_sin "generic" clock i [VObj o] st
          = ([], st))
    /\ (existsb (priced (VObj o)) priceFields = false ->
        exists r, convertGenericProduct now (VObj o) = Ok (VObj r)
                  /\ assoc "priceInfo" r = None).
Proof.
  intros now o.
  assert (Hnull : forall now, existsb (priced (VObj o)) priceFields = true ->
                              convertGenericProduct now (VObj o) = Ok VNull).
  { clear now. intros now H. unfold convertGenericProduct, generic_body.
    cbn [get mbind res_bind].
    change (List.find _ ["price"; "cost"; "amount"; "value"])
      with (List.find (priced (VObj o)) priceFields).
    destruct (List.find (priced (VObj o)) priceFields) as [field|] eqn:E.
    + apply find_some in E. destruct E as [_ E].
      rewrite (processPriceInfo_throws _ E). reflexivity.
    + apply existsb_exists in H. destruct H as (field & Hin & Hp).
      pose proof (find_none _ _ E field Hin). congruence. }
  split; intros H.
  - split; [now apply Hnull|].
    intros clock i st. cbn [processBatches].
    change CONFIG.PROCESSING.RETRY_ATTEMPTS with 3. cbn [attempts_loop].
    change (convert "generic" (clock i) (VObj o)) with (convertGenericProduct (clock i) (VObj o)).
    rewrite (Hnull (clock i) H). reflexivity.
  - unfold convertGenericProduct, generic_body. cbn [get mbind res_bind].
    change (List.find _ ["price"; "cost"; "amount"; "value"])
      with (List.find (priced (VObj o)) priceFields).
    destruct (List.find (priced (VObj o)) priceFields) as [field|] eqn:E.
    + apply find_some in E. destruct E as [Hin E].
      assert (existsb (priced (VObj o)) priceFields = true)
        by (apply existsb_exists; eauto). congruence.
    + cbn [mret res_ret truthy]. eexists. split; [reflexivity|].
      rewrite assoc_app, spread_if_assoc by discriminate. reflexivity.
Qed.

(** X13: [convertVertexProduct] returns null for a product with a price
    that names no currency, as [CONFIG.COMMERCE] does not exist.  A record
    it returns carries [priceInfo] exactly when the source has a truthy
    price, with the currency and the parsed amount of the source. *)
Theorem vertex_price_needs_a_currency :
  forall (now : Z) (o : list (string * value)),
    let price := prop (VObj o) "price" in
    (truthy price = true -> truthy (prop price "currency") = false ->
     convertVertexProduct now (VObj o) = Ok VNull)
    /\ (forall r, convertVertexProduct now (VObj o) = Ok (VObj r) ->
          assoc "priceInfo" r
          = if truthy price
            then Some (VObj [("currencyCode", prop price "currency");
                             ("price", VNum (parseFloat (or_else (prop price "amount")
                                                           (VNum 0))))])
            else None).
Proof.
  intros now o price. split.
  - intros Hp Hc. unfold convertVertexProduct, vertex_body. cbn [get mbind res_bind].
    fold price. rewrite Hp, Hc. reflexivity.
  - intros r H. apply convertVertexProduct_body in H; [|discriminate].
    unfold vertex_body in H. cbn [get mbind res_bind] in H. fold price in H.
    destruct (truthy price) eqn:Hp.
    + destruct (truthy (prop price "currency")) eqn:Hc; [|discriminate H].
      cbn [mbind res_bind mret res_ret] in H.
      apply bind_Ok in H. destruct H as (attributes & _ & H). injection H as <-.
      rewrite spread_if_assoc by discriminate.
      rewrite assoc_app, spread_if_assoc by discriminate. reflexivity.
    + cbn [mbind res_bind mret res_ret] in H.
      apply bind_Ok in H. destruct H as (attributes & _ & H). injection H as <-.
      rewrite spread_if_assoc by discriminate.
      rewrite assoc_app, spread_if_assoc by discriminate. reflexivity.
Qed.

End Prices.

(** ** ProductConverter: generic attributes *)

Lemma text_attribute_is_text (x : value) : exists texts, text_attribute_of texts (text_attribute x).
Proof.
  unfold text_attribute.
  set (values := match x with VArr l => l | _ => [VStr (ToString x)] end).
  exists (List.map (fun val => cleanText (VStr (ToString val))) values). split.
  - now rewrite map_map.
  - apply List.Forall_forall. intros text Hin. apply in_map_iff in Hin.
    destruct Hin as (val & <- & _). apply cleanText_kept.
Qed.

(** X18: [processGenericAttributes] returns an object with distinct
    keys, each an attribute field, or custom_ and a key of the source that
    is no system field; each value is a text attribute of cleaned strings. *)
Theorem generic_attributes_are_text_attributes :
  forall genericProduct : value,
    exists attributes,
      processGenericAttributes genericProduct = VObj attributes
      /\ NoDup (List.map fst attributes)
      /\ List.Forall
           (fun e =>
              (exists texts, text_attribute_of texts (snd e))
              /\ (In (fst e) attributeFields
                  \/ exists key, fst e = "custom_" +:+ key
                                 /\ In key (List.map fst (entries genericProduct))
                                 /\ ~ In key systemFields))
           attributes.
Proof.
  intros genericProduct. unfold processGenericAttributes. eexists. split; [reflexivity|].
  set (Q := fun e : string * value =>
              (exists texts, text_attribute_of texts (snd e))
              /\ (In (fst e) attributeFields
                  \/ exists key, fst e = "custom_" +:+ key
                                 /\ In key (List.map fst (entries genericProduct))
                                 /\ ~ In key systemFields)).
  assert (H1 : forall fields acc,
             (forall f, In f fields -> In f attributeFields) ->
             NoDup (List.map fst acc) /\ List.Forall Q acc ->
             let r := fold_left
                        (fun attributes sourceField =>
                           if truthy (prop genericProduct sourceField)
                           then set sourceField
                                  (text_attribute (prop genericProduct sourceField)) attributes
                           else attributes) fields acc in
             NoDup (List.map fst r) /\ List.Forall Q r).
  { induction fields as [|f fields IH]; intros acc Hin [Hn Hq]; cbn [fold_left]; [auto|].
    apply IH; [intros; apply Hin; now right|].
    destruct (truthy (prop genericProduct f)); [|auto].
    split; [now apply set_NoDup|]. apply set_Forall; [|exact Hq].
    split; [apply text_attribute_is_text | left; apply Hin; now left]. }
  assert (H2 : forall es acc,
             (forall e, In e es -> In (fst e) (List.map fst (entries genericProduct))) ->
             NoDup (List.map fst acc) /\ List.Forall Q acc ->
             let r := fold_left
                        (fun attributes e =>
                           let key := fst e in
                           if negb (existsb (String.eqb key) systemFields)
                              && negb (match assoc key attributes with
                                       | Some _ => true
                                       | None => inherited key
                                       end)
                              && negb (match snd e with VNull | VUndef => true | _ => false end)
                           then set ("custom_" +:+ key) (text_attribute (snd e)) attributes
                           else attributes) es acc in
             NoDup (List.map fst r) /\ List.Forall Q r).
  { induction es as [|e es IH]; intros acc Hin [Hn Hq]; cbn [fold_left]; [auto|].
    apply IH; [intros; apply Hin; now right|]. cbv zeta.
    destruct (existsb (String.eqb (fst e)) systemFields) eqn:Es; [auto|].
    cbn [negb andb].
    match goal with |- context [if ?c then _ else _] => destruct c end; [|auto].
    split; [now apply set_NoDup|]. apply set_Forall; [|exact Hq].
    split; [apply text_attribute_is_text|]. right. exists (fst e).
    split; [reflexivity|]. split; [apply Hin; now left|].
    intros Hs. assert (existsb (String.eqb (fst e)) systemFields = true); [|congruence].
    apply existsb_exists. exists (fst e). split; [exact Hs | apply String.eqb_refl]. }
  apply H2.
  - intros e He. now apply in_map.
  - apply H1; [auto|]. split; constructor.
Qed.

(** ** ProductConverter: the texts of a record *)

Lemma substring0_kept (n : nat) (s : string) :
  List.Forall (fun c => kept_by_cleanText c = true) (list_ascii_of_string s) ->
  List.Forall (fun c => kept_by_cleanText c = true) (list_ascii_of_string (substring0 n s)).
Proof.
  rewrite !List.Forall_forall. intros H x Hx. apply H. eapply substring0_chars. exact Hx.
Qed.

Lemma processDescription_within (description : value) :
  cleaned_within CONFIG.LIMITS.MAX_DESCRIPTION_LENGTH (VStr (processDescription description)).
Proof.
  unfold processDescription. eexists. split; [reflexivity|].
  destruct (truthy description); cbn [negb].
  - split; [apply length_substring0 | apply substring0_kept, cleanText_kept].
  - split; [cbn; lia | constructor].
Qed.

Lemma title_within (title : value) :
  cleaned_within CONFIG.LIMITS.MAX_TITLE_LENGTH
    (VStr (substring0 CONFIG.LIMITS.MAX_TITLE_LENGTH (cleanText title))).
Proof.
  eexists. split; [reflexivity|].
  split; [apply length_substring0 | apply substring0_kept, cleanText_kept].
Qed.

(** X12: in a record of either converter the title is a cleaned text of
    at most [MAX_TITLE_LENGTH] characters, the description one of at most
    [MAX_DESCRIPTION_LENGTH], and [attributes] is an object. *)
Theorem converted_texts_are_cleaned_and_bounded :
  forall (now : Z) (product : value) (r : list (string * value)),
    convertVertexProduct now product = Ok (VObj r)
    \/ convertGenericProduct now product = Ok (VObj r) ->
    cleaned_within CONFIG.LIMITS.MAX_TITLE_LENGTH (prop (VObj r) "title")
    /\ cleaned_within CONFIG.LIMITS.MAX_DESCRIPTION_LENGTH (prop (VObj r) "description")
    /\ exists attributes, prop (VObj r) "attributes" = VObj attributes.
Proof.
  intros now product r [H|H].
  - apply convertVertexProduct_body in H; [|discriminate]. unfold vertex_body in H.
    apply bind_Ok in H. destruct H as (id & _ & H).
    apply bind_Ok in H. destruct H as (priceInfo & _ & H).
    apply bind_Ok in H. destruct H as (attributes & Ha & H).
    injection H as <-. unfold prop.
    rewrite !spread_if_assoc by discriminate.
    rewrite !assoc_app, !spread_if_assoc by discriminate.
    cbn [assoc String.eqb Ascii.eqb Bool.eqb].
    split; [apply title_within|]. split; [apply processDescription_within|].
    unfold processVertexAttributes in Ha.
    repeat match type of Ha with
           | (if ?c then _ else _) = _ => destruct c
           | (_ ≫= _) = _ => apply bind_Ok in Ha; destruct Ha as (? & _ & Ha)
           end; injection Ha as <-; eauto.
  - apply convertGenericProduct_body in H; [|discriminate]. unfold generic_body in H.
    apply bind_Ok in H. destruct H as (id & _ & H).
    apply bind_Ok in H. destruct H as (priceInfo & _ & H).
    injection H as <-. unfold prop.
    rewrite !assoc_app, !spread_if_assoc by discriminate.
    cbn [assoc String.eqb Ascii.eqb Bool.eqb].
    split; [apply title_within|]. split; [apply processDescription_within|].
    unfold processGenericAttributes. eauto.
Qed.

(** The theorem on a vertex product with markup in its title. *)
Lemma converted_texts_witness :
  let r := [("id", VStr "p2"); ("title", VStr "Air 90");
            ("categories", VArr [VStr "Products"]); ("description", VStr "Light fast");
            ("uri", VStr "/products/air-90-p2"); ("availability", VStr "IN_STOCK");
            ("languageCode", VStr "en"); ("attributes", VObj [])] in
  cleaned_within CONFIG.LIMITS.MAX_TITLE_LENGTH (prop (VObj r) "title")
  /\ cleaned_within CONFIG.LIMITS.MAX_DESCRIPTION_LENGTH (prop (VObj r) "description")
  /\ exists attributes, prop (VObj r) "attributes" = VObj attributes.
Proof.
  intros r.
  apply (converted_texts_are_cleaned_and_bounded 0
           (VObj [("id", VStr "p2"); ("title", VStr "Air <Max>  90");
                  ("description", VStr "Light & fast")]) r).
  left. vm_compute. reflexivity.
Defined.

(** ** ProductConverter: vertex attributes *)

Lemma union_extends (genders current : list value) :
  exists added,
    fold_left (fun newFilterFields gender =>
                 if existsb (same_value gender) newFilterFields then newFilterFields
                 else (newFilterFields ++ [gender])%list) genders current
    = (current ++ added)%list
    /\ forall g, In g added -> In g genders.
Proof.
  revert current. induction genders as [|g genders IH]; intros current; cbn [fold_left].
  - exists []. split; [now rewrite app_nil_r | tauto].
  - destruct (existsb (same_value g) current).
    + destruct (IH current) as (added & -> & H). exists added. split; [reflexivity|].
      intros x Hx. right. auto.
    + destruct (IH (current ++ [g])%list) as (added & -> & H). exists (g :: added).
      split; [now rewrite <- app_assoc|]. intros x [<-|Hx]; [now left | right; auto].
Qed.

(** X14: [processVertexAttributes] copies the attributes of the source.
    With [audience.genders] it sets [gender_esai] to the genders and, where
    [filter_fields] has a text, appends genders to it; no other attribute
    changes, and without genders none does. *)
Theorem vertex_attributes_pass_through :
  forall (vertexProduct : value) (attributes : list (string * value)),
    processVertexAttributes vertexProduct = Ok (VObj attributes) ->
    (forall k, k <> "gender_esai" -> k <> "filter_fields" ->
               assoc k attributes = assoc k (source_attributes vertexProduct))
    /\ match audience_genders vertexProduct with
       | None => attributes = source_attributes vertexProduct
       | Some genders =>
           assoc "gender_esai" attributes = Some (VObj [("text", VArr genders)])
           /\ (assoc "filter_fields" attributes = assoc "filter_fields"
                                                    (source_attributes vertexProduct)
               \/ exists current added,
                    spread_iterable
                      (prop (prop (VObj (source_attributes vertexProduct)) "filter_fields")
                         "text") = Ok current
                    /\ assoc "filter_fields" attributes
                       = Some (VObj [("text", VArr (current ++ added))])
                    /\ forall g, In g added -> In g genders)
       end.
Proof.
  intros vertexProduct attributes. unfold processVertexAttributes, audience_genders.
  fold (source_attributes vertexProduct).
  set (source := source_attributes vertexProduct).
  set (audience := prop vertexProduct "audience").
  destruct (truthy audience && truthy (prop audience "genders")).
  2: { intros [= <-]. split; reflexivity. }
  set (genders := match prop audience "genders" with VArr l => l | g => [g] end).
  set (withGender := set "gender_esai" (VObj [("text", VArr genders)]) source).
  assert (Hg : forall k, k <> "gender_esai" -> assoc k withGender = assoc k source).
  { intros k Hk. subst withGender. rewrite assoc_set.
    apply String.eqb_neq in Hk. now rewrite Hk. }
  assert (Hff : match assoc "filter_fields" withGender with Some f => f | None => VUndef end
                = prop (VObj source) "filter_fields").
  { cbn [prop]. now rewrite Hg by discriminate. }
  rewrite Hff.
  destruct (truthy (prop (VObj source) "filter_fields")
            && truthy (prop (prop (VObj source) "filter_fields") "text")).
  - intros H. apply bind_Ok in H. destruct H as (current & Hc & H). injection H as <-.
    split.
    + intros k H1 H2. rewrite assoc_set. apply String.eqb_neq in H2. rewrite H2. now apply Hg.
    + split.
      * rewrite assoc_set. cbn [String.eqb Ascii.eqb Bool.eqb]. subst withGender.
        now rewrite assoc_set.
      * right. destruct (union_extends genders current) as (added & E & Ha).
        exists current, added. split; [exact Hc|]. split; [|exact Ha].
        rewrite assoc_set, String.eqb_refl. now rewrite E.
  - intros [= <-]. split.
    + intros k H1 H2. now apply Hg.
    + split.
      * subst withGender. now rewrite assoc_set.
      * left. now apply Hg.
Qed.

(** The theorem on a product for women and unisex. *)
Lemma vertex_attributes_witness :
  let product :=
    VObj [("id", VStr "p1");
          ("attributes", VObj [("color", VObj [("text", VArr [VStr "red"])]);
                               ("filter_fields", VObj [("text", VArr [VStr "women"])])]);
          ("audience", VObj [("genders", VArr [VStr "women"; VStr "unisex"])])] in
  let attributes :=
    [("color", VObj [("text", VArr [VStr "red"])]);
     ("filter_fields", VObj [("text", VArr [VStr "women"; VStr "unisex"])]);
     ("gender_esai", VObj [("text", VArr [VStr "women"; VStr "unisex"])])] in
  (forall k, k <> "gender_esai" -> k <> "filter_fields" ->
             assoc k attributes = assoc k (source_attributes product))
  /\ match audience_genders product with
     | None => attributes = source_attributes product
     | Some genders =>
         assoc "gender_esai" attributes = Some (VObj [("text", VArr genders)])
         /\ (assoc "filter_fields" attributes = assoc "filter_fields" (source_attributes product)
             \/ exists current added,
                  spread_iterable
                    (prop (prop (VObj (source_attributes product)) "filter_fields") "text")
                  = Ok current
                  /\ assoc "filter_fields" attributes
                     = Some (VObj [("text", VArr (current ++ added))])
                  /\ forall g, In g added -> In g genders)
     end.
Proof.
  intros product attributes.
  apply (vertex_attributes_pass_through product attributes). vm_compute. reflexivity.
Defined.

(** ** ProductConverter: availability *)

Lemma includes_lower (s keyword : string) :
  includes (toLowerCase s) keyword = true <-> contains_ci s keyword.
Proof.
  rewrite includes_app. unfold contains_ci. split.
  - intros (pre & post & H). apply toLowerCase_split in H.
    destruct H as (a & b' & -> & _ & H). apply toLowerCase_split in H.
    destruct H as (mid & b & -> & Hm & _). eauto.
  - intros (pre & mid & post & -> & <-). rewrite !toLowerCase_app. eauto.
Qed.

Lemma append_assoc (a b c : string) : (a +:+ b) +:+ c = a +:+ b +:+ c.
Proof. induction a as [|x a IH]; [reflexivity|]. rewrite !append_cons. now rewrite IH. Qed.

Lemma contains_ci_part (s phrase keyword : string) :
  includes phrase keyword = true -> contains_ci s phrase -> contains_ci s keyword.
Proof.
  intros Hk Hp. apply includes_lower. apply includes_lower in Hp.
  apply includes_app in Hk, Hp. apply includes_app.
  destruct Hk as (a & b & ->). destruct Hp as (pre & post & ->).
  exists (pre +:+ a), (b +:+ post). now rewrite !append_assoc.
Qed.

(** X17: [determineGenericAvailability] answers IN_STOCK for an
    availability text that says out of stock, unavailable, not available or
    the like: the test for the words stock and available comes first.  What
    it reads as OUT_OF_STOCK holds neither word. *)
Theorem out_of_stock_reads_as_in_stock :
  forall (product : value) (text phrase : string),
    prop product "availability" = VStr text ->
    In phrase unavailable_phrases ->
    contains_ci text phrase ->
    determineGenericAvailability product = IN_STOCK
    /\ forall x, availability_signal x = Some OUT_OF_STOCK ->
                 ~ contains_ci (ToString x) "stock" /\ ~ contains_ci (ToString x) "available".
Proof.
  intros product text phrase Ht Hin Hc. split.
  - assert (Hs : includes (toLowerCase text) "stock" || includes (toLowerCase text) "available"
                 = true).
    { apply orb_true_iff.
      cbn [unavailable_phrases In] in Hin.
      repeat (destruct Hin as [<-|Hin];
              [first [left; apply includes_lower;
                      refine (contains_ci_part _ _ "stock" _ Hc); reflexivity
                     |right; apply includes_lower;
                      refine (contains_ci_part _ _ "available" _ Hc); reflexivity]|]).
      destruct Hin. }
    unfold determineGenericAvailability, availabilityFields. cbn [first_signal].
    rewrite Ht. unfold availability_signal. cbn [is_undefined ToString].
    apply orb_true_iff in Hs. destruct Hs as [-> | ->]; [reflexivity|].
    now rewrite orb_true_r.
  - intros x. unfold availability_signal. destruct (is_undefined x); [discriminate|].
    destruct (includes (toLowerCase (ToString x)) "stock") eqn:E1; [discriminate|].
    destruct (includes (toLowerCase (ToString x)) "available") eqn:E2; [discriminate|].
    intros _. rewrite <- !includes_lower, E1, E2. split; discriminate.
Qed.

(** The theorem on a product that is out of stock. *)
Lemma out_of_stock_witness :
  determineGenericAvailability
    (VObj [("name", VStr "Tent"); ("availability", VStr "Currently Out of Stock")])
  = IN_STOCK
  /\ forall x, availability_signal x = Some OUT_OF_STOCK ->
               ~ contains_ci (ToString x) "stock" /\ ~ contains_ci (ToString x) "available".
Proof.
  apply (out_of_stock_reads_as_in_stock
           (VObj [("name", VStr "Tent"); ("availability", VStr "Currently Out of Stock")])
           "Currently Out of Stock" "out of stock").
  - reflexivity.
  - cbn. tauto.
  - exists "Currently ", "Out of Stock", "". split; reflexivity.
Defined.

(** ** UniversalConverter: formats *)

Ltac detected :=
  let H := fresh in
  unfold mret, res_ret; intros H; injection H as <- <-.

Ltac settled := split; [reflexivity | split; [congruence | first [congruence | auto]]].

(** X19: when [detectFormatAndExtractProducts] returns, the products
    are those [parseWithFallback] returns for the same data; the format is
    the hint unless the hint is auto, and then vertex or generic. *)
Theorem detection_extracts_what_the_parser_returns :
  forall (jsonData : value) (formatHint : string) (products : list value)
         (detectedFormat : string),
    detectFormatAndExtractProducts jsonData formatHint = Ok (products, detectedFormat) ->
    parseWithFallback jsonData = Ok products
    /\ (formatHint <> "auto" -> detectedFormat = formatHint)
    /\ (formatHint = "auto" -> detectedFormat = "vertex" \/ detectedFormat = "generic").
Proof.
  intros jsonData formatHint products detectedFormat.
  unfold detectFormatAndExtractProducts, parseWithFallback.
  destruct (String.eqb formatHint "auto") eqn:Eh.
  - apply String.eqb_eq in Eh. subst formatHint.
    destruct jsonData as [| | | | |l|o]; cbn [get mbind res_bind]; try discriminate.
    + cbn [prop truthy andb is_array mret res_ret]. detected. settled.
    + cbn [prop truthy andb is_array mret res_ret]. detected. settled.
    + cbn [prop String.eqb Ascii.eqb Bool.eqb truthy andb is_array]. detected. settled.
    + destruct l as [|firstProduct rest]; [detected; settled|].
      destruct (get firstProduct "title") as [title|e]; [|discriminate].
      cbn [mbind res_bind mret res_ret]. detected.
      destruct (truthy title || truthy (prop firstProduct "categories")); settled.
    + repeat match goal with
             | |- (if ?c then _ else _) = _ -> _ =>
                 let E := fresh "E" in destruct c eqn:E
             end.
      * destruct (prop (VObj o) "products"); try discriminate. cbn. detected. settled.
      * destruct (prop (VObj o) "data"); try discriminate. cbn. detected. settled.
      * destruct (prop (VObj o) "items"); try discriminate. cbn. detected. settled.
      * cbn. detected. settled.
  - assert (Hne : formatHint <> "auto") by (now apply String.eqb_neq).
    destruct jsonData as [| | | | |l|o]; cbn [get mbind res_bind]; try discriminate.
    + cbn [prop truthy andb is_array mret res_ret]. detected. settled.
    + cbn [prop truthy andb is_array mret res_ret]. detected. settled.
    + cbn [prop String.eqb Ascii.eqb Bool.eqb truthy andb is_array]. detected. settled.
    + destruct l as [|firstProduct rest]; detected; settled.
    + repeat match goal with
             | |- (if ?c then _ else _) = _ -> _ =>
                 let E := fresh "E" in destruct c eqn:E
             end.
      * destruct (prop (VObj o) "products"); try discriminate. cbn. detected. settled.
      * destruct (prop (VObj o) "data"); try discriminate. cbn. detected. settled.
      * destruct (prop (VObj o) "items"); try discriminate. cbn. detected. settled.
      * cbn. detected. settled.
Qed.

(** The theorem on an object that holds its products under [items]. *)
Lemma detection_witness :
  parseWithFallback (VObj [("items", VArr [VObj [("name", VStr "Tent")]])])
  = Ok [VObj [("name", VStr "Tent")]]
  /\ ("generic" <> "auto" -> "generic" = "generic")
  /\ ("generic" = "auto" -> "generic" = "vertex" \/ "generic" = "generic").
Proof.
  apply (detection_extracts_what_the_parser_returns
           (VObj [("items", VArr [VObj [("name", VStr "Tent")]])]) "generic").
  reflexivity.
Defined.

Section Auto.
Variable tokenize : string -> list string.
Variable stem : string -> string.
Variable stopword : string -> bool.
Variable Math_sin : float -> float.

(** X20: the format [processAnyJSONFile] works with is the hint, and
    vertex when the hint is auto, whatever the file holds: the detector is
    handed the products wrapped in an object. *)
Theorem file_format_is_the_hint_or_vertex :
  forall (jsonData : value) (formatHint : string) (clock : nat -> Z) (st : RegexState)
         (detectedFormat : string) (records : list value),
    fst (processAnyJSONFile tokenize stem stopword Math_sin jsonData formatHint clock st)
    = Ok (detectedFormat, records) ->
    detectedFormat = (if String.eqb formatHint "auto" then "vertex" else formatHint)
    /\ exists products, parseWithFallback jsonData = Ok products.
Proof.
  intros jsonData formatHint clock st detectedFormat records. unfold processAnyJSONFile.
  destruct (parseWithFallback jsonData) as [products|e]; [|discriminate].
  cbn [mbind res_bind]. unfold detectFormatAndExtractProducts.
  cbn [get prop assoc String.eqb Ascii.eqb Bool.eqb mbind res_bind truthy is_array andb
       as_array mret res_ret snd].
  destruct (String.eqb formatHint "auto"); cbn [fst]; intros [= <- _]; eauto.
Qed.

End Auto.

(** The theorem on the array of scenario B with the hint generic. *)
Lemma file_format_witness :
  "generic" = (if String.eqb "generic" "auto" then "vertex" else "generic")
  /\ exists products, parseWithFallback scenario_B = Ok products.
Proof.
  apply (file_format_is_the_hint_or_vertex Sample.tokenize Sample.stem Sample.stopword
           Sample.Math_sin scenario_B "generic" (fun _ => 1700000000000%Z) fresh "generic" []).
  vm_compute. reflexivity.
Defined.

(** ** UniversalConverter: batches and shards *)

Lemma convert_nullish (detectedFormat : string) (now : Z) (product : value) :
  nullish product = true -> convert detectedFormat now product = Throw TypeError.
Proof.
  intros H. unfold convert.
  destruct (String.eqb detectedFormat "bpn"); [reflexivity|].
  destruct (String.eqb detectedFormat "vertex"); destruct product; try discriminate H;
    reflexivity.
Qed.

Section ShardingFacts.

Variable tokenize : string -> list string.
Variable stem : string -> string.
Variable stopword : string -> bool.
Variable Math_sin : float -> float.

Abbreviation retry := (processBatchWithRetry tokenize stem stopword Math_sin).
Abbreviation flat := (processBatches tokenize stem stopword Math_sin).

Lemma retry_loop_nullish (detectedFormat : string) (now : Z) (product : value) :
  nullish product = true ->
  forall (n : nat) (st : RegexState),
    retry_loop tokenize stem stopword Math_sin (S n) detectedFormat now product st
    = (Throw TypeError, st).
Proof.
  intros H. induction n as [|n IH]; intros st.
  - cbn [retry_loop]. rewrite (convert_nullish _ _ _ H). now destruct product.
  - change (retry_loop tokenize stem stopword Math_sin (S (S n)) detectedFormat now product st)
      with (match convert detectedFormat now product with
            | Ok commerceProduct =>
                if truthy commerceProduct
                then
                  match addEmbeddingsToProduct tokenize stem stopword Math_sin
                          commerceProduct detectedFormat st with
                  | (Ok productWithEmbeddings, st') => (Ok [productWithEmbeddings], st')
                  | (Throw _, st') =>
                      retry_loop tokenize stem stopword Math_sin (S n) detectedFormat now
                        product st'
                  end
                else retry_loop tokenize stem stopword Math_sin (S n) detectedFormat now
                       product st
            | Throw _ =>
                retry_loop tokenize stem stopword Math_sin (S n) detectedFormat now product st
            end).
    rewrite (convert_nullish _ _ _ H). apply IH.
Qed.

Lemma retry_loop_attempts (detectedFormat : string) (now : Z) (product : value) :
  nullish product = false ->
  forall (n : nat) (st : RegexState),
    retry_loop tokenize stem stopword Math_sin n detectedFormat now product st
    = (Ok (fst (attempts_loop tokenize stem stopword Math_sin n detectedFormat now product st)),
       snd (attempts_loop tokenize stem stopword Math_sin n detectedFormat now product st)).
Proof.
  intros H. assert (Hg : get product "id" = Ok (prop product "id"))
    by (destruct product; try discriminate H; reflexivity).
  induction n as [|n IH]; intros st; [reflexivity|].
  cbn [retry_loop attempts_loop]. rewrite Hg. cbn [mbind res_bind mret res_ret].
  destruct (convert detectedFormat now product) as [c|e].
  - destruct (truthy c); [|apply IH].
    destruct (addEmbeddingsToProduct _ _ _ _ c detectedFormat st) as [[r|e] st'];
      [reflexivity|].
    destruct n; [reflexivity | apply IH].
  - destruct n; [reflexivity | apply IH].
Qed.

Lemma retry_nonnull (detectedFormat : string) (clock : nat -> Z) (batch : list value) :
  existsb nullish batch = false ->
  forall (i : nat) (st : RegexState),
    exists results,
      retry detectedFormat clock i batch st
      = (Ok results, snd (flat detectedFormat clock i batch st))
      /\ List.filter truthy results = fst (flat detectedFormat clock i batch st).
Proof.
  induction batch as [|x batch IH]; intros H i st; [now exists []|].
  cbn [existsb] in H. apply orb_false_iff in H. destruct H as [Hx Hb].
  cbn [processBatchWithRetry processBatches fst snd].
  rewrite (retry_loop_attempts _ _ _ Hx).
  destruct (IH Hb (S i) (snd (attempts_loop tokenize stem stopword Math_sin
                                CONFIG.PROCESSING.RETRY_ATTEMPTS detectedFormat (clock i) x st)))
    as (results & -> & Hr).
  eexists. split; [reflexivity|]. now rewrite List.filter_app, Hr.
Qed.

Lemma retry_null (detectedFormat : string) (clock : nat -> Z) (batch : list value) :
  existsb nullish batch = true ->
  forall (i : nat) (st : RegexState),
    fst (retry detectedFormat clock i batch st) = Throw TypeError.
Proof.
  induction batch as [|x batch IH]; intros H i st; [discriminate H|].
  cbn [existsb] in H. cbn [processBatchWithRetry].
  destruct (nullish x) eqn:Hx.
  - change CONFIG.PROCESSING.RETRY_ATTEMPTS with 3.
    now rewrite (retry_loop_nullish _ _ _ Hx).
  - cbn [orb] in H. rewrite (retry_loop_attempts _ _ _ Hx).
    specialize (IH H (S i) (snd (attempts_loop tokenize stem stopword Math_sin
                                   CONFIG.PROCESSING.RETRY_ATTEMPTS detectedFormat (clock i)
                                   x st))).
    destruct (retry detectedFormat clock (S i) batch _) as [[results|e] st'];
      cbn [fst] in *; congruence.
Qed.

Lemma retry_app (detectedFormat : string) (clock : nat -> Z) (l1 l2 : list value) :
  forall (i : nat) (st : RegexState),
    retry detectedFormat clock i (l1 ++ l2) st
    = match retry detectedFormat clock i l1 st with
      | (Ok r1, st1) =>
          match retry detectedFormat clock (i + List.length l1) l2 st1 with
          | (Ok r2, st2) => (Ok (r1 ++ r2)%list, st2)
          | (Throw e, st2) => (Throw e, st2)
          end
      | (Throw e, st1) => (Throw e, st1)
      end.
Proof.
  induction l1 as [|x l1 IH]; intros i st.
  - cbn. rewrite Nat.add_0_r.
    now destruct (retry detectedFormat clock i l2 st) as [[r2|e] st2].
  - cbn [app processBatchWithRetry List.length].
    destruct (retry_loop _ _ _ _ _ _ _ x st) as [[pushed|e] st']; [|reflexivity].
    rewrite IH, <- Nat.add_succ_comm.
    destruct (retry detectedFormat clock (S i) l1 st') as [[r1|e] st1]; [|reflexivity].
    destruct (retry detectedFormat clock (S i + List.length l1) l2 st1) as [[r2|e] st2];
      [|reflexivity].
    now rewrite app_assoc.
Qed.

Lemma retry_loop_one (n : nat) (detectedFormat : string) (now : Z) (product : value) :
  forall (st st' : RegexState) (pushed : list value),
    retry_loop tokenize stem stopword Math_sin n detectedFormat now product st
    = (Ok pushed, st') ->
    List.length pushed <= 1.
Proof.
  induction n as [|n IH]; intros st st' pushed; cbn [retry_loop].
  - intros [= <- _]. cbn. lia.
  - destruct (convert detectedFormat now product) as [c|e].
    + destruct (truthy c); [|apply IH].
      destruct (addEmbeddingsToProduct _ _ _ _ c detectedFormat st) as [[r|e] st0].
      * intros [= <- _]. cbn. lia.
      * destruct n; [|apply IH]. destruct (get product "id"); [|discriminate].
        intros [= <- _]. cbn. lia.
    + destruct n; [|apply IH]. destruct (get product "id"); [|discriminate].
      intros [= <- _]. cbn. lia.
Qed.

Lemma retry_length (detectedFormat : string) (clock : nat -> Z) (batch : list value) :
  forall (i : nat) (st st' : RegexState) (results : list value),
    retry detectedFormat clock i batch st = (Ok results, st') ->
    List.length results <= List.length batch.
Proof.
  induction batch as [|x batch IH]; intros i st st' results; cbn [processBatchWithRetry].
  - intros [= <- _]. cbn. lia.
  - destruct (retry_loop _ _ _ _ _ _ _ x st) as [[pushed|e] st0] eqn:E; [|discriminate].
    destruct (retry detectedFormat clock (S i) batch st0) as [[rs|e] st1] eqn:E'; [|discriminate].
    intros [= <- _]. rewrite length_app. cbn [List.length].
    pose proof (retry_loop_one _ _ _ _ _ _ _ E). pose proof (IH _ _ _ _ E'). lia.
Qed.

Lemma write_results_converted (shouldShard : bool) (maxLinesPerShard : N)
    (results : list value) :
  forall o : sharded,
    let o' := fold_left (write_result shouldShard maxLinesPerShard) results o in
    convertedProducts o' = (convertedProducts o ++ List.filter truthy results)%list
    /\ processedCount o' = processedCount o
    /\ checkpoints o' = checkpoints o
    /\ thrown o' = thrown o.
Proof.
  induction results as [|x results IH]; intros o; cbn [fold_left List.filter].
  - now rewrite app_nil_r.
  - destruct (IH (write_result shouldShard maxLinesPerShard o x)) as (H1 & H2 & H3 & H4).
    cbv zeta. rewrite H1, H2, H3, H4. unfold write_result.
    destruct (truthy x); [|auto].
    destruct (shouldShard && (maxLinesPerShard <=? currentShardLines o)%N);
      cbn [convertedProducts processedCount checkpoints thrown]; rewrite <- app_assoc; auto.
Qed.

Lemma batch_loop_converted (batchSize : nat) (maxLinesPerShard checkpointInterval : N)
    (shouldShard : bool) (detectedFormat : string) (clock : nat -> Z) :
  0 < batchSize ->
  forall (fuel i : nat) (remaining : list value) (o : sharded) (st : RegexState),
    List.length remaining <= fuel ->
    thrown o = None ->
    let r := batch_loop tokenize stem stopword Math_sin fuel batchSize maxLinesPerShard
               checkpointInterval shouldShard detectedFormat clock i remaining o st in
    let whole := retry detectedFormat clock i remaining st in
    snd r = snd whole
    /\ match fst whole with
       | Ok results =>
           thrown (fst r) = None
           /\ convertedProducts (fst r)
              = (convertedProducts o ++ List.filter truthy results)%list
       | Throw e => thrown (fst r) = Some e
       end.
Proof.
  intros Hb. induction fuel as [|fuel IH]; intros i remaining o st Hf Ho.
  - destruct remaining; [|cbn in Hf; lia]. cbn. now rewrite app_nil_r.
  - destruct remaining as [|x remaining]; [cbn; now rewrite app_nil_r|].
    cbn [batch_loop]. set (l := x :: remaining) in *.
    set (batch := firstn batchSize l). cbv zeta.
    replace (retry detectedFormat clock i l st)
      with (retry detectedFormat clock i (batch ++ skipn batchSize l) st)
      by (subst batch; now rewrite firstn_skipn).
    rewrite retry_app.
    destruct (retry detectedFormat clock i batch st) as [[batchResults|e] st'];
      [|cbn; auto].
    destruct (write_results_converted shouldShard maxLinesPerShard batchResults o)
      as (W1 & _ & _ & W4).
    cbv zeta in W1, W4.
    match goal with |- context [batch_loop _ _ _ _ fuel _ _ _ _ _ _ ?i' ?rem ?o' ?st'] =>
      destruct (IH i' rem o' st') as [I1 I2]
    end.
    { rewrite length_skipn. subst l. cbn [List.length] in *. lia. }
    { cbn [thrown]. now rewrite W4. }
    cbv zeta in I1, I2. cbn [convertedProducts] in I2. rewrite I1.
    assert (Hi : retry detectedFormat clock (i + batchSize) (skipn batchSize l) st'
                 = retry detectedFormat clock (i + List.length batch) (skipn batchSize l) st').
    { destruct (Nat.le_ge_cases batchSize (List.length l)) as [Hle|Hge].
      - subst batch. rewrite length_firstn. now rewrite Nat.min_l.
      - rewrite skipn_all2 by exact Hge. reflexivity. }
    rewrite <- Hi.
    destruct (retry detectedFormat clock (i + batchSize) (skipn batchSize l) st')
      as [[rs|e] st'']; cbn [fst snd] in *; [|auto].
    split; [reflexivity|]. destruct I2 as [I2 I3]. split; [exact I2|].
    now rewrite I3, W1, List.filter_app, app_assoc.
Qed.

Lemma write_result_ok (shouldShard : bool) (maxLinesPerShard : N) (o : sharded) (x : value) :
  (0 < maxLinesPerShard)%N ->
  shards_ok shouldShard maxLinesPerShard o ->
  shards_ok shouldShard maxLinesPerShard (write_result shouldShard maxLinesPerShard o x).
Proof.
  intros Hm (Hl & Hc & Hs). unfold write_result. destruct (truthy x); [|now split].
  destruct shouldShard; cbn [andb].
  - destruct Hs as [Hs Hle].
    destruct (maxLinesPerShard <=? currentShardLines o)%N eqn:E.
    + apply N.leb_le in E. unfold shards_ok.
      cbn [currentShardLines currentShard closedShards convertedProducts app List.length].
      split; [reflexivity|]. split.
      * rewrite <- Hc. rewrite !concat_app. cbn. now rewrite !app_nil_r.
      * split; [|lia]. apply Forall_app. split; [exact Hs|]. constructor; [lia|constructor].
    + apply N.leb_gt in E. unfold shards_ok.
      cbn [currentShardLines currentShard closedShards convertedProducts].
      rewrite length_app. cbn [List.length]. split; [lia|]. split.
      * rewrite <- Hc. rewrite !concat_app. cbn. now rewrite !app_nil_r, app_assoc.
      * split; [exact Hs | lia].
  - unfold shards_ok.
    cbn [currentShardLines currentShard closedShards convertedProducts].
    rewrite length_app. cbn [List.length]. split; [lia|]. split; [|exact Hs].
    rewrite <- Hc, Hs. cbn. now rewrite !app_nil_r.
Qed.

Lemma write_results_ok (shouldShard : bool) (maxLinesPerShard : N) (results : list value) :
  (0 < maxLinesPerShard)%N ->
  forall o : sharded,
    shards_ok shouldShard maxLinesPerShard o ->
    shards_ok shouldShard maxLinesPerShard
      (fold_left (write_result shouldShard maxLinesPerShard) results o).
Proof.
  intros Hm. induction results as [|x results IH]; intros o Ho; [exact Ho|].
  cbn [fold_left]. apply IH. now apply write_result_ok.
Qed.

Lemma batch_loop_ok (batchSize : nat) (maxLinesPerShard checkpointInterval : N)
    (shouldShard : bool) (detectedFormat : string) (clock : nat -> Z) :
  (0 < maxLinesPerShard)%N ->
  forall (fuel i : nat) (remaining : list value) (o : sharded) (st : RegexState),
    shards_ok shouldShard maxLinesPerShard o ->
    shards_ok shouldShard maxLinesPerShard
      (fst (batch_loop tokenize stem stopword Math_sin fuel batchSize maxLinesPerShard
              checkpointInterval shouldShard detectedFormat clock i remaining o st)).
Proof.
  intros Hm. induction fuel as [|fuel IH]; intros i remaining o st Ho; [exact Ho|].
  destruct remaining as [|x remaining]; [exact Ho|].
  cbn [batch_loop].
  destruct (retry detectedFormat clock i _ st) as [[batchResults|e] st']; [|exact Ho].
  apply IH.
  exact (write_results_ok shouldShard maxLinesPerShard batchResults Hm o Ho).
Qed.

Lemma batch_loop_checkpoints (batchSize : nat) (maxLinesPerShard checkpointInterval : N)
    (shouldShard : bool) (detectedFormat : string) (clock : nat -> Z) (n : nat) :
  0 < batchSize ->
  forall (fuel i : nat) (remaining : list value) (o : sharded) (st : RegexState) (d : nat),
    processedCount o = N.of_nat d ->
    d + List.length remaining = n ->
    let P := fun c => (0 < c <= N.of_nat n)%N /\ (c mod checkpointInterval = 0)%N in
    List.Forall P (checkpoints o) ->
    let o' := fst (batch_loop tokenize stem stopword Math_sin fuel batchSize maxLinesPerShard
                     checkpointInterval shouldShard detectedFormat clock i remaining o st) in
    List.Forall P (checkpoints o').
Proof.
  intros Hb. induction fuel as [|fuel IH]; intros i remaining o st d Hd Hn P Ho; [exact Ho|].
  destruct remaining as [|x remaining]; [exact Ho|].
  cbn [batch_loop]. set (l := x :: remaining) in *.
  set (batch := firstn batchSize l) in *.
  destruct (retry detectedFormat clock i batch st) as [[batchResults|e] st']; [|exact Ho].
  destruct (write_results_converted shouldShard maxLinesPerShard batchResults o)
    as (_ & W2 & W3 & _).
  cbv zeta in W2, W3.
  set (ow := fold_left (write_result shouldShard maxLinesPerShard) batchResults o) in *.
  assert (Hbl : 1 <= List.length batch <= List.length l).
  { subst batch. rewrite length_firstn. subst l. cbn [List.length]. lia. }
  match goal with |- context [batch_loop _ _ _ _ fuel _ _ _ _ _ _ ?i' ?rem ?o' ?st'] =>
    specialize (IH i' rem o' st' (d + List.length batch))
  end.
  cbn [processedCount checkpoints] in IH.
  apply IH.
  - rewrite W2, Hd. lia.
  - rewrite length_skipn. subst batch. rewrite length_firstn. lia.
  - rewrite W2, W3, Hd.
    destruct ((N.of_nat d + N.of_nat (List.length batch)) mod checkpointInterval =? 0)%N eqn:E;
      [|exact Ho].
    apply Forall_app. split; [exact Ho|]. constructor; [|constructor].
    apply N.eqb_eq in E. split; [lia | exact E].
Qed.

Lemma batch_loop_grows (batchSize : nat) (maxLinesPerShard checkpointInterval : N)
    (shouldShard : bool) (detectedFormat : string) (clock : nat -> Z) :
  forall (fuel i : nat) (remaining : list value) (o : sharded) (st : RegexState),
    checkpoints o <> [] ->
    checkpoints (fst (batch_loop tokenize stem stopword Math_sin fuel batchSize maxLinesPerShard
                        checkpointInterval shouldShard detectedFormat clock i
                        remaining o st)) <> [].
Proof.
  induction fuel as [|fuel IH]; intros i remaining o st Ho; [exact Ho|].
  destruct remaining as [|x remaining]; [exact Ho|].
  cbn [batch_loop].
  destruct (retry detectedFormat clock i _ st) as [[batchResults|e] st']; [|exact Ho].
  apply IH. cbn [checkpoints].
  destruct (write_results_converted shouldShard maxLinesPerShard batchResults o)
    as (_ & _ & W3 & _).
  cbv zeta in W3. rewrite W3.
  destruct (_ =? 0)%N; [|exact Ho]. now destruct (checkpoints o).
Qed.

Lemma batch_loop_thrown (batchSize : nat) (maxLinesPerShard checkpointInterval : N)
    (shouldShard : bool) (detectedFormat : string) (clock : nat -> Z) (e : string) :
  forall (fuel i : nat) (remaining : list value) (o : sharded) (st : RegexState),
    thrown o = Some e ->
    thrown (fst (batch_loop tokenize stem stopword Math_sin fuel batchSize maxLinesPerShard
                   checkpointInterval shouldShard detectedFormat clock i
                   remaining o st)) <> None.
Proof.
  induction fuel as [|fuel IH]; intros i remaining o st Ho; [cbn; congruence|].
  destruct remaining as [|x remaining]; [cbn; congruence|].
  cbn [batch_loop].
  destruct (retry detectedFormat clock i _ st) as [[batchResults|e'] st']; [|discriminate].
  apply IH. cbn [thrown].
  destruct (write_results_converted shouldShard maxLinesPerShard batchResults o)
    as (_ & _ & _ & W4).
  cbv zeta in W4. now rewrite W4.
Qed.

Lemma batch_loop_reaches (batchSize k : nat) (maxLinesPerShard : N)
    (shouldShard : bool) (detectedFormat : string) (clock : nat -> Z) :
  0 < batchSize -> 0 < k ->
  forall (fuel i : nat) (remaining : list value) (o : sharded) (st : RegexState) (j : nat),
    processedCount o = N.of_nat (j * batchSize) ->
    j < k ->
    k * batchSize <= j * batchSize + List.length remaining ->
    List.length remaining <= fuel ->
    let o' := fst (batch_loop tokenize stem stopword Math_sin fuel batchSize maxLinesPerShard
                     (N.of_nat (k * batchSize)) shouldShard detectedFormat clock i
                     remaining o st) in
    thrown o' = None -> checkpoints o' <> [].
Proof.
  intros Hb Hk. induction fuel as [|fuel IH]; intros i remaining o st j Hd Hj Hr Hf.
  - destruct remaining; cbn [List.length] in *; nia.
  - destruct remaining as [|x remaining]; [cbn [List.length] in *; nia|].
    cbn [batch_loop]. set (l := x :: remaining) in *.
    set (batch := firstn batchSize l) in *.
    destruct (retry detectedFormat clock i batch st) as [[batchResults|e] st'];
      [|cbn; discriminate].
    destruct (write_results_converted shouldShard maxLinesPerShard batchResults o)
      as (_ & W2 & W3 & _).
    cbv zeta in W2, W3.
    set (ow := fold_left (write_result shouldShard maxLinesPerShard) batchResults o) in *.
    assert (Hbl : List.length batch = batchSize).
    { subst batch. rewrite length_firstn. nia. }
    rewrite W2, Hd, Hbl.
    replace (N.of_nat (j * batchSize) + N.of_nat batchSize)%N
      with (N.of_nat (S j * batchSize)) by lia.
    destruct (Nat.eq_dec (S j) k) as [<-|Hne].
    + rewrite N.Div0.mod_same, N.eqb_refl. cbv zeta. intros _.
      apply batch_loop_grows. cbn [checkpoints]. now destruct (checkpoints ow).
    + apply (IH _ _ _ _ (S j)).
      * reflexivity.
      * lia.
      * rewrite length_skipn. nia.
      * rewrite length_skipn. subst l. cbn [List.length] in *. lia.
Qed.

Lemma batch_loop_length (batchSize : nat) (maxLinesPerShard checkpointInterval : N)
    (shouldShard : bool) (detectedFormat : string) (clock : nat -> Z) :
  forall (fuel i : nat) (remaining : list value) (o : sharded) (st : RegexState),
    List.length (convertedProducts
                   (fst (batch_loop tokenize stem stopword Math_sin fuel batchSize
                           maxLinesPerShard checkpointInterval shouldShard detectedFormat
                           clock i remaining o st)))
    <= List.length (convertedProducts o) + List.length remaining.
Proof.
  induction fuel as [|fuel IH]; intros i remaining o st; [cbn; lia|].
  destruct remaining as [|x remaining]; [cbn; lia|].
  cbn [batch_loop]. set (l := x :: remaining) in *.
  destruct (retry detectedFormat clock i (firstn batchSize l) st)
    as [[batchResults|e] st'] eqn:E; [|cbn [fst convertedProducts]; lia].
  destruct (write_results_converted shouldShard maxLinesPerShard batchResults o)
    as (W1 & _).
  cbv zeta in W1.
  match goal with |- context [batch_loop _ _ _ _ fuel _ _ _ _ _ _ ?i' ?rem ?o' ?st'] =>
    specialize (IH i' rem o' st')
  end.
  cbn [convertedProducts] in IH.
  apply (f_equal (@List.length value)) in W1. rewrite length_app in W1.
  pose proof (List.filter_length_le truthy batchResults).
  pose proof (retry_length _ _ _ _ _ _ _ E).
  pose proof (firstn_skipn batchSize l) as Hl. apply (f_equal (@List.length value)) in Hl.
  rewrite length_app in Hl. lia.
Qed.

(** X21: [processBatchWithRetry] throws a TypeError when a product of
    the batch is null or undefined: the handler of the last attempt reads
    [product.id].  Otherwise it returns at most one result per product, and
    the truthy ones are the records of [processBatches]. *)
Theorem a_null_product_aborts_the_batch :
  forall (detectedFormat : string) (clock : nat -> Z) (i : nat) (batch : list value)
         (st : RegexState),
    let r := processBatchWithRetry tokenize stem stopword Math_sin detectedFormat clock i
               batch st in
    (existsb nullish batch = true -> fst r = Throw TypeError)
    /\ (existsb nullish batch = false ->
        exists results,
          r = (Ok results, snd (processBatches tokenize stem stopword Math_sin detectedFormat
                                  clock i batch st))
          /\ List.filter truthy results
             = fst (processBatches tokenize stem stopword Math_sin detectedFormat clock i
                      batch st)
          /\ List.length results <= List.length batch).
Proof.
  intros detectedFormat clock i batch st r. subst r. split.
  - intros H. now apply retry_null.
  - intros H. destruct (retry_nonnull detectedFormat clock batch H i st) as (results & E & F).
    exists results. split; [exact E|]. split; [exact F|]. exact (retry_length _ _ _ _ _ _ _ E).
Qed.

(** X22: in the format bpn [processBatchWithRetry] returns null for
    every product, or throws when one is null: [ProductConverter] has no
    method [convertBPNProduct]. *)
Theorem bpn_format_emits_nothing :
  forall (clock : nat -> Z) (i : nat) (batch : list value) (st : RegexState),
    processBatchWithRetry tokenize stem stopword Math_sin "bpn" clock i batch st
    = (if existsb nullish batch then Throw TypeError
       else Ok (List.map (fun _ => VNull) batch), st).
Proof.
  intros clock i batch. revert i. induction batch as [|x batch IH]; intros i st; [reflexivity|].
  cbn [processBatchWithRetry existsb List.map]. change CONFIG.PROCESSING.RETRY_ATTEMPTS with 3.
  destruct (nullish x) eqn:Hx.
  - now rewrite (retry_loop_nullish _ _ _ Hx).
  - cbn [retry_loop convert String.eqb Ascii.eqb Bool.eqb].
    replace (get x "id") with (Ok (prop x "id") : res value)
      by (destruct x; try discriminate Hx; reflexivity).
    cbn [mbind res_bind mret res_ret orb]. rewrite IH.
    now destruct (existsb nullish batch).
Qed.

(** X23: batches do not show in the result: [processBatchesWithSharding]
    returns the truthy results of [processBatchWithRetry] over the whole
    list, at most one per product, throws when that throws, and leaves the
    same state. *)
Theorem batches_do_not_show_in_the_result :
  forall (products : list value) (detectedFormat : string) (clock : nat -> Z)
         (st : RegexState),
    let r := processBatchesWithSharding tokenize stem stopword Math_sin products
               detectedFormat clock st in
    let whole := processBatchWithRetry tokenize stem stopword Math_sin detectedFormat clock 0
                   products st in
    snd r = snd whole
    /\ match fst whole with
       | Ok results =>
           thrown (fst r) = None
           /\ convertedProducts (fst r) = List.filter truthy results
           /\ List.length (convertedProducts (fst r)) <= List.length products
       | Throw e => thrown (fst r) = Some e
       end.
Proof.
  intros products detectedFormat clock st r whole. subst r whole.
  unfold processBatchesWithSharding.
  destruct (batch_loop_converted (N.to_nat CONFIG.PROCESSING.BATCH_SIZE)
              CONFIG.PROCESSING.MAX_LINES_PER_SHARD CONFIG.PROCESSING.CHECKPOINT_INTERVAL
              (CONFIG.PROCESSING.SHARD_OUTPUT
               && (CONFIG.PROCESSING.MAX_LINES_PER_SHARD <? N.of_nat (List.length products))%N)
              detectedFormat clock ltac:(unfold CONFIG.PROCESSING.BATCH_SIZE; lia)
              (List.length products) 0 products
              (mkSharded [] [] 0 [] 0 [] None) st (Nat.le_refl _) eq_refl) as [H1 H2].
  cbv zeta in *. cbn [convertedProducts app] in H2. split; [exact H1|].
  destruct (retry detectedFormat clock 0 products st) as [[results|e] st'] eqn:E;
    cbn [fst] in *; [|exact H2].
  destruct H2 as [H2 H3]. split; [exact H2|]. split; [exact H3|].
  rewrite H3. pose proof (List.filter_length_le truthy results).
  pose proof (retry_length _ _ _ _ _ _ _ E). lia.
Qed.

(** X24: the output files of [processBatchesWithSharding] hold the
    converted products in order; none has more than [MAX_LINES_PER_SHARD]
    lines, every closed shard has exactly that many, and a list of at most
    that many products goes to a single file. *)
Theorem no_output_file_exceeds_the_shard_size :
  forall (products : list value) (detectedFormat : string) (clock : nat -> Z)
         (st : RegexState),
    let o := fst (processBatchesWithSharding tokenize stem stopword Math_sin products
                    detectedFormat clock st) in
    concat (outputFiles o) = convertedProducts o
    /\ List.Forall (fun file => (N.of_nat (List.length file)
                                 <= CONFIG.PROCESSING.MAX_LINES_PER_SHARD)%N)
         (outputFiles o)
    /\ List.Forall (fun shard => N.of_nat (List.length shard)
                                 = CONFIG.PROCESSING.MAX_LINES_PER_SHARD)
         (closedShards o)
    /\ ((N.of_nat (List.length products) <= CONFIG.PROCESSING.MAX_LINES_PER_SHARD)%N ->
        outputFiles o = [convertedProducts o]).
Proof.
  intros products detectedFormat clock st o.
  set (maxLinesPerShard := CONFIG.PROCESSING.MAX_LINES_PER_SHARD) in *.
  assert (Hm : (0 < maxLinesPerShard)%N) by reflexivity.
  set (shouldShard := CONFIG.PROCESSING.SHARD_OUTPUT
                      && (maxLinesPerShard <? N.of_nat (List.length products))%N).
  assert (Hok : shards_ok shouldShard maxLinesPerShard o).
  { subst o. unfold processBatchesWithSharding. cbv zeta.
    fold maxLinesPerShard. fold shouldShard. apply batch_loop_ok; [exact Hm|].
    unfold shards_ok. cbn [currentShardLines currentShard closedShards convertedProducts].
    split; [reflexivity|]. split; [reflexivity|].
    destruct shouldShard; [|reflexivity]. split; [constructor | cbn; lia]. }
  assert (Hlen : List.length (convertedProducts o) <= List.length products).
  { subst o. unfold processBatchesWithSharding.
    etransitivity; [apply batch_loop_length|]. cbn [convertedProducts List.length]. lia. }
  clearbody o. destruct Hok as (Hl & Hc & Hs). unfold outputFiles.
  split; [exact Hc|].
  destruct shouldShard eqn:Es.
  - destruct Hs as [Hs Hle]. split; [|split; [exact Hs|]].
    + apply Forall_app. split.
      * eapply List.Forall_impl; [|exact Hs]. cbn beta. intros shard ->. lia.
      * constructor; [exact Hle | constructor].
    + intros Hn. subst shouldShard. cbn [CONFIG.PROCESSING.SHARD_OUTPUT andb] in Es.
      apply N.ltb_lt in Es. lia.
  - rewrite Hs in *. cbn [app concat] in *. rewrite app_nil_r in Hc. subst.
    subst shouldShard. cbn [CONFIG.PROCESSING.SHARD_OUTPUT andb] in Es.
    apply N.ltb_ge in Es.
    split; [|split; [apply List.Forall_nil | now rewrite Hc]].
    apply List.Forall_cons; [rewrite Hc; lia | apply List.Forall_nil].
Qed.

(** X25: while a file is processed [saveCheckpoint] is called only when
    the count of processed products is a positive multiple of
    [CHECKPOINT_INTERVAL], so never for a file of fewer products; for a
    file of at least that many it is called unless a batch throws. *)
Theorem checkpoint_saved_from_the_interval_on :
  forall (products : list value) (detectedFormat : string) (clock : nat -> Z)
         (st : RegexState),
    let o := fst (processBatchesWithSharding tokenize stem stopword Math_sin products
                    detectedFormat clock st) in
    (checkpoints o <> [] ->
     (CONFIG.PROCESSING.CHECKPOINT_INTERVAL <= N.of_nat (List.length products))%N)
    /\ (thrown o = None ->
        (CONFIG.PROCESSING.CHECKPOINT_INTERVAL <= N.of_nat (List.length products))%N ->
        checkpoints o <> [])
    /\ List.Forall (fun c => (0 < c <= N.of_nat (List.length products))%N
                             /\ (c mod CONFIG.PROCESSING.CHECKPOINT_INTERVAL = 0)%N)
         (checkpoints o).
Proof.
  intros products detectedFormat clock st o. subst o. unfold processBatchesWithSharding.
  cbv zeta.
  set (shouldShard := CONFIG.PROCESSING.SHARD_OUTPUT && _).
  assert (Hb : 0 < N.to_nat CONFIG.PROCESSING.BATCH_SIZE)
    by (unfold CONFIG.PROCESSING.BATCH_SIZE; lia).
  pose proof (batch_loop_checkpoints (N.to_nat CONFIG.PROCESSING.BATCH_SIZE)
                CONFIG.PROCESSING.MAX_LINES_PER_SHARD CONFIG.PROCESSING.CHECKPOINT_INTERVAL
                shouldShard detectedFormat clock (List.length products) Hb
                (List.length products) 0 products (mkSharded [] [] 0 [] 0 [] None) st 0
                eq_refl eq_refl (List.Forall_nil _)) as Hall.
  cbv zeta in Hall. split; [|split; [|exact Hall]].
  - intros Hne.
    destruct (checkpoints (fst (batch_loop _ _ _ _ _ _ _ _ _ _ _ _ _ _ _))) as [|c cs];
      [congruence|].
    apply List.Forall_inv in Hall. destruct Hall as [[H0 Hle] Hmod].
    apply N.Div0.mod_divides in Hmod. destruct Hmod as [q Hq].
    unfold CONFIG.PROCESSING.CHECKPOINT_INTERVAL in *. nia.
  - intros Ht Hle. revert Ht.
    change CONFIG.PROCESSING.CHECKPOINT_INTERVAL
      with (N.of_nat (10 * N.to_nat CONFIG.PROCESSING.BATCH_SIZE)).
    apply (batch_loop_reaches _ 10 _ _ _ _ Hb ltac:(lia) _ _ _ _ _ 0); [reflexivity | lia | |lia].
    unfold CONFIG.PROCESSING.CHECKPOINT_INTERVAL, CONFIG.PROCESSING.BATCH_SIZE in *. lia.
Qed.

End ShardingFacts.

(** ** UniversalConverter: a record among the others *)

Section Emission.

Variable tokenize : string -> list string.
Variable stem : string -> string.
Variable stopword : string -> bool.
Variable Math_sin : float -> float.

Abbreviation retry := (processBatchWithRetry tokenize stem stopword Math_sin).

(** A product that is converted and whose record [addEmbeddingsToProduct]
    returns has that result at its place among those of the products
    before and after it. *)
Lemma retry_emits (detectedFormat : string) (clock : nat -> Z) (i : nat)
    (before after : list value) (product c r : value) (st0 st st' st2 : RegexState)
    (r1 r2 : list value) :
  convert detectedFormat (clock (i + List.length before)) product = Ok c ->
  truthy c = true ->
  addEmbeddingsToProduct tokenize stem stopword Math_sin c detectedFormat st = (Ok r, st') ->
  retry detectedFormat clock i before st0 = (Ok r1, st) ->
  retry detectedFormat clock (S (i + List.length before)) after st' = (Ok r2, st2) ->
  retry detectedFormat clock i (before ++ product :: after) st0
  = (Ok (r1 ++ r :: r2)%list, st2).
Proof.
  intros Hc Ht Ha H1 H2. rewrite retry_app, H1. cbn [processBatchWithRetry].
  change CONFIG.PROCESSING.RETRY_ATTEMPTS with 3. cbn [retry_loop].
  rewrite Hc, Ht, Ha, H2. reflexivity.
Qed.

(** What [processBatchesWithSharding] makes of the results of the whole
    list when none of its products makes [processBatchWithRetry] throw. *)
Lemma sharding_emits (products : list value) (detectedFormat : string) (clock : nat -> Z)
    (st0 st2 : RegexState) (results : list value) :
  retry detectedFormat clock 0 products st0 = (Ok results, st2) ->
  let out := fst (processBatchesWithSharding tokenize stem stopword Math_sin products
                    detectedFormat clock st0) in
  thrown out = None
  /\ convertedProducts out = List.filter truthy results
  /\ concat (outputFiles out) = List.filter truthy results.
Proof.
  intros H out.
  assert (Hb : 0 < N.to_nat CONFIG.PROCESSING.BATCH_SIZE)
    by (unfold CONFIG.PROCESSING.BATCH_SIZE; lia).
  set (maxLinesPerShard := CONFIG.PROCESSING.MAX_LINES_PER_SHARD).
  set (shouldShard := CONFIG.PROCESSING.SHARD_OUTPUT
                      && (maxLinesPerShard <? N.of_nat (List.length products))%N).
  destruct (batch_loop_converted tokenize stem stopword Math_sin
              (N.to_nat CONFIG.PROCESSING.BATCH_SIZE) maxLinesPerShard
              CONFIG.PROCESSING.CHECKPOINT_INTERVAL shouldShard detectedFormat clock Hb
              (List.length products) 0 products (mkSharded [] [] 0 [] 0 [] None) st0
              (Nat.le_refl _) eq_refl) as [_ H2].
  cbv zeta in H2. rewrite H in H2. cbn [fst convertedProducts app] in H2.
  destruct H2 as [Ht Hc].
  assert (Hok : shards_ok shouldShard maxLinesPerShard out).
  { subst out. unfold processBatchesWithSharding. cbv zeta.
    fold maxLinesPerShard. fold shouldShard.
    apply batch_loop_ok; [reflexivity|].
    unfold shards_ok. cbn [currentShardLines currentShard closedShards convertedProducts].
    split; [reflexivity|]. split; [reflexivity|].
    destruct shouldShard; [|reflexivity]. split; [constructor | cbn; lia]. }
  subst out. unfold processBatchesWithSharding. cbv zeta.
  fold maxLinesPerShard. fold shouldShard.
  unfold processBatchesWithSharding in Hok. cbv zeta in Hok.
  fold maxLinesPerShard in Hok. fold shouldShard in Hok.
  split; [exact Ht|]. split; [exact Hc|].
  destruct Hok as (_ & Hf & _). unfold outputFiles. now rewrite Hf.
Qed.

(** A list with a product that is [null] or [undefined] makes
    [processBatchesWithSharding] throw. *)
Lemma sharding_throws (products : list value) (detectedFormat : string) (clock : nat -> Z)
    (st0 : RegexState) :
  existsb nullish products = true ->
  thrown (fst (processBatchesWithSharding tokenize stem stopword Math_sin products
                 detectedFormat clock st0)) = Some TypeError.
Proof.
  intros H.
  assert (Hb : 0 < N.to_nat CONFIG.PROCESSING.BATCH_SIZE)
    by (unfold CONFIG.PROCESSING.BATCH_SIZE; lia).
  unfold processBatchesWithSharding. cbv zeta.
  match goal with |- context [batch_loop _ _ _ _ _ _ ?m ?c ?s _ _ _ _ _ _] =>
    destruct (batch_loop_converted tokenize stem stopword Math_sin
                (N.to_nat CONFIG.PROCESSING.BATCH_SIZE) m c s detectedFormat clock Hb
                (List.length products) 0 products (mkSharded [] [] 0 [] 0 [] None) st0
                (Nat.le_refl _) eq_refl) as [_ H2]
  end.
  cbv zeta in H2.
  now rewrite (retry_null tokenize stem stopword Math_sin detectedFormat clock products H 0 st0)
    in H2.
Qed.

(** With such a product in the first batch nothing is returned and
    nothing is written. *)
Lemma sharding_writes_nothing (products : list value) (detectedFormat : string)
    (clock : nat -> Z) (st0 : RegexState) :
  existsb nullish (firstn (N.to_nat CONFIG.PROCESSING.BATCH_SIZE) products) = true ->
  let out := fst (processBatchesWithSharding tokenize stem stopword Math_sin products
                    detectedFormat clock st0) in
  convertedProducts out = [] /\ outputFiles out = [[]].
Proof.
  intros H. unfold processBatchesWithSharding. cbv zeta.
  set (batchSize := N.to_nat CONFIG.PROCESSING.BATCH_SIZE) in *.
  destruct products as [|x products]; [rewrite firstn_nil in H; discriminate H|].
  cbn [List.length batch_loop].
  pose proof (retry_null tokenize stem stopword Math_sin detectedFormat clock
                (firstn batchSize (x :: products)) H 0 st0) as Hn.
  destruct (retry detectedFormat clock 0 (firstn batchSize (x :: products)) st0)
    as [[results|e] st']; [discriminate Hn|].
  split; reflexivity.
Qed.


(** X9: for a format other than auto, vertex and generic,
    [addEmbeddingsToProduct] returns the record unchanged: no text is
    extracted for it.  Unless the format is bpn, the record of the generic
    converter is then among the results of [processBatchWithRetry], at the
    place of its product between the results of the products before and
    after it when those are processed without an exception, and
    [processBatchesWithSharding] returns it and writes it to its output. *)
Theorem other_format_adds_no_embeddings :
  forall (o : list (string * value)) (format : string) (st : RegexState),
    format <> "auto" -> format <> "vertex" -> format <> "generic" ->
    addEmbeddingsToProduct tokenize stem stopword Math_sin (VObj o) format st
    = (Ok (VObj o), mkRegexState (li_commerceTerms st) 0 0 0 0)
    /\ (format <> "bpn" ->
        forall (before after : list value) (product : value) (clock : nat -> Z) (i : nat)
               (st0 st2 : RegexState) (r1 r2 : list value),
          convertGenericProduct (clock (i + List.length before)) product = Ok (VObj o) ->
          processBatchWithRetry tokenize stem stopword Math_sin format clock i before st0
          = (Ok r1, st) ->
          processBatchWithRetry tokenize stem stopword Math_sin format clock
            (S (i + List.length before)) after (mkRegexState (li_commerceTerms st) 0 0 0 0)
          = (Ok r2, st2) ->
          processBatchWithRetry tokenize stem stopword Math_sin format clock i
            (before ++ product :: after) st0
          = (Ok (r1 ++ VObj o :: r2)%list, st2)
          /\ (i = 0 ->
              let out := fst (processBatchesWithSharding tokenize stem stopword Math_sin
                                (before ++ product :: after) format clock st0) in
              thrown out = None
              /\ convertedProducts out
                 = (List.filter truthy r1 ++ VObj o :: List.filter truthy r2)%list
              /\ concat (outputFiles out) = convertedProducts out)).
Proof.
  intros o format st Ha Hv Hg.
  assert (Hadd : addEmbeddingsToProduct tokenize stem stopword Math_sin (VObj o) format st
                 = (Ok (VObj o), mkRegexState (li_commerceTerms st) 0 0 0 0)).
  { unfold addEmbeddingsToProduct, enrich, generate.
    rewrite extractSearchableText_other_format by assumption. reflexivity. }
  split; [exact Hadd|].
  intros Hb before after product clock i st0 st2 r1 r2 Hc H1 H2.
  assert (Hc' : convert format (clock (i + List.length before)) product = Ok (VObj o)).
  { unfold convert. apply String.eqb_neq in Hb, Hv. now rewrite Hb, Hv. }
  pose proof (retry_emits format clock i before after product (VObj o) (VObj o)
                st0 st _ st2 r1 r2 Hc' eq_refl Hadd H1 H2) as Hr.
  split; [exact Hr|]. intros ->. cbv zeta.
  destruct (sharding_emits _ format clock st0 st2 _ Hr) as (Ht & Hp & Hf).
  rewrite List.filter_app in Hp, Hf. cbn [List.filter truthy] in Hp, Hf.
  split; [exact Ht|]. split; [exact Hp|]. now rewrite Hf, Hp.
Qed.

End Emission.



(** The theorem on the format shopify, for the second of three
    products. *)
Lemma other_format_witness :
  let product (id name : string) := VObj [("id", VStr id); ("name", VStr name)] in
  let canonical :=
    [("id", VStr "p9"); ("title", VStr "Green Tea");
     ("categories", VArr [VStr "Products"]); ("description", VStr "");
     ("uri", VStr "/products/green-tea-p9"); ("availability", VStr "IN_STOCK");
     ("languageCode", VStr "en"); ("attributes", VObj [])] in
  let products := [product "p8" "Black Tea"; product "p9" "Green Tea";
                   product "p10" "White Tea"] in
  let clock := fun _ : nat => 0%Z in
  addEmbeddingsToProduct Sample.tokenize Sample.stem Sample.stopword Sample.Math_sin
    (VObj canonical) "shopify" fresh
  = (Ok (VObj canonical), fresh)
  /\ exists r1 r2,
      prop r1 "id" = VStr "p8" /\ prop r2 "id" = VStr "p10"
      /\ processBatchWithRetry Sample.tokenize Sample.stem Sample.stopword Sample.Math_sin
           "shopify" clock 0 products fresh
         = (Ok [r1; VObj canonical; r2], fresh)
      /\ let out := fst (processBatchesWithSharding Sample.tokenize Sample.stem
                           Sample.stopword Sample.Math_sin products "shopify" clock fresh) in
         thrown out = None
         /\ convertedProducts out = [r1; VObj canonical; r2]
         /\ concat (outputFiles out) = [r1; VObj canonical; r2].
Proof.
  intros product canonical products clock.
  destruct (other_format_adds_no_embeddings
              Sample.tokenize Sample.stem Sample.stopword Sample.Math_sin
              canonical "shopify" fresh) as [H1 H2]; try discriminate.
  split; [exact H1|].
  assert (E1 : exists r1,
             processBatchWithRetry Sample.tokenize Sample.stem Sample.stopword
               Sample.Math_sin "shopify" clock 0 [product "p8" "Black Tea"] fresh
             = (Ok [r1], fresh)
             /\ truthy r1 = true /\ prop r1 "id" = VStr "p8")
    by (eexists; split; [vm_compute; reflexivity|]; split; vm_compute; reflexivity).
  assert (E2 : exists r2,
             processBatchWithRetry Sample.tokenize Sample.stem Sample.stopword
               Sample.Math_sin "shopify" clock 2 [product "p10" "White Tea"] fresh
             = (Ok [r2], fresh)
             /\ truthy r2 = true /\ prop r2 "id" = VStr "p10")
    by (eexists; split; [vm_compute; reflexivity|]; split; vm_compute; reflexivity).
  destruct E1 as (r1 & E1 & T1 & A1). destruct E2 as (r2 & E2 & T2 & A2).
  exists r1, r2. split; [exact A1|]. split; [exact A2|].
  destruct (H2 ltac:(discriminate) [product "p8" "Black Tea"] [product "p10" "White Tea"]
              (product "p9" "Green Tea") clock 0 fresh fresh [r1] [r2]) as [Hr Hs];
    [vm_compute; reflexivity | exact E1 | exact E2 |].
  split; [exact Hr|]. destruct (Hs eq_refl) as (Ht & Hp & Hf).
  cbn [List.filter app] in Hp. rewrite T1, T2 in Hp. cbn [app] in Hp.
  split; [exact Ht|]. split; [exact Hp|]. exact (eq_trans Hf Hp).
Defined.

(** ** UniversalConverter: the combined output *)

Lemma write_combined_line_ok (maxLinesPerShard : N) (o : list (list value) * N) (x : value) :
  (0 < maxLinesPerShard)%N ->
  combined_ok maxLinesPerShard o ->
  combined_ok maxLinesPerShard (write_combined_line maxLinesPerShard o x)
  /\ concat (fst (write_combined_line maxLinesPerShard o x)) = (concat (fst o) ++ [x])%list.
Proof.
  intros Hm. destruct o as [fs n]. unfold combined_ok, write_combined_line. cbn [fst snd].
  destruct (n =? 0)%N eqn:En.
  - apply N.eqb_eq in En. subst n. intros H.
    rewrite removelast_last, List.last_last. cbn [app].
    split.
    + destruct (maxLinesPerShard <=? 0 + 1)%N eqn:E; cbn [fst snd].
      * apply N.leb_le in E. cbn [N.eqb]. apply List.Forall_app. split; [exact H|].
        apply List.Forall_cons; [|apply List.Forall_nil]. unfold full_shard. cbn. lia.
      * apply N.leb_gt in E. cbn. exists fs, [x]. repeat split; auto.
    + destruct (maxLinesPerShard <=? 0 + 1)%N; cbn [fst];
        rewrite List.concat_app; cbn; reflexivity.
  - apply N.eqb_neq in En. intros (files & file & -> & Hf & Hl & Hlt).
    rewrite removelast_last, List.last_last. split.
    + destruct (maxLinesPerShard <=? n + 1)%N eqn:E; cbn [fst snd].
      * apply N.leb_le in E. cbn [N.eqb]. apply List.Forall_app. split; [exact Hf|].
        apply List.Forall_cons; [|apply List.Forall_nil]. unfold full_shard.
        rewrite length_app. cbn. lia.
      * apply N.leb_gt in E. destruct (n + 1 =? 0)%N eqn:E0; [apply N.eqb_eq in E0; lia|].
        exists files, (file ++ [x])%list. repeat split; auto. rewrite length_app. cbn. lia.
    + destruct (maxLinesPerShard <=? n + 1)%N; cbn [fst];
        rewrite !List.concat_app; cbn; rewrite !app_nil_r, app_assoc; reflexivity.
Qed.

Lemma write_combined_lines_ok (maxLinesPerShard : N) (products : list value) :
  (0 < maxLinesPerShard)%N ->
  forall o : list (list value) * N,
    combined_ok maxLinesPerShard o ->
    let o' := fold_left (write_combined_line maxLinesPerShard) products o in
    combined_ok maxLinesPerShard o' /\ concat (fst o') = (concat (fst o) ++ products)%list.
Proof.
  intros Hm. induction products as [|x products IH]; intros o H; cbn [fold_left].
  - split; [exact H | now rewrite app_nil_r].
  - destruct (write_combined_line_ok maxLinesPerShard o x Hm H) as [H1 H2].
    destruct (IH _ H1) as [H3 H4]. cbv zeta in *. split; [exact H3|].
    rewrite H4, H2, <- app_assoc. reflexivity.
Qed.

(** X26: [writeCombinedOutput] writes the products in order: to one file
    when they are at most [MAX_LINES_PER_SHARD], else to shards that hold
    exactly that many lines each but the last, which is not empty. *)
Theorem combined_output_is_cut_into_full_shards :
  forall allConvertedProducts : list value,
    let files := writeCombinedOutput allConvertedProducts in
    concat files = allConvertedProducts
    /\ (List.length allConvertedProducts <= N.to_nat CONFIG.PROCESSING.MAX_LINES_PER_SHARD ->
        files = [allConvertedProducts])
    /\ (N.to_nat CONFIG.PROCESSING.MAX_LINES_PER_SHARD < List.length allConvertedProducts ->
        Forall (full_shard CONFIG.PROCESSING.MAX_LINES_PER_SHARD) (removelast files)
        /\ 0 < List.length (List.last files [])
           <= N.to_nat CONFIG.PROCESSING.MAX_LINES_PER_SHARD).
Proof.
  intros products files. subst files. unfold writeCombinedOutput.
  cbn [CONFIG.PROCESSING.SHARD_OUTPUT andb].
  set (maxLinesPerShard := CONFIG.PROCESSING.MAX_LINES_PER_SHARD).
  assert (Hm : (0 < maxLinesPerShard)%N) by reflexivity.
  destruct (maxLinesPerShard <? N.of_nat (List.length products))%N eqn:E.
  - apply N.ltb_lt in E.
    destruct (write_combined_lines_ok maxLinesPerShard products Hm ([], 0%N)) as [H1 H2];
      [constructor|].
    cbv zeta in H1, H2. cbn [fst concat app] in H2.
    set (o := fold_left _ products _) in *. clearbody o. clearbody maxLinesPerShard.
    split; [exact H2|]. split; [lia|]. intros _.
    destruct o as [fs n]. unfold combined_ok in H1. cbn [fst snd] in *.
    destruct (n =? 0)%N eqn:En.
    + destruct fs as [|f fs] using rev_ind.
      * cbn in H2. subst products. cbn in E. lia.
      * rewrite removelast_last, List.last_last. apply List.Forall_app in H1. destruct H1 as [H1 H3].
        split; [exact H1|]. apply Forall_inv in H3. unfold full_shard in H3. lia.
    + apply N.eqb_neq in En. destruct H1 as (files & file & -> & Hf & Hl & Hlt).
      rewrite removelast_last, List.last_last. split; [exact Hf | lia].
  - apply N.ltb_ge in E. cbn [concat]. rewrite app_nil_r. split; [reflexivity|].
    split; [reflexivity | lia].
Qed.

